(** * Turso3D renderer: frame preparation, light processing and shadow caching

    A shallow embedding of [Renderer.cpp] / [Renderer.h] (Turso3D) and the
    properties of its frame-preparation core.

    Conventions of the embedding.
    - Objects reached through pointers carry an address ([nat]); a nullable
      pointer is an [option].
    - [size_t] indices and counts are [nat]; the 16-bit frame number and the
      8-bit cluster counters are [Z] with their wrap-around written out.
    - [float] quantities enter the code only through comparisons. They are
      represented by integers carrying the same order ([Distance],
      [colorAverage]) or by the outcome of the comparison itself
      ([castsShadows] for [ShadowStrength() < 1.0f]).
    - The outcome of a geometric test (frustum, sphere and box intersection)
      is a field of the object the test is applied to.
    - Classes of the engine that are outside the translation unit (the area
      allocator's packing policy, the sort routines, the initialisation of a
      light's shadow views, the tolerance comparison of matrices) are the
      fields of the class [Collaborators]. *)

From Stdlib Require Import ZArith List Bool Lia Permutation Sorted.
From stdpp Require Import base decidable option list numbers.
From Stdlib Require String.

Open Scope Z_scope.

(** ** Constants of Renderer.h and Renderer.cpp

    [NUM_OCTANTS] is the number of children of an octant; Renderer.h has
    [NUM_OCTANT_TASKS = 9] for the root and its children. *)

Definition NUM_CLUSTER_X : nat := 16.
Definition NUM_CLUSTER_Y : nat := 8.
Definition NUM_CLUSTER_Z : nat := 8.
Definition MAX_LIGHTS : nat := 255.
Definition MAX_LIGHTS_CLUSTER : Z := 16.
Definition NUM_OCTANTS : nat := 8.
Definition NUM_CLUSTERS : nat := NUM_CLUSTER_X * NUM_CLUSTER_Y * NUM_CLUSTER_Z.
Definition DRAWABLES_PER_BATCH_TASK : nat := 128.

(** ** Results of operations that can go wrong

    [OutOfBounds] is an access outside a vector or array (undefined
    behaviour in the source); [Stall] is a wait that can never be
    satisfied. *)

Inductive Result (A : Type) : Type :=
| Ok (a : A)
| OutOfBounds
| Stall.
Arguments Ok {A} a.
Arguments OutOfBounds {A}.
Arguments Stall {A}.

#[global] Instance Result_ret : MRet Result := fun A a => Ok a.
#[global] Instance Result_bind : MBind Result := fun A B k m =>
  match m with
  | Ok a => k a
  | OutOfBounds => OutOfBounds
  | Stall => Stall
  end.

(** A checked read of a vector element. *)
Definition at_index {A} (l : list A) (i : nat) : Result A :=
  match l !! i with
  | Some a => Ok a
  | None => OutOfBounds
  end.

(** ** Math types *)

Record IntVector2 : Type := mkIntVector2 { vec_x : Z; vec_y : Z }.

Record IntRect : Type := mkIntRect {
  rect_left : Z; rect_top : Z; rect_right : Z; rect_bottom : Z }.

(** [IntRect.h] is outside the translation unit. The layout is the one
    [AllocateShadowMap] relies on when it builds
    [IntRect(x, y, x + request.x, y + request.y)] for a rectangle of
    [request.x] by [request.y]. *)
Definition IntRect_ZERO : IntRect := mkIntRect 0 0 0 0.
Definition Width (r : IntRect) : Z := rect_right r - rect_left r.
Definition Height (r : IntRect) : Z := rect_bottom r - rect_top r.

#[global] Instance IntVector2_eq_dec : EqDecision IntVector2.
Proof. solve_decision. Defined.
#[global] Instance IntRect_eq_dec : EqDecision IntRect.
Proof. solve_decision. Defined.

(** The sixteen components of a [Matrix4], as raw values. *)
Definition Matrix4 : Type := list Z.

(** ** Enumerations *)

Inductive LightType : Type := LIGHT_DIRECTIONAL | LIGHT_POINT | LIGHT_SPOT.

Inductive ShadowRenderMode : Type :=
| RENDER_DYNAMIC_LIGHT
| RENDER_STATIC_LIGHT_STORE_STATIC
| RENDER_STATIC_LIGHT_RESTORE_STATIC
| RENDER_STATIC_LIGHT_CACHED.

Inductive PassType : Type := PASS_SHADOW | PASS_OPAQUE | PASS_ALPHA.

Inductive BatchSortMode : Type :=
| SORT_STATE | SORT_STATE_AND_DISTANCE | SORT_DISTANCE.

#[global] Instance LightType_eq_dec : EqDecision LightType.
Proof. solve_decision. Defined.
#[global] Instance ShadowRenderMode_eq_dec : EqDecision ShadowRenderMode.
Proof. solve_decision. Defined.

(** ** Graphics objects *)

Record Texture : Type := mkTexture {
  tex_addr : nat; tex_Width : Z; tex_Height : Z }.

#[global] Instance Texture_eq_dec : EqDecision Texture.
Proof. solve_decision. Defined.

(** ** Shadow views and lights *)

Record ShadowView : Type := mkShadowView {
  sv_light : option nat;            (* owning light, null once discarded *)
  viewport : IntRect;
  renderMode : ShadowRenderMode;
  staticQueueIdx : nat;
  dynamicQueueIdx : nat;
  casterListIdx : nat;
  shadowMatrix : Matrix4;
  lastViewport : IntRect;
  lastShadowMatrix : Matrix4;
  lastNumGeometries : nat }.

Record LightDrawable : Type := mkLight {
  light_addr : nat;
  GetLightType : LightType;
  Distance : Z;
  colorAverage : Z;                 (* GetColor().Average() *)
  castsShadows : bool;              (* ShadowStrength() < 1.0f *)
  IsStatic : bool;
  TotalShadowMapSize : IntVector2;
  (* the view-space Z range of the light misses the slice [z] *)
  sliceRejected : nat -> bool;
  (* both intersection tests of the light against cluster [idx] succeed *)
  clusterHit : nat -> bool;
  ShadowMap_ : option Texture;      (* ShadowMap() *)
  ShadowRect : IntRect;
  ShadowViews : list ShadowView }.

(** [LightDrawable::SetShadowMap]. The renderer calls it with a texture and
    a rectangle, or with [nullptr] alone; the rectangle is then the zero
    rectangle that [ProcessLightsWork] tests for
    ([light->ShadowRect() != IntRect::ZERO]). *)
Definition SetShadowMap (light : LightDrawable) (t : option Texture)
    (rect : IntRect) : LightDrawable :=
  mkLight (light_addr light) (GetLightType light) (Distance light)
    (colorAverage light) (castsShadows light) (IsStatic light)
    (TotalShadowMapSize light) (sliceRejected light) (clusterHit light)
    t rect (ShadowViews light).

Definition SetShadowViews (light : LightDrawable) (vs : list ShadowView)
    : LightDrawable :=
  mkLight (light_addr light) (GetLightType light) (Distance light)
    (colorAverage light) (castsShadows light) (IsStatic light)
    (TotalShadowMapSize light) (sliceRejected light) (clusterHit light)
    (ShadowMap_ light) (ShadowRect light) vs.

(** [CompareLights]: [lhs->Distance() < rhs->Distance()]. *)
Definition CompareLights (lhs rhs : LightDrawable) : bool :=
  Distance lhs <? Distance rhs.

(** ** The area allocator of a shadow map

    The state of the allocator since its last [Reset] is the sequence of
    calls it has served, with their answers. *)

Inductive AllocatorCall : Type :=
| CallAllocate (w h : Z) (answer : option (Z * Z))
| CallAllocateSpecific (rect : IntRect) (answer : bool).

Record AreaAllocator : Type := mkAreaAllocator {
  alloc_size : IntVector2;
  alloc_calls : list AllocatorCall }.

(** The rectangles handed out since the last reset. *)
Definition reservedRect (c : AllocatorCall) : option IntRect :=
  match c with
  | CallAllocate w h (Some (x, y)) => Some (mkIntRect x y (x + w) (y + h))
  | CallAllocate _ _ None => None
  | CallAllocateSpecific r true => Some r
  | CallAllocateSpecific _ false => None
  end.

Definition reserved (a : AreaAllocator) : list IntRect :=
  omap reservedRect (alloc_calls a).

(** [allocator.Reset(width, height, 0, 0, false)]. *)
Definition Reset (w h : Z) : AreaAllocator :=
  mkAreaAllocator (mkIntVector2 w h) [].

(** ** Materials, geometries and batches *)

Record Pass : Type := mkPass {
  pass_addr : nat;
  Parent : nat;                     (* the owning material *)
  programBinds : Z -> bool }.       (* GetShaderProgram(bits)->Bind() *)

Record Material : Type := mkMaterial {
  material_addr : nat;
  GetPass : PassType -> option Pass }.

Record Geometry : Type := mkGeometry {
  geometry_addr : nat;
  indexBuffer : option nat;
  drawStart : Z;
  drawCount : Z }.

Record SourceBatch : Type := mkSourceBatch {
  GetMaterial : Material;
  GetGeometry : Geometry }.

Record Batch : Type := mkBatch {
  pass : Pass;
  geometry : Geometry;
  programBits : Z;
  geomIndex : Z;
  batch_owner : nat;                (* worldTransform / drawable *)
  batch_distance : Z;               (* alpha batches only *)
  instanceStart : nat;
  instanceCount : nat }.

(** Calls that reach the graphics device from [RenderBatches]. *)
Inductive DrawCall : Type :=
| DrawIndexedInstanced (g : Geometry) (start count : nat)
| DrawInstanced (g : Geometry) (start count : nat)
| DrawIndexed (g : Geometry)
| Draw (g : Geometry).

(** ** Drawables and octants *)

Inductive DrawableKind : Type :=
| KindLight (light : LightDrawable)           (* TestFlag(DF_LIGHT) *)
| KindGeometry (batches : list SourceBatch).  (* TestFlag(DF_GEOMETRY) *)

Record Drawable : Type := mkDrawable {
  drawable_addr : nat;
  kind : DrawableKind;
  LayerMask : Z;
  geometryTypeBits : Z;             (* Flags() & DF_GEOMETRY_TYPE_BITS *)
  IsInsideMaskedFast : Z -> bool;   (* frustum.IsInsideMaskedFast(box, mask) *)
  OnPrepareRender : bool;           (* OnPrepareRender(frameNumber, camera) *)
  drawable_Distance : Z;
  InView : bool;                    (* InView(frameNumber) *)
  drawable_IsStatic : bool;
  LastUpdateFrameNumber : Z }.

Definition TestFlag_DF_LIGHT (d : Drawable) : bool :=
  match kind d with KindLight _ => true | KindGeometry _ => false end.
Definition TestFlag_DF_GEOMETRY (d : Drawable) : bool :=
  match kind d with KindLight _ => false | KindGeometry _ => true end.
Definition drawable_batches (d : Drawable) : list SourceBatch :=
  match kind d with KindLight _ => [] | KindGeometry bs => bs end.

#[warnings="-register-all"] Inductive Octant : Type := mkOctant {
  octant_addr : nat;
  drawables : list Drawable;
  IsInsideMasked : Z -> Z;          (* frustum.IsInsideMasked(cullingBox, mask) *)
  children : list (option Octant) }.

(** ** Collaborators outside the translation unit *)

Class Collaborators : Type := {
  (** [lhs.Equals(rhs, 0.0001f)] on [Matrix4]. *)
  Matrix4_Equals : Matrix4 -> Matrix4 -> bool;
  (** The packing policy of [AreaAllocator::Allocate] and
      [AreaAllocator::AllocateSpecific]. *)
  Allocate_answer : AreaAllocator -> Z -> Z -> option (Z * Z);
  AllocateSpecific_answer : AreaAllocator -> IntRect -> bool;
  (** [LightDrawable::InitShadowViews]: the views of a light, from its
      current state. *)
  InitShadowViews : LightDrawable -> list ShadowView;
  (** [std::sort(lights.begin(), lights.end(), CompareLights)]. *)
  std_sort : list LightDrawable -> list LightDrawable;
  std_sort_perm : forall l, Permutation l (std_sort l);
  std_sort_sorted : forall l,
    StronglySorted (fun a b => CompareLights b a = false) (std_sort l);
  (** [BatchQueue::Sort(instanceTransforms, sortMode, convertToInstanced)]. *)
  BatchQueue_Sort : BatchSortMode -> bool -> list Batch -> list Batch;
  BatchQueue_Sort_length : forall m c l,
    length (BatchQueue_Sort m c l) = length l;
  (** Constants of Batch.h and GraphicsDefs.h. *)
  SP_GEOMETRYBITS : Z;
  GEOM_INSTANCED : Z }.

(** ** Shadow maps *)

Record ShadowMap : Type := mkShadowMap {
  freeQueueIdx : nat;
  freeCasterListIdx : nat;
  allocator : AreaAllocator;
  texture : Texture;
  shadowViews : list (nat * nat);   (* pointers: (light address, view index) *)
  shadowBatches_size : nat;
  shadowCasters_size : nat }.

(** [ShadowMap::Clear]. *)
Definition ShadowMap_Clear (m : ShadowMap) : ShadowMap :=
  mkShadowMap 0 0 (Reset (tex_Width (texture m)) (tex_Height (texture m)))
    (texture m) [] (shadowBatches_size m) (shadowCasters_size m).

Definition set_allocator (a : AreaAllocator) (m : ShadowMap) : ShadowMap :=
  mkShadowMap (freeQueueIdx m) (freeCasterListIdx m) a (texture m)
    (shadowViews m) (shadowBatches_size m) (shadowCasters_size m).


(** Field updates of [ShadowView]. *)

Definition set_sv_light (v : option nat) (r : ShadowView) : ShadowView :=
  mkShadowView v (viewport r) (renderMode r) (staticQueueIdx r) (dynamicQueueIdx r) (casterListIdx r) (shadowMatrix r) (lastViewport r) (lastShadowMatrix r) (lastNumGeometries r).

Definition set_viewport (v : IntRect) (r : ShadowView) : ShadowView :=
  mkShadowView (sv_light r) v (renderMode r) (staticQueueIdx r) (dynamicQueueIdx r) (casterListIdx r) (shadowMatrix r) (lastViewport r) (lastShadowMatrix r) (lastNumGeometries r).

Definition set_renderMode (v : ShadowRenderMode) (r : ShadowView) : ShadowView :=
  mkShadowView (sv_light r) (viewport r) v (staticQueueIdx r) (dynamicQueueIdx r) (casterListIdx r) (shadowMatrix r) (lastViewport r) (lastShadowMatrix r) (lastNumGeometries r).

Definition set_staticQueueIdx (v : nat) (r : ShadowView) : ShadowView :=
  mkShadowView (sv_light r) (viewport r) (renderMode r) v (dynamicQueueIdx r) (casterListIdx r) (shadowMatrix r) (lastViewport r) (lastShadowMatrix r) (lastNumGeometries r).

Definition set_dynamicQueueIdx (v : nat) (r : ShadowView) : ShadowView :=
  mkShadowView (sv_light r) (viewport r) (renderMode r) (staticQueueIdx r) v (casterListIdx r) (shadowMatrix r) (lastViewport r) (lastShadowMatrix r) (lastNumGeometries r).

Definition set_casterListIdx (v : nat) (r : ShadowView) : ShadowView :=
  mkShadowView (sv_light r) (viewport r) (renderMode r) (staticQueueIdx r) (dynamicQueueIdx r) v (shadowMatrix r) (lastViewport r) (lastShadowMatrix r) (lastNumGeometries r).

Definition set_shadowMatrix (v : Matrix4) (r : ShadowView) : ShadowView :=
  mkShadowView (sv_light r) (viewport r) (renderMode r) (staticQueueIdx r) (dynamicQueueIdx r) (casterListIdx r) v (lastViewport r) (lastShadowMatrix r) (lastNumGeometries r).

Definition set_lastViewport (v : IntRect) (r : ShadowView) : ShadowView :=
  mkShadowView (sv_light r) (viewport r) (renderMode r) (staticQueueIdx r) (dynamicQueueIdx r) (casterListIdx r) (shadowMatrix r) v (lastShadowMatrix r) (lastNumGeometries r).

Definition set_lastShadowMatrix (v : Matrix4) (r : ShadowView) : ShadowView :=
  mkShadowView (sv_light r) (viewport r) (renderMode r) (staticQueueIdx r) (dynamicQueueIdx r) (casterListIdx r) (shadowMatrix r) (lastViewport r) v (lastNumGeometries r).

Definition set_lastNumGeometries (v : nat) (r : ShadowView) : ShadowView :=
  mkShadowView (sv_light r) (viewport r) (renderMode r) (staticQueueIdx r) (dynamicQueueIdx r) (casterListIdx r) (shadowMatrix r) (lastViewport r) (lastShadowMatrix r) v.

(** Field updates of [ShadowMap]. *)

Definition set_freeQueueIdx (v : nat) (r : ShadowMap) : ShadowMap :=
  mkShadowMap v (freeCasterListIdx r) (allocator r) (texture r) (shadowViews r) (shadowBatches_size r) (shadowCasters_size r).

Definition set_freeCasterListIdx (v : nat) (r : ShadowMap) : ShadowMap :=
  mkShadowMap (freeQueueIdx r) v (allocator r) (texture r) (shadowViews r) (shadowBatches_size r) (shadowCasters_size r).

Definition set_shadowViews (v : list (nat * nat)) (r : ShadowMap) : ShadowMap :=
  mkShadowMap (freeQueueIdx r) (freeCasterListIdx r) (allocator r) (texture r) v (shadowBatches_size r) (shadowCasters_size r).

Definition set_shadowBatches_size (v : nat) (r : ShadowMap) : ShadowMap :=
  mkShadowMap (freeQueueIdx r) (freeCasterListIdx r) (allocator r) (texture r) (shadowViews r) v (shadowCasters_size r).

Definition set_shadowCasters_size (v : nat) (r : ShadowMap) : ShadowMap :=
  mkShadowMap (freeQueueIdx r) (freeCasterListIdx r) (allocator r) (texture r) (shadowViews r) (shadowBatches_size r) v.

(** ** Per-thread results, tasks and the renderer *)

Record ThreadOctantResult : Type := mkThreadOctantResult {
  drawableAcc : nat;
  taskOctantIdx : nat;
  batchTaskIdx : nat;
  octants : list (Octant * Z);
  result_lights : list LightDrawable }.

(** [ThreadOctantResult::Clear]. *)
Definition ThreadOctantResult_Clear (_ : ThreadOctantResult)
    : ThreadOctantResult :=
  mkThreadOctantResult 0 0 0 [] [].

Definition set_drawableAcc (v : nat) (r : ThreadOctantResult) : ThreadOctantResult :=
  mkThreadOctantResult v (taskOctantIdx r) (batchTaskIdx r) (octants r) (result_lights r).

Definition set_taskOctantIdx (v : nat) (r : ThreadOctantResult) : ThreadOctantResult :=
  mkThreadOctantResult (drawableAcc r) v (batchTaskIdx r) (octants r) (result_lights r).

Definition set_batchTaskIdx (v : nat) (r : ThreadOctantResult) : ThreadOctantResult :=
  mkThreadOctantResult (drawableAcc r) (taskOctantIdx r) v (octants r) (result_lights r).

Definition set_octants (v : list (Octant * Z)) (r : ThreadOctantResult) : ThreadOctantResult :=
  mkThreadOctantResult (drawableAcc r) (taskOctantIdx r) (batchTaskIdx r) v (result_lights r).

Definition set_result_lights (v : list LightDrawable) (r : ThreadOctantResult) : ThreadOctantResult :=
  mkThreadOctantResult (drawableAcc r) (taskOctantIdx r) (batchTaskIdx r) (octants r) v.

Record ThreadBatchResult : Type := mkThreadBatchResult {
  result_opaqueBatches : list Batch;
  result_alphaBatches : list Batch }.

(** [ThreadBatchResult::Clear]. *)
Definition ThreadBatchResult_Clear (_ : ThreadBatchResult)
    : ThreadBatchResult :=
  mkThreadBatchResult [] [].

(** Tasks handed to the work queue. *)
Inductive Task : Type :=
| CollectOctantsTask (startOctant : Octant) (subtreeIdx : nat)
| CollectBatchesTask (task_octants : list (Octant * Z))
| CollectShadowCastersTask (light : nat)
| CollectShadowBatchesTask (shadowMapIdx viewIdx : nat)
| CullLightsTask (z : nat).

Definition is_shadow_task (t : Task) : bool :=
  match t with
  | CollectShadowCastersTask _ | CollectShadowBatchesTask _ _ => true
  | _ => false
  end.

(** The members of [Renderer] that the frame preparation reads and
    writes. [queued] records the tasks handed to the work queue since the
    start of the frame, in order. *)
Record Renderer : Type := mkRenderer {
  frameNumber : Z;
  drawShadows : bool;
  shadowMapsDirty : bool;
  hasInstancing : bool;
  viewMask : Z;
  rootLevelOctants : list Octant;
  numPendingBatchTasks : Z;
  numPendingShadowViews : list Z;
  octantResults : list ThreadOctantResult;
  batchResults : list ThreadBatchResult;
  dirLight : option LightDrawable;
  lights : list LightDrawable;
  shadowMaps : list ShadowMap;
  opaqueBatches : list Batch;
  alphaBatches : list Batch;
  numClusterLights : list Z;
  clusterData : list Z;
  queued : list Task }.

Definition set_frameNumber (v : Z) (r : Renderer) : Renderer :=
  mkRenderer v (drawShadows r) (shadowMapsDirty r) (hasInstancing r) (viewMask r) (rootLevelOctants r) (numPendingBatchTasks r) (numPendingShadowViews r) (octantResults r) (batchResults r) (dirLight r) (lights r) (shadowMaps r) (opaqueBatches r) (alphaBatches r) (numClusterLights r) (clusterData r) (queued r).

Definition set_drawShadows (v : bool) (r : Renderer) : Renderer :=
  mkRenderer (frameNumber r) v (shadowMapsDirty r) (hasInstancing r) (viewMask r) (rootLevelOctants r) (numPendingBatchTasks r) (numPendingShadowViews r) (octantResults r) (batchResults r) (dirLight r) (lights r) (shadowMaps r) (opaqueBatches r) (alphaBatches r) (numClusterLights r) (clusterData r) (queued r).

Definition set_shadowMapsDirty (v : bool) (r : Renderer) : Renderer :=
  mkRenderer (frameNumber r) (drawShadows r) v (hasInstancing r) (viewMask r) (rootLevelOctants r) (numPendingBatchTasks r) (numPendingShadowViews r) (octantResults r) (batchResults r) (dirLight r) (lights r) (shadowMaps r) (opaqueBatches r) (alphaBatches r) (numClusterLights r) (clusterData r) (queued r).

Definition set_viewMask (v : Z) (r : Renderer) : Renderer :=
  mkRenderer (frameNumber r) (drawShadows r) (shadowMapsDirty r) (hasInstancing r) v (rootLevelOctants r) (numPendingBatchTasks r) (numPendingShadowViews r) (octantResults r) (batchResults r) (dirLight r) (lights r) (shadowMaps r) (opaqueBatches r) (alphaBatches r) (numClusterLights r) (clusterData r) (queued r).

Definition set_rootLevelOctants (v : list Octant) (r : Renderer) : Renderer :=
  mkRenderer (frameNumber r) (drawShadows r) (shadowMapsDirty r) (hasInstancing r) (viewMask r) v (numPendingBatchTasks r) (numPendingShadowViews r) (octantResults r) (batchResults r) (dirLight r) (lights r) (shadowMaps r) (opaqueBatches r) (alphaBatches r) (numClusterLights r) (clusterData r) (queued r).

Definition set_numPendingBatchTasks (v : Z) (r : Renderer) : Renderer :=
  mkRenderer (frameNumber r) (drawShadows r) (shadowMapsDirty r) (hasInstancing r) (viewMask r) (rootLevelOctants r) v (numPendingShadowViews r) (octantResults r) (batchResults r) (dirLight r) (lights r) (shadowMaps r) (opaqueBatches r) (alphaBatches r) (numClusterLights r) (clusterData r) (queued r).

Definition set_numPendingShadowViews (v : list Z) (r : Renderer) : Renderer :=
  mkRenderer (frameNumber r) (drawShadows r) (shadowMapsDirty r) (hasInstancing r) (viewMask r) (rootLevelOctants r) (numPendingBatchTasks r) v (octantResults r) (batchResults r) (dirLight r) (lights r) (shadowMaps r) (opaqueBatches r) (alphaBatches r) (numClusterLights r) (clusterData r) (queued r).

Definition set_octantResults (v : list ThreadOctantResult) (r : Renderer) : Renderer :=
  mkRenderer (frameNumber r) (drawShadows r) (shadowMapsDirty r) (hasInstancing r) (viewMask r) (rootLevelOctants r) (numPendingBatchTasks r) (numPendingShadowViews r) v (batchResults r) (dirLight r) (lights r) (shadowMaps r) (opaqueBatches r) (alphaBatches r) (numClusterLights r) (clusterData r) (queued r).

Definition set_batchResults (v : list ThreadBatchResult) (r : Renderer) : Renderer :=
  mkRenderer (frameNumber r) (drawShadows r) (shadowMapsDirty r) (hasInstancing r) (viewMask r) (rootLevelOctants r) (numPendingBatchTasks r) (numPendingShadowViews r) (octantResults r) v (dirLight r) (lights r) (shadowMaps r) (opaqueBatches r) (alphaBatches r) (numClusterLights r) (clusterData r) (queued r).

Definition set_dirLight (v : option LightDrawable) (r : Renderer) : Renderer :=
  mkRenderer (frameNumber r) (drawShadows r) (shadowMapsDirty r) (hasInstancing r) (viewMask r) (rootLevelOctants r) (numPendingBatchTasks r) (numPendingShadowViews r) (octantResults r) (batchResults r) v (lights r) (shadowMaps r) (opaqueBatches r) (alphaBatches r) (numClusterLights r) (clusterData r) (queued r).

Definition set_lights (v : list LightDrawable) (r : Renderer) : Renderer :=
  mkRenderer (frameNumber r) (drawShadows r) (shadowMapsDirty r) (hasInstancing r) (viewMask r) (rootLevelOctants r) (numPendingBatchTasks r) (numPendingShadowViews r) (octantResults r) (batchResults r) (dirLight r) v (shadowMaps r) (opaqueBatches r) (alphaBatches r) (numClusterLights r) (clusterData r) (queued r).

Definition set_shadowMaps (v : list ShadowMap) (r : Renderer) : Renderer :=
  mkRenderer (frameNumber r) (drawShadows r) (shadowMapsDirty r) (hasInstancing r) (viewMask r) (rootLevelOctants r) (numPendingBatchTasks r) (numPendingShadowViews r) (octantResults r) (batchResults r) (dirLight r) (lights r) v (opaqueBatches r) (alphaBatches r) (numClusterLights r) (clusterData r) (queued r).

Definition set_opaqueBatches (v : list Batch) (r : Renderer) : Renderer :=
  mkRenderer (frameNumber r) (drawShadows r) (shadowMapsDirty r) (hasInstancing r) (viewMask r) (rootLevelOctants r) (numPendingBatchTasks r) (numPendingShadowViews r) (octantResults r) (batchResults r) (dirLight r) (lights r) (shadowMaps r) v (alphaBatches r) (numClusterLights r) (clusterData r) (queued r).

Definition set_alphaBatches (v : list Batch) (r : Renderer) : Renderer :=
  mkRenderer (frameNumber r) (drawShadows r) (shadowMapsDirty r) (hasInstancing r) (viewMask r) (rootLevelOctants r) (numPendingBatchTasks r) (numPendingShadowViews r) (octantResults r) (batchResults r) (dirLight r) (lights r) (shadowMaps r) (opaqueBatches r) v (numClusterLights r) (clusterData r) (queued r).

Definition set_numClusterLights (v : list Z) (r : Renderer) : Renderer :=
  mkRenderer (frameNumber r) (drawShadows r) (shadowMapsDirty r) (hasInstancing r) (viewMask r) (rootLevelOctants r) (numPendingBatchTasks r) (numPendingShadowViews r) (octantResults r) (batchResults r) (dirLight r) (lights r) (shadowMaps r) (opaqueBatches r) (alphaBatches r) v (clusterData r) (queued r).

Definition set_clusterData (v : list Z) (r : Renderer) : Renderer :=
  mkRenderer (frameNumber r) (drawShadows r) (shadowMapsDirty r) (hasInstancing r) (viewMask r) (rootLevelOctants r) (numPendingBatchTasks r) (numPendingShadowViews r) (octantResults r) (batchResults r) (dirLight r) (lights r) (shadowMaps r) (opaqueBatches r) (alphaBatches r) (numClusterLights r) v (queued r).

Definition set_queued (v : list Task) (r : Renderer) : Renderer :=
  mkRenderer (frameNumber r) (drawShadows r) (shadowMapsDirty r) (hasInstancing r) (viewMask r) (rootLevelOctants r) (numPendingBatchTasks r) (numPendingShadowViews r) (octantResults r) (batchResults r) (dirLight r) (lights r) (shadowMaps r) (opaqueBatches r) (alphaBatches r) (numClusterLights r) (clusterData r) v.

Section Allocation.
Context `{Collaborators}.

Definition Allocate (a : AreaAllocator) (w h : Z)
    : option (Z * Z) * AreaAllocator :=
  let answer := Allocate_answer a w h in
  (answer, mkAreaAllocator (alloc_size a)
             (alloc_calls a ++ [CallAllocate w h answer])).

Definition AllocateSpecific (a : AreaAllocator) (rect : IntRect)
    : bool * AreaAllocator :=
  let answer := AllocateSpecific_answer a rect in
  (answer, mkAreaAllocator (alloc_size a)
             (alloc_calls a ++ [CallAllocateSpecific rect answer])).

(** The loop [while (retries--)] of [AllocateShadowMap]; [int] division
    truncates. *)
Fixpoint AllocateShadowMap_retry (retries : nat) (a : AreaAllocator)
    (request : IntVector2) : option IntRect * AreaAllocator :=
  match retries with
  | O => (None, a)
  | S retries' =>
      match Allocate a (vec_x request) (vec_y request) with
      | (Some (x, y), a') =>
          (Some (mkIntRect x y (x + vec_x request) (y + vec_y request)), a')
      | (None, a') =>
          AllocateShadowMap_retry retries' a'
            (mkIntVector2 (vec_x request ÷ 2) (vec_y request ÷ 2))
      end
  end.

(** [Renderer::AllocateShadowMap]. *)
Definition AllocateShadowMap (shadowMaps : list ShadowMap)
    (light : LightDrawable)
    : Result (bool * LightDrawable * list ShadowMap) :=
  let index :=
    if decide (GetLightType light = LIGHT_DIRECTIONAL) then 0%nat else 1%nat in
  shadowMap ← at_index shadowMaps index;
  let request := TotalShadowMapSize light in
  let oldRect := ShadowRect light in
  let fresh (a : AreaAllocator) :=
    match AllocateShadowMap_retry 3 a request with
    | (Some rect, a') =>
        Ok (true, SetShadowMap light (Some (texture shadowMap)) rect,
            <[index := set_allocator a' shadowMap]> shadowMaps)
    | (None, a') =>
        Ok (false, SetShadowMap light None IntRect_ZERO,
            <[index := set_allocator a' shadowMap]> shadowMaps)
    end in
  if (vec_x request =? Width oldRect) && (vec_y request =? Height oldRect)
  then
    match AllocateSpecific (allocator shadowMap) oldRect with
    | (true, a') =>
        Ok (true,
            SetShadowMap light (Some (texture shadowMap)) (ShadowRect light),
            <[index := set_allocator a' shadowMap]> shadowMaps)
    | (false, a') => fresh a'
    end
  else fresh (allocator shadowMap).

End Allocation.

(** ** Light processing *)

Section LightProcessing.
Context `{Collaborators}.

(** Merge of the per-subtree light lists:
    [lights.insert(lights.end(), octantResults[i].lights ...)] for
    [i < rootLevelOctants.size()]. *)
Fixpoint mergeLights (results : list ThreadOctantResult) (i n : nat)
    (lights : list LightDrawable) : Result (list LightDrawable) :=
  match n with
  | O => Ok lights
  | S n' =>
      r ← at_index results i;
      mergeLights results (S i) n' (lights ++ result_lights r)
  end.

(** The loop "find the directional light if any": every directional light
    is erased from the list, and [dirLight] is replaced when it is null or
    strictly dimmer than the light at hand. *)
Fixpoint findDirLight (dirLight : option LightDrawable)
    (lights : list LightDrawable)
    : option LightDrawable * list LightDrawable :=
  match lights with
  | [] => (dirLight, [])
  | light :: rest =>
      if decide (GetLightType light = LIGHT_DIRECTIONAL) then
        let dirLight' :=
          match dirLight with
          | None => Some light
          | Some d =>
              if colorAverage light >? colorAverage d
              then Some light else Some d
          end in
        findDirLight dirLight' rest
      else
        let '(d, kept) := findDirLight dirLight rest in
        (d, light :: kept)
  end.

(** [if (lights.size() > MAX_LIGHTS) lights.resize(MAX_LIGHTS)]. *)
Definition clampLights (lights : list LightDrawable) : list LightDrawable :=
  if (MAX_LIGHTS <? length lights)%nat then take MAX_LIGHTS lights else lights.

(** The pre-step for shadow map caching, over the retained lights. *)
Fixpoint reallocateShadowMaps (dirty drawShadows_ : bool)
    (lights : list LightDrawable) (maps : list ShadowMap)
    : Result (list LightDrawable * list ShadowMap) :=
  match lights with
  | [] => Ok ([], maps)
  | light :: rest =>
      '(light', maps') ←
        (if dirty then Ok (SetShadowMap light None IntRect_ZERO, maps)
         else if drawShadows_ && castsShadows light
                 && negb (bool_decide (ShadowRect light = IntRect_ZERO))
         then '(_, light', maps') ← AllocateShadowMap maps light;
              Ok (light', maps')
         else Ok (light, maps));
      '(rest', maps'') ← reallocateShadowMaps dirty drawShadows_ rest maps';
      Ok (light' :: rest', maps'')
  end.

(** "Check if directional light needs shadows". *)
Definition allocateDirLight (dirty drawShadows_ : bool)
    (dirLight : option LightDrawable) (maps : list ShadowMap)
    : Result (option LightDrawable * list ShadowMap) :=
  match dirLight with
  | None => Ok (None, maps)
  | Some d =>
      let d1 := if dirty then SetShadowMap d None IntRect_ZERO else d in
      if negb drawShadows_ || negb (castsShadows d1) then
        Ok (Some (SetShadowMap d1 None IntRect_ZERO), maps)
      else
        '(ok, d2, maps') ← AllocateShadowMap maps d1;
        if (ok : bool) then Ok (Some d2, maps')
        else Ok (Some (SetShadowMap d2 None IntRect_ZERO), maps')
  end.

(** The loop over the views of a point or spot light: queue indices are
    handed out and the view is appended to the atlas. *)
Fixpoint setupLightViews (addr : nat) (static : bool) (casterList : nat)
    (j : nat) (views : list ShadowView) (m : ShadowMap)
    : list ShadowView * ShadowMap :=
  match views with
  | [] => ([], m)
  | view :: rest =>
      let view1 := set_casterListIdx casterList view in
      let '(view2, free) :=
        if static then
          (set_dynamicQueueIdx (S (freeQueueIdx m))
             (set_staticQueueIdx (freeQueueIdx m) view1),
           S (S (freeQueueIdx m)))
        else
          (set_dynamicQueueIdx (freeQueueIdx m) view1, S (freeQueueIdx m)) in
      let m1 := set_freeQueueIdx free m in
      let m2 :=
        if (shadowBatches_size m1 <? free)%nat
        then set_shadowBatches_size free m1 else m1 in
      let m3 := set_shadowViews (shadowViews m2 ++ [(addr, j)]) m2 in
      let '(rest', m4) := setupLightViews addr static casterList (S j) rest m3 in
      (view2 :: rest', m4)
  end.

(** The body of the loop "go through lights and setup shadowcaster
    collection tasks" for one light. The reference [shadowMaps[1]] is only
    used once the light has a shadow map. *)
Definition setupLightShadow (drawShadows_ : bool) (light : LightDrawable)
    (maps : list ShadowMap)
    : Result (LightDrawable * list ShadowMap * list Task) :=
  if negb drawShadows_ || negb (castsShadows light) then
    Ok (SetShadowMap light None IntRect_ZERO, maps, [])
  else
    '(ok, light1, maps1) ←
      (match ShadowMap_ light with
       | Some _ => Ok (true, light, maps)
       | None => AllocateShadowMap maps light
       end);
    if negb (ok : bool) then Ok (light1, maps1, [])
    else
      shadowMap ← at_index maps1 1%nat;
      let views := InitShadowViews light1 in
      let casterList := freeCasterListIdx shadowMap in
      let m1 := set_freeCasterListIdx (S casterList) shadowMap in
      let m2 :=
        if (shadowCasters_size m1 <? freeCasterListIdx m1)%nat
        then set_shadowCasters_size (freeCasterListIdx m1) m1
        else m1 in
      let '(views', m3) :=
        setupLightViews (light_addr light1) (IsStatic light1)
          casterList 0 views m2 in
      Ok (SetShadowViews light1 views', <[1%nat := m3]> maps1,
          [CollectShadowCastersTask (light_addr light1)]).

(** "Go through lights and setup shadowcaster collection tasks". *)
Fixpoint setupShadowCasterTasks (drawShadows_ : bool)
    (lights : list LightDrawable) (maps : list ShadowMap)
    : Result (list LightDrawable * list ShadowMap * list Task) :=
  match lights with
  | [] => Ok ([], maps, [])
  | light :: rest =>
      '(light', maps', tasks) ← setupLightShadow drawShadows_ light maps;
      '(rest', maps'', tasks') ← setupShadowCasterTasks drawShadows_ rest maps';
      Ok (light' :: rest', maps'', tasks ++ tasks')
  end.

(** The loop over the views of the directional light. *)
Fixpoint setupDirLightViews (addr : nat) (i : nat) (views : list ShadowView)
    (m : ShadowMap) : list ShadowView * ShadowMap :=
  match views with
  | [] => ([], m)
  | view :: rest =>
      let view1 := set_casterListIdx (freeCasterListIdx m) view in
      let m1 := set_freeCasterListIdx (S (freeCasterListIdx m)) m in
      let m2 :=
        if (shadowCasters_size m1 <? freeCasterListIdx m1)%nat
        then set_shadowCasters_size (freeCasterListIdx m1) m1 else m1 in
      let view2 := set_dynamicQueueIdx (freeQueueIdx m2) view1 in
      let m3 := set_freeQueueIdx (S (freeQueueIdx m2)) m2 in
      let m4 :=
        if (shadowBatches_size m3 <? freeQueueIdx m3)%nat
        then set_shadowBatches_size (freeQueueIdx m3) m3 else m3 in
      let m5 := set_shadowViews (shadowViews m4 ++ [(addr, i)]) m4 in
      let '(rest', m6) := setupDirLightViews addr (S i) rest m5 in
      (view2 :: rest', m6)
  end.

Definition setupDirLight (dirLight : option LightDrawable)
    (maps : list ShadowMap)
    : Result (option LightDrawable * list ShadowMap) :=
  match dirLight with
  | Some d =>
      match ShadowMap_ d with
      | Some _ =>
          shadowMap ← at_index maps 0%nat;
          let '(views', m) :=
            setupDirLightViews (light_addr d) 0 (InitShadowViews d) shadowMap in
          Ok (Some (SetShadowViews d views'), <[0%nat := m]> maps)
      | None => Ok (dirLight, maps)
      end
  | None => Ok (None, maps)
  end.

(** [Renderer::ProcessLightsWork]. The light data uploaded to the GPU
    (position, attenuation, colour) is not part of the state. *)
Definition ProcessLightsWork (r : Renderer) : Result Renderer :=
  merged ← mergeLights (octantResults r) 0 (length (rootLevelOctants r))
             (lights r);
  let '(dir0, localized) := findDirLight (dirLight r) merged in
  let retained := clampLights (std_sort localized) in
  '(lights1, maps1) ←
    reallocateShadowMaps (shadowMapsDirty r) (drawShadows r) retained
      (shadowMaps r);
  '(dir1, maps2) ←
    allocateDirLight (shadowMapsDirty r) (drawShadows r) dir0 maps1;
  '(lights2, maps3, tasks) ←
    setupShadowCasterTasks (drawShadows r) lights1 maps2;
  '(dir2, maps4) ← setupDirLight dir1 maps3;
  Ok (set_queued (queued r ++ tasks)
       (set_shadowMaps maps4
         (set_lights lights2
           (set_dirLight dir2
             (set_shadowMapsDirty false r))))).

End LightProcessing.

(** ** Octree traversal and batch collection *)

(** The loop over [octant->drawables] in [CollectOctantsAndLights]: lights
    come first; the first other drawable records the octant and ends the
    loop. *)
Fixpoint scanDrawables (viewMask_ : Z) (octant : Octant) (planeMask : Z)
    (ds : list Drawable) (result : ThreadOctantResult) : ThreadOctantResult :=
  match ds with
  | [] => result
  | drawable :: rest =>
      match kind drawable with
      | KindLight light =>
          let result' :=
            if negb (Z.land (LayerMask drawable) viewMask_ =? 0)
               && ((planeMask =? 0) || IsInsideMaskedFast drawable planeMask)
            then
              if OnPrepareRender drawable
              then set_result_lights (result_lights result ++ [light]) result
              else result
            else result in
          scanDrawables viewMask_ octant planeMask rest result'
      | KindGeometry _ =>
          set_drawableAcc (drawableAcc result + length ds)%nat
            (set_octants (octants result ++ [(octant, planeMask)]) result)
      end
  end.

(** The octants handed to a new batch collection task: those gathered
    since the last one. *)
Definition batchTaskOctants (result : ThreadOctantResult)
    : list (Octant * Z) :=
  drop (taskOctantIdx result) (octants result).

(** [Renderer::CollectOctantsAndLights]. Returns the updated result and the
    octant lists of the batch collection tasks queued on the way;
    [children] holds the [NUM_OCTANTS] child pointers. *)
Fixpoint CollectOctantsAndLights (viewMask_ : Z) (octant : Octant)
    (result : ThreadOctantResult) (threaded recursive : bool) (planeMask : Z)
    {struct octant} : ThreadOctantResult * list (list (Octant * Z)) :=
  let planeMask' :=
    if planeMask =? 0 then planeMask else IsInsideMasked octant planeMask in
  if negb (planeMask =? 0) && (planeMask' =? 255) then (result, [])
  else
    let result1 :=
      scanDrawables viewMask_ octant planeMask' (drawables octant) result in
    let '(result2, tasks) :=
      if threaded && (DRAWABLES_PER_BATCH_TASK <=? drawableAcc result1)%nat
      then
        (set_batchTaskIdx (S (batchTaskIdx result1))
           (set_taskOctantIdx (length (octants result1))
              (set_drawableAcc 0%nat result1)),
         [batchTaskOctants result1])
      else (result1, []) in
    if recursive then
      (fix visit (cs : list (option Octant))
           (acc : ThreadOctantResult * list (list (Octant * Z)))
           : ThreadOctantResult * list (list (Octant * Z)) :=
         match cs with
         | [] => acc
         | None :: cs' => visit cs' acc
         | Some child :: cs' =>
             let '(res, ts) :=
               CollectOctantsAndLights viewMask_ child (fst acc) threaded true
                 planeMask' in
             visit cs' (res, snd acc ++ ts)
         end) (children octant) (result2, tasks)
    else (result2, tasks).

(** Scene inputs of a frame. [Root] is the root octant once
    [octree->Update(frameNumber)] has run. *)
Record Octree : Type := mkOctree { Root : Octant }.
Record Scene : Type := mkScene {
  FindChild_Octree : option Octree;
  (* the visible depth range [minZ, maxZ] meets the cluster slice [z] *)
  sliceInRange : nat -> bool }.
Record Camera : Type := mkCamera { ViewMask : Z }.

(** The work queue: its number of threads and, for the sequential schedule
    of the model, the worker that runs the [n]-th batch collection task. *)
Record WorkQueue : Type := mkWorkQueue {
  NumThreads : nat;
  workerOf : nat -> nat }.

(** [Renderer::CollectOctantsWork]. *)
Definition CollectOctantsWork (wq : WorkQueue) (root : Octant)
    (startOctant : Octant) (subtreeIdx : nat) (r : Renderer)
    : Result (Renderer * list (list (Octant * Z))) :=
  result ← at_index (octantResults r) subtreeIdx;
  let '(result1, tasks) :=
    CollectOctantsAndLights (viewMask r) startOctant result
      (1 <? NumThreads wq)%nat
      (negb (octant_addr startOctant =? octant_addr root)%nat) 63 in
  let tasks' :=
    if (0 <? drawableAcc result1)%nat
    then tasks ++ [batchTaskOctants result1] else tasks in
  Ok (set_queued (queued r ++ map CollectBatchesTask tasks')
        (set_numPendingBatchTasks
           (numPendingBatchTasks r + Z.of_nat (length tasks') - 1)
           (set_octantResults (<[subtreeIdx := result1]> (octantResults r)) r)),
      tasks').

(** The loop over the sub-geometries of one drawable in
    [CollectBatchesWork]. *)
Fixpoint collectGeometries (drawable : Drawable) (j : nat)
    (batches : list SourceBatch) (opaqueQueue alphaQueue : list Batch)
    : list Batch * list Batch :=
  match batches with
  | [] => (opaqueQueue, alphaQueue)
  | sb :: rest =>
      let newBatch (p : Pass) (distance : Z) :=
        mkBatch p (GetGeometry sb) (geometryTypeBits drawable)
          (Z.of_nat j mod 256) (drawable_addr drawable) distance 0 0 in
      match GetPass (GetMaterial sb) PASS_OPAQUE with
      | Some p =>
          collectGeometries drawable (S j) rest
            (opaqueQueue ++ [newBatch p 0]) alphaQueue
      | None =>
          match GetPass (GetMaterial sb) PASS_ALPHA with
          | Some p =>
              collectGeometries drawable (S j) rest opaqueQueue
                (alphaQueue ++ [newBatch p (drawable_Distance drawable)])
          | None => collectGeometries drawable (S j) rest opaqueQueue alphaQueue
          end
      end
  end.

(** The loop over the drawables of one octant in [CollectBatchesWork]. *)
Fixpoint collectDrawables (viewMask_ planeMask : Z) (ds : list Drawable)
    (opaqueQueue alphaQueue : list Batch) : list Batch * list Batch :=
  match ds with
  | [] => (opaqueQueue, alphaQueue)
  | drawable :: rest =>
      let '(o, a) :=
        if TestFlag_DF_GEOMETRY drawable
           && negb (Z.land (LayerMask drawable) viewMask_ =? 0)
           && ((planeMask =? 0) || IsInsideMaskedFast drawable planeMask)
           && OnPrepareRender drawable
        then collectGeometries drawable 0 (drawable_batches drawable)
               opaqueQueue alphaQueue
        else (opaqueQueue, alphaQueue) in
      collectDrawables viewMask_ planeMask rest o a
  end.

(** The loop over the octants of the task in [CollectBatchesWork]. *)
Fixpoint collectOctants (viewMask_ : Z) (os : list (Octant * Z))
    (opaqueQueue alphaQueue : list Batch) : list Batch * list Batch :=
  match os with
  | [] => (opaqueQueue, alphaQueue)
  | (octant, planeMask) :: rest =>
      let '(o, a) :=
        collectDrawables viewMask_ planeMask (drawables octant)
          opaqueQueue alphaQueue in
      collectOctants viewMask_ rest o a
  end.

(** [Renderer::CollectBatchesWork]. The depth range and the bounding box of
    the visible geometry, which are [float] accumulators, are not part of
    the state. *)
Definition CollectBatchesWork (wq : WorkQueue) (task_octants : list (Octant * Z))
    (threadIndex : nat) (r : Renderer) : Result Renderer :=
  result ← at_index (batchResults r) threadIndex;
  let r1 :=
    if (1 <? NumThreads wq)%nat then
      let '(o, a) :=
        collectOctants (viewMask r) task_octants
          (result_opaqueBatches result) (result_alphaBatches result) in
      set_batchResults
        (<[threadIndex := mkThreadBatchResult o a]> (batchResults r)) r
    else
      let '(o, a) :=
        collectOctants (viewMask r) task_octants
          (opaqueBatches r) (alphaBatches r) in
      set_alphaBatches a (set_opaqueBatches o r) in
  Ok (set_numPendingBatchTasks (numPendingBatchTasks r1 - 1) r1).

(** ** Light culling to the cluster grid *)

(** The inner loop over [x]: on a hit the 1-based light index is stored in
    [clusterData[(idx << 4) + numClusterLights[idx]++]]; the counter is an
    [unsigned char]. The state is [(numClusterLights, clusterData)]. *)
Fixpoint cullRow (i : nat) (light : LightDrawable) (idx : nat) (xs : nat)
    (st : list Z * list Z) : Result (nat * (list Z * list Z)) :=
  match xs with
  | O => Ok (idx, st)
  | S xs' =>
      st' ←
        (if clusterHit light idx then
           n ← at_index (fst st) idx;
           let slot := Z.to_nat (Z.shiftl (Z.of_nat idx) 4 + n) in
           if (slot <? length (snd st))%nat then
             Ok (<[idx := (n + 1) mod 256]> (fst st),
                 <[slot := Z.of_nat (S i) mod 256]> (snd st))
           else OutOfBounds
         else Ok st);
      cullRow i light (S idx) xs' st'
  end.

(** The outer loop over [y]. *)
Fixpoint cullSlice (i : nat) (light : LightDrawable) (idx : nat) (ys : nat)
    (st : list Z * list Z) : Result (list Z * list Z) :=
  match ys with
  | O => Ok st
  | S ys' =>
      '(idx', st') ← cullRow i light idx NUM_CLUSTER_X st;
      cullSlice i light idx' ys' st'
  end.

(** The loop over the lights of [CullLightsToFrustumWork]; point and spot
    lights take the same path, with their own bounding volume. *)
Fixpoint cullLights (z : nat) (i : nat) (lights : list LightDrawable)
    (st : list Z * list Z) : Result (list Z * list Z) :=
  match lights with
  | [] => Ok st
  | light :: rest =>
      st' ←
        (match GetLightType light with
         | LIGHT_POINT | LIGHT_SPOT =>
             let idx := (z * NUM_CLUSTER_X * NUM_CLUSTER_Y)%nat in
             if sliceRejected light z then Ok st
             else
               n ← at_index (fst st) idx;
               if MAX_LIGHTS_CLUSTER <=? n then Ok st
               else cullSlice i light idx NUM_CLUSTER_Y st
         | LIGHT_DIRECTIONAL => Ok st
         end);
      cullLights z (S i) rest st'
  end.

(** [Renderer::CullLightsToFrustumWork] for the task of slice [z]. *)
Definition CullLightsToFrustumWork (z : nat) (r : Renderer) : Result Renderer :=
  '(counts, data) ←
    cullLights z 0 (lights r) (numClusterLights r, clusterData r);
  Ok (set_clusterData data (set_numClusterLights counts r)).

(** The cluster tasks of a frame, one after the other. *)
Fixpoint runCullLightsTasks (zs : list nat) (r : Renderer) : Result Renderer :=
  match zs with
  | [] => Ok r
  | z :: zs' => r' ← CullLightsToFrustumWork z r; runCullLightsTasks zs' r'
  end.

(** The slots of cluster [idx] in the light-index table. *)
Definition clusterSlots (data : list Z) (idx : nat) : list Z :=
  take (Z.to_nat MAX_LIGHTS_CLUSTER)
    (drop (idx * Z.to_nat MAX_LIGHTS_CLUSTER) data).

(** ** Shadow caster processing: the tasks it queues *)

Definition lookupLight (r : Renderer) (addr : nat) : Result LightDrawable :=
  match dirLight r with
  | Some d =>
      if (light_addr d =? addr)%nat then Ok d
      else match find (fun l => (light_addr l =? addr)%nat) (lights r) with
           | Some l => Ok l
           | None => OutOfBounds
           end
  | None =>
      match find (fun l => (light_addr l =? addr)%nat) (lights r) with
      | Some l => Ok l
      | None => OutOfBounds
      end
  end.

(** The loop over the views of one shadow map: one task per view, except
    that the views of a point light that follow each other share a task. *)
Fixpoint shadowBatchTasks (r : Renderer) (i j : nat) (views : list (nat * nat))
    (lastLight : option nat) : Result (list Task * option nat) :=
  match views with
  | [] => Ok ([], lastLight)
  | (addr, _) :: rest =>
      light ← lookupLight r addr;
      if bool_decide (GetLightType light = LIGHT_POINT)
         && bool_decide (Some addr = lastLight)
      then shadowBatchTasks r i (S j) rest lastLight
      else
        '(tasks, last) ← shadowBatchTasks r i (S j) rest (Some addr);
        Ok (CollectShadowBatchesTask i j :: tasks, last)
  end.

(** The loop over the shadow maps. Returns the tasks and the number of
    pending shadow views added per shadow map. *)
Fixpoint shadowMapTasks (r : Renderer) (i : nat) (maps : list ShadowMap)
    (lastLight : option nat) (pending : list Z)
    : Result (list Task * list Z) :=
  match maps with
  | [] => Ok ([], pending)
  | shadowMap :: rest =>
      '(tasks, last) ← shadowBatchTasks r i 0 (shadowViews shadowMap) lastLight;
      n ← at_index pending i;
      '(tasks', pending') ←
        shadowMapTasks r (S i) rest last
          (<[i := n + Z.of_nat (length tasks)]> pending);
      Ok (tasks ++ tasks', pending')
  end.

(** [Renderer::ProcessShadowCastersWork]: the shadow batch tasks, the reset
    of the cluster tables and the cluster tasks of the slices in range. *)
Definition ProcessShadowCastersWork (scene : Scene) (r : Renderer)
    : Result (Renderer * list nat) :=
  '(tasks, pending) ←
    shadowMapTasks r 0 (shadowMaps r) None (numPendingShadowViews r);
  let zs := filter (fun z => sliceInRange scene z = true) (seq 0 NUM_CLUSTER_Z) in
  Ok (set_queued (queued r ++ tasks ++ map CullLightsTask zs)
        (set_clusterData
           (replicate (Z.to_nat MAX_LIGHTS_CLUSTER * NUM_CLUSTERS) 0)
           (set_numClusterLights (replicate NUM_CLUSTERS 0)
              (set_numPendingShadowViews pending r))),
      zs).

(** ** Frame preparation *)

(** [++frameNumber; if (!frameNumber) ++frameNumber;] on an
    [unsigned short]. *)
Definition nextFrameNumber (frameNumber_ : Z) : Z :=
  let n := (frameNumber_ + 1) mod 65536 in
  if n =? 0 then (n + 1) mod 65536 else n.

Section FramePreparation.
Context `{Collaborators}.

(** [Renderer::SortMainBatches]. *)
Definition SortMainBatches (r : Renderer) : Renderer :=
  let opaque :=
    foldl (fun acc res => acc ++ result_opaqueBatches res)
      (opaqueBatches r) (batchResults r) in
  let alpha :=
    foldl (fun acc res => acc ++ result_alphaBatches res)
      (alphaBatches r) (batchResults r) in
  set_alphaBatches (BatchQueue_Sort SORT_DISTANCE (hasInstancing r) alpha)
    (set_opaqueBatches
       (BatchQueue_Sort SORT_STATE_AND_DISTANCE (hasInstancing r) opaque) r).

(** The start of [PrepareView], once scene, camera and octree are known:
    frame number, shadow flag and the reset of last frame's results. The
    camera frustum, the depth range and the geometry bounds, which are
    [float] data, are not part of the state. *)
Definition beginFrame (camera : Camera) (drawShadows_ : bool) (r : Renderer)
    : Renderer :=
  mkRenderer
    (nextFrameNumber (frameNumber r))
    (if (0 <? length (shadowMaps r))%nat then drawShadows_ else false)
    (shadowMapsDirty r)
    (hasInstancing r)
    (ViewMask camera)
    []
    (numPendingBatchTasks r)
    (numPendingShadowViews r)
    (map ThreadOctantResult_Clear (octantResults r))
    (map ThreadBatchResult_Clear (batchResults r))
    None
    []
    (map ShadowMap_Clear (shadowMaps r))
    []
    []
    (numClusterLights r)
    (clusterData r)
    [].

(** "Find the starting points for octree traversal": the root when it holds
    drawables, then its children. *)
Definition findRootLevelOctants (rootOctant : Octant) : list Octant :=
  (if (0 <? length (drawables rootOctant))%nat then [rootOctant] else [])
  ++ omap id (take NUM_OCTANTS (children rootOctant)).

(** The batch collection tasks queued by one octant task, run in turn;
    [n] counts the batch tasks run so far in the frame. *)
Fixpoint runBatchTasks (wq : WorkQueue) (tasks : list (list (Octant * Z)))
    (n : nat) (r : Renderer) : Result (Renderer * nat) :=
  match tasks with
  | [] => Ok (r, n)
  | os :: rest =>
      r' ← CollectBatchesWork wq os (workerOf wq n) r;
      runBatchTasks wq rest (S n) r'
  end.

(** The octant collection tasks of the frame, each followed by the batch
    tasks it queued. *)
Fixpoint runCollectOctantsTasks (wq : WorkQueue) (rootOctant : Octant)
    (starts : list Octant) (i n : nat) (r : Renderer) : Result Renderer :=
  match starts with
  | [] => Ok r
  | startOctant :: rest =>
      '(r1, tasks) ← CollectOctantsWork wq rootOctant startOctant i r;
      '(r2, n') ← runBatchTasks wq tasks n r1;
      runCollectOctantsTasks wq rootOctant rest (S i) n' r2
  end.

(** Modelled from the spec: [WorkQueue] is outside the sources. This is
    [workQueue->Complete()] for the task graph of the frame, where "a task
    becomes eligible only after all its dependencies complete": the light
    processing task is released by the completion of the octant tasks it
    depends on, and the shadow caster processing task by the completion of
    the light processing task. The shadow caster and shadow batch tasks
    queued on the way are recorded in [queued]; the cluster tasks are
    run. *)
Definition completeTasks (scene : Scene) (r : Renderer) : Result Renderer :=
  if (0 <? length (rootLevelOctants r))%nat then
    r1 ← ProcessLightsWork r;
    '(r2, zs) ← ProcessShadowCastersWork scene r1;
    runCullLightsTasks zs r2
  else Ok r.

(** [Renderer::PrepareView]. *)
Definition PrepareView (wq : WorkQueue) (scene_ : option Scene)
    (camera_ : option Camera) (drawShadows_ : bool) (r : Renderer)
    : Result Renderer :=
  match scene_, camera_ with
  | Some scene, Some camera =>
      match FindChild_Octree scene with
      | None => Ok r
      | Some octree =>
          let r1 := beginFrame camera drawShadows_ r in
          let rootOctant := Root octree in
          let roots := findRootLevelOctants rootOctant in
          let r2 :=
            set_queued
              (imap (fun i o => CollectOctantsTask o i) roots)
              (set_numPendingShadowViews [0; 0]
                 (set_numPendingBatchTasks (Z.of_nat (length roots))
                    (set_rootLevelOctants roots r1))) in
          r3 ← runCollectOctantsTasks wq rootOctant roots 0 0 r2;
          (* while (numPendingBatchTasks.load() > 0) TryComplete(); *)
          if 0 <? numPendingBatchTasks r3 then Stall
          else completeTasks scene (SortMainBatches r3)
      end
  | _, _ => Ok r
  end.

End FramePreparation.

(** ** Rendering a batch queue *)

Section Rendering.
Context `{Collaborators}.

(** The loop over [queue.batches] in [RenderBatches], from position [idx];
    [fuel] bounds the number of iterations. A batch whose program does not
    bind is skipped; an instanced batch draws once and steps over the
    [instanceCount] batches it stands for. *)
Fixpoint renderLoop (fuel : nat) (batches : list Batch) (idx : nat)
    (calls : list DrawCall) : Result (list DrawCall) :=
  if (length batches <=? idx)%nat then
    if (idx =? length batches)%nat then Ok calls else OutOfBounds
  else
    match fuel with
    | O => Stall
    | S fuel' =>
        batch ← at_index batches idx;
        let geometryBits := Z.land (programBits batch) SP_GEOMETRYBITS in
        if negb (programBinds (pass batch) (programBits batch)) then
          renderLoop fuel' batches (S idx) calls
        else
          let g := geometry batch in
          if geometryBits =? GEOM_INSTANCED then
            let call :=
              match indexBuffer g with
              | Some _ =>
                  DrawIndexedInstanced g (instanceStart batch)
                    (instanceCount batch)
              | None =>
                  DrawInstanced g (instanceStart batch) (instanceCount batch)
              end in
            match instanceCount batch with
            | O => Stall
            | S k => renderLoop fuel' batches (idx + k + 1) (calls ++ [call])
            end
          else
            let call :=
              match indexBuffer g with
              | Some _ => DrawIndexed g
              | None => Draw g
              end in
            renderLoop fuel' batches (S idx) (calls ++ [call])
    end.

(** [Renderer::RenderBatches], as the draw calls it issues. *)
Definition RenderBatches (queue : list Batch) : Result (list DrawCall) :=
  renderLoop (length queue) queue 0 [].

(** [Renderer::RenderOpaque] and [Renderer::RenderAlpha]. *)
Definition RenderOpaque (r : Renderer) : Result (list DrawCall) :=
  RenderBatches (opaqueBatches r).
Definition RenderAlpha (r : Renderer) : Result (list DrawCall) :=
  RenderBatches (alphaBatches r).

End Rendering.

(** [Renderer::ShadowMapTexture]: a checked read of the vector when the
    index is in range, the null pointer otherwise. *)
Definition ShadowMapTexture (r : Renderer) (index : nat)
    : Result (option Texture) :=
  if (index <? length (shadowMaps r))%nat then
    shadowMap ← at_index (shadowMaps r) index;
    Ok (Some (texture shadowMap))
  else Ok None.

(** ** Shadow batch collection and the render mode of a shadow view *)

(** A candidate shadow caster of a view, with the outcome of the two tests
    made against the view: [shadowFrustum.IsInsideFast(geometryBox)] and the
    test of the extruded bounding box against the light-space frustum. *)
Record ShadowCaster : Type := mkShadowCaster {
  caster : Drawable;
  insideShadowFrustum : bool;
  extrusionVisible : bool }.

(** What the loop over the candidates accumulates. *)
Record CasterTotals : Type := mkCasterTotals {
  totalShadowCasters : nat;
  staticShadowCasters : nat;
  dynamicCastersMoved : bool;
  staticCastersMoved : bool;
  destStatic : list Batch;
  destDynamic : list Batch }.

(** The loop over the sub-geometries of an accepted caster. *)
Fixpoint shadowGeometries (drawable : Drawable) (j : nat)
    (batches : list SourceBatch) (dest : list Batch) : list Batch :=
  match batches with
  | [] => dest
  | sb :: rest =>
      match GetPass (GetMaterial sb) PASS_SHADOW with
      | Some p =>
          shadowGeometries drawable (S j) rest
            (dest ++ [mkBatch p (GetGeometry sb) (geometryTypeBits drawable)
                        (Z.of_nat j mod 256) (drawable_addr drawable) 0 0 0])
      | None => shadowGeometries drawable (S j) rest dest
      end
  end.

(** Whether the loop keeps a candidate: the cube face test of point lights,
    the extrusion test, and the late [OnPrepareRender]. *)
Definition casterAccepted (lightType : LightType) (dynamicOrDirLight : bool)
    (c : ShadowCaster) : bool :=
  let drawable := caster c in
  let inView := InView drawable in
  let staticNode := drawable_IsStatic drawable in
  if bool_decide (lightType = LIGHT_POINT) && negb (insideShadowFrustum c)
  then false
  else if (negb staticNode || dynamicOrDirLight) && negb inView
          && negb (extrusionVisible c)
  then false
  else if negb inView && negb (OnPrepareRender drawable) then false
  else true.

(** The loop over [initialShadowCasters]. *)
Fixpoint collectShadowCasters (frameNumber_ : Z) (lightType : LightType)
    (dynamicOrDirLight : bool) (cs : list ShadowCaster) (t : CasterTotals)
    : CasterTotals :=
  match cs with
  | [] => t
  | c :: rest =>
      let drawable := caster c in
      let staticNode := drawable_IsStatic drawable in
      let t' :=
        if casterAccepted lightType dynamicOrDirLight c then
          let moved := LastUpdateFrameNumber drawable =? frameNumber_ in
          let toStatic := negb dynamicOrDirLight && staticNode in
          mkCasterTotals
            (S (totalShadowCasters t))
            (if staticNode then S (staticShadowCasters t)
             else staticShadowCasters t)
            (if staticNode then dynamicCastersMoved t
             else if moved then true else dynamicCastersMoved t)
            (if staticNode then (if moved then true else staticCastersMoved t)
             else staticCastersMoved t)
            (if toStatic
             then shadowGeometries drawable 0 (drawable_batches drawable)
                    (destStatic t)
             else destStatic t)
            (if toStatic then destDynamic t
             else shadowGeometries drawable 0 (drawable_batches drawable)
                    (destDynamic t))
        else t in
      collectShadowCasters frameNumber_ lightType dynamicOrDirLight rest t'
  end.

Section ShadowBatches.
Context `{Collaborators}.

(** "Now determine which kind of caching can be used for the shadow map". *)
Definition resolveRenderMode (dynamicOrDirLight : bool) (view : ShadowView)
    (t : CasterTotals) : ShadowRenderMode :=
  let changed :=
    negb (bool_decide (lastViewport view = viewport view))
    || negb (Matrix4_Equals (lastShadowMatrix view) (shadowMatrix view)) in
  if dynamicOrDirLight then
    if changed
       || negb (lastNumGeometries view =? totalShadowCasters t)%nat
       || dynamicCastersMoved t || staticCastersMoved t
    then RENDER_DYNAMIC_LIGHT
    else RENDER_STATIC_LIGHT_CACHED
  else
    if changed then RENDER_STATIC_LIGHT_STORE_STATIC
    else if staticCastersMoved t then RENDER_STATIC_LIGHT_STORE_STATIC
    else if dynamicCastersMoved t
            || negb (lastNumGeometries view =? totalShadowCasters t)%nat
    then
      if (0 <? staticShadowCasters t)%nat
      then RENDER_STATIC_LIGHT_RESTORE_STATIC
      else RENDER_DYNAMIC_LIGHT
    else RENDER_STATIC_LIGHT_CACHED.

(** The body of the loop of [Renderer::CollectShadowBatchesWork] for one
    view, from "Skip view?" on: [view] is the view once the shadow camera
    has been set up, [casters] the candidates found for it, and
    [queueStatic], [queueDynamic] the two batch queues of the view. Returns
    the view and the two queues. *)
Definition CollectShadowBatchesWork_view (frameNumber_ : Z)
    (lightType : LightType) (lightIsStatic : bool) (view : ShadowView)
    (casters : list ShadowCaster) (queueStatic queueDynamic : list Batch)
    : ShadowView * list Batch * list Batch :=
  if bool_decide (viewport view = IntRect_ZERO) then
    (set_lastViewport IntRect_ZERO
       (set_renderMode RENDER_STATIC_LIGHT_CACHED view),
     queueStatic, queueDynamic)
  else
    let dynamicOrDirLight :=
      bool_decide (lightType = LIGHT_DIRECTIONAL) || negb lightIsStatic in
    let t :=
      collectShadowCasters frameNumber_ lightType dynamicOrDirLight casters
        (mkCasterTotals 0 0 false false queueStatic queueDynamic) in
    let mode := resolveRenderMode dynamicOrDirLight view t in
    let view1 := set_renderMode mode view in
    if bool_decide (mode = RENDER_STATIC_LIGHT_CACHED) then
      (set_shadowMatrix (lastShadowMatrix view1) view1,
       destStatic t, destDynamic t)
    else
      (set_lastShadowMatrix (shadowMatrix view1)
         (set_lastNumGeometries (totalShadowCasters t)
            (set_lastViewport (viewport view1) view1)),
       (if negb dynamicOrDirLight
           && negb (bool_decide (mode = RENDER_STATIC_LIGHT_STORE_STATIC))
        then [] else destStatic t),
       destDynamic t).

End ShadowBatches.

(** ** A reference set of collaborators

    A concrete instance of [Collaborators], used to run the model on
    concrete scenes: matrices compared component by component, a first-fit
    allocator on a grid, an insertion sort of the lights and a batch sort
    that keeps the order of insertion. *)

Definition rectOverlap (a b : IntRect) : bool :=
  (rect_left a <? rect_right b) && (rect_left b <? rect_right a)
  && (rect_top a <? rect_bottom b) && (rect_top b <? rect_bottom a).

Definition rectFits (a : AreaAllocator) (r : IntRect) : bool :=
  (0 <=? rect_left r) && (0 <=? rect_top r)
  && (rect_left r <? rect_right r) && (rect_top r <? rect_bottom r)
  && (rect_right r <=? vec_x (alloc_size a))
  && (rect_bottom r <=? vec_y (alloc_size a))
  && forallb (fun q => negb (rectOverlap r q)) (reserved a).

Definition firstFit (a : AreaAllocator) (w h : Z) : option (Z * Z) :=
  if (0 <? w) && (0 <? h) then
    find (fun p => rectFits a (mkIntRect (fst p) (snd p) (fst p + w) (snd p + h)))
      (flat_map
         (fun j => map (fun i => (Z.of_nat i * w, Z.of_nat j * h))
                     (seq 0 (Z.to_nat (vec_x (alloc_size a) ÷ w))))
         (seq 0 (Z.to_nat (vec_y (alloc_size a) ÷ h))))
  else None.

Definition numShadowViews (t : LightType) : nat :=
  match t with
  | LIGHT_DIRECTIONAL => 2
  | LIGHT_POINT => 6
  | LIGHT_SPOT => 1
  end.

Definition freshShadowView (light : LightDrawable) : ShadowView :=
  mkShadowView (Some (light_addr light)) (ShadowRect light)
    RENDER_DYNAMIC_LIGHT 0 0 0 [] IntRect_ZERO [] 0.

Definition resizeShadowViews (light : LightDrawable) : list ShadowView :=
  map (fun v => set_viewport (ShadowRect light)
                  (set_sv_light (Some (light_addr light)) v))
    (take (numShadowViews (GetLightType light))
       (ShadowViews light
        ++ replicate (numShadowViews (GetLightType light))
             (freshShadowView light))).

Fixpoint insertLight (l : LightDrawable) (ls : list LightDrawable)
    : list LightDrawable :=
  match ls with
  | [] => [l]
  | h :: t => if CompareLights l h then l :: h :: t else h :: insertLight l t
  end.

Fixpoint insertionSort (ls : list LightDrawable) : list LightDrawable :=
  match ls with
  | [] => []
  | h :: t => insertLight h (insertionSort t)
  end.

Lemma insertLight_perm l ls : Permutation (l :: ls) (insertLight l ls).
Proof.
  induction ls as [|h t IH]; simpl; [reflexivity|].
  destruct (CompareLights l h); [reflexivity|].
  rewrite perm_swap. now apply perm_skip.
Qed.

Lemma insertionSort_perm ls : Permutation ls (insertionSort ls).
Proof.
  induction ls as [|h t IH]; simpl; [constructor|].
  rewrite <- insertLight_perm. now apply perm_skip.
Qed.

Lemma insertLight_sorted l ls :
  StronglySorted (fun a b => CompareLights b a = false) ls ->
  StronglySorted (fun a b => CompareLights b a = false) (insertLight l ls).
Proof.
  induction ls as [|h t IH]; simpl; intros Hs.
  - repeat constructor.
  - apply StronglySorted_inv in Hs as [Hs Hh].
    destruct (CompareLights l h) eqn:E.
    + constructor; [constructor; assumption|].
      unfold CompareLights in *.
      constructor; [lia|].
      eapply Forall_impl; [|exact Hh]. simpl. intros; lia.
    + constructor; [auto|].
      eapply Permutation_Forall; [apply insertLight_perm|].
      constructor; [|assumption].
      unfold CompareLights in *. lia.
Qed.

Lemma insertionSort_sorted ls :
  StronglySorted (fun a b => CompareLights b a = false) (insertionSort ls).
Proof.
  induction ls as [|h t IH]; simpl; [constructor|].
  now apply insertLight_sorted.
Qed.

#[local] Instance reference_collaborators : Collaborators := {|
  Matrix4_Equals := fun a b => bool_decide (a = b);
  Allocate_answer := firstFit;
  AllocateSpecific_answer := rectFits;
  InitShadowViews := resizeShadowViews;
  std_sort := insertionSort;
  std_sort_perm := insertionSort_perm;
  std_sort_sorted := insertionSort_sorted;
  BatchQueue_Sort := fun _ _ l => l;
  BatchQueue_Sort_length := fun _ _ _ => eq_refl;
  SP_GEOMETRYBITS := 3;
  GEOM_INSTANCED := 1 |}.

(** ** Definitions used to state the properties *)

(** [request.x /= 2; request.y /= 2]. *)
Definition halve (v : IntVector2) : IntVector2 :=
  mkIntVector2 (vec_x v ÷ 2) (vec_y v ÷ 2).

(** The sizes of [n] successive attempts, each half of the one before. *)
Fixpoint attemptSizes (n : nat) (request : IntVector2) : list IntVector2 :=
  match n with
  | O => []
  | S n' => request :: attemptSizes n' (halve request)
  end.

(** A call is an [Allocate] of the given size. *)
Definition isAllocateOf (c : AllocatorCall) (size : IntVector2) : Prop :=
  exists answer, c = CallAllocate (vec_x size) (vec_y size) answer.

Definition callFailed (c : AllocatorCall) : bool :=
  match c with
  | CallAllocate _ _ None | CallAllocateSpecific _ false => true
  | _ => false
  end.

(** The shadow map a light allocates from. *)
Definition shadowMapIndex (light : LightDrawable) : nat :=
  if decide (GetLightType light = LIGHT_DIRECTIONAL) then 0%nat else 1%nat.

(** The light asks for the size of the rectangle it already holds. *)
Definition sameSizeAsBefore (light : LightDrawable) : bool :=
  (vec_x (TotalShadowMapSize light) =? Width (ShadowRect light))
  && (vec_y (TotalShadowMapSize light) =? Height (ShadowRect light)).

Section SpecifiedAllocation.
Context `{Collaborators}.

(** The fresh allocation as the specification words it: one attempt, then
    up to [retries] further attempts, each at half the size of the one
    before. *)
Fixpoint freshAllocation_specified (retries : nat) (a : AreaAllocator)
    (request : IntVector2) : option IntRect * AreaAllocator :=
  match Allocate a (vec_x request) (vec_y request) with
  | (Some (x, y), a') =>
      (Some (mkIntRect x y (x + vec_x request) (y + vec_y request)), a')
  | (None, a') =>
      match retries with
      | O => (None, a')
      | S retries' => freshAllocation_specified retries' a' (halve request)
      end
  end.

End SpecifiedAllocation.

(** The state of a light that the shadow bookkeeping leaves alone. *)
Definition sameLight (a b : LightDrawable) : Prop :=
  light_addr a = light_addr b /\ GetLightType a = GetLightType b
  /\ Distance a = Distance b /\ colorAverage a = colorAverage b.

Definition unshadowed (l : LightDrawable) : Prop := ShadowMap_ l = None.

(** Every shadow view of the shadow maps belongs to a light whose address
    satisfies [P]. *)
Definition viewsOwned (P : nat -> Prop) (maps : list ShadowMap) : Prop :=
  Forall (fun m => Forall (fun v => P v.1) (shadowViews m)) maps.

(** The shadow caster task of a light of the list. *)
Definition taskOfLights (ls : list LightDrawable) (t : Task) : Prop :=
  exists l, In l ls /\ t = CollectShadowCastersTask (light_addr l).

(** The light processing can index what it needs: a result per root-level
    octant, and the two shadow maps whenever shadows are drawn. *)
Definition lightsProcessable (r : Renderer) : Prop :=
  (length (rootLevelOctants r) <= length (octantResults r))%nat
  /\ (drawShadows r = false \/ (2 <= length (shadowMaps r))%nat).

(** [light->SetShadowMap(nullptr)]. *)
Definition clearShadowMap (l : LightDrawable) : LightDrawable :=
  SetShadowMap l None IntRect_ZERO.

(** The parts of the renderer that the octant and batch collection tasks
    leave alone. *)
Definition frameHeader (r : Renderer) :=
  (frameNumber r, drawShadows r, shadowMapsDirty r, hasInstancing r,
   rootLevelOctants r, shadowMaps r, lights r, dirLight r).

Definition shadowTasks (r : Renderer) : list Task :=
  filter (fun t => is_shadow_task t = true) (queued r).

(** ** Example scenes

    Concrete renderers, lights and scenes on which the model is run. *)

Module Examples.

Definition dirAtlas : ShadowMap :=
  mkShadowMap 0 0 (Reset 2048 1024) (mkTexture 100 2048 1024) [] 0 0.
Definition lightAtlas : ShadowMap :=
  mkShadowMap 0 0 (Reset 1024 1024) (mkTexture 101 1024 1024) [] 0 0.
Definition smallAtlas : ShadowMap :=
  mkShadowMap 0 0 (Reset 64 64) (mkTexture 102 64 64) [] 0 0.

(** A light at distance [dist] that hits the clusters selected by [hit]. *)
Definition lightOf (addr : nat) (type : LightType) (dist avg : Z)
    (size : Z) (hit : nat -> bool) : LightDrawable :=
  mkLight addr type dist avg true true (mkIntVector2 size size)
    (fun _ => false) hit None IntRect_ZERO [].

Definition pointLight : LightDrawable :=
  lightOf 40 LIGHT_POINT 7 3 256 (fun idx => (idx =? 1)%nat).
Definition spotLight : LightDrawable :=
  lightOf 42 LIGHT_SPOT 4 3 256 (fun idx => (idx =? 1)%nat).
Definition dimSun : LightDrawable :=
  lightOf 41 LIGHT_DIRECTIONAL 0 9 512 (fun _ => false).
Definition brightSun : LightDrawable :=
  lightOf 43 LIGHT_DIRECTIONAL 0 12 512 (fun _ => false).
(** A light that asks for more than [smallAtlas] can give. *)
Definition greedyLight : LightDrawable :=
  lightOf 44 LIGHT_POINT 9 3 512 (fun _ => false).

Definition opaquePass : Pass := mkPass 1 10 (fun _ => true).
Definition opaqueMaterial : Material :=
  mkMaterial 10
    (fun t => match t with PASS_ALPHA => None | _ => Some opaquePass end).
Definition cubeGeometry : Geometry := mkGeometry 20 (Some 21%nat) 0 36.

Definition geometryDrawable (addr : nat) (static : bool) (lastUpdate : Z)
    : Drawable :=
  mkDrawable addr (KindGeometry [mkSourceBatch opaqueMaterial cubeGeometry])
    1 0 (fun _ => true) true 5 true static lastUpdate.

Definition lightDrawable (l : LightDrawable) : Drawable :=
  mkDrawable (light_addr l) (KindLight l) 1 0 (fun _ => true) true
    (Distance l) true true 0.

Definition leaf (addr : nat) (ds : list Drawable) : Octant :=
  mkOctant addr ds (fun mask => mask) (replicate 8 None).

Definition litRoot : Octant :=
  mkOctant 1 [] (fun mask => mask)
    ([Some (leaf 2 [lightDrawable pointLight; lightDrawable dimSun;
                    geometryDrawable 30 true 0]);
      None;
      Some (leaf 3 [lightDrawable spotLight; lightDrawable brightSun])]
     ++ replicate 5 None).

Definition litScene : Scene :=
  mkScene (Some (mkOctree litRoot)) (fun z => (z <? 2)%nat).
Definition emptyScene : Scene :=
  mkScene (Some (mkOctree (leaf 1 []))) (fun _ => false).
Definition camera : Camera := mkCamera 1.

Definition oneThread : WorkQueue := mkWorkQueue 1 (fun _ => 0%nat).
Definition fourThreads : WorkQueue := mkWorkQueue 4 (fun n => (n mod 4)%nat).

(** A renderer as its constructor leaves it, at the given frame number and
    with the given shadow maps and retained lights. *)
Definition rendererAt (frame : Z) (threads : nat) (maps : list ShadowMap)
    (ls : list LightDrawable) : Renderer :=
  mkRenderer frame false false false 0 [] 0 [0; 0]
    (replicate (S NUM_OCTANTS) (mkThreadOctantResult 0 0 0 [] []))
    (replicate threads (mkThreadBatchResult [] []))
    None ls maps [] []
    (replicate NUM_CLUSTERS 0)
    (replicate (Z.to_nat MAX_LIGHTS_CLUSTER * NUM_CLUSTERS) 0) [].

(** [n] point lights, at addresses and distances [1 .. n], that all hit the
    cluster [cell] and no other. *)
Definition crowd (cell n : nat) : list LightDrawable :=
  map (fun k => lightOf k LIGHT_POINT (Z.of_nat k) 1 256
                  (fun idx => (idx =? cell)%nat))
    (seq 1 n).

(** A renderer in the middle of a frame: the lights of [collected] have
    been gathered by the one octant task of the frame. *)
Definition afterCollection (maps : list ShadowMap) (shadows : bool)
    (collected : list LightDrawable) : Renderer :=
  mkRenderer 1 shadows false false 1 [leaf 2 []] 0 [0; 0]
    (mkThreadOctantResult 0 0 0 [] collected
     :: replicate NUM_OCTANTS (mkThreadOctantResult 0 0 0 [] []))
    [mkThreadBatchResult [] []]
    None [] maps [] []
    (replicate NUM_CLUSTERS 0)
    (replicate (Z.to_nat MAX_LIGHTS_CLUSTER * NUM_CLUSTERS) 0) [].

(** A view of a static spot light whose viewport and matrix are those of
    the previous frame, which had two casters. *)
Definition steadyView : ShadowView :=
  mkShadowView (Some 42%nat) (mkIntRect 0 0 256 256) RENDER_DYNAMIC_LIGHT
    0 1 0 [1; 0; 0; 1] (mkIntRect 0 0 256 256) [1; 0; 0; 1] 2.

Definition casterOf (addr : nat) (static : bool) (lastUpdate : Z)
    : ShadowCaster :=
  mkShadowCaster (geometryDrawable addr static lastUpdate) true true.

(** A subtree of three octants holding 100, 50 and 3 geometries, the first
    one with a light ahead of them. *)
Definition grove : Octant :=
  mkOctant 2
    (lightDrawable spotLight :: replicate 100 (geometryDrawable 30 true 0))
    (fun mask => mask)
    [Some (leaf 5 (replicate 50 (geometryDrawable 31 true 0)));
     None;
     Some (leaf 6 (replicate 3 (geometryDrawable 32 true 0)))].

Definition groveRoot : Octant :=
  mkOctant 1 [] (fun mask => mask) [Some grove].

Definition groveRenderer (threads : nat) : Renderer :=
  set_viewMask 1 (rendererAt 7 threads [] []).

(** A dynamic spot light and a view of it that was rendered with three
    casters in the frame before. *)
Definition movingView : ShadowView :=
  mkShadowView (Some 42%nat) (mkIntRect 0 0 256 256) RENDER_DYNAMIC_LIGHT
    0 1 0 [1; 0; 0; 1] (mkIntRect 0 0 256 256) [1; 0; 0; 1] 3.

(** A shadow map whose views are those of a spot light followed by the six
    faces of a point light. *)
Definition viewedAtlas : ShadowMap :=
  mkShadowMap 8 2 (Reset 1024 1024) (mkTexture 101 1024 1024)
    [(42, 0); (40, 0); (40, 1); (40, 2); (40, 3); (40, 4); (40, 5)]%nat 8 2.

Definition viewedRenderer : Renderer :=
  rendererAt 8 1 [dirAtlas; viewedAtlas] [spotLight; pointLight].

(** A queue of four batches: an instanced batch that stands for two
    batches, the batch merged into it, a batch whose program does not
    bind and a plain batch. *)
Definition brokenPass : Pass := mkPass 2 10 (fun _ => false).

Definition instancedQueue : list Batch :=
  [mkBatch opaquePass cubeGeometry 1 0 30 0 0 2;
   mkBatch opaquePass cubeGeometry 1 0 31 0 0 0;
   mkBatch brokenPass cubeGeometry 0 0 32 0 0 0;
   mkBatch opaquePass (mkGeometry 22 None 0 3) 0 0 33 0 0 0].

End Examples.

(** * Octree traversal: what [CollectOctantsAndLights] records *)

(** Induction over an octant and, through its child pointers, over the
    octants below it. *)
Section OctantInduction.
Variable P : Octant -> Prop.
Hypothesis step : forall addr ds inside cs,
  Forall (fun c => match c with Some o => P o | None => True end) cs ->
  P (mkOctant addr ds inside cs).

Fixpoint Octant_subtree_ind (o : Octant) : P o :=
  match o with
  | mkOctant addr ds inside cs =>
      step addr ds inside cs
        ((fix below (cs : list (option Octant))
            : Forall (fun c => match c with Some o => P o | None => True end) cs :=
            match cs with
            | [] => List.Forall_nil _
            | c :: cs' =>
                @List.Forall_cons _ _ c cs'
                  (match c as c0
                     return match c0 with Some o => P o | None => True end
                   with
                   | Some o' => Octant_subtree_ind o'
                   | None => I
                   end) (below cs')
            end) cs)
  end.

End OctantInduction.

(** [o'] is [o] or lies below it. *)
Inductive InSubtree (o' : Octant) : Octant -> Prop :=
| InSubtree_here : InSubtree o' o'
| InSubtree_child o child :
    In (Some child) (children o) -> InSubtree o' child -> InSubtree o' o.

(** [result.drawableAcc += end - it]: the drawables of an octant from the
    first one that is not a light. *)
Fixpoint fromFirstGeometry (ds : list Drawable) : list Drawable :=
  match ds with
  | [] => []
  | d :: rest =>
      match kind d with
      | KindLight _ => fromFirstGeometry rest
      | KindGeometry _ => ds
      end
  end.

Definition octantLoad (o : Octant) : nat :=
  length (fromFirstGeometry (drawables o)).

Definition taskLoad (t : list (Octant * Z)) : nat :=
  sum_list_with (fun om => octantLoad om.1) t.

(** The octants recorded and not yet handed to a task. *)
Definition pendingOctants (result : ThreadOctantResult) : list (Octant * Z) :=
  drop (taskOctantIdx result) (octants result).

(** The accumulator counts the drawables of the octants not yet handed to a
    task. *)
Definition accumulatorExact (result : ThreadOctantResult) : Prop :=
  (taskOctantIdx result <= length (octants result))%nat /\
  drawableAcc result = taskLoad (pendingOctants result).

(** The test a light drawable passes to be collected. *)
Definition acceptsLight (viewMask_ planeMask : Z) (d : Drawable)
    : option LightDrawable :=
  match kind d with
  | KindLight l =>
      if negb (Z.land (LayerMask d) viewMask_ =? 0)
         && ((planeMask =? 0) || IsInsideMaskedFast d planeMask)
         && OnPrepareRender d
      then Some l else None
  | KindGeometry _ => None
  end.

(** The lights at the head of a drawable list. *)
Fixpoint leadingLights (ds : list Drawable) : list Drawable :=
  match ds with
  | [] => []
  | d :: rest =>
      match kind d with
      | KindLight _ => d :: leadingLights rest
      | KindGeometry _ => []
      end
  end.

(** What a traversal adds to a result. *)
Record Gathered (viewMask_ : Z) (root : Octant) (threaded : bool)
    (planeMask : Z) (result result' : ThreadOctantResult)
    (tasks : list (list (Octant * Z))) : Prop := mkGathered {
  gathered_octants : exists new,
    octants result' = octants result ++ new /\
    Forall (fun om => InSubtree om.1 root /\ om.2 <> 255 /\
                      (planeMask = 0 -> om.2 = 0) /\
                      (1 <= octantLoad om.1)%nat) new /\
    (accumulatorExact result ->
       accumulatorExact result' /\
       concat tasks ++ pendingOctants result' = pendingOctants result ++ new /\
       Forall (fun t => (DRAWABLES_PER_BATCH_TASK <= taskLoad t)%nat) tasks);
  gathered_lights : exists new,
    result_lights result' = result_lights result ++ new /\
    Forall (fun l => exists o d mask, InSubtree o root /\ In d (drawables o) /\
                       acceptsLight viewMask_ mask d = Some l) new;
  gathered_tasks :
    batchTaskIdx result' = (batchTaskIdx result + length tasks)%nat /\
    (threaded = false ->
       tasks = [] /\ taskOctantIdx result' = taskOctantIdx result) /\
    (threaded = true ->
       (drawableAcc result < DRAWABLES_PER_BATCH_TASK)%nat ->
       (drawableAcc result' < DRAWABLES_PER_BATCH_TASK)%nat) }.

(** Every drawable from the first one that is not a light is not a light:
    "lights are sorted first in octants". *)
Definition lightsSortedFirst (ds : list Drawable) : Prop :=
  Forall (fun d => TestFlag_DF_LIGHT d = false) (fromFirstGeometry ds).

(** The octants of a subtree, parents before children and children in the
    order of the child pointers. *)
Fixpoint subtreeOctants (o : Octant) : list Octant :=
  o :: flat_map (fun c => match c with
                          | Some child => subtreeOctants child
                          | None => []
                          end) (children o).

Definition holdsGeometry (o : Octant) : bool :=
  existsb TestFlag_DF_GEOMETRY (drawables o).

(** * Batch collection: what [CollectBatchesWork] adds to the queues *)

(** The batches of a list of octants, collected into empty queues. *)
Definition opaqueOf (viewMask_ : Z) (os : list (Octant * Z)) : list Batch :=
  (collectOctants viewMask_ os [] []).1.

Definition alphaOf (viewMask_ : Z) (os : list (Octant * Z)) : list Batch :=
  (collectOctants viewMask_ os [] []).2.

(** The batches that [SortMainBatches] merges: the main queue and the
    per-thread queues behind it. *)
Definition mergedOpaque (r : Renderer) : list Batch :=
  opaqueBatches r ++ concat (map result_opaqueBatches (batchResults r)).

Definition mergedAlpha (r : Renderer) : list Batch :=
  alphaBatches r ++ concat (map result_alphaBatches (batchResults r)).





(** The octants recorded in the result slots [i, i + k). *)
Definition recordedOctants (r : Renderer) (i k : nat) : list (Octant * Z) :=
  flat_map octants (take k (drop i (octantResults r))).

(** Two renderers whose result slots hold the same octants and lights. *)
Definition sameRecorded (r1 r2 : Renderer) : Prop :=
  viewMask r1 = viewMask r2
  /\ octants <$> octantResults r1 = octants <$> octantResults r2
  /\ result_lights <$> octantResults r1
     = result_lights <$> octantResults r2.

(** * The frame as a whole *)

(** ** The lights of a frame *)
(** A light found in the octree below [root] by the traversal of the
    frame. *)
Definition lightOfOctree (viewMask_ : Z) (root : Octant) (l : LightDrawable)
    : Prop :=
  exists o d, InSubtree o root /\ In d (drawables o) /\
    kind d = KindLight l /\ Z.land (LayerMask d) viewMask_ <> 0 /\
    OnPrepareRender d = true.

(** ** Frame numbers as stamps *)

(** The frame number after [k] further frames. *)
Fixpoint frameNumberAfter (k : nat) (frameNumber_ : Z) : Z :=
  match k with
  | O => frameNumber_
  | S k' => nextFrameNumber (frameNumberAfter k' frameNumber_)
  end.

(** * Shadow views: render mode and batch queues *)

(** The shadow batches of a caster: one for each sub-geometry whose
    material has a shadow pass. *)
Definition shadowBatchesOf (c : ShadowCaster) : list Batch :=
  shadowGeometries (caster c) 0 (drawable_batches (caster c)) [].

(** * Shadow batch tasks and the views they handle *)

(** The loop [for (;;)] of [CollectShadowBatchesWork], as the indices of
    the views it handles: from the view at [viewIdx], the head of [suffix],
    it goes on to the next view while the light is a point light and the
    next view belongs to the same light. *)
Fixpoint taskViewsFrom (r : Renderer) (viewIdx : nat)
    (suffix : list (nat * nat)) : Result (list nat) :=
  match suffix with
  | [] => OutOfBounds
  | (addr, _) :: rest =>
      light ← lookupLight r addr;
      if bool_decide (GetLightType light = LIGHT_POINT)
         && match rest with
            | (addr', _) :: _ => (addr' =? addr)%nat
            | [] => false
            end
      then more ← taskViewsFrom r (S viewIdx) rest; Ok (viewIdx :: more)
      else Ok [viewIdx]
  end.

(** The views of shadow map [views] handled by the task that starts at
    [viewIdx]. *)
Definition CollectShadowBatchesWork_views (r : Renderer)
    (views : list (nat * nat)) (viewIdx : nat) : Result (list nat) :=
  taskViewsFrom r viewIdx (drop viewIdx views).

(** The number of views at the head of a list that belong to the light at
    [addr]. *)
Fixpoint followers (addr : nat) (views : list (nat * nat)) : nat :=
  match views with
  | (addr', _) :: rest =>
      if (addr' =? addr)%nat then S (followers addr rest) else 0%nat
  | [] => 0%nat
  end.

(** The head of a list of views is not a further view of the point light
    the task before it was made for. *)
Definition startsTask (r : Renderer) (lastLight : option nat)
    (views : list (nat * nat)) : Prop :=
  match views with
  | [] => True
  | (addr, _) :: _ =>
      forall light, lookupLight r addr = Ok light ->
        GetLightType light = LIGHT_POINT -> lastLight <> Some addr
  end.

(** ** The barrier before the sort of the shadow batches *)
(** The end of [CollectShadowBatchesWork],
    [if (numPendingShadowViews[shadowMapIdx].fetch_add(-1) == 1)
       SortShadowBatches(shadowMap)], for the tasks in the order in which
    they reach it; [order] holds their shadow map indices. Returns, for
    each task, whether it sorts the batches of its shadow map, and the
    counters. *)
Fixpoint finishShadowTasks (order : list nat) (pending : list Z)
    : Result (list bool * list Z) :=
  match order with
  | [] => Ok ([], pending)
  | shadowMapIdx :: rest =>
      n ← at_index pending shadowMapIdx;
      '(sorts, pending') ←
        finishShadowTasks rest (<[shadowMapIdx := n - 1]> pending);
      Ok ((n =? 1) :: sorts, pending')
  end.

(** The shadow map indices of the shadow batch tasks of a task list. *)
Definition shadowMapIndices (tasks : list Task) : list nat :=
  omap (fun t => match t with
                 | CollectShadowBatchesTask i _ => Some i
                 | _ => None
                 end) tasks.

(** * Shadow map bookkeeping in [ProcessLightsWork] *)

(** The batch queues of a view of the atlas: a static and a dynamic queue
    for a static light, the dynamic queue alone otherwise. *)
Definition viewQueues (static : bool) (v : ShadowView) : list nat :=
  if static then [staticQueueIdx v; dynamicQueueIdx v]
  else [dynamicQueueIdx v].

Definition lightQueues (l : LightDrawable) : list nat :=
  flat_map (viewQueues (IsStatic l)) (ShadowViews l).

(** The lights that hold a shadow map. *)
Definition shadowedLights (ls : list LightDrawable) : list LightDrawable :=
  List.filter (fun l => match ShadowMap_ l with
                        | Some _ => true
                        | None => false
                        end) ls.

(** An allocator call that is a fresh request, or a re-claim of [rect]. *)
Definition freshOrReclaimOf (rect : IntRect) (c : AllocatorCall) : Prop :=
  match c with
  | CallAllocate _ _ _ => True
  | CallAllocateSpecific q _ => q = rect
  end.

(** The allocator log of each shadow map grows by calls that satisfy
    [Q]. *)
Definition logsGrow (Q : AllocatorCall -> Prop) (maps maps' : list ShadowMap)
    : Prop :=
  Forall2 (fun m m' => exists new,
             alloc_calls (allocator m') = alloc_calls (allocator m) ++ new
             /\ Forall Q new) maps maps'.

(** Everything of a shadow map but its allocator. *)
Definition mapFrame (m : ShadowMap) :=
  (freeQueueIdx m, freeCasterListIdx m, texture m, shadowViews m,
   shadowBatches_size m, shadowCasters_size m).

Section Bookkeeping.
Context `{Collaborators}.

(** The free indices of a shadow map stay within its vectors. *)
Definition indicesReserved (m : ShadowMap) : Prop :=
  (freeQueueIdx m <= shadowBatches_size m)%nat
  /\ (freeCasterListIdx m <= shadowCasters_size m)%nat.

End Bookkeeping.

(** * Light culling: the counters of a slice *)

(** The first cluster of slice [z]. *)
Definition sliceStart (z : nat) : nat := (z * NUM_CLUSTER_X * NUM_CLUSTER_Y)%nat.

(** * Rendering a batch queue: the draw calls *)

Section DrawCalls.
Context `{Collaborators}.

(** The draw call of a batch that is not instanced. *)
Definition drawOf (batch : Batch) : DrawCall :=
  match indexBuffer (geometry batch) with
  | Some _ => DrawIndexed (geometry batch)
  | None => Draw (geometry batch)
  end.

Definition isInstanced (batch : Batch) : bool :=
  Z.land (programBits batch) SP_GEOMETRYBITS =? GEOM_INSTANCED.

Definition programBound (batch : Batch) : bool :=
  programBinds (pass batch) (programBits batch).


End DrawCalls.

(** * Rendering the shadow maps *)

(** What [RenderShadowMaps] asks of the graphics device for one shadow
    map. The depth bias of a light, a product of [float]s, is named by the
    light; a rendered queue is named by its index and holds the draw calls
    of [RenderBatches]. *)
Inductive ShadowCommand : Type :=
| UpdateInstances              (* UpdateInstanceTransforms(instanceTransforms) *)
| BindShadowMap                (* shadowMap.fbo->Bind() *)
| ClearDepth (viewport : IntRect)
| SetViewport (viewport : IntRect)
| SetDepthBias (light : option nat)
| RenderQueue (queueIdx : nat) (calls : list DrawCall)
| StoreStatic (viewport : IntRect)      (* blit shadow map -> static store *)
| RestoreStatic (viewport : IntRect).   (* blit static store -> shadow map *)

Section ShadowMapRendering.
Context `{Collaborators}.

(** [if (batchQueue.HasBatches()) { SetViewport; SetDepthBias;
    RenderBatches }] for the queue at [queueIdx]. *)
Definition renderShadowQueue (queues : list (list Batch)) (view : ShadowView)
    (queueIdx : nat) : Result (list ShadowCommand) :=
  batchQueue ← at_index queues queueIdx;
  match batchQueue with
  | [] => Ok []
  | _ =>
      calls ← RenderBatches batchQueue;
      Ok [SetViewport (viewport view); SetDepthBias (sv_light view);
          RenderQueue queueIdx calls]
  end.

(** One of the four loops over the views of the shadow map. *)
Fixpoint forEachView (body : ShadowView -> Result (list ShadowCommand))
    (views : list ShadowView) : Result (list ShadowCommand) :=
  match views with
  | [] => Ok []
  | view :: rest =>
      cmds ← body view;
      more ← forEachView body rest;
      Ok (cmds ++ more)
  end.

(** "First render static objects for those shadowmaps that need to store
    static objects." *)
Definition renderStatic (queues : list (list Batch)) (view : ShadowView)
    : Result (list ShadowCommand) :=
  if bool_decide (renderMode view = RENDER_STATIC_LIGHT_STORE_STATIC) then
    cmds ← renderShadowQueue queues view (staticQueueIdx view);
    Ok (ClearDepth (viewport view) :: cmds)
  else Ok [].

(** "Now do the shadowmap -> static shadowmap storage blits as
    necessary." *)
Definition storeStatic (view : ShadowView) : Result (list ShadowCommand) :=
  if bool_decide (renderMode view = RENDER_STATIC_LIGHT_STORE_STATIC)
  then Ok [StoreStatic (viewport view)] else Ok [].

(** "First do all the clears or static shadowmap -> shadowmap blits." *)
Definition clearOrRestore (view : ShadowView) : Result (list ShadowCommand) :=
  if bool_decide (renderMode view = RENDER_DYNAMIC_LIGHT)
  then Ok [ClearDepth (viewport view)]
  else if bool_decide (renderMode view = RENDER_STATIC_LIGHT_RESTORE_STATIC)
  then Ok [RestoreStatic (viewport view)]
  else Ok [].

(** "Finally render the dynamic objects." *)
Definition renderDynamic (queues : list (list Batch)) (view : ShadowView)
    : Result (list ShadowCommand) :=
  if negb (bool_decide (renderMode view = RENDER_STATIC_LIGHT_CACHED))
  then renderShadowQueue queues view (dynamicQueueIdx view)
  else Ok [].

(** The body of the loop over the shadow maps in
    [Renderer::RenderShadowMaps]: [views] are the views of the shadow map
    and [queues] its batch queues. *)
Definition RenderShadowMaps_map (views : list ShadowView)
    (queues : list (list Batch)) : Result (list ShadowCommand) :=
  match views with
  | [] => Ok []
  | _ =>
      static ← forEachView (renderStatic queues) views;
      stores ← forEachView storeStatic views;
      clears ← forEachView clearOrRestore views;
      dynamic ← forEachView (renderDynamic queues) views;
      Ok ([UpdateInstances; BindShadowMap] ++ static ++ stores
          ++ [BindShadowMap] ++ clears ++ dynamic)
  end.

Definition isCached (view : ShadowView) : bool :=
  bool_decide (renderMode view = RENDER_STATIC_LIGHT_CACHED).

End ShadowMapRendering.

(** * The shadow map textures *)

(** The textures of the shadow maps and the areas their allocators span. *)
Definition shadowTextures (maps : list ShadowMap) : list Texture :=
  map texture maps.

Definition allocatorSizes (maps : list ShadowMap) : list IntVector2 :=
  map (fun m => alloc_size (allocator m)) maps.

(** The allocator of every shadow map spans its texture. *)
Definition allocatorsSpanTextures (maps : list ShadowMap) : Prop :=
  Forall (fun m => alloc_size (allocator m)
                   = mkIntVector2 (tex_Width (texture m))
                       (tex_Height (texture m))) maps.

(** A step that keeps the texture and the allocator area of every shadow
    map. *)
Definition texturesKept (maps maps' : list ShadowMap) : Prop :=
  Forall2 (fun m m' => texture m' = texture m
                       /\ alloc_size (allocator m')
                          = alloc_size (allocator m)) maps maps'.




(** * Shader programs: [ShaderProgram::Link] *)

Module ShaderPrograms.


(** The engine's [String]. *)
Definition String : Type := Stdlib.Strings.String.string.

Record ShaderVariation : Type := mkShaderVariation {
  ShaderObject : Z;                 (* 0 until compiled *)
  variation_FullName : String }.

Record ShaderProgram : Type := mkShaderProgram {
  program : Z;                      (* the GL program object, 0 for none *)
  vs : option ShaderVariation;
  ps : option ShaderVariation;
  attributes : list (nat * Z) }.    (* (semantic, index) *)

(** Calls made to the GL. *)
Inductive GLCall : Type :=
| glDeleteProgram (p : Z)
| glCreateProgram (result : Z)
| glAttachShader (p shader : Z)
| glLinkProgram (p : Z)
| glUseProgram (p : Z)
| glUniform1iv (location unit : Z).

(** What lies outside the translation unit: the state of the graphics
    subsystem, the answers of the GL to the calls of [Link], the table
    [VertexBuffer::elementSemantic] and the operations of [String]. *)
Class Driver : Type := {
  graphicsInitialized : bool;       (* graphics && graphics->IsInitialized() *)
  createdProgram : Z;               (* glCreateProgram() *)
  linkStatus : bool;                (* GL_LINK_STATUS after glLinkProgram *)
  activeAttributes : list String;   (* glGetActiveAttrib, by index *)
  activeSamplers : list (String * Z);  (* sampler uniforms: name, location *)
  elementSemantic : list String;
  StartsWith : String -> String -> bool;   (* name.StartsWith(s, false) *)
  Substring_from : String -> String -> String;
      (* name.Substring(String::CStringLength(s)) *)
  String_isEmpty : String -> bool;         (* !indexStr.Length() *)
  ToInt : String -> Z }.

Section Linking.
Context `{Driver}.

(** [ShaderProgram::Release]. *)
Definition Release (sp : ShaderProgram) : ShaderProgram * list GLCall :=
  if program sp =? 0 then (sp, [])
  else (mkShaderProgram 0 (vs sp) (ps sp) (attributes sp),
        [glDeleteProgram (program sp)]).

(** The loop over the null-terminated table of semantic names: the
    position of the first name the attribute name starts with, or the
    position after the last one, and the index that follows the name. *)
Fixpoint findSemantic (name : String) (semantics : list String) (first : nat)
    : nat * Z :=
  match semantics with
  | [] => (first, 0)
  | semantic :: rest =>
      if StartsWith name semantic then
        let indexStr := Substring_from name semantic in
        (first, if String_isEmpty indexStr then 0 else ToInt indexStr mod 256)
      else findSemantic name rest (S first)
  end.

(** [ShaderProgram::Link]: the result, the program and the calls made. *)
Definition Link (sp : ShaderProgram) : bool * ShaderProgram * list GLCall :=
  let '(sp1, released) := Release sp in
  if negb graphicsInitialized then (false, sp1, released)
  else
    match vs sp1, ps sp1 with
    | Some vertexShader, Some pixelShader =>
        if (ShaderObject vertexShader =? 0) || (ShaderObject pixelShader =? 0)
        then (false, sp1, released)
        else
          let created := createdProgram in
          let calls1 := released ++ [glCreateProgram created] in
          if created =? 0
          then (false, mkShaderProgram created (vs sp1) (ps sp1) (attributes sp1),
                calls1)
          else
            let calls2 :=
              calls1 ++ [glAttachShader created (ShaderObject vertexShader);
                         glAttachShader created (ShaderObject pixelShader);
                         glLinkProgram created] in
            if negb linkStatus then
              (false, mkShaderProgram 0 (vs sp1) (ps sp1) (attributes sp1),
               calls2 ++ [glDeleteProgram created])
            else
              (true,
               mkShaderProgram created (vs sp1) (ps sp1)
                 (map (fun name => findSemantic name elementSemantic 0)
                    activeAttributes),
               calls2 ++ [glUseProgram created]
               ++ map (fun s => glUniform1iv (snd s) (ToInt (fst s)))
                    activeSamplers)
    | _, _ => (false, sp1, released)
    end.

(** The program objects that exist after a sequence of calls. *)
Fixpoint programsAlive (alive : list Z) (calls : list GLCall) : list Z :=
  match calls with
  | [] => alive
  | glCreateProgram p :: rest =>
      programsAlive (if p =? 0 then alive else alive ++ [p]) rest
  | glDeleteProgram p :: rest =>
      programsAlive (List.filter (fun q => negb (q =? p)) alive) rest
  | _ :: rest => programsAlive alive rest
  end.

End Linking.

End ShaderPrograms.

(** * Properties *)

(** Case analysis on the first step of a monadic computation that is known
    to succeed. *)
Ltac bind_ok H :=
  unfold mbind, Result_bind in H;
  match type of H with
  | match ?m with _ => _ end = Ok _ =>
      let E := fresh "E" in
      destruct m eqn:E; [| discriminate H | discriminate H]
  end.

(** ** The shadow map texture accessor *)

(** C10. [ShadowMapTexture(index)] never reads outside the vector of shadow
    maps: when [index] is at least the number of shadow maps (in particular
    when there are none) it returns the null pointer, and otherwise the
    texture of the shadow map at [index]. *)
Theorem ShadowMapTexture_checked (r : Renderer) (index : nat) :
  match shadowMaps r !! index with
  | Some shadowMap =>
      (index < length (shadowMaps r))%nat
      /\ ShadowMapTexture r index = Ok (Some (texture shadowMap))
  | None =>
      (length (shadowMaps r) <= index)%nat
      /\ ShadowMapTexture r index = Ok None
  end.
Proof.
  unfold ShadowMapTexture, at_index.
  destruct (shadowMaps r !! index) as [m|] eqn:E.
  - pose proof (lookup_lt_Some _ _ _ E) as Hlt.
    split; [exact Hlt|].
    apply Nat.ltb_lt in Hlt. rewrite Hlt. reflexivity.
  - pose proof (proj1 (lookup_ge_None _ _) E) as Hge.
    split; [exact Hge|].
    apply Nat.ltb_ge in Hge. rewrite Hge. reflexivity.
Qed.

(** ** Shadow map allocation *)

Section AllocationProperties.
Context `{Collaborators}.

Lemma AllocateShadowMap_retry_calls n : forall a request res a',
  AllocateShadowMap_retry n a request = (res, a') ->
  exists fresh,
    alloc_calls a' = alloc_calls a ++ fresh
    /\ alloc_size a' = alloc_size a
    /\ (length fresh <= n)%nat
    /\ Forall2 isAllocateOf fresh (take (length fresh) (attemptSizes n request))
    /\ (res = None -> length fresh = n /\ forallb callFailed fresh = true)
    /\ (forall rect, res = Some rect ->
          exists k size x y,
            length fresh = S k
            /\ attemptSizes n request !! k = Some size
            /\ fresh !! k = Some (CallAllocate (vec_x size) (vec_y size)
                                    (Some (x, y)))
            /\ rect = mkIntRect x y (x + vec_x size) (y + vec_y size)
            /\ forallb callFailed (take k fresh) = true).
Proof.
  induction n as [|n IH]; intros a request res a' Hrun; simpl in Hrun.
  - inversion Hrun; subst. exists []. rewrite app_nil_r.
    split_and!; auto; try constructor. intros rect Hrect; discriminate.
  - unfold Allocate in Hrun.
    destruct (Allocate_answer a (vec_x request) (vec_y request))
      as [[x y]|] eqn:Hans.
    + inversion Hrun; subst; clear Hrun.
      exists [CallAllocate (vec_x request) (vec_y request) (Some (x, y))].
      simpl. split_and!; auto; try lia.
      * constructor; [eexists; reflexivity | constructor].
      * intros Hnone; discriminate.
      * intros rect Hrect. inversion Hrect; subst.
        exists 0%nat, request, x, y. split_and!; reflexivity.
    + apply IH in Hrun as (fresh & Hcalls & Hsize & Hlen & Hsizes & Hfail & Hok).
      simpl in Hcalls, Hsize.
      exists (CallAllocate (vec_x request) (vec_y request) None :: fresh).
      rewrite Hcalls, <- app_assoc. simpl.
      split_and!; auto; try lia.
      * constructor; [eexists; reflexivity | exact Hsizes].
      * intros Hnone. destruct (Hfail Hnone) as [Hl Hf]. split; [lia | exact Hf].
      * intros rect Hrect.
        destruct (Hok rect Hrect) as (k & size & x & y & Hk & Hsz & Hat & Hr & Hpre).
        exists (S k), size, x, y. simpl. split_and!; auto.
Qed.

(** The requests [AllocateShadowMap] makes when the old rectangle is not
    re-claimed, and what the light is left with. *)
Lemma AllocateShadowMap_fresh_calls (maps : list ShadowMap)
    (light : LightDrawable) (shadowMap : ShadowMap) :
  maps !! shadowMapIndex light = Some shadowMap ->
  sameSizeAsBefore light
    && AllocateSpecific_answer (allocator shadowMap) (ShadowRect light)
    = false ->
  exists ok light' a' fresh,
    AllocateShadowMap maps light
    = Ok (ok, light',
          <[shadowMapIndex light := set_allocator a' shadowMap]> maps)
    /\ alloc_calls a'
       = alloc_calls (allocator shadowMap)
         ++ (if sameSizeAsBefore light
             then [CallAllocateSpecific (ShadowRect light) false] else [])
         ++ fresh
    /\ (length fresh <= 3)%nat
    /\ Forall2 isAllocateOf fresh
         (take (length fresh) (attemptSizes 3 (TotalShadowMapSize light)))
    /\ (ok = false ->
          length fresh = 3%nat /\ forallb callFailed fresh = true
          /\ ShadowMap_ light' = None)
    /\ (ok = true ->
          exists k size x y,
            length fresh = S k
            /\ attemptSizes 3 (TotalShadowMapSize light) !! k = Some size
            /\ fresh !! k = Some (CallAllocate (vec_x size) (vec_y size)
                                    (Some (x, y)))
            /\ forallb callFailed (take k fresh) = true
            /\ ShadowRect light'
               = mkIntRect x y (x + vec_x size) (y + vec_y size)
            /\ ShadowMap_ light' = Some (texture shadowMap)).
Proof.
  intros Hmap Hno.
  unfold AllocateShadowMap. fold (shadowMapIndex light).
  unfold at_index. rewrite Hmap. cbn [mbind Result_bind].
  fold (sameSizeAsBefore light).
  assert (Hfresh : forall a0 pre,
    alloc_calls a0 = alloc_calls (allocator shadowMap) ++ pre ->
    exists ok light' a' fresh,
      match AllocateShadowMap_retry 3 a0 (TotalShadowMapSize light) with
      | (Some rect, a1) =>
          Ok (true, SetShadowMap light (Some (texture shadowMap)) rect,
              <[shadowMapIndex light := set_allocator a1 shadowMap]> maps)
      | (None, a1) =>
          Ok (false, SetShadowMap light None IntRect_ZERO,
              <[shadowMapIndex light := set_allocator a1 shadowMap]> maps)
      end
      = Ok (ok, light',
            <[shadowMapIndex light := set_allocator a' shadowMap]> maps)
      /\ alloc_calls a' = alloc_calls (allocator shadowMap) ++ pre ++ fresh
      /\ (length fresh <= 3)%nat
      /\ Forall2 isAllocateOf fresh
           (take (length fresh) (attemptSizes 3 (TotalShadowMapSize light)))
      /\ (ok = false ->
            length fresh = 3%nat /\ forallb callFailed fresh = true
            /\ ShadowMap_ light' = None)
      /\ (ok = true ->
            exists k size x y,
              length fresh = S k
              /\ attemptSizes 3 (TotalShadowMapSize light) !! k = Some size
              /\ fresh !! k = Some (CallAllocate (vec_x size) (vec_y size)
                                      (Some (x, y)))
              /\ forallb callFailed (take k fresh) = true
              /\ ShadowRect light'
                 = mkIntRect x y (x + vec_x size) (y + vec_y size)
              /\ ShadowMap_ light' = Some (texture shadowMap))).
  { intros a0 pre Hpre.
    destruct (AllocateShadowMap_retry 3 a0 (TotalShadowMapSize light))
      as [res a1] eqn:Hrun.
    destruct (AllocateShadowMap_retry_calls _ _ _ _ _ Hrun)
      as (fresh & Hcalls & _ & Hlen & Hsizes & Hfail & Hok).
    destruct res as [rect|].
    - exists true, (SetShadowMap light (Some (texture shadowMap)) rect), a1, fresh.
      split_and!; auto.
      + rewrite Hcalls, Hpre, <- app_assoc. reflexivity.
      + intros Hf; discriminate.
      + intros _.
        destruct (Hok rect eq_refl) as (k & size & x & y & Hk & Hsz & Hat & Hr & Hp).
        exists k, size, x, y. subst rect. split_and!; auto.
    - exists false, (SetShadowMap light None IntRect_ZERO), a1, fresh.
      split_and!; auto.
      + rewrite Hcalls, Hpre, <- app_assoc. reflexivity.
      + intros _. destruct (Hfail eq_refl). split_and!; auto.
      + intros Hf; discriminate. }
  destruct (sameSizeAsBefore light) eqn:Hsame.
  - simpl in Hno. unfold AllocateSpecific. rewrite Hno.
    apply Hfresh. reflexivity.
  - specialize (Hfresh (allocator shadowMap) []).
    rewrite app_nil_r in Hfresh. apply Hfresh. reflexivity.
Qed.

(** C3, as amended. When the rectangle of the previous frame is not
    re-claimed (the light asks for another size, or [AllocateSpecific]
    refuses), [AllocateShadowMap] makes at most three fresh attempts in all:
    at the requested size, at half of it and at a quarter of it, stopping at
    the first that succeeds. When the three attempts fail the shadow map of
    the light is cleared and the function returns false, and the main loop
    of [ProcessLightsWork], when the call is made there, moves on to the
    next light: the light gets no shadow view and no shadow caster task.
    When an attempt succeeds the light holds the rectangle that attempt was
    given. *)
Theorem AllocateShadowMap_fresh_attempts (maps : list ShadowMap)
    (light : LightDrawable) (shadowMap : ShadowMap) :
  maps !! shadowMapIndex light = Some shadowMap ->
  sameSizeAsBefore light
    && AllocateSpecific_answer (allocator shadowMap) (ShadowRect light)
    = false ->
  exists ok light' a' fresh,
    AllocateShadowMap maps light
    = Ok (ok, light',
          <[shadowMapIndex light := set_allocator a' shadowMap]> maps)
    /\ alloc_calls a'
       = alloc_calls (allocator shadowMap)
         ++ (if sameSizeAsBefore light
             then [CallAllocateSpecific (ShadowRect light) false] else [])
         ++ fresh
    /\ (length fresh <= 3)%nat
    /\ Forall2 isAllocateOf fresh
         (take (length fresh) (attemptSizes 3 (TotalShadowMapSize light)))
    /\ (ok = false ->
          length fresh = 3%nat /\ forallb callFailed fresh = true
          /\ ShadowMap_ light' = None
          /\ (castsShadows light = true -> ShadowMap_ light = None ->
              setupLightShadow true light maps
              = Ok (light',
                    <[shadowMapIndex light := set_allocator a' shadowMap]> maps,
                    [])))
    /\ (ok = true ->
          exists k size x y,
            length fresh = S k
            /\ attemptSizes 3 (TotalShadowMapSize light) !! k = Some size
            /\ fresh !! k = Some (CallAllocate (vec_x size) (vec_y size)
                                    (Some (x, y)))
            /\ forallb callFailed (take k fresh) = true
            /\ ShadowRect light'
               = mkIntRect x y (x + vec_x size) (y + vec_y size)
            /\ ShadowMap_ light' = Some (texture shadowMap)).
Proof.
  intros Hmap Hno.
  destruct (AllocateShadowMap_fresh_calls maps light shadowMap Hmap Hno)
    as (ok & light' & a' & fresh & Hrun & Hcalls & Hlen & Hsizes & Hfail & Hok).
  exists ok, light', a', fresh. split_and!; auto.
  intros ->. destruct (Hfail eq_refl) as (H1 & H2 & H3).
  split_and!; auto.
  intros Hcasts Hnone. unfold setupLightShadow.
  rewrite Hcasts, Hnone, Hrun. reflexivity.
Qed.

(** C4. When the light asks for exactly the width and height of the
    rectangle it held in the previous frame, the first request that
    [AllocateShadowMap] makes to the allocator is to re-claim that
    rectangle, and when the allocator grants it the light is given the
    identical rectangle, with no other request made. *)
Theorem AllocateShadowMap_reclaims (maps : list ShadowMap)
    (light : LightDrawable) (shadowMap : ShadowMap) :
  maps !! shadowMapIndex light = Some shadowMap ->
  sameSizeAsBefore light = true ->
  exists ok light' a' more,
    AllocateShadowMap maps light
    = Ok (ok, light',
          <[shadowMapIndex light := set_allocator a' shadowMap]> maps)
    /\ alloc_calls a'
       = alloc_calls (allocator shadowMap)
         ++ CallAllocateSpecific (ShadowRect light)
              (AllocateSpecific_answer (allocator shadowMap) (ShadowRect light))
            :: more
    /\ (AllocateSpecific_answer (allocator shadowMap) (ShadowRect light) = true ->
          ok = true /\ more = []
          /\ ShadowRect light' = ShadowRect light
          /\ ShadowMap_ light' = Some (texture shadowMap)).
Proof.
  intros Hmap Hsame.
  unfold AllocateShadowMap. fold (shadowMapIndex light).
  unfold at_index. rewrite Hmap. cbn [mbind Result_bind].
  fold (sameSizeAsBefore light). rewrite Hsame.
  unfold AllocateSpecific.
  destruct (AllocateSpecific_answer (allocator shadowMap) (ShadowRect light))
    eqn:Hans.
  - eexists true, _, _, []. split_and!; try reflexivity.
    intros _. split_and!; reflexivity.
  - match goal with
    | |- context [AllocateShadowMap_retry 3 ?a0 ?rq] =>
        destruct (AllocateShadowMap_retry 3 a0 rq) as [res a1] eqn:Hrun
    end.
    destruct (AllocateShadowMap_retry_calls _ _ _ _ _ Hrun)
      as (fresh & Hcalls & _).
    simpl in Hcalls. rewrite <- app_assoc in Hcalls. simpl in Hcalls.
    destruct res as [rect|].
    + eexists true, _, a1, fresh. split_and!; [reflexivity | exact Hcalls |].
      intros Hf; discriminate.
    + eexists false, _, a1, fresh. split_and!; [reflexivity | exact Hcalls |].
      intros Hf; discriminate.
Qed.

End AllocationProperties.

(** ** Frame preparation *)

Lemma nextFrameNumber_spec (f : Z) :
  0 <= f < 65536 ->
  1 <= nextFrameNumber f < 65536
  /\ (f < 65535 -> nextFrameNumber f = f + 1)
  /\ (f = 65535 -> nextFrameNumber f = 1).
Proof.
  intros Hf. unfold nextFrameNumber.
  destruct (Z.eq_dec f 65535) as [->|Hne].
  - vm_compute. split_and!; intros; congruence.
  - rewrite (Z.mod_small (f + 1)) by lia.
    destruct (f + 1 =? 0) eqn:E; [lia|].
    split_and!; intros; lia.
Qed.

Lemma frameHeader_inv r r' :
  frameHeader r' = frameHeader r ->
  frameNumber r' = frameNumber r /\ drawShadows r' = drawShadows r
  /\ shadowMapsDirty r' = shadowMapsDirty r
  /\ hasInstancing r' = hasInstancing r
  /\ rootLevelOctants r' = rootLevelOctants r
  /\ shadowMaps r' = shadowMaps r /\ lights r' = lights r
  /\ dirLight r' = dirLight r.
Proof.
  unfold frameHeader. intros Hh. inversion Hh. split_and!; reflexivity.
Qed.

Section FrameProperties.
Context `{Collaborators}.

Lemma CollectBatchesWork_header wq os t r r' :
  CollectBatchesWork wq os t r = Ok r' ->
  frameHeader r' = frameHeader r /\ queued r' = queued r
  /\ octantResults r' = octantResults r.
Proof.
  unfold CollectBatchesWork. intros Hrun. bind_ok Hrun.
  destruct (1 <? NumThreads wq)%nat;
    repeat match type of Hrun with
           | context [let '(_, _) := ?p in _] => destruct p
           end;
    inversion Hrun; subst; auto.
Qed.

Lemma runBatchTasks_header wq tasks : forall n r r' n',
  runBatchTasks wq tasks n r = Ok (r', n') ->
  frameHeader r' = frameHeader r /\ queued r' = queued r
  /\ octantResults r' = octantResults r.
Proof.
  induction tasks as [|os rest IH]; intros n r r' n' Hrun; simpl in Hrun.
  - inversion Hrun; subst. auto.
  - bind_ok Hrun.
    apply CollectBatchesWork_header in E as (H1 & H2 & H3).
    apply IH in Hrun as (H4 & H5 & H6).
    split_and!; congruence.
Qed.

Lemma CollectOctantsWork_header wq root o i r r' tasks :
  CollectOctantsWork wq root o i r = Ok (r', tasks) ->
  frameHeader r' = frameHeader r /\ shadowTasks r' = shadowTasks r
  /\ length (octantResults r') = length (octantResults r).
Proof.
  unfold CollectOctantsWork. intros Hrun. bind_ok Hrun.
  destruct (CollectOctantsAndLights _ _ _ _ _ _) as [res ts].
  inversion Hrun; subst; clear Hrun.
  split_and!; [reflexivity | | cbn; apply length_insert].
  unfold shadowTasks. cbn. rewrite list.filter_app.
  match goal with
  | |- _ ++ ?l = _ => assert (Hnil : l = []); [|rewrite Hnil, app_nil_r; reflexivity]
  end.
  match goal with |- filter _ (map _ ?l) = _ => generalize l end.
  intros l. induction l as [|x l IH]; [reflexivity|].
  change (map CollectBatchesTask (x :: l))
    with (CollectBatchesTask x :: map CollectBatchesTask l).
  rewrite list.filter_cons_False by (cbn; discriminate). exact IH.
Qed.

Lemma runCollectOctantsTasks_header wq root starts : forall i n r r',
  runCollectOctantsTasks wq root starts i n r = Ok r' ->
  frameHeader r' = frameHeader r /\ shadowTasks r' = shadowTasks r
  /\ length (octantResults r') = length (octantResults r).
Proof.
  induction starts as [|o rest IH]; intros i n r r' Hrun; simpl in Hrun.
  - inversion Hrun; subst. auto.
  - bind_ok Hrun. destruct a as [r1 tasks].
    bind_ok Hrun. destruct a as [r2 n'].
    apply CollectOctantsWork_header in E as (H1 & H2 & H3).
    apply runBatchTasks_header in E0 as (H4 & H5 & H6).
    apply IH in Hrun as (H7 & H8 & H9).
    unfold shadowTasks in *.
    split_and!; congruence.
Qed.

Lemma SortMainBatches_header r :
  frameHeader (SortMainBatches r) = frameHeader r
  /\ queued (SortMainBatches r) = queued r
  /\ octantResults (SortMainBatches r) = octantResults r.
Proof. split_and!; reflexivity. Qed.

Lemma ProcessLightsWork_frame r r' :
  ProcessLightsWork r = Ok r' ->
  frameNumber r' = frameNumber r /\ drawShadows r' = drawShadows r
  /\ numClusterLights r' = numClusterLights r
  /\ clusterData r' = clusterData r.
Proof.
  unfold ProcessLightsWork. intros Hrun. bind_ok Hrun.
  destruct (findDirLight _ _) as [dir0 localized].
  bind_ok Hrun. destruct a0 as [lights1 maps1].
  bind_ok Hrun. destruct a0 as [dir1 maps2].
  bind_ok Hrun. destruct a0 as [[lights2 maps3] tasks].
  bind_ok Hrun. destruct a0 as [dir2 maps4].
  inversion Hrun; subst. split_and!; reflexivity.
Qed.

Lemma ProcessShadowCastersWork_frame scene r r' zs :
  ProcessShadowCastersWork scene r = Ok (r', zs) ->
  frameNumber r' = frameNumber r /\ drawShadows r' = drawShadows r
  /\ lights r' = lights r /\ dirLight r' = dirLight r
  /\ shadowMaps r' = shadowMaps r.
Proof.
  unfold ProcessShadowCastersWork. intros Hrun. bind_ok Hrun.
  destruct a as [tasks pending].
  inversion Hrun; subst. split_and!; reflexivity.
Qed.

Lemma runCullLightsTasks_frame zs : forall r r',
  runCullLightsTasks zs r = Ok r' ->
  frameNumber r' = frameNumber r /\ drawShadows r' = drawShadows r
  /\ lights r' = lights r /\ dirLight r' = dirLight r
  /\ shadowMaps r' = shadowMaps r /\ queued r' = queued r
  /\ opaqueBatches r' = opaqueBatches r /\ alphaBatches r' = alphaBatches r.
Proof.
  induction zs as [|z zs IH]; intros r r' Hrun; simpl in Hrun.
  - inversion Hrun; subst. split_and!; reflexivity.
  - bind_ok Hrun. apply IH in Hrun.
    unfold CullLightsToFrustumWork in E. bind_ok E. destruct a0 as [c d].
    inversion E; subst. cbn in Hrun. exact Hrun.
Qed.

(** A call of [PrepareView] without a scene, a camera or an octree leaves
    the renderer, and with it the frame number, as it was. *)
Lemma PrepareView_skipped (wq : WorkQueue) (scene_ : option Scene)
    (camera_ : option Camera) (drawShadows_ : bool) (r : Renderer) :
  scene_ = None \/ camera_ = None
  \/ (exists scene, scene_ = Some scene /\ FindChild_Octree scene = None) ->
  PrepareView wq scene_ camera_ drawShadows_ r = Ok r.
Proof.
  intros [-> | [-> | (scene & -> & Hoct)]]; unfold PrepareView.
  - reflexivity.
  - destruct scene_; reflexivity.
  - destruct camera_; [rewrite Hoct|]; reflexivity.
Qed.

(** C7, as amended. A call of [PrepareView] that finds a scene, a camera
    and an octree replaces the frame number [f] by its successor in the
    cycle 1, 2, ..., 65535, 1, ...: the new number is never zero, it is
    [f + 1] as long as [f < 65535], and it is 1 after 65535. The number
    therefore increases from one frame to the next except at the
    wrap-around, where it restarts from 1, skipping zero. A call without a
    scene, a camera or an octree leaves it as it was. *)
Theorem PrepareView_frameNumber (wq : WorkQueue) (scene : Scene)
    (camera : Camera) (octree : Octree) (drawShadows_ : bool) (r : Renderer) :
  FindChild_Octree scene = Some octree ->
  0 <= frameNumber r < 65536 ->
  let f' := frameNumber (beginFrame camera drawShadows_ r) in
  f' = nextFrameNumber (frameNumber r)
  /\ f' <> 0 /\ 1 <= f' < 65536
  /\ (frameNumber r < 65535 -> f' = frameNumber r + 1)
  /\ (frameNumber r = 65535 -> f' = 1)
  /\ (forall r',
        PrepareView wq (Some scene) (Some camera) drawShadows_ r = Ok r' ->
        frameNumber r' = f')
  /\ (forall scene_ camera_,
        scene_ = None \/ camera_ = None
        \/ (exists scene0, scene_ = Some scene0
                           /\ FindChild_Octree scene0 = None) ->
        PrepareView wq scene_ camera_ drawShadows_ r = Ok r).
Proof.
  intros Hoct Hf f'.
  destruct (nextFrameNumber_spec _ Hf) as (Hrange & Hinc & Hwrap).
  assert (Hf' : f' = nextFrameNumber (frameNumber r)) by reflexivity.
  split_and!; try (rewrite Hf'; auto; lia);
    [|intros scene_ camera_ Hskip; apply PrepareView_skipped; exact Hskip].
  intros r' Hrun. unfold PrepareView in Hrun. rewrite Hoct in Hrun.
  bind_ok Hrun.
  apply runCollectOctantsTasks_header in E as (Hh & _).
  destruct (0 <? numPendingBatchTasks a); [discriminate|].
  unfold completeTasks in Hrun.
  assert (Ha : frameNumber (SortMainBatches a) = f').
  { change (frameNumber (SortMainBatches a)) with (frameNumber a).
    apply frameHeader_inv in Hh as (Hh & _). exact Hh. }
  destruct (0 <? length (rootLevelOctants (SortMainBatches a)))%nat.
  - bind_ok Hrun. bind_ok Hrun. destruct a1 as [r2 zs].
    apply ProcessLightsWork_frame in E as (H1 & _).
    apply ProcessShadowCastersWork_frame in E0 as (H2 & _).
    apply runCullLightsTasks_frame in Hrun as (H3 & _).
    congruence.
  - inversion Hrun; subst. exact Ha.
Qed.

(** The pending counter: every batch task queued adds one, every octant
    or batch task that completes takes one away, so that the octant tasks
    of a frame, once they and the batch tasks they queued have run, have
    lowered it by their number. *)
Lemma CollectBatchesWork_pending wq os t r r' :
  CollectBatchesWork wq os t r = Ok r' ->
  numPendingBatchTasks r' = numPendingBatchTasks r - 1.
Proof.
  unfold CollectBatchesWork. intros Hrun. bind_ok Hrun.
  destruct (1 <? NumThreads wq)%nat;
    repeat match type of Hrun with
           | context [let '(_, _) := ?p in _] => destruct p
           end;
    inversion Hrun; subst; reflexivity.
Qed.

Lemma runBatchTasks_pending wq tasks : forall n r r' n',
  runBatchTasks wq tasks n r = Ok (r', n') ->
  numPendingBatchTasks r'
  = numPendingBatchTasks r - Z.of_nat (length tasks).
Proof.
  induction tasks as [|os rest IH]; intros n r r' n' Hrun;
    cbn [runBatchTasks] in Hrun.
  - inversion Hrun; subst. cbn. lia.
  - bind_ok Hrun. apply CollectBatchesWork_pending in E.
    apply IH in Hrun. cbn [length]. lia.
Qed.

Lemma runCollectOctantsTasks_pending wq root starts : forall i n r r',
  runCollectOctantsTasks wq root starts i n r = Ok r' ->
  numPendingBatchTasks r'
  = numPendingBatchTasks r - Z.of_nat (length starts).
Proof.
  induction starts as [|o rest IH]; intros i n r r' Hrun;
    cbn [runCollectOctantsTasks] in Hrun.
  - inversion Hrun; subst. cbn. lia.
  - bind_ok Hrun. destruct a as [r1 tasks].
    bind_ok Hrun. destruct a as [r2 n'].
    apply runBatchTasks_pending in E0. apply IH in Hrun.
    assert (H1 : numPendingBatchTasks r1
                 = numPendingBatchTasks r + Z.of_nat (length tasks) - 1).
    { unfold CollectOctantsWork in E. bind_ok E.
      destruct (CollectOctantsAndLights _ _ _ _ _ _) as [res ts].
      inversion E; subst. reflexivity. }
    cbn [length]. lia.
Qed.

(** The wait loop of [PrepareView] always ends: when the tasks of the
    frame have run without fault, the pending counter is back to zero. *)
Lemma PrepareView_never_stalls (wq : WorkQueue) (rootOctant : Octant)
    (r r' : Renderer) :
  numPendingBatchTasks r = Z.of_nat (length (findRootLevelOctants rootOctant)) ->
  runCollectOctantsTasks wq rootOctant (findRootLevelOctants rootOctant) 0 0 r
  = Ok r' ->
  numPendingBatchTasks r' = 0.
Proof.
  intros Hstart Hrun. apply runCollectOctantsTasks_pending in Hrun. lia.
Qed.

Lemma mergeBatches_cleared (f : ThreadBatchResult -> list Batch)
    (results : list ThreadBatchResult) :
  (forall res, f (ThreadBatchResult_Clear res) = []) ->
  foldl (fun acc res => acc ++ f res) []
    (map ThreadBatchResult_Clear results) = [].
Proof.
  intros Hf. induction results as [|res rest IH]; [reflexivity|].
  cbn [map foldl]. rewrite Hf. exact IH.
Qed.

Lemma BatchQueue_Sort_nil mode c : BatchQueue_Sort mode c [] = [].
Proof. apply nil_length_inv. rewrite BatchQueue_Sort_length. reflexivity. Qed.

Lemma findRootLevelOctants_empty (rootOctant : Octant) :
  drawables rootOctant = [] ->
  Forall (fun c => c = None) (children rootOctant) ->
  findRootLevelOctants rootOctant = [].
Proof.
  intros Hd Hc. unfold findRootLevelOctants. rewrite Hd.
  assert (Ht : Forall (fun c : option Octant => c = None)
                 (take NUM_OCTANTS (children rootOctant))).
  { apply Forall_take. exact Hc. }
  revert Ht. generalize (take NUM_OCTANTS (children rootOctant)).
  intros cs Ht. induction Ht as [|c cs -> _ IH]; [reflexivity | exact IH].
Qed.

(** C8. For a scene whose octree root holds no drawables and has no child
    octants, [PrepareView] runs to completion; afterwards the opaque and
    the alpha batch queue are empty and no task has been handed to the work
    queue (so no shadow caster or shadow batch task), and [RenderOpaque]
    and [RenderAlpha] issue no draw call. *)
Theorem PrepareView_empty_scene (wq : WorkQueue) (scene : Scene)
    (camera : Camera) (octree : Octree) (drawShadows_ : bool) (r : Renderer) :
  FindChild_Octree scene = Some octree ->
  drawables (Root octree) = [] ->
  Forall (fun c => c = None) (children (Root octree)) ->
  exists r',
    PrepareView wq (Some scene) (Some camera) drawShadows_ r = Ok r'
    /\ opaqueBatches r' = [] /\ alphaBatches r' = []
    /\ queued r' = [] /\ shadowTasks r' = []
    /\ RenderOpaque r' = Ok [] /\ RenderAlpha r' = Ok [].
Proof.
  intros Hoct Hd Hc.
  unfold PrepareView. rewrite Hoct.
  rewrite (findRootLevelOctants_empty _ Hd Hc).
  cbn [runCollectOctantsTasks mbind Result_bind imap length Z.of_nat].
  cbn [numPendingBatchTasks set_queued set_numPendingShadowViews
       set_numPendingBatchTasks Z.ltb Z.compare].
  unfold completeTasks.
  cbn [rootLevelOctants SortMainBatches set_alphaBatches set_opaqueBatches
       set_queued set_numPendingShadowViews set_numPendingBatchTasks
       set_rootLevelOctants length Nat.ltb Nat.leb].
  eexists. split; [reflexivity|].
  unfold RenderOpaque, RenderAlpha, SortMainBatches.
  cbn [opaqueBatches alphaBatches queued set_alphaBatches set_opaqueBatches
       set_queued set_numPendingShadowViews set_numPendingBatchTasks
       set_rootLevelOctants batchResults beginFrame hasInstancing].
  rewrite (mergeBatches_cleared result_opaqueBatches) by reflexivity.
  rewrite (mergeBatches_cleared result_alphaBatches) by reflexivity.
  rewrite !BatchQueue_Sort_nil.
  split_and!; reflexivity.
Qed.

End FrameProperties.

(** ** Light processing without shadows *)

Section NoShadows.
Context `{Collaborators}.

Lemma clearShadowMap_idem l :
  clearShadowMap (clearShadowMap l) = clearShadowMap l.
Proof. reflexivity. Qed.

Lemma mergeLights_total results : forall n i ls,
  (i + n <= length results)%nat ->
  exists merged, mergeLights results i n ls = Ok merged.
Proof.
  induction n as [|n IH]; intros i ls Hlen; simpl.
  - eauto.
  - unfold at_index.
    destruct (results !! i) as [res|] eqn:E.
    + cbn [mbind Result_bind]. apply IH. lia.
    + apply lookup_ge_None in E. lia.
Qed.

Lemma reallocateShadowMaps_no_shadows dirty ls maps :
  reallocateShadowMaps dirty false ls maps
  = Ok (if dirty then map clearShadowMap ls else ls, maps).
Proof.
  induction ls as [|l rest IH]; simpl.
  - destruct dirty; reflexivity.
  - destruct dirty; cbn [mbind Result_bind]; rewrite IH; reflexivity.
Qed.

Lemma allocateDirLight_no_shadows dirty d maps :
  allocateDirLight dirty false d maps = Ok (clearShadowMap <$> d, maps).
Proof. destruct d as [d|], dirty; reflexivity. Qed.

Lemma setupShadowCasterTasks_no_shadows ls maps :
  setupShadowCasterTasks false ls maps = Ok (map clearShadowMap ls, maps, []).
Proof.
  induction ls as [|l rest IH]; simpl; [reflexivity|].
  unfold setupLightShadow. cbn [negb orb mbind Result_bind].
  rewrite IH. reflexivity.
Qed.

Lemma setupDirLight_unshadowed d maps :
  setupDirLight (clearShadowMap <$> d) maps = Ok (clearShadowMap <$> d, maps).
Proof. destruct d; reflexivity. Qed.

(** With the shadow flag off, light processing makes no request to any
    allocator, adds no shadow view and queues no task: the shadow maps and
    the queue are as before, and every retained light is left without a
    shadow map. *)
Lemma ProcessLightsWork_no_shadows (r : Renderer) (merged : list LightDrawable) :
  drawShadows r = false ->
  mergeLights (octantResults r) 0 (length (rootLevelOctants r)) (lights r)
  = Ok merged ->
  ProcessLightsWork r
  = Ok (set_queued (queued r ++ [])
         (set_shadowMaps (shadowMaps r)
           (set_lights
              (map clearShadowMap
                 (clampLights (std_sort (findDirLight (dirLight r) merged).2)))
              (set_dirLight
                 (clearShadowMap <$> (findDirLight (dirLight r) merged).1)
                 (set_shadowMapsDirty false r))))).
Proof.
  intros Hds Hmerge. unfold ProcessLightsWork.
  rewrite Hmerge, Hds. cbn [mbind Result_bind].
  destruct (findDirLight (dirLight r) merged) as [dir0 localized].
  rewrite reallocateShadowMaps_no_shadows. cbn [mbind Result_bind].
  rewrite allocateDirLight_no_shadows. cbn [mbind Result_bind].
  rewrite setupShadowCasterTasks_no_shadows. cbn [mbind Result_bind].
  rewrite setupDirLight_unshadowed. cbn [mbind Result_bind fst snd].
  destruct (shadowMapsDirty r); [|reflexivity].
  rewrite map_map.
  erewrite (map_ext (fun x => clearShadowMap (clearShadowMap x)));
    [reflexivity | intros; reflexivity].
Qed.

Lemma shadowTasks_app_cull r tasks zs :
  filter (fun t => is_shadow_task t = true)
    (queued r ++ tasks ++ map CullLightsTask zs)
  = shadowTasks r ++ filter (fun t => is_shadow_task t = true) tasks.
Proof.
  rewrite !list.filter_app. unfold shadowTasks.
  assert (Hnil : filter (fun t => is_shadow_task t = true)
                   (map CullLightsTask zs) = []).
  { induction zs as [|z zs IH]; [reflexivity|].
    change (map CullLightsTask (z :: zs))
      with (CullLightsTask z :: map CullLightsTask zs).
    rewrite list.filter_cons_False by (cbn; discriminate). exact IH. }
  rewrite Hnil, app_nil_r. reflexivity.
Qed.

Lemma shadowTasks_collectOctants (f : nat -> nat) (roots : list Octant) :
  filter (fun t => is_shadow_task t = true)
    (imap (fun i o => CollectOctantsTask o (f i)) roots) = [].
Proof.
  revert f. induction roots as [|o roots IH]; intros f; [reflexivity|].
  cbn [imap]. rewrite list.filter_cons_False by (cbn; discriminate).
  apply (IH (f ∘ S)).
Qed.

(** C9. When no shadow map has been set up, a call of [PrepareView] that
    reaches the traversal clears the shadow flag whatever [drawShadows_]
    is. Light processing then succeeds without any request to a shadow
    map allocator (a request would read outside the empty vector of shadow
    maps), creates no shadow view and queues no task, and shadow caster
    processing queues no shadow batch task; at the end of the frame no
    shadow task has been queued and no light holds a shadow map. *)
Theorem PrepareView_without_shadow_maps (wq : WorkQueue) (scene : Scene)
    (camera : Camera) (octree : Octree) (drawShadows_ : bool) (r : Renderer) :
  FindChild_Octree scene = Some octree ->
  shadowMaps r = [] ->
  drawShadows (beginFrame camera drawShadows_ r) = false
  /\ shadowMaps (beginFrame camera drawShadows_ r) = []
  /\ (forall light, AllocateShadowMap [] light = OutOfBounds)
  /\ (forall r1,
        drawShadows r1 = false -> shadowMaps r1 = [] ->
        (length (rootLevelOctants r1) <= length (octantResults r1))%nat ->
        exists r2 r3 zs,
          ProcessLightsWork r1 = Ok r2
          /\ shadowMaps r2 = [] /\ queued r2 = queued r1
          /\ Forall unshadowed (lights r2)
          /\ (forall d, dirLight r2 = Some d -> unshadowed d)
          /\ ProcessShadowCastersWork scene r2 = Ok (r3, zs)
          /\ shadowTasks r3 = shadowTasks r1)
  /\ (forall r',
        PrepareView wq (Some scene) (Some camera) drawShadows_ r = Ok r' ->
        drawShadows r' = false /\ shadowMaps r' = [] /\ shadowTasks r' = []
        /\ Forall unshadowed (lights r')
        /\ (forall d, dirLight r' = Some d -> unshadowed d)).
Proof.
  intros Hoct Hmaps.
  assert (Hflag : drawShadows (beginFrame camera drawShadows_ r) = false).
  { unfold beginFrame. cbn [drawShadows]. rewrite Hmaps. reflexivity. }
  assert (Hempty : shadowMaps (beginFrame camera drawShadows_ r) = []).
  { unfold beginFrame. cbn [shadowMaps]. rewrite Hmaps. reflexivity. }
  assert (Hstage : forall r1 r2,
    drawShadows r1 = false -> shadowMaps r1 = [] ->
    ProcessLightsWork r1 = Ok r2 ->
    shadowMaps r2 = [] /\ queued r2 = queued r1
    /\ drawShadows r2 = false
    /\ Forall unshadowed (lights r2)
    /\ (forall d, dirLight r2 = Some d -> unshadowed d)
    /\ exists r3 zs,
         ProcessShadowCastersWork scene r2 = Ok (r3, zs)
         /\ shadowTasks r3 = shadowTasks r1).
  { intros r1 r2 Hds Hm Hrun.
    assert (Hmerge : exists merged,
      mergeLights (octantResults r1) 0 (length (rootLevelOctants r1))
        (lights r1) = Ok merged).
    { unfold ProcessLightsWork in Hrun. bind_ok Hrun. eauto. }
    destruct Hmerge as [merged Hmerge].
    rewrite (ProcessLightsWork_no_shadows r1 merged Hds Hmerge) in Hrun.
    inversion Hrun; subst r2; clear Hrun.
    cbn [shadowMaps queued lights dirLight drawShadows set_queued
         set_shadowMaps set_lights set_dirLight set_shadowMapsDirty].
    rewrite app_nil_r.
    split_and!; auto.
    - apply List.Forall_forall. intros l Hl.
      apply in_map_iff in Hl as (l0 & <- & _). reflexivity.
    - intros d Hd.
      destruct (findDirLight (dirLight r1) merged).1; inversion Hd.
      reflexivity.
    - unfold ProcessShadowCastersWork.
      cbn [shadowMaps set_queued set_shadowMaps set_lights set_dirLight
           set_shadowMapsDirty].
      rewrite Hm. cbn [shadowMapTasks mbind Result_bind].
      do 2 eexists. split; [reflexivity|].
      unfold shadowTasks at 1.
      cbn [queued set_queued set_clusterData set_numClusterLights
           set_numPendingShadowViews set_shadowMaps set_lights set_dirLight
           set_shadowMapsDirty].
      rewrite shadowTasks_app_cull.
      change (filter (λ t : Task, is_shadow_task t = true) []) with (@nil Task).
      rewrite app_nil_r. reflexivity. }
  split_and!; auto.
  - intros r1 Hds Hm Hlen.
    destruct (mergeLights_total (octantResults r1)
                (length (rootLevelOctants r1)) 0 (lights r1) Hlen)
      as [merged Hmerge].
    pose proof (ProcessLightsWork_no_shadows r1 merged Hds Hmerge) as Hrun.
    destruct (Hstage _ _ Hds Hm Hrun) as (H1 & H2 & H3 & H4 & H5 & r3 & zs & H6 & H7).
    eexists _, r3, zs. split_and!; eauto.
  - intros r' Hrun. unfold PrepareView in Hrun. rewrite Hoct in Hrun.
    bind_ok Hrun.
    apply runCollectOctantsTasks_header in E as (Hh & Hq & _).
    apply frameHeader_inv in Hh as (_ & Hds & _ & _ & _ & Hm & Hl & Hd).
    cbn in Hds, Hm, Hl, Hd.
    change (drawShadows a = drawShadows (beginFrame camera drawShadows_ r))
      in Hds.
    rewrite Hflag in Hds. rewrite Hmaps in Hm. cbn in Hm.
    assert (Hq0 : shadowTasks a = []).
    { rewrite Hq. unfold shadowTasks. cbn [queued set_queued].
      apply (shadowTasks_collectOctants (fun i => i)). }
    destruct (0 <? numPendingBatchTasks a); [discriminate|].
    unfold completeTasks in Hrun.
    destruct (0 <? length (rootLevelOctants (SortMainBatches a)))%nat.
    + bind_ok Hrun. bind_ok Hrun. destruct a1 as [r2 zs].
      destruct (Hstage (SortMainBatches a) a0 Hds Hm E)
        as (H1 & H2 & H3 & H4 & H5 & r3 & zs' & H6 & H7).
      rewrite E0 in H6. inversion H6; subst r3 zs'.
      apply ProcessShadowCastersWork_frame in E0 as (_ & G2 & G3 & G4 & G5).
      apply runCullLightsTasks_frame in Hrun as (_ & K2 & K3 & K4 & K5 & K6 & _).
      change (shadowTasks (SortMainBatches a)) with (shadowTasks a) in H7.
      unfold shadowTasks in *. rewrite K6.
      split_and!.
      * congruence.
      * congruence.
      * congruence.
      * rewrite K3, G3. exact H4.
      * intros d Hd'. apply H5. congruence.
    + inversion Hrun; subst r'.
      cbn [drawShadows shadowMaps lights dirLight SortMainBatches
           set_alphaBatches set_opaqueBatches].
      split_and!; auto.
      * rewrite Hl. constructor.
      * intros d Hd'. rewrite Hd in Hd'. discriminate.
Qed.

Lemma std_sort_nil : std_sort [] = [].
Proof. apply Permutation_nil. apply std_sort_perm. Qed.

Lemma shadowMapTasks_no_views (r : Renderer) (maps : list ShadowMap) :
  forall i last pending,
    Forall (fun m => shadowViews m = []) maps ->
    (i + length maps <= length pending)%nat ->
    shadowMapTasks r i maps last pending = Ok ([], pending).
Proof.
  induction maps as [|m rest IH]; intros i last pending Hviews Hlen;
    [reflexivity|].
  inversion Hviews as [|? ? Hm Hrest]; subst.
  cbn [shadowMapTasks]. rewrite Hm. cbn [shadowBatchTasks mbind Result_bind].
  cbn [length] in Hlen. unfold at_index.
  destruct (pending !! i) as [n|] eqn:En;
    [|apply lookup_ge_None in En; lia].
  cbn [mbind Result_bind length Z.of_nat].
  rewrite Z.add_0_r, (list_insert_id _ _ _ En).
  rewrite IH by (auto; lia). reflexivity.
Qed.

(** The frame of an empty scene queues no shadow work whichever way the
    work queue treats the two processing tasks: run on the state that
    [PrepareView] leaves for such a scene, they succeed and hand no shadow
    caster or shadow batch task to the queue. *)
Lemma empty_frame_shadow_tasks (scene : Scene) (r : Renderer) :
  rootLevelOctants r = [] -> lights r = [] -> dirLight r = None ->
  Forall (fun m => shadowViews m = []) (shadowMaps r) ->
  (length (shadowMaps r) <= length (numPendingShadowViews r))%nat ->
  exists r1 r2 zs,
    ProcessLightsWork r = Ok r1
    /\ ProcessShadowCastersWork scene r1 = Ok (r2, zs)
    /\ shadowTasks r2 = shadowTasks r.
Proof.
  intros Hroots Hlights Hdir Hviews Hlen.
  unfold ProcessLightsWork. rewrite Hroots, Hlights, Hdir.
  cbn [length mergeLights mbind Result_bind findDirLight].
  rewrite std_sort_nil.
  cbn [clampLights length Nat.ltb Nat.leb reallocateShadowMaps
       allocateDirLight setupShadowCasterTasks setupDirLight
       mbind Result_bind].
  exists (set_queued (queued r ++ [])
            (set_shadowMaps (shadowMaps r)
               (set_lights []
                  (set_dirLight None (set_shadowMapsDirty false r))))).
  unfold ProcessShadowCastersWork.
  cbn [shadowMaps numPendingShadowViews set_queued set_shadowMaps set_lights
       set_dirLight set_shadowMapsDirty].
  rewrite (shadowMapTasks_no_views _ _ 0 None _ Hviews) by (cbn; lia).
  cbn [mbind Result_bind]. eexists _, _. split_and!; [reflexivity..|].
  unfold shadowTasks at 1.
  cbn [queued set_queued set_clusterData set_numClusterLights
       set_numPendingShadowViews set_shadowMaps set_lights set_dirLight
       set_shadowMapsDirty].
  rewrite app_nil_r, shadowTasks_app_cull.
  change (filter (λ t : Task, is_shadow_task t = true) []) with (@nil Task).
  rewrite app_nil_r. reflexivity.
Qed.

End NoShadows.

(** ** Light processing: the retained lights and the directional light *)

#[local] Instance sameLight_refl : Reflexive sameLight.
Proof. intros l. unfold sameLight. auto. Qed.

#[local] Instance sameLight_trans : Transitive sameLight.
Proof.
  intros a b c (H1 & H2 & H3 & H4) (G1 & G2 & G3 & G4).
  unfold sameLight. split_and!; congruence.
Qed.

Lemma findDirLight_kept ls : forall dir0,
  (findDirLight dir0 ls).2
  = List.filter (fun l => negb (bool_decide (GetLightType l = LIGHT_DIRECTIONAL)))
      ls.
Proof.
  induction ls as [|l rest IH]; intros dir0; simpl; [reflexivity|].
  destruct (decide (GetLightType l = LIGHT_DIRECTIONAL)) as [Hd|Hd].
  - rewrite (bool_decide_eq_true_2 _ Hd). simpl. apply IH.
  - rewrite (bool_decide_eq_false_2 _ Hd). simpl.
    specialize (IH dir0). destruct (findDirLight dir0 rest) as [d kept].
    simpl in *. rewrite IH. reflexivity.
Qed.

Lemma findDirLight_dominant ls : forall dir0,
  match (findDirLight dir0 ls).1 with
  | Some d =>
      (dir0 = Some d \/ (In d ls /\ GetLightType d = LIGHT_DIRECTIONAL))
      /\ (forall d0, dir0 = Some d0 -> colorAverage d0 <= colorAverage d)
      /\ (forall l, In l ls -> GetLightType l = LIGHT_DIRECTIONAL ->
            colorAverage l <= colorAverage d)
  | None =>
      dir0 = None
      /\ Forall (fun l => GetLightType l <> LIGHT_DIRECTIONAL) ls
  end.
Proof.
  induction ls as [|l rest IH]; intros dir0; simpl.
  - destruct dir0 as [d|]; [|auto].
    split_and!; auto; [intros d0 Hd0; inversion Hd0; lia | intros l []].
  - destruct (decide (GetLightType l = LIGHT_DIRECTIONAL)) as [Hd|Hd].
    + match goal with
      | |- context [findDirLight ?d0 rest] =>
          specialize (IH d0); destruct (findDirLight d0 rest) as [d kept]
      end.
      simpl in *. destruct d as [d|].
      * destruct IH as (Hsrc & Hold & Hmax).
        assert (Hl : colorAverage l <= colorAverage d).
        { destruct dir0 as [d0|].
          - destruct (colorAverage l >? colorAverage d0) eqn:E.
            + apply Hold. reflexivity.
            + specialize (Hold d0 eq_refl). lia.
          - apply Hold. reflexivity. }
        split_and!.
        -- destruct Hsrc as [Hsrc | [Hin Ht]]; [|right; auto].
           destruct dir0 as [d0|].
           ++ destruct (colorAverage l >? colorAverage d0);
                inversion Hsrc; subst; auto.
           ++ inversion Hsrc; subst; auto.
        -- intros d0 ->.
           destruct (colorAverage l >? colorAverage d0) eqn:E.
           ++ specialize (Hold l eq_refl). lia.
           ++ apply Hold. reflexivity.
        -- intros l' [<-|Hin] Ht; [exact Hl | auto].
      * destruct IH as [Hnone _]. destruct dir0 as [d0|]; [|discriminate].
        destruct (colorAverage l >? colorAverage d0); discriminate.
    + specialize (IH dir0). destruct (findDirLight dir0 rest) as [d kept].
      simpl in *. destruct d as [d|].
      * destruct IH as (Hsrc & Hold & Hmax). split_and!; auto.
        -- destruct Hsrc as [Hsrc | [Hin Ht]]; auto.
        -- intros l' [<-|Hin] Ht; [contradiction | auto].
      * destruct IH as [Hnone Hall]. split; [exact Hnone|].
        constructor; assumption.
Qed.

Section LightProperties.
Context `{Collaborators}.

Lemma AllocateShadowMap_sameLight maps light ok light' maps' :
  AllocateShadowMap maps light = Ok (ok, light', maps') ->
  sameLight light light' /\ length maps' = length maps
  /\ Forall2 (fun m m' => shadowViews m' = shadowViews m) maps maps'.
Proof.
  unfold AllocateShadowMap. intros Hrun. bind_ok Hrun.
  assert (Hviews : forall a',
    Forall2 (fun m m' => shadowViews m' = shadowViews m) maps
      (<[(if decide (GetLightType light = LIGHT_DIRECTIONAL)
          then 0%nat else 1%nat) := set_allocator a' a]> maps)).
  { intros a'. unfold at_index in E.
    destruct (maps !! _) as [m|] eqn:Em; inversion E; subst m.
    apply Forall2_same_length_lookup. split; [now rewrite length_insert|].
    intros i x y Hx Hy.
    destruct (decide (i = (if decide (GetLightType light = LIGHT_DIRECTIONAL)
                           then 0%nat else 1%nat))) as [->|Hne].
    - rewrite list_lookup_insert_eq in Hy by (eapply lookup_lt_Some; eauto).
      inversion Hy; subst. rewrite Em in Hx. inversion Hx; subst. reflexivity.
    - rewrite list_lookup_insert_ne in Hy by congruence.
      rewrite Hx in Hy. inversion Hy; subst. reflexivity. }
  repeat match type of Hrun with
         | context [if ?b then _ else _] => destruct b
         | context [match AllocateSpecific ?x ?y with _ => _ end] =>
             destruct (AllocateSpecific x y) as [[] ?]
         | context [match AllocateShadowMap_retry ?n ?x ?y with _ => _ end] =>
             destruct (AllocateShadowMap_retry n x y) as [[?|] ?]
         end;
    inversion Hrun; subst;
    (split_and!; [unfold sameLight; auto | apply length_insert | apply Hviews]).
Qed.

Lemma AllocateShadowMap_total maps light :
  (2 <= length maps)%nat ->
  exists ok light' maps', AllocateShadowMap maps light = Ok (ok, light', maps').
Proof.
  intros Hlen. unfold AllocateShadowMap, at_index.
  destruct (maps !! _) as [m|] eqn:Em.
  - cbn [mbind Result_bind].
    repeat match goal with
           | |- context [if ?b then _ else _] => destruct b
           | |- context [match AllocateSpecific ?x ?y with _ => _ end] =>
               destruct (AllocateSpecific x y) as [[] ?]
           | |- context [match AllocateShadowMap_retry ?n ?x ?y with _ => _ end] =>
               destruct (AllocateShadowMap_retry n x y) as [[?|] ?]
           end; eauto.
  - apply lookup_ge_None in Em.
    destruct (decide (GetLightType light = LIGHT_DIRECTIONAL)); lia.
Qed.

Lemma viewsOwned_same P maps maps' :
  Forall2 (fun m m' => shadowViews m' = shadowViews m) maps maps' ->
  viewsOwned P maps -> viewsOwned P maps'.
Proof.
  unfold viewsOwned. induction 1 as [|m m' ms ms' Hm _ IH]; intros Hown.
  - constructor.
  - inversion Hown as [|? ? Hh Ht]; subst.
    constructor; [rewrite Hm; exact Hh | apply IH; exact Ht].
Qed.

Lemma reallocateShadowMaps_spec dirty ds ls : forall maps,
  ds = false \/ (2 <= length maps)%nat ->
  exists ls' maps',
    reallocateShadowMaps dirty ds ls maps = Ok (ls', maps')
    /\ Forall2 sameLight ls ls' /\ length maps' = length maps
    /\ Forall2 (fun m m' => shadowViews m' = shadowViews m) maps maps'.
Proof.
  induction ls as [|l rest IH]; intros maps Hwf; simpl.
  - exists [], maps. split_and!; auto. apply Forall2_same_length_lookup.
    split; [reflexivity|]. intros i x y Hx Hy. congruence.
  - assert (Hstep : exists l1 maps1,
      (if dirty then Ok (SetShadowMap l None IntRect_ZERO, maps)
       else if ds && castsShadows l
               && negb (bool_decide (ShadowRect l = IntRect_ZERO))
       then '(_, light', maps') ← AllocateShadowMap maps l; Ok (light', maps')
       else Ok (l, maps)) = Ok (l1, maps1)
      /\ sameLight l l1 /\ length maps1 = length maps
      /\ Forall2 (fun m m' => shadowViews m' = shadowViews m) maps maps1).
    { assert (Hid : Forall2 (fun m m' => shadowViews m' = shadowViews m)
                      maps maps).
      { apply Forall2_same_length_lookup. split; [reflexivity|].
        intros i x y Hx Hy. congruence. }
      destruct dirty.
      - eexists _, _. split_and!; [reflexivity | | reflexivity | exact Hid].
        unfold sameLight; auto.
      - destruct (ds && castsShadows l
                  && negb (bool_decide (ShadowRect l = IntRect_ZERO))) eqn:Hc.
        + destruct Hwf as [-> | Hlen]; [discriminate|].
          destruct (AllocateShadowMap_total maps l Hlen)
            as (ok & l1 & maps1 & Hrun).
          rewrite Hrun. cbn [mbind Result_bind].
          apply AllocateShadowMap_sameLight in Hrun as (H1 & H2 & H3).
          eexists _, _. split_and!; [reflexivity | auto..].
        + eexists _, _. split_and!; [reflexivity | | reflexivity | exact Hid].
          reflexivity. }
    destruct Hstep as (l1 & maps1 & -> & Hsame & Hlen & Hviews).
    cbn [mbind Result_bind].
    destruct (IH maps1) as (rest' & maps2 & -> & Hrest & Hlen2 & Hviews2).
    { destruct Hwf; [left; assumption | right; lia]. }
    cbn [mbind Result_bind].
    eexists _, _. split_and!; [reflexivity | | lia |].
    + constructor; assumption.
    + apply Forall2_same_length_lookup. split; [lia|].
      intros i x y Hx Hy.
      destruct (maps1 !! i) as [z|] eqn:Hz.
      * rewrite (Forall2_lookup_lr _ _ _ _ _ _ Hviews2 Hz Hy).
        apply (Forall2_lookup_lr _ _ _ _ _ _ Hviews Hx Hz).
      * apply lookup_ge_None in Hz. apply lookup_lt_Some in Hx. lia.
Qed.

Lemma allocateDirLight_spec dirty ds d maps :
  ds = false \/ (2 <= length maps)%nat ->
  exists d' maps',
    allocateDirLight dirty ds d maps = Ok (d', maps')
    /\ option_Forall2 sameLight d d' /\ length maps' = length maps
    /\ Forall2 (fun m m' => shadowViews m' = shadowViews m) maps maps'
    /\ (ds = false -> forall d0, d' = Some d0 -> ShadowMap_ d0 = None).
Proof.
  intros Hwf.
  assert (Hid : Forall2 (fun m m' => shadowViews m' = shadowViews m) maps maps).
  { apply Forall2_same_length_lookup. split; [reflexivity|].
    intros i x y Hx Hy. congruence. }
  unfold allocateDirLight. destruct d as [d|];
    [|eexists _, _; split_and!;
        [reflexivity | constructor | reflexivity | exact Hid
        | intros _ d0 Hd0; discriminate]].
  destruct (negb ds || negb (castsShadows
              (if dirty then SetShadowMap d None IntRect_ZERO else d))) eqn:Hc.
  - eexists _, _. split_and!; [reflexivity | | reflexivity | exact Hid |].
    + constructor. destruct dirty; unfold sameLight; auto.
    + intros _ d0 Hd0. inversion Hd0; subst. reflexivity.
  - assert (Hds : ds = true) by (destruct ds; [reflexivity | discriminate]).
    destruct Hwf as [-> | Hlen]; [discriminate|].
    destruct (AllocateShadowMap_total maps
                (if dirty then SetShadowMap d None IntRect_ZERO else d) Hlen)
      as (ok & d2 & maps1 & Hrun).
    rewrite Hrun. cbn [mbind Result_bind].
    apply AllocateShadowMap_sameLight in Hrun as (H1 & H2 & H3).
    assert (Hd : sameLight d d2).
    { destruct dirty; [|exact H1].
      destruct H1 as (A & B & C & D). unfold sameLight. auto. }
    destruct ok; eexists _, _;
      (split_and!; [reflexivity | constructor | exact H2 | exact H3
                   | intros Hf; congruence]);
      [exact Hd|].
    destruct Hd as (A & B & C & D). unfold sameLight. auto.
Qed.

Lemma setupLightViews_views addr static cl views : forall j m views' m',
  setupLightViews addr static cl j views m = (views', m') ->
  shadowViews m'
  = shadowViews m ++ map (fun k => (addr, k)) (seq j (length views)).
Proof.
  induction views as [|v rest IH]; intros j m views' m' Hrun; simpl in Hrun.
  - inversion Hrun; subst. simpl. rewrite app_nil_r. reflexivity.
  - destruct static;
      match type of Hrun with
      | context [setupLightViews ?a ?s ?c ?k rest ?m0] =>
          destruct (setupLightViews a s c k rest m0) as [rest' m4] eqn:E
      end;
      inversion Hrun; subst;
      apply IH in E; rewrite E;
      repeat match goal with
             | |- context [if ?b then _ else _] => destruct b
             end;
      cbn [shadowViews set_shadowViews set_shadowBatches_size set_freeQueueIdx
           length seq map];
      rewrite <- app_assoc; reflexivity.
Qed.

Lemma setupDirLightViews_views addr views : forall i m views' m',
  setupDirLightViews addr i views m = (views', m') ->
  shadowViews m'
  = shadowViews m ++ map (fun k => (addr, k)) (seq i (length views)).
Proof.
  induction views as [|v rest IH]; intros i m views' m' Hrun; simpl in Hrun.
  - inversion Hrun; subst. simpl. rewrite app_nil_r. reflexivity.
  - match type of Hrun with
    | context [setupDirLightViews ?a ?k rest ?m0] =>
        destruct (setupDirLightViews a k rest m0) as [rest' m6] eqn:E
    end.
    inversion Hrun; subst.
    apply IH in E. rewrite E.
    repeat match goal with
           | |- context [if ?b then _ else _] => destruct b
           end;
    cbn [shadowViews set_shadowViews set_shadowBatches_size set_freeQueueIdx
         set_shadowCasters_size set_freeCasterListIdx length seq map];
    rewrite <- app_assoc; reflexivity.
Qed.

Lemma Forall2_views_refl (maps : list ShadowMap) :
  Forall2 (fun m m' => shadowViews m' = shadowViews m) maps maps.
Proof.
  apply Forall2_same_length_lookup. split; [reflexivity|].
  intros i x y Hx Hy. congruence.
Qed.

Lemma viewsOwned_insert P maps i m m' added :
  viewsOwned P maps ->
  maps !! i = Some m ->
  shadowViews m' = shadowViews m ++ added ->
  Forall (fun v => P v.1) added ->
  viewsOwned P (<[i := m']> maps).
Proof.
  unfold viewsOwned. intros Hown Hm Hv Hadd.
  apply Forall_insert; [exact Hown|].
  rewrite Hv. apply Forall_app. split; [|exact Hadd].
  rewrite List.Forall_forall in Hown. apply Hown.
  apply list_elem_of_In. eapply list_elem_of_lookup_2. exact Hm.
Qed.

Lemma Forall_views_of_light (P : nat -> Prop) addr j n :
  P addr ->
  Forall (fun v : nat * nat => P v.1) (map (fun k => (addr, k)) (seq j n)).
Proof.
  intros HP. apply List.Forall_forall. intros v Hv.
  apply in_map_iff in Hv as (k & <- & _). exact HP.
Qed.

Lemma setupShadowCasterTasks_spec ds ls : forall maps,
  ds = false \/ (2 <= length maps)%nat ->
  exists ls' maps' tasks,
    setupShadowCasterTasks ds ls maps = Ok (ls', maps', tasks)
    /\ Forall2 sameLight ls ls' /\ length maps' = length maps
    /\ Forall (taskOfLights ls) tasks
    /\ (forall P : nat -> Prop,
          (forall l, In l ls -> P (light_addr l)) ->
          viewsOwned P maps -> viewsOwned P maps').
Proof.
  induction ls as [|l rest IH]; intros maps Hwf.
  - exists [], maps, []. simpl. split_and!; auto.
  - assert (Hstep : exists l1 maps1 ts,
      setupLightShadow ds l maps
      = Ok (l1, maps1, ts)
      /\ sameLight l l1 /\ length maps1 = length maps
      /\ Forall (taskOfLights (l :: rest)) ts
      /\ (forall P : nat -> Prop,
            P (light_addr l) -> viewsOwned P maps -> viewsOwned P maps1)).
    { unfold setupLightShadow.
      destruct (negb ds || negb (castsShadows l)) eqn:Hc.
      - eexists _, _, _. split_and!; [reflexivity | | reflexivity | constructor | auto].
        unfold sameLight; auto.
      - assert (Hlen : (2 <= length maps)%nat).
        { destruct Hwf as [-> | Hlen]; [discriminate | exact Hlen]. }
        assert (Halloc : exists ok l1 maps1,
          (match ShadowMap_ l with
           | Some _ => Ok (true, l, maps)
           | None => AllocateShadowMap maps l
           end) = Ok (ok, l1, maps1)
          /\ sameLight l l1 /\ length maps1 = length maps
          /\ Forall2 (fun m m' => shadowViews m' = shadowViews m) maps maps1).
        { destruct (ShadowMap_ l).
          - eexists _, _, _. split_and!; [reflexivity | reflexivity | reflexivity |].
            apply Forall2_views_refl.
          - destruct (AllocateShadowMap_total maps l Hlen)
              as (ok & l1 & maps1 & Hrun).
            rewrite Hrun. eexists _, _, _. split; [reflexivity|].
            apply AllocateShadowMap_sameLight in Hrun. exact Hrun. }
        destruct Halloc as (ok & l1 & maps1 & -> & Hsame & Hlen1 & Hviews).
        cbn [mbind Result_bind].
        destruct ok; cbn [negb].
        + unfold at_index.
          destruct (maps1 !! 1%nat) as [shadowMap|] eqn:Em;
            [|apply lookup_ge_None in Em; lia].
          cbn [mbind Result_bind]. cbv zeta.
          match goal with
          | |- context [setupLightViews ?a ?s ?c ?k ?vs ?m0] =>
              destruct (setupLightViews a s c k vs m0) as [views' m3] eqn:Ev
          end.
          apply setupLightViews_views in Ev.
          eexists _, _, _. split_and!; [reflexivity | | | |].
          * destruct Hsame as (A & B & C & D). unfold sameLight. auto.
          * rewrite length_insert. exact Hlen1.
          * constructor; [|constructor].
            exists l. split; [left; reflexivity|].
            destruct Hsame as (A & _). rewrite A. reflexivity.
          * intros P HP Hown.
            eapply viewsOwned_insert;
              [eapply viewsOwned_same; eassumption | exact Em | | ].
            -- rewrite Ev.
               repeat match goal with
                      | |- context [if ?b then _ else _] => destruct b
                      end; reflexivity.
            -- apply Forall_views_of_light.
               destruct Hsame as (A & _). rewrite <- A. exact HP.
        + eexists _, _, _. split_and!; [reflexivity | exact Hsame | exact Hlen1 | constructor |].
          intros P _ Hown. eapply viewsOwned_same; eassumption. }
    destruct Hstep as (l1 & maps1 & ts & Hstep & Hsame & Hlen & Hts & Hown).
    destruct (IH maps1) as (rest' & maps2 & ts' & Hrest & Hsame' & Hlen' & Hts' & Hown').
    { destruct Hwf; [left; assumption | right; lia]. }
    exists (l1 :: rest'), maps2, (ts ++ ts').
    split_and!.
    + cbn [setupShadowCasterTasks]. rewrite Hstep. cbn [mbind Result_bind].
      rewrite Hrest. reflexivity.
    + constructor; assumption.
    + lia.
    + apply Forall_app. split; [exact Hts|].
      eapply Forall_impl; [|exact Hts'].
      intros t (l' & Hin & ->). exists l'. split; [right; exact Hin | reflexivity].
    + intros P HP Hm. apply Hown'.
      * intros l' Hin. apply HP. right. exact Hin.
      * apply Hown; [apply HP; left; reflexivity | exact Hm].
Qed.

Lemma setupDirLight_spec d maps :
  (forall d0, d = Some d0 -> ShadowMap_ d0 <> None -> (1 <= length maps)%nat) ->
  exists d' maps',
    setupDirLight d maps = Ok (d', maps')
    /\ option_Forall2 sameLight d d' /\ length maps' = length maps
    /\ (forall P : nat -> Prop,
          (forall d0, d = Some d0 -> P (light_addr d0)) ->
          viewsOwned P maps -> viewsOwned P maps').
Proof.
  intros Hwf. unfold setupDirLight.
  destruct d as [d|]; [|eexists _, _; split_and!; [reflexivity | constructor | reflexivity | auto]].
  destruct (ShadowMap_ d) as [t|] eqn:Ht;
    [|eexists _, _; split_and!; [reflexivity | constructor; reflexivity | reflexivity | auto]].
  unfold at_index.
  destruct (maps !! 0%nat) as [shadowMap|] eqn:Em.
  - cbn [mbind Result_bind].
    destruct (setupDirLightViews (light_addr d) 0 (InitShadowViews d) shadowMap)
      as [views' m] eqn:Ev.
    apply setupDirLightViews_views in Ev.
    eexists _, _. split_and!; [reflexivity | | apply length_insert |].
    + constructor. unfold sameLight. auto.
    + intros P HP Hown.
      eapply viewsOwned_insert; [exact Hown | exact Em | exact Ev |].
      apply Forall_views_of_light. apply HP. reflexivity.
  - apply lookup_ge_None in Em.
    specialize (Hwf d eq_refl). rewrite Ht in Hwf.
    assert (1 <= length maps)%nat by (apply Hwf; discriminate). lia.
Qed.

Lemma clampLights_take (ls : list LightDrawable) :
  clampLights ls = take MAX_LIGHTS ls.
Proof.
  unfold clampLights. destruct (MAX_LIGHTS <? length ls)%nat eqn:E;
    [reflexivity|].
  apply Nat.ltb_ge in E. symmetry. apply take_ge. exact E.
Qed.

Lemma StronglySorted_app_cross {A} (R : A -> A -> Prop) (l1 l2 : list A) :
  StronglySorted R (l1 ++ l2) ->
  forall x y, In x l1 -> In y l2 -> R x y.
Proof.
  induction l1 as [|a l1 IH]; intros Hs x y Hx Hy; [destruct Hx|].
  simpl in Hs. apply StronglySorted_inv in Hs as [Hs Ha].
  destruct Hx as [<-|Hx]; [|eauto].
  rewrite List.Forall_forall in Ha. apply Ha. apply in_or_app. right. exact Hy.
Qed.

Lemma StronglySorted_app_left {A} (R : A -> A -> Prop) (l1 l2 : list A) :
  StronglySorted R (l1 ++ l2) -> StronglySorted R l1.
Proof.
  induction l1 as [|a l1 IH]; intros Hs; [constructor|].
  simpl in Hs. apply StronglySorted_inv in Hs as [Hs Ha].
  constructor; [apply IH; exact Hs|].
  apply Forall_app in Ha as [Ha _]. exact Ha.
Qed.

Lemma StronglySorted_Distance (l l' : list LightDrawable) :
  Forall2 sameLight l l' ->
  StronglySorted (fun a b => CompareLights b a = false) l ->
  StronglySorted (fun a b => Distance a <= Distance b) l'.
Proof.
  induction 1 as [|a a' l l' Ha Hl IH]; intros Hs; [constructor|].
  apply StronglySorted_inv in Hs as [Hs Hall].
  constructor; [apply IH; exact Hs|].
  destruct Ha as (_ & _ & Hd & _).
  clear IH Hs. induction Hl as [|b b' l l' Hb Hl IH]; [constructor|].
  inversion Hall as [|? ? Hab Hall']; subst.
  constructor; [|apply IH; exact Hall'].
  destruct Hb as (_ & _ & Hd' & _). unfold CompareLights in Hab. lia.
Qed.

Lemma taskOfLights_sameLight (ls ls' : list LightDrawable) (t : Task) :
  Forall2 sameLight ls ls' -> taskOfLights ls t -> taskOfLights ls' t.
Proof.
  intros Hsame (l & Hin & ->).
  induction Hsame as [|a a' ls ls' Ha Hl IH]; [destruct Hin|].
  destruct Hin as [<-|Hin].
  - exists a'. split; [left; reflexivity|].
    destruct Ha as (-> & _). reflexivity.
  - destruct (IH Hin) as (l' & Hin' & Ht).
    exists l'. split; [right; exact Hin' | exact Ht].
Qed.

Lemma Forall2_sameLight_trans (l1 l2 l3 : list LightDrawable) :
  Forall2 sameLight l1 l2 -> Forall2 sameLight l2 l3 -> Forall2 sameLight l1 l3.
Proof.
  intros H12. revert l3.
  induction H12 as [|a b l1 l2 Hab _ IH]; intros l3 H23;
    inversion H23; subst; constructor.
  - etransitivity; eassumption.
  - apply IH. assumption.
Qed.

Lemma Forall2_sameLight_In_r (l1 l2 : list LightDrawable) (y : LightDrawable) :
  Forall2 sameLight l1 l2 -> In y l2 ->
  exists x, In x l1 /\ sameLight x y.
Proof.
  induction 1 as [|a b l1 l2 Hab _ IH]; intros Hin; [destruct Hin|].
  destruct Hin as [<-|Hin].
  - exists a. split; [left; reflexivity | exact Hab].
  - destruct (IH Hin) as (x & Hx & Hs). exists x. split; [right|]; assumption.
Qed.

Lemma Forall2_sameLight_In_l (l1 l2 : list LightDrawable) (x : LightDrawable) :
  Forall2 sameLight l1 l2 -> In x l1 ->
  exists y, In y l2 /\ sameLight x y.
Proof.
  induction 1 as [|a b l1 l2 Hab _ IH]; intros Hin; [destruct Hin|].
  destruct Hin as [<-|Hin].
  - exists b. split; [left; reflexivity | exact Hab].
  - destruct (IH Hin) as (y & Hy & Hs). exists y. split; [right|]; assumption.
Qed.

(** What light processing does, for a renderer it can index. *)
Lemma ProcessLightsWork_spec (r : Renderer) :
  lightsProcessable r ->
  exists r' merged tasks,
    ProcessLightsWork r = Ok r'
    /\ mergeLights (octantResults r) 0 (length (rootLevelOctants r)) (lights r)
       = Ok merged
    /\ Forall2 sameLight
         (clampLights (std_sort (findDirLight (dirLight r) merged).2))
         (lights r')
    /\ option_Forall2 sameLight (findDirLight (dirLight r) merged).1
         (dirLight r')
    /\ queued r' = queued r ++ tasks
    /\ Forall (taskOfLights (lights r')) tasks
    /\ (forall P : nat -> Prop,
          (forall l, In l (lights r') -> P (light_addr l)) ->
          (forall d, dirLight r' = Some d -> P (light_addr d)) ->
          viewsOwned P (shadowMaps r) -> viewsOwned P (shadowMaps r')).
Proof.
  intros [Hroots Hmaps].
  destruct (mergeLights_total (octantResults r) (length (rootLevelOctants r))
              0 (lights r) Hroots) as [merged Hmerge].
  unfold ProcessLightsWork. rewrite Hmerge. cbn [mbind Result_bind].
  destruct (findDirLight (dirLight r) merged) as [dir0 localized] eqn:Hfind.
  destruct (reallocateShadowMaps_spec (shadowMapsDirty r) (drawShadows r)
              (clampLights (std_sort localized)) (shadowMaps r) Hmaps)
    as (lights1 & maps1 & -> & Hs1 & Hl1 & Hv1).
  cbn [mbind Result_bind].
  assert (Hmaps1 : drawShadows r = false \/ (2 <= length maps1)%nat).
  { destruct Hmaps; [left; assumption | right; lia]. }
  destruct (allocateDirLight_spec (shadowMapsDirty r) (drawShadows r) dir0
              maps1 Hmaps1)
    as (dir1 & maps2 & -> & Hd1 & Hl2 & Hv2 & Hnone).
  cbn [mbind Result_bind].
  assert (Hmaps2 : drawShadows r = false \/ (2 <= length maps2)%nat).
  { destruct Hmaps1; [left; assumption | right; lia]. }
  destruct (setupShadowCasterTasks_spec (drawShadows r) lights1 maps2 Hmaps2)
    as (lights2 & maps3 & tasks & -> & Hs2 & Hl3 & Hts & Hown3).
  cbn [mbind Result_bind].
  destruct (setupDirLight_spec dir1 maps3)
    as (dir2 & maps4 & -> & Hd2 & Hl4 & Hown4).
  { intros d0 Hd0 Hsm. destruct Hmaps2 as [Hf | Hlen]; [|lia].
    exfalso. apply Hsm. eapply Hnone; eassumption. }
  cbn [mbind Result_bind].
  eexists _, merged, tasks. rewrite ?Hfind. cbn [fst snd].
  split_and!; [reflexivity | reflexivity | ..].
  - cbn. eapply Forall2_sameLight_trans; eassumption.
  - cbn. destruct Hd1 as [d d1 Hd1|]; inversion Hd2; subst; constructor.
    etransitivity; eassumption.
  - reflexivity.
  - cbn. eapply Forall_impl; [|exact Hts].
    intros t Ht. eapply taskOfLights_sameLight; eassumption.
  - cbn. intros P HP Hdir Hown.
    apply Hown4.
    + intros d0 ->. inversion Hd2 as [? d2' Hs|]; subst.
      destruct Hs as (Ha & _). rewrite Ha.
      apply Hdir. reflexivity.
    + apply Hown3.
      * intros l Hin.
        destruct (Forall2_sameLight_In_l _ _ _ Hs2 Hin) as (l' & Hin' & (Ha & _)).
        rewrite Ha. apply HP. exact Hin'.
      * eapply viewsOwned_same; [exact Hv2|].
        eapply viewsOwned_same; [exact Hv1|]. exact Hown.
Qed.

Lemma retained_In (ls : list LightDrawable) (x : LightDrawable) :
  In x (clampLights (std_sort ls)) -> In x ls.
Proof.
  rewrite clampLights_take. intros Hin.
  eapply Permutation_in; [symmetry; apply std_sort_perm|].
  rewrite <- (take_drop MAX_LIGHTS (std_sort ls)).
  apply in_or_app. left. exact Hin.
Qed.

Lemma NoDup_map_inj {A B} (f : A -> B) (l : list A) (x y : A) :
  List.NoDup (map f l) -> In x l -> In y l -> f x = f y -> x = y.
Proof.
  induction l as [|a l IH]; intros Hnd Hx Hy Hf; [destruct Hx|].
  simpl in Hnd. inversion Hnd as [|? ? Hnotin Hnd']; subst.
  destruct Hx as [<-|Hx], Hy as [<-|Hy]; auto.
  - exfalso. apply Hnotin. rewrite Hf. apply in_map. exact Hy.
  - exfalso. apply Hnotin. rewrite <- Hf. apply in_map. exact Hx.
Qed.

(** C5. After [ProcessLightsWork] the retained point and spot lights are
    in order of ascending distance from the camera and there are at most
    [MAX_LIGHTS] (255) of them. They are the collected point and spot
    lights less the dropped ones; the number of dropped lights is the
    excess over the cap, and no dropped light is nearer than a retained
    one. *)
Theorem ProcessLightsWork_retained_lights (r : Renderer) :
  lightsProcessable r ->
  exists r' merged retained dropped,
    ProcessLightsWork r = Ok r'
    /\ mergeLights (octantResults r) 0 (length (rootLevelOctants r)) (lights r)
       = Ok merged
    /\ Forall2 sameLight retained (lights r')
    /\ (length (lights r') <= MAX_LIGHTS)%nat
    /\ StronglySorted (fun a b => Distance a <= Distance b) (lights r')
    /\ Permutation (findDirLight (dirLight r) merged).2 (retained ++ dropped)
    /\ length dropped
       = (length (findDirLight (dirLight r) merged).2 - MAX_LIGHTS)%nat
    /\ (forall k d, In k (lights r') -> In d dropped ->
          Distance k <= Distance d).
Proof.
  intros Hwf.
  destruct (ProcessLightsWork_spec r Hwf)
    as (r' & merged & tasks & Hrun & Hmerge & Hsame & _).
  set (localized := (findDirLight (dirLight r) merged).2) in *.
  rewrite clampLights_take in Hsame.
  exists r', merged, (take MAX_LIGHTS (std_sort localized)),
    (drop MAX_LIGHTS (std_sort localized)).
  pose proof (std_sort_sorted localized) as Hsorted.
  rewrite <- (take_drop MAX_LIGHTS (std_sort localized)) in Hsorted.
  split_and!; auto.
  - rewrite <- (Forall2_length Hsame), length_take. lia.
  - eapply StronglySorted_Distance; [exact Hsame|].
    eapply StronglySorted_app_left. exact Hsorted.
  - rewrite take_drop. apply std_sort_perm.
  - rewrite length_drop.
    rewrite <- (Permutation_length (std_sort_perm localized)). reflexivity.
  - intros k d Hk Hd.
    destruct (Forall2_sameLight_In_r _ _ _ Hsame Hk) as (k0 & Hk0 & (_ & _ & Hdist & _)).
    rewrite <- Hdist.
    pose proof (StronglySorted_app_cross _ _ _ Hsorted k0 d Hk0 Hd) as Hc.
    unfold CompareLights in Hc. lia.
Qed.

(** C6. [ProcessLightsWork] leaves no directional light among the retained
    lights. The directional light it selects is one of the collected
    directional lights and none of them has a greater average colour; there
    is none exactly when no directional light was collected. Every shadow
    caster task queued and every shadow view created belongs to a retained
    light or to the selected directional light, so that a collected
    directional light other than the selected one gets neither. *)
Theorem ProcessLightsWork_directional_light (r : Renderer) :
  lightsProcessable r ->
  dirLight r = None ->
  Forall (fun m => shadowViews m = []) (shadowMaps r) ->
  exists r' merged tasks,
    ProcessLightsWork r = Ok r'
    /\ mergeLights (octantResults r) 0 (length (rootLevelOctants r)) (lights r)
       = Ok merged
    /\ Forall (fun l => GetLightType l <> LIGHT_DIRECTIONAL) (lights r')
    /\ match dirLight r' with
       | Some d =>
           GetLightType d = LIGHT_DIRECTIONAL
           /\ (exists d0, In d0 merged /\ sameLight d0 d)
           /\ (forall l, In l merged -> GetLightType l = LIGHT_DIRECTIONAL ->
                 colorAverage l <= colorAverage d)
       | None => Forall (fun l => GetLightType l <> LIGHT_DIRECTIONAL) merged
       end
    /\ queued r' = queued r ++ tasks
    /\ Forall (taskOfLights (lights r')) tasks
    /\ viewsOwned
         (fun a => (exists l, In l (lights r') /\ light_addr l = a)
                   \/ (exists d, dirLight r' = Some d /\ light_addr d = a))
         (shadowMaps r')
    /\ (List.NoDup (map light_addr merged) ->
        forall l, In l merged -> GetLightType l = LIGHT_DIRECTIONAL ->
          (forall d, dirLight r' = Some d -> light_addr d <> light_addr l) ->
          ~ In (CollectShadowCastersTask (light_addr l)) tasks
          /\ viewsOwned (fun a => a <> light_addr l) (shadowMaps r')).
Proof.
  intros Hwf Hdir0 Hviews0.
  destruct (ProcessLightsWork_spec r Hwf)
    as (r' & merged & tasks & Hrun & Hmerge & Hsame & Hdir & Hq & Hts & Hown).
  rewrite Hdir0 in *.
  assert (Hempty : forall P, viewsOwned P (shadowMaps r)).
  { intros P. unfold viewsOwned. eapply Forall_impl; [|exact Hviews0].
    intros m ->. constructor. }
  assert (Hlocal : forall l', In l' (lights r') ->
    exists x, In x merged /\ GetLightType x <> LIGHT_DIRECTIONAL
              /\ sameLight x l').
  { intros l' Hin.
    destruct (Forall2_sameLight_In_r _ _ _ Hsame Hin) as (x & Hx & Hs).
    apply retained_In in Hx. rewrite findDirLight_kept in Hx.
    apply filter_In in Hx as [Hx Ht].
    exists x. split_and!; auto.
    intros Hd. rewrite (bool_decide_eq_true_2 _ Hd) in Ht. discriminate. }
  pose proof (findDirLight_dominant merged None) as Hdom.
  exists r', merged, tasks. split_and!; auto.
  - apply List.Forall_forall. intros l' Hin.
    destruct (Hlocal l' Hin) as (x & _ & Ht & (_ & Hty & _)). congruence.
  - destruct Hdir as [d0 d Hs|].
    + destruct Hdom as ([Hsrc | [Hin Ht]] & _ & Hmax); [discriminate|].
      destruct Hs as (Ha & Hty & Hdist & Hcol).
      split_and!; [congruence | | ].
      * exists d0. split; [exact Hin|]. unfold sameLight. auto.
      * intros l Hl Hlt. rewrite <- Hcol. apply Hmax; assumption.
    + destruct Hdom as [_ Hall]. exact Hall.
  - apply Hown; [| | apply Hempty].
    + intros l Hin. left. exists l. auto.
    + intros d Hd. right. exists d. auto.
  - intros Hnd l Hl Hlt Hother.
    assert (Hnot : forall l', In l' (lights r') ->
                     light_addr l' <> light_addr l).
    { intros l' Hin Heq.
      destruct (Hlocal l' Hin) as (x & Hx & Ht & (Ha & _)).
      assert (x = l)
        by (eapply NoDup_map_inj; [exact Hnd | exact Hx | exact Hl | congruence]).
      subst x. contradiction. }
    split.
    + intros Hin. rewrite List.Forall_forall in Hts.
      destruct (Hts _ Hin) as (l' & Hin' & Heq). inversion Heq as [Ha].
      apply (Hnot l' Hin'). congruence.
    + apply Hown; [exact Hnot | exact Hother | apply Hempty].
Qed.

End LightProperties.

(** ** The render mode of a static light's shadow view *)

Lemma existsb_filter {A} (f g : A -> bool) (l : list A) :
  existsb f (List.filter g l) = existsb (fun c => g c && f c) l.
Proof.
  induction l as [|a l IH]; [reflexivity|].
  simpl. destruct (g a); simpl; rewrite IH; reflexivity.
Qed.

Lemma length_filter_pos {A} (f : A -> bool) (l : list A) :
  (0 <? length (List.filter f l))%nat = existsb f l.
Proof.
  induction l as [|a l IH]; [reflexivity|].
  simpl. destruct (f a); simpl; [reflexivity | exact IH].
Qed.

Lemma collectShadowCasters_totals frameNumber_ lightType d cs : forall t,
  let accepted := List.filter (casterAccepted lightType d) cs in
  let moved c := LastUpdateFrameNumber (caster c) =? frameNumber_ in
  let static c := drawable_IsStatic (caster c) in
  let t' := collectShadowCasters frameNumber_ lightType d cs t in
  totalShadowCasters t' = (totalShadowCasters t + length accepted)%nat
  /\ staticShadowCasters t'
     = (staticShadowCasters t + length (List.filter static accepted))%nat
  /\ dynamicCastersMoved t'
     = dynamicCastersMoved t
       || existsb (fun c => negb (static c) && moved c) accepted
  /\ staticCastersMoved t'
     = staticCastersMoved t || existsb (fun c => static c && moved c) accepted.
Proof.
  induction cs as [|c rest IH]; intros t; cbn zeta.
  - simpl. rewrite !orb_false_r. split_and!; auto; lia.
  - cbn [collectShadowCasters List.filter].
    destruct (casterAccepted lightType d c) eqn:Hacc.
    + match goal with
      | |- context [collectShadowCasters _ _ _ rest ?t0] =>
          destruct (IH t0) as (H1 & H2 & H3 & H4)
      end.
      rewrite H1, H2, H3, H4.
      cbn [totalShadowCasters staticShadowCasters dynamicCastersMoved
           staticCastersMoved List.filter existsb length].
      destruct (drawable_IsStatic (caster c));
        destruct (LastUpdateFrameNumber (caster c) =? frameNumber_);
        cbn [negb andb orb length];
        rewrite ?orb_true_r, ?orb_false_r, ?orb_true_l, ?orb_false_l;
        split_and!; auto; lia.
    + apply IH.
Qed.

Section RenderModeProperties.
Context `{Collaborators}.

(** C2. For a shadow view of a static light that is not directional,
    processed with a non-zero viewport: when the viewport or the shadow
    matrix differs from last frame's (the matrix by the tolerance
    comparison of the code) the mode is [STORE_STATIC]; otherwise, when a
    static caster moved, [STORE_STATIC]; otherwise, when a dynamic caster
    moved or the number of casters differs from last frame's,
    [RESTORE_STATIC] if there is a static caster and [DYNAMIC_LIGHT] if
    there is none; otherwise [CACHED], and then the shadow matrix of the
    view is last frame's. The casters are those the loop accepts. *)
Theorem static_light_render_mode (frameNumber_ : Z) (lightType : LightType)
    (view : ShadowView) (casters : list ShadowCaster)
    (queueStatic queueDynamic : list Batch) :
  lightType <> LIGHT_DIRECTIONAL ->
  viewport view <> IntRect_ZERO ->
  let accepted := List.filter (casterAccepted lightType false) casters in
  let moved c := LastUpdateFrameNumber (caster c) =? frameNumber_ in
  let static c := drawable_IsStatic (caster c) in
  let view' :=
    (CollectShadowBatchesWork_view frameNumber_ lightType true view casters
       queueStatic queueDynamic).1.1 in
  renderMode view'
  = (if negb (bool_decide (lastViewport view = viewport view))
        || negb (Matrix4_Equals (lastShadowMatrix view) (shadowMatrix view))
     then RENDER_STATIC_LIGHT_STORE_STATIC
     else if existsb (fun c => static c && moved c) accepted
     then RENDER_STATIC_LIGHT_STORE_STATIC
     else if existsb (fun c => negb (static c) && moved c) accepted
             || negb (lastNumGeometries view =? length accepted)%nat
     then (if existsb static accepted
           then RENDER_STATIC_LIGHT_RESTORE_STATIC
           else RENDER_DYNAMIC_LIGHT)
     else RENDER_STATIC_LIGHT_CACHED)
  /\ (renderMode view' = RENDER_STATIC_LIGHT_CACHED ->
      shadowMatrix view' = lastShadowMatrix view).
Proof.
  intros Hdir Hvp accepted moved static view'.
  subst view'. unfold CollectShadowBatchesWork_view.
  rewrite (bool_decide_eq_false_2 _ Hvp).
  rewrite (bool_decide_eq_false_2 _ Hdir). cbn [negb orb].
  match goal with
  | |- context [collectShadowCasters ?f ?lt ?d ?cs ?t0] =>
      destruct (collectShadowCasters_totals f lt d cs t0) as (H1 & H2 & H3 & H4);
      set (t := collectShadowCasters f lt d cs t0) in *
  end.
  cbn [totalShadowCasters staticShadowCasters dynamicCastersMoved
       staticCastersMoved orb Nat.add] in H1, H2, H3, H4.
  fold accepted in H1, H2, H3, H4. fold static in H2, H3, H4.
  fold moved in H3, H4.
  assert (Hmode : resolveRenderMode false view t
    = (if negb (bool_decide (lastViewport view = viewport view))
          || negb (Matrix4_Equals (lastShadowMatrix view) (shadowMatrix view))
       then RENDER_STATIC_LIGHT_STORE_STATIC
       else if existsb (fun c => static c && moved c) accepted
       then RENDER_STATIC_LIGHT_STORE_STATIC
       else if existsb (fun c => negb (static c) && moved c) accepted
               || negb (lastNumGeometries view =? length accepted)%nat
       then (if existsb static accepted
             then RENDER_STATIC_LIGHT_RESTORE_STATIC
             else RENDER_DYNAMIC_LIGHT)
       else RENDER_STATIC_LIGHT_CACHED)).
  { unfold resolveRenderMode. rewrite H1, H2, H3, H4.
    rewrite length_filter_pos. reflexivity. }
  destruct (bool_decide (resolveRenderMode false view t
                         = RENDER_STATIC_LIGHT_CACHED)) eqn:Hc.
  - cbn [fst]. split; [cbn; exact Hmode | intros _; reflexivity].
  - cbn [fst]. split; [cbn; exact Hmode|].
    cbn. intros Hcached.
    apply bool_decide_eq_false_1 in Hc. contradiction.
Qed.

End RenderModeProperties.

(** ** Light culling to the cluster grid *)

Lemma cullRow_entries i light n :
  (S i <= n <= 255)%nat ->
  forall xs idx st idx' st',
    cullRow i light idx xs st = Ok (idx', st') ->
    Forall (fun v => 0 <= v <= Z.of_nat n) st.2 ->
    Forall (fun v => 0 <= v <= Z.of_nat n) st'.2.
Proof.
  intros Hi. induction xs as [|xs IH]; intros idx st idx' st' Hrun Hall;
    cbn [cullRow] in Hrun.
  - inversion Hrun; subst. exact Hall.
  - bind_ok Hrun. apply IH in Hrun; [exact Hrun|].
    destruct (clusterHit light idx); [|inversion E; subst; exact Hall].
    bind_ok E.
    destruct (_ <? length st.2)%nat; [|discriminate].
    inversion E; subst. cbn [snd].
    apply Forall_insert; [exact Hall|].
    rewrite Z.mod_small; lia.
Qed.

Lemma cullSlice_entries i light n :
  (S i <= n <= 255)%nat ->
  forall ys idx st st',
    cullSlice i light idx ys st = Ok st' ->
    Forall (fun v => 0 <= v <= Z.of_nat n) st.2 ->
    Forall (fun v => 0 <= v <= Z.of_nat n) st'.2.
Proof.
  intros Hi. induction ys as [|ys IH]; intros idx st st' Hrun Hall;
    cbn [cullSlice] in Hrun.
  - inversion Hrun; subst. exact Hall.
  - bind_ok Hrun. destruct a as [idx' st1].
    eapply IH; [exact Hrun|].
    eapply cullRow_entries; eassumption.
Qed.

(** The part of the cluster invariant that the code keeps: with at most 255
    retained lights, every byte of the light-index table is zero or the
    1-based index of a retained light. *)
Lemma cullLights_entries z n : forall ls i st st',
  (i + length ls <= n <= 255)%nat ->
  cullLights z i ls st = Ok st' ->
  Forall (fun v => 0 <= v <= Z.of_nat n) st.2 ->
  Forall (fun v => 0 <= v <= Z.of_nat n) st'.2.
Proof.
  induction ls as [|l rest IH]; intros i st st' Hn Hrun Hall;
    cbn [cullLights] in Hrun.
  - inversion Hrun; subst. exact Hall.
  - cbn [length] in Hn. bind_ok Hrun.
    eapply (IH (S i)); [lia | exact Hrun |].
    assert (Hcull :
      (if sliceRejected l z then Ok st
       else n0 ← at_index st.1 (z * NUM_CLUSTER_X * NUM_CLUSTER_Y)%nat;
            if MAX_LIGHTS_CLUSTER <=? n0 then Ok st
            else cullSlice i l (z * NUM_CLUSTER_X * NUM_CLUSTER_Y)%nat
                   NUM_CLUSTER_Y st) = Ok a ->
      Forall (fun v => 0 <= v <= Z.of_nat n) a.2).
    { intros Hs. destruct (sliceRejected l z); [inversion Hs; subst; exact Hall|].
      bind_ok Hs.
      destruct (MAX_LIGHTS_CLUSTER <=? a0); [inversion Hs; subst; exact Hall|].
      eapply (cullSlice_entries i l n); [lia | exact Hs | exact Hall]. }
    destruct (GetLightType l);
      [inversion E; subst; exact Hall | exact (Hcull E) | exact (Hcull E)].
Qed.

Import Examples.

(** C1, on the code. The guard [numClusterLights[idx] >= MAX_LIGHTS_CLUSTER]
    of [CullLightsToFrustumWork] reads the counter of the first cluster of
    the slice only. With seventeen point lights that all meet cluster 1 of
    slice 0, and not cluster 0, the task records seventeen lights for
    cluster 1: the counter passes the capacity of sixteen, and the
    seventeenth index lands in the first slot of cluster 2, which no light
    meets. With the same crowd in the last cluster of the grid the
    seventeenth write falls outside the table. *)
Theorem CullLightsToFrustumWork_exceeds_capacity :
  exists r',
    CullLightsToFrustumWork 0 (rendererAt 1 1 [] (crowd 1 17)) = Ok r'
    /\ numClusterLights r' !! 1%nat = Some 17
    /\ MAX_LIGHTS_CLUSTER < 17
    /\ clusterSlots (clusterData r') 1 = map Z.of_nat (seq 1 16)
    /\ clusterSlots (clusterData r') 2 = 17 :: replicate 15 0
    /\ CullLightsToFrustumWork 7
         (rendererAt 1 1 [] (crowd (NUM_CLUSTERS - 1) 17)) = OutOfBounds.
Proof.
  eexists. split; [vm_compute; reflexivity|].
  split_and!; vm_compute; reflexivity.
Qed.

(** When the crowd meets the first cluster of the slice, the guard does
    cap the list at sixteen. *)
Example CullLightsToFrustumWork_caps_first_cluster :
  exists r',
    CullLightsToFrustumWork 0 (rendererAt 1 1 [] (crowd 0 17)) = Ok r'
    /\ numClusterLights r' !! 0%nat = Some 16
    /\ clusterSlots (clusterData r') 0 = map Z.of_nat (seq 1 16)
    /\ clusterSlots (clusterData r') 1 = replicate 16 0.
Proof.
  eexists. split; [vm_compute; reflexivity|].
  split_and!; vm_compute; reflexivity.
Qed.

(** ** The properties on the example scenes *)

(** The shadow allocation as the specification words it makes a fourth
    attempt, at an eighth of the requested size; [AllocateShadowMap] stops
    after the third. In a 64 x 64 atlas a request for 512 x 512 fails in
    the code after attempts at 512, 256 and 128, although the 64 x 64 of a
    fourth attempt would fit. *)
Lemma AllocateShadowMap_fourth_attempt_counterexample :
  (AllocateShadowMap_retry 3 (Reset 64 64) (mkIntVector2 512 512)).1 = None
  /\ (freshAllocation_specified 3 (Reset 64 64) (mkIntVector2 512 512)).1
     = Some (mkIntRect 0 0 64 64)
  /\ exists light' maps',
       AllocateShadowMap [dirAtlas; smallAtlas] greedyLight
       = Ok (false, light', maps')
       /\ ShadowMap_ light' = None
       /\ (alloc_calls ∘ allocator) <$> maps' !! 1%nat
          = Some [CallAllocate 512 512 None; CallAllocate 256 256 None;
                  CallAllocate 128 128 None].
Proof.
  split; [vm_compute; reflexivity|].
  split; [vm_compute; reflexivity|].
  eexists _, _. split; [vm_compute; reflexivity|].
  split; vm_compute; reflexivity.
Qed.

Lemma AllocateShadowMap_fresh_attempts_witness :
  [dirAtlas; smallAtlas] !! shadowMapIndex greedyLight = Some smallAtlas
  /\ sameSizeAsBefore greedyLight
       && AllocateSpecific_answer (allocator smallAtlas) (ShadowRect greedyLight)
     = false
  /\ exists ok light' a' (fresh : list AllocatorCall),
       AllocateShadowMap [dirAtlas; smallAtlas] greedyLight
       = Ok (ok, light',
             <[shadowMapIndex greedyLight := set_allocator a' smallAtlas]>
               [dirAtlas; smallAtlas])
       /\ (length fresh <= 3)%nat.
Proof.
  split; [reflexivity|]. split; [reflexivity|].
  destruct (AllocateShadowMap_fresh_attempts [dirAtlas; smallAtlas]
              greedyLight smallAtlas eq_refl eq_refl)
    as (ok & light' & a' & fresh & Hrun & _ & Hlen & _).
  exists ok, light', a', fresh. split; assumption.
Defined.

(** A light whose rectangle cannot be re-claimed or replaced in the
    caching pre-step of [ProcessLightsWork] is given a second round of
    attempts by the main loop of the same call. *)
Example ProcessLightsWork_second_round :
  exists r',
    ProcessLightsWork
      (afterCollection [dirAtlas; smallAtlas] true
         [SetShadowMap greedyLight (Some (texture smallAtlas))
            (mkIntRect 0 0 512 512)]) = Ok r'
    /\ (alloc_calls ∘ allocator) <$> shadowMaps r' !! 1%nat
       = Some [CallAllocateSpecific (mkIntRect 0 0 512 512) false;
               CallAllocate 512 512 None; CallAllocate 256 256 None;
               CallAllocate 128 128 None;
               CallAllocate 512 512 None; CallAllocate 256 256 None;
               CallAllocate 128 128 None]
    /\ map ShadowMap_ (lights r') = [None] /\ queued r' = [].
Proof.
  eexists. split; [vm_compute; reflexivity|].
  split_and!; vm_compute; reflexivity.
Qed.

(** Two frames: the rectangle given to [pointLight] in the first frame is
    the one it holds after the second. *)
Lemma AllocateShadowMap_reclaims_witness :
  let litLastFrame :=
    SetShadowMap pointLight (Some (texture lightAtlas))
      (mkIntRect 0 0 256 256) in
  [dirAtlas; lightAtlas] !! shadowMapIndex litLastFrame = Some lightAtlas
  /\ sameSizeAsBefore litLastFrame = true
  /\ exists maps1 light2 maps2,
       AllocateShadowMap [dirAtlas; lightAtlas] pointLight
       = Ok (true, litLastFrame, maps1)
       /\ map ShadowMap_Clear maps1 = [dirAtlas; lightAtlas]
       /\ AllocateShadowMap [dirAtlas; lightAtlas] litLastFrame
          = Ok (true, light2, maps2)
       /\ ShadowRect light2 = ShadowRect litLastFrame.
Proof.
  intros litLastFrame.
  split; [reflexivity|]. split; [reflexivity|].
  destruct (AllocateShadowMap_reclaims [dirAtlas; lightAtlas] litLastFrame
              lightAtlas eq_refl eq_refl)
    as (ok & light' & a' & more & Hrun & _ & Hok).
  destruct (Hok eq_refl) as (-> & _ & Hrect & _).
  eexists _, _, _. split; [vm_compute; reflexivity|].
  split; [vm_compute; reflexivity|].
  split; [exact Hrun | exact Hrect].
Defined.

Lemma static_light_render_mode_witness :
  LIGHT_SPOT <> LIGHT_DIRECTIONAL
  /\ viewport steadyView <> IntRect_ZERO
  /\ renderMode
       (CollectShadowBatchesWork_view 5 LIGHT_SPOT true steadyView
          [casterOf 30 true 0; casterOf 31 false 0] [] []).1.1
     = RENDER_STATIC_LIGHT_CACHED
  /\ renderMode
       (CollectShadowBatchesWork_view 5 LIGHT_SPOT true steadyView
          [casterOf 30 true 0; casterOf 31 false 5] [] []).1.1
     = RENDER_STATIC_LIGHT_RESTORE_STATIC
  /\ renderMode
       (CollectShadowBatchesWork_view 5 LIGHT_SPOT true steadyView
          [casterOf 30 true 5; casterOf 31 false 0] [] []).1.1
     = RENDER_STATIC_LIGHT_STORE_STATIC
  /\ renderMode
       (CollectShadowBatchesWork_view 5 LIGHT_SPOT true steadyView
          [casterOf 31 false 5] [] []).1.1
     = RENDER_DYNAMIC_LIGHT.
Proof.
  assert (H1 : LIGHT_SPOT <> LIGHT_DIRECTIONAL) by discriminate.
  assert (H2 : viewport steadyView <> IntRect_ZERO) by discriminate.
  split; [exact H1|]. split; [exact H2|].
  split_and!.
  - rewrite (proj1 (static_light_render_mode 5 LIGHT_SPOT steadyView
                      [casterOf 30 true 0; casterOf 31 false 0] [] [] H1 H2)).
    reflexivity.
  - rewrite (proj1 (static_light_render_mode 5 LIGHT_SPOT steadyView
                      [casterOf 30 true 0; casterOf 31 false 5] [] [] H1 H2)).
    reflexivity.
  - rewrite (proj1 (static_light_render_mode 5 LIGHT_SPOT steadyView
                      [casterOf 30 true 5; casterOf 31 false 0] [] [] H1 H2)).
    reflexivity.
  - rewrite (proj1 (static_light_render_mode 5 LIGHT_SPOT steadyView
                      [casterOf 31 false 5] [] [] H1 H2)).
    reflexivity.
Defined.

(** The frame after number 65535 has number 1, which is not greater. *)
Lemma frameNumber_wraparound_counterexample :
  exists r',
    PrepareView oneThread (Some litScene) (Some camera) true
      (rendererAt 65535 1 [dirAtlas; lightAtlas] []) = Ok r'
    /\ frameNumber r' = 1
    /\ ~ (frameNumber (rendererAt 65535 1 [dirAtlas; lightAtlas] [])
          < frameNumber r').
Proof.
  eexists. split; [vm_compute; reflexivity|].
  split; [reflexivity|]. cbn. lia.
Qed.

Lemma PrepareView_frameNumber_witness :
  FindChild_Octree litScene = Some (mkOctree litRoot)
  /\ 0 <= frameNumber (rendererAt 7 1 [dirAtlas; lightAtlas] []) < 65536
  /\ exists r',
       PrepareView oneThread (Some litScene) (Some camera) true
         (rendererAt 7 1 [dirAtlas; lightAtlas] []) = Ok r'
       /\ frameNumber r' = 8.
Proof.
  assert (H1 : FindChild_Octree litScene = Some (mkOctree litRoot))
    by reflexivity.
  assert (H2 : 0 <= frameNumber (rendererAt 7 1 [dirAtlas; lightAtlas] [])
               < 65536) by (cbn; lia).
  split; [exact H1|]. split; [exact H2|].
  destruct (PrepareView_frameNumber oneThread litScene camera
              (mkOctree litRoot) true _ H1 H2)
    as (_ & _ & _ & _ & _ & Hrun & _).
  eexists. split; [vm_compute; reflexivity|].
  erewrite Hrun; [|vm_compute; reflexivity].
  reflexivity.
Defined.

Lemma PrepareView_empty_scene_witness :
  FindChild_Octree emptyScene = Some (mkOctree (leaf 1 []))
  /\ drawables (Root (mkOctree (leaf 1 []))) = []
  /\ Forall (fun c => c = None) (children (Root (mkOctree (leaf 1 []))))
  /\ exists r',
       PrepareView fourThreads (Some emptyScene) (Some camera) true
         (rendererAt 7 4 [dirAtlas; lightAtlas] []) = Ok r'
       /\ queued r' = [] /\ RenderOpaque r' = Ok [] /\ RenderAlpha r' = Ok [].
Proof.
  assert (H3 : Forall (fun c : option Octant => c = None)
                 (children (Root (mkOctree (leaf 1 []))))).
  { repeat constructor. }
  split; [reflexivity|]. split; [reflexivity|]. split; [exact H3|].
  destruct (PrepareView_empty_scene fourThreads emptyScene camera
              (mkOctree (leaf 1 [])) true
              (rendererAt 7 4 [dirAtlas; lightAtlas] []) eq_refl eq_refl H3)
    as (r' & Hrun & _ & _ & Hq & _ & Ho & Ha).
  exists r'. split_and!; assumption.
Defined.

Lemma PrepareView_without_shadow_maps_witness :
  FindChild_Octree litScene = Some (mkOctree litRoot)
  /\ shadowMaps (rendererAt 7 4 [] []) = []
  /\ exists r',
       PrepareView fourThreads (Some litScene) (Some camera) true
         (rendererAt 7 4 [] []) = Ok r'
       /\ drawShadows r' = false /\ shadowTasks r' = []
       /\ map light_addr (lights r') = [42%nat; 40%nat].
Proof.
  split; [reflexivity|]. split; [reflexivity|].
  destruct (PrepareView_without_shadow_maps fourThreads litScene camera
              (mkOctree litRoot) true (rendererAt 7 4 [] []) eq_refl eq_refl)
    as (_ & _ & _ & _ & Hrun).
  eexists. split; [vm_compute; reflexivity|].
  edestruct Hrun as (Hds & _ & Hts & _); [vm_compute; reflexivity|].
  split_and!; [exact Hds | exact Hts | vm_compute; reflexivity].
Defined.

Lemma ProcessLightsWork_retained_lights_witness :
  lightsProcessable
    (afterCollection [dirAtlas; lightAtlas] true (rev (crowd 0 300)))
  /\ exists r',
       ProcessLightsWork
         (afterCollection [dirAtlas; lightAtlas] true (rev (crowd 0 300)))
       = Ok r'
       /\ (length (lights r') <= MAX_LIGHTS)%nat
       /\ StronglySorted (fun a b => Distance a <= Distance b) (lights r').
Proof.
  assert (H1 : lightsProcessable
                 (afterCollection [dirAtlas; lightAtlas] true
                    (rev (crowd 0 300)))).
  { split; [cbn; lia | right; cbn; lia]. }
  split; [exact H1|].
  destruct (ProcessLightsWork_retained_lights _ H1)
    as (r' & merged & retained & dropped & Hrun & _ & _ & Hlen & Hs & _).
  exists r'. split_and!; assumption.
Defined.

(** Of 300 lights at distances 300 down to 1, the 255 nearest are
    retained, nearest first. *)
Example ProcessLightsWork_drops_the_farthest :
  exists r',
    ProcessLightsWork
      (afterCollection [dirAtlas; lightAtlas] false (rev (crowd 0 300))) = Ok r'
    /\ map Distance (lights r') = map Z.of_nat (seq 1 255).
Proof. eexists. split; [vm_compute; reflexivity|]. vm_compute. reflexivity. Qed.

Lemma ProcessLightsWork_directional_light_witness :
  let r := afterCollection [dirAtlas; lightAtlas] true
             [pointLight; dimSun; spotLight; brightSun] in
  lightsProcessable r
  /\ dirLight r = None
  /\ Forall (fun m => shadowViews m = []) (shadowMaps r)
  /\ exists r',
       ProcessLightsWork r = Ok r'
       /\ Forall (fun l => GetLightType l <> LIGHT_DIRECTIONAL) (lights r')
       /\ light_addr <$> dirLight r' = Some 43%nat
       /\ map shadowViews (shadowMaps r')
          = [ [(43, 0); (43, 1)];
              [(42, 0); (40, 0); (40, 1); (40, 2); (40, 3); (40, 4);
               (40, 5)] ]%nat.
Proof.
  intros r.
  assert (H1 : lightsProcessable r) by (split; [cbn; lia | right; cbn; lia]).
  assert (H3 : Forall (fun m => shadowViews m = []) (shadowMaps r))
    by (repeat constructor).
  split; [exact H1|]. split; [reflexivity|]. split; [exact H3|].
  destruct (ProcessLightsWork_directional_light r H1 eq_refl H3)
    as (r' & merged & tasks & Hrun & _ & Hnodir & _).
  exists r'. split; [exact Hrun|]. split; [exact Hnodir|].
  assert (Hr : Ok r' = ProcessLightsWork r) by (symmetry; exact Hrun).
  vm_compute in Hr. inversion Hr; subst r'. split; vm_compute; reflexivity.
Defined.

(** * Octree traversal: what [CollectOctantsAndLights] records *)

Lemma taskLoad_app (a b : list (Octant * Z)) :
  taskLoad (a ++ b) = (taskLoad a + taskLoad b)%nat.
Proof. unfold taskLoad. apply sum_list_with_app. Qed.

Lemma fromFirstGeometry_pos (ds : list Drawable) :
  (1 <= length (fromFirstGeometry ds))%nat <->
  exists d, In d ds /\ TestFlag_DF_GEOMETRY d = true.
Proof.
  unfold TestFlag_DF_GEOMETRY.
  induction ds as [|d ds IH]; cbn [fromFirstGeometry].
  - split; [cbn; lia | intros (d & [] & _)].
  - destruct (kind d) eqn:Hk.
    + rewrite IH. split.
      * intros (d' & Hin & Hg). exists d'. split; [now right | exact Hg].
      * intros (d' & [-> | Hin] & Hg); [now rewrite Hk in Hg |].
        exists d'. now split.
    + split; [intros _ | cbn; lia].
      exists d. split; [now left | now rewrite Hk].
Qed.

Lemma Gathered_refl vm root th pm result :
  Gathered vm root th pm result result [].
Proof.
  split.
  - exists []. rewrite app_nil_r. split_and!; auto.
    intros Hc. split_and!; auto. now rewrite app_nil_r.
  - exists []. now rewrite app_nil_r.
  - cbn. split_and!; auto; lia.
Qed.

Lemma Gathered_trans vm root th pm r1 r2 r3 t1 t2 :
  Gathered vm root th pm r1 r2 t1 -> Gathered vm root th pm r2 r3 t2 ->
  Gathered vm root th pm r1 r3 (t1 ++ t2).
Proof.
  intros [(n1 & Ho1 & Hf1 & Hc1) (l1 & Hl1 & Hfl1) (Hb1 & Hn1 & Ht1)]
         [(n2 & Ho2 & Hf2 & Hc2) (l2 & Hl2 & Hfl2) (Hb2 & Hn2 & Ht2)].
  split.
  - exists (n1 ++ n2). split_and!.
    + now rewrite Ho2, Ho1, <- app_assoc.
    + apply Forall_app; auto.
    + intros Hc. destruct (Hc1 Hc) as (Hc' & He1 & Hk1).
      destruct (Hc2 Hc') as (Hc'' & He2 & Hk2).
      split_and!; auto.
      * rewrite concat_app, <- app_assoc, He2, !app_assoc, He1. reflexivity.
      * apply Forall_app; auto.
  - exists (l1 ++ l2). split.
    + now rewrite Hl2, Hl1, <- app_assoc.
    + apply Forall_app; auto.
  - split_and!.
    + rewrite Hb2, Hb1, length_app. lia.
    + intros Hth. destruct (Hn1 Hth) as [-> E1], (Hn2 Hth) as [-> E2].
      split; [reflexivity | congruence].
    + auto.
Qed.

Lemma Gathered_lift vm root child th pm pm' r r' t :
  In (Some child) (children root) -> (pm = 0 -> pm' = 0) ->
  Gathered vm child th pm' r r' t -> Gathered vm root th pm r r' t.
Proof.
  intros Hin Hpm [(n & Ho & Hf & Hc) (l & Hl & Hfl) Ht].
  split; [| |exact Ht].
  - exists n. split_and!; auto.
    eapply List.Forall_impl; [|exact Hf]. cbn.
    intros om (Hs & H255 & H0 & Hload). split_and!; auto.
    eapply InSubtree_child; eauto.
  - exists l. split; auto.
    eapply List.Forall_impl; [|exact Hfl]. cbn.
    intros x (o & d & mask & Hs & Hd & Ha). exists o, d, mask. split_and!; auto.
    eapply InSubtree_child; eauto.
Qed.

(** The scan of one octant's drawables: the accepted lights at the head of
    the list are collected, and the octant is recorded when a drawable
    other than a light follows them. *)
Lemma scanDrawables_spec vm o m ds : forall result,
  let result' := scanDrawables vm o m ds result in
  taskOctantIdx result' = taskOctantIdx result /\
  batchTaskIdx result' = batchTaskIdx result /\
  result_lights result' =
    result_lights result ++ omap (acceptsLight vm m) (leadingLights ds) /\
  octants result' =
    octants result ++
      (match fromFirstGeometry ds with [] => [] | _ => [(o, m)] end) /\
  drawableAcc result' =
    (drawableAcc result + length (fromFirstGeometry ds))%nat.
Proof.
  induction ds as [|d ds IH]; intros result; cbn zeta.
  - cbn. rewrite !app_nil_r. split_and!; auto.
  - cbn [scanDrawables leadingLights fromFirstGeometry].
    destruct (kind d) eqn:Hk.
    + cbn [omap list_omap]. unfold acceptsLight at 1. rewrite Hk.
      match goal with |- context [scanDrawables vm o m ds ?r] =>
        specialize (IH r); cbn zeta in IH;
        destruct IH as (H1 & H2 & H3 & H4 & H5) end.
      rewrite H1, H2, H3, H4, H5.
      destruct (negb (Z.land (LayerMask d) vm =? 0)
                && ((m =? 0) || IsInsideMaskedFast d m)); cbn [andb];
        [destruct (OnPrepareRender d)|]; cbn;
        rewrite <- ?app_assoc; split_and!; auto.
    + cbn. rewrite app_nil_r. split_and!; auto.
Qed.

Lemma pendingOctants_app result new result' :
  (taskOctantIdx result <= length (octants result))%nat ->
  octants result' = octants result ++ new ->
  taskOctantIdx result' = taskOctantIdx result ->
  pendingOctants result' = pendingOctants result ++ new.
Proof.
  unfold pendingOctants. intros Hle -> ->. now rewrite drop_app_le.
Qed.

(** One octant: the scan of its drawables and the threshold test. *)
Lemma visitOctant_Gathered vm o th pm result :
  let planeMask' := if pm =? 0 then pm else IsInsideMasked o pm in
  (negb (pm =? 0) && (planeMask' =? 255)) = false ->
  let result1 := scanDrawables vm o planeMask' (drawables o) result in
  let step :=
    if th && (DRAWABLES_PER_BATCH_TASK <=? drawableAcc result1)%nat
    then
      (set_batchTaskIdx (S (batchTaskIdx result1))
         (set_taskOctantIdx (length (octants result1))
            (set_drawableAcc 0%nat result1)),
       [batchTaskOctants result1])
    else (result1, []) in
  Gathered vm o th pm result step.1 step.2.
Proof.
  intros pm' Hvisit result1 step.
  destruct (scanDrawables_spec vm o pm' (drawables o) result)
    as (Hidx & Hbatch & Hlights & Hoct & Hacc).
  fold result1 in Hidx, Hbatch, Hlights, Hoct, Hacc.
  set (new := match fromFirstGeometry (drawables o) with
              | [] => [] | _ => [(o, pm')] end) in *.
  assert (Hnew : Forall (fun om => InSubtree om.1 o /\ om.2 <> 255 /\
                   (pm = 0 -> om.2 = 0) /\ (1 <= octantLoad om.1)%nat) new).
  { subst new. unfold octantLoad.
    destruct (fromFirstGeometry (drawables o)) eqn:Hg; constructor; [|constructor].
    cbn [fst snd]. rewrite Hg. split_and!.
    - constructor.
    - subst pm'. destruct (pm =? 0) eqn:Hz; cbn in Hvisit.
      + apply Z.eqb_eq in Hz. lia.
      + now apply Z.eqb_neq in Hvisit.
    - intros ->. reflexivity.
    - cbn. lia. }
  assert (Hload : taskLoad new = length (fromFirstGeometry (drawables o))).
  { subst new. unfold taskLoad, octantLoad.
    destruct (fromFirstGeometry (drawables o)) eqn:Hg; cbn; [reflexivity|].
    rewrite Hg. cbn. lia. }
  assert (Hexact1 : accumulatorExact result ->
            accumulatorExact result1 /\
            pendingOctants result1 = pendingOctants result ++ new).
  { intros [Hle Hsum].
    assert (Hp := pendingOctants_app result new result1 Hle Hoct Hidx).
    split; [split|exact Hp].
    - rewrite Hidx, Hoct, length_app. lia.
    - rewrite Hacc, Hp, taskLoad_app, Hload, Hsum. reflexivity. }
  assert (Hls : Forall (fun l => exists o' d mask, InSubtree o' o /\
                   In d (drawables o') /\ acceptsLight vm mask d = Some l)
                 (omap (acceptsLight vm pm') (leadingLights (drawables o)))).
  { apply List.Forall_forall. intros l Hin.
    apply list_elem_of_In, list_elem_of_omap in Hin.
    destruct Hin as (d & Hd & Ha).
    exists o, d, pm'. split_and!; [constructor| |exact Ha].
    apply list_elem_of_In in Hd. clear -Hd.
    induction (drawables o) as [|x xs IH]; cbn in Hd; [destruct Hd|].
    destruct (kind x); [|destruct Hd].
    destruct Hd as [-> | Hd]; [now left | right; auto]. }
  subst step.
  destruct (th && (DRAWABLES_PER_BATCH_TASK <=? drawableAcc result1)%nat)
    eqn:Hthr; cbn [fst snd].
  - apply andb_true_iff in Hthr. destruct Hthr as [-> Hthr].
    apply Nat.leb_le in Hthr.
    split; cbn.
    + exists new. split_and!; auto.
      intros Hc. destruct (Hexact1 Hc) as ([Hle1 Hsum1] & Hp1).
      unfold accumulatorExact, pendingOctants, batchTaskOctants in *. cbn.
      rewrite drop_all, !app_nil_r. split_and!; auto.
      constructor; [|constructor]. rewrite <- Hsum1. exact Hthr.
    + exists (omap (acceptsLight vm pm') (leadingLights (drawables o))).
      split; auto.
    + split_and!; [lia | discriminate |].
      intros _ _. unfold DRAWABLES_PER_BATCH_TASK. lia.
  - split.
    + exists new. split_and!; auto.
      intros Hc. destruct (Hexact1 Hc) as (Hc1 & Hp1).
      cbn [concat app]. split_and!; auto.
    + exists (omap (acceptsLight vm pm') (leadingLights (drawables o))).
      split; auto.
    + cbn [length]. split_and!; [lia | auto |].
      intros -> Hlt. cbn [andb] in Hthr. apply Nat.leb_gt in Hthr. exact Hthr.
Qed.

(** What [CollectOctantsAndLights] adds to a result, for every octant, mode
    and incoming plane mask. *)
Lemma CollectOctantsAndLights_Gathered vm o :
  forall result th rec pm,
    Gathered vm o th pm result
      (CollectOctantsAndLights vm o result th rec pm).1
      (CollectOctantsAndLights vm o result th rec pm).2.
Proof.
  induction o as [addr ds inside cs IH] using Octant_subtree_ind.
  intros result th rec pm.
  cbn [CollectOctantsAndLights].
  set (o := mkOctant addr ds inside cs) in *.
  change (IsInsideMasked o pm) with (inside pm).
  change (children o) with cs. change (drawables o) with ds.
  set (pm' := if pm =? 0 then pm else inside pm).
  destruct (negb (pm =? 0) && (pm' =? 255)) eqn:Hvisit.
  { apply Gathered_refl. }
  assert (Hstep := visitOctant_Gathered vm o th pm result Hvisit).
  cbn zeta in Hstep. change (IsInsideMasked o pm) with (inside pm) in Hstep.
  fold pm' in Hstep. change (drawables o) with ds in *.
  destruct (if th && (DRAWABLES_PER_BATCH_TASK <=?
                        drawableAcc (scanDrawables vm o pm' ds result))%nat
            then _ else _) as [result2 tasks] eqn:Hthr.
  cbn [fst snd] in Hstep.
  destruct rec; [|exact Hstep].
  assert (Hsub : forall c, In c cs -> In c (children o)) by auto.
  clearbody o. revert Hstep Hsub. generalize result2 tasks. clear Hthr result2 tasks.
  induction IH as [|c cs' Hc Hcs IHcs]; intros result2 tasks Hstep Hsub.
  - exact Hstep.
  - destruct c as [child|].
    + destruct (CollectOctantsAndLights vm child (result2, tasks).1 th true pm')
        as [res ts] eqn:Hchild.
      apply IHcs.
      * cbn [fst snd]. eapply Gathered_trans; [exact Hstep|].
        eapply Gathered_lift with (child := child) (pm' := pm').
        -- apply Hsub. now left.
        -- subst pm'. intros ->. reflexivity.
        -- specialize (Hc result2 th true pm'). cbn [fst] in Hchild.
           rewrite Hchild in Hc. exact Hc.
      * intros c' Hin. apply Hsub. now right.
    + apply IHcs; [exact Hstep|]. intros c' Hin. apply Hsub. now right.
Qed.

(** The result of an octant collection task, from a result slot cleared as
    at the start of the frame. *)
Lemma CollectOctantsWork_Gathered wq root start i r r' tasks :
  octantResults r !! i = Some (mkThreadOctantResult 0 0 0 [] []) ->
  CollectOctantsWork wq root start i r = Ok (r', tasks) ->
  exists result ts,
    octantResults r' !! i = Some result /\
    Gathered (viewMask r) start (1 <? NumThreads wq)%nat 63
      (mkThreadOctantResult 0 0 0 [] []) result ts /\
    tasks = (if (0 <? drawableAcc result)%nat
             then ts ++ [pendingOctants result] else ts) /\
    queued r' = queued r ++ map CollectBatchesTask tasks.
Proof.
  intros Hslot Hrun. unfold CollectOctantsWork, at_index in Hrun.
  rewrite Hslot in Hrun. cbn [mbind Result_bind] in Hrun.
  assert (HG := CollectOctantsAndLights_Gathered (viewMask r) start
                  (mkThreadOctantResult 0 0 0 [] []) (1 <? NumThreads wq)%nat
                  (negb (octant_addr start =? octant_addr root)%nat) 63).
  destruct (CollectOctantsAndLights _ _ _ _ _ _) as [result ts].
  cbn [fst snd] in HG. inversion Hrun; subst r' tasks; clear Hrun.
  exists result, ts. cbn [octantResults queued]. split_and!; auto.
  apply list_lookup_insert_eq. eapply lookup_lt_Some; eauto.
Qed.

Lemma accumulatorExact_cleared :
  accumulatorExact (mkThreadOctantResult 0 0 0 [] []).
Proof. split; cbn; [lia | reflexivity]. Qed.

(** The batch collection tasks of an octant collection task: their
    octants, in order, are the octants recorded; none is empty, and every
    one but the last reached the threshold. *)
Lemma CollectOctantsWork_tasks wq root start i r r' tasks :
  octantResults r !! i = Some (mkThreadOctantResult 0 0 0 [] []) ->
  CollectOctantsWork wq root start i r = Ok (r', tasks) ->
  exists result,
    octantResults r' !! i = Some result /\
    concat tasks = octants result /\
    Forall (fun t => (1 <= taskLoad t)%nat) tasks /\
    (forall k t, tasks !! k = Some t -> (S k < length tasks)%nat ->
       (DRAWABLES_PER_BATCH_TASK <= taskLoad t)%nat) /\
    queued r' = queued r ++ map CollectBatchesTask tasks.
Proof.
  intros Hslot Hrun.
  destruct (CollectOctantsWork_Gathered _ _ _ _ _ _ _ Hslot Hrun)
    as (result & ts & Hres & [(new & Ho & Hnew & Hc) _ _] & Htasks & Hq).
  destruct (Hc accumulatorExact_cleared) as ([Hle Hsum] & Hcat & Hbig).
  cbn in Ho, Hcat. subst new.
  exists result. split; [exact Hres|].
  assert (Hpos : Forall (fun t => (1 <= taskLoad t)%nat) ts).
  { eapply List.Forall_impl; [|exact Hbig]. cbn.
    unfold DRAWABLES_PER_BATCH_TASK. intros; lia. }
  destruct (0 <? drawableAcc result)%nat eqn:Hacc; subst tasks.
  - apply Nat.ltb_lt in Hacc. split_and!; auto.
    + rewrite concat_app. cbn. rewrite app_nil_r. exact Hcat.
    + apply Forall_app. split; [exact Hpos|].
      constructor; [lia | constructor].
    + intros k t Hk Hlt. rewrite length_app in Hlt. cbn in Hlt.
      rewrite lookup_app_l in Hk by lia.
      eapply List.Forall_forall in Hbig; [exact Hbig|].
      apply list_elem_of_In. eapply list_elem_of_lookup_2; eauto.
  - apply Nat.ltb_ge in Hacc. split_and!; auto.
    + assert (Hnil : pendingOctants result = []).
      { destruct (pendingOctants result) as [|om rest] eqn:Hp; [reflexivity|].
        exfalso.
        assert (Hin : In om (octants result)).
        { unfold pendingOctants in Hp.
          rewrite <- (take_drop (taskOctantIdx result) (octants result)), Hp.
          apply in_or_app. right. now left. }
        eapply List.Forall_forall in Hnew; [|exact Hin].
        destruct Hnew as (_ & _ & _ & Hload).
        unfold taskLoad in Hsum. cbn in Hsum. lia. }
      rewrite Hnil, app_nil_r in Hcat. exact Hcat.
    + intros k t Hk _.
      eapply List.Forall_forall in Hbig; [exact Hbig|].
      apply list_elem_of_In. eapply list_elem_of_lookup_2; eauto.
Qed.

(** X1. Every octant recorded by an octant collection task is handed to exactly
    one batch collection task, in the order of recording; no task is empty,
    and every task but the last covers at least [DRAWABLES_PER_BATCH_TASK]
    drawables. *)
Theorem CollectOctantsWork_partitions_octants wq root start i r r' tasks :
  octantResults r !! i = Some (mkThreadOctantResult 0 0 0 [] []) ->
  CollectOctantsWork wq root start i r = Ok (r', tasks) ->
  exists result,
    octantResults r' !! i = Some result /\
    concat tasks = octants result /\
    Forall (fun t => (1 <= taskLoad t)%nat) tasks /\
    (forall k t, tasks !! k = Some t -> (S k < length tasks)%nat ->
       (DRAWABLES_PER_BATCH_TASK <= taskLoad t)%nat) /\
    queued r' = queued r ++ map CollectBatchesTask tasks.
Proof.
  intros Hslot Hrun.
  exact (CollectOctantsWork_tasks wq root start i r r' tasks Hslot Hrun).
Qed.

(** X2. Without worker threads an octant collection task queues at most one
    batch collection task: none when it recorded no octant, otherwise one
    that holds every octant it recorded. *)
Theorem CollectOctantsWork_single_thread wq root start i r r' tasks :
  (NumThreads wq <= 1)%nat ->
  octantResults r !! i = Some (mkThreadOctantResult 0 0 0 [] []) ->
  CollectOctantsWork wq root start i r = Ok (r', tasks) ->
  exists result,
    octantResults r' !! i = Some result /\
    batchTaskIdx result = 0%nat /\
    tasks = match octants result with [] => [] | os => [os] end.
Proof.
  intros Hwq Hslot Hrun.
  destruct (CollectOctantsWork_tasks _ _ _ _ _ _ _ Hslot Hrun)
    as (result0 & Hres0 & Hcat & Hpos & _).
  destruct (CollectOctantsWork_Gathered _ _ _ _ _ _ _ Hslot Hrun)
    as (result & ts & Hres & [_ _ (Hb & Hno & _)] & Htasks & _).
  assert (result0 = result) by congruence. subst result0.
  assert (Hth : (1 <? NumThreads wq)%nat = false) by (apply Nat.ltb_ge; lia).
  destruct (Hno Hth) as [-> Hidx]. cbn in Hidx, Hb.
  exists result. split_and!; auto.
  unfold pendingOctants in Htasks. rewrite Hidx, drop_0 in Htasks.
  cbn [app] in Htasks.
  destruct (0 <? drawableAcc result)%nat; subst tasks.
  - cbn in Hcat. rewrite app_nil_r in Hcat.
    inversion Hpos as [|t l Ht _]; subst.
    destruct (octants result); [cbn in Ht; lia | reflexivity].
  - cbn in Hcat. now rewrite <- Hcat.
Qed.

(** X3. An octant collection task records only octants of the subtree it
    starts from that the frustum test did not reject and that hold a
    drawable other than a light; the lights it collects are light drawables
    of that subtree whose layer mask meets the view mask and which accepted
    the frame. *)
Theorem CollectOctantsWork_records_visible wq root start i r r' tasks :
  octantResults r !! i = Some (mkThreadOctantResult 0 0 0 [] []) ->
  CollectOctantsWork wq root start i r = Ok (r', tasks) ->
  exists result,
    octantResults r' !! i = Some result /\
    Forall (fun om =>
              InSubtree om.1 start /\ om.2 <> 255 /\
              exists d, In d (drawables om.1) /\ TestFlag_DF_GEOMETRY d = true)
      (octants result) /\
    Forall (fun l =>
              exists o d, InSubtree o start /\ In d (drawables o) /\
                kind d = KindLight l /\
                Z.land (LayerMask d) (viewMask r) <> 0 /\
                OnPrepareRender d = true)
      (result_lights result).
Proof.
  intros Hslot Hrun.
  destruct (CollectOctantsWork_Gathered _ _ _ _ _ _ _ Hslot Hrun)
    as (result & ts & Hres & [(new & Ho & Hnew & _) (ls & Hl & Hls) _] & _).
  cbn in Ho, Hl. subst new ls. exists result. split_and!; auto.
  - eapply List.Forall_impl; [|exact Hnew]. cbn.
    intros om (Hs & H255 & _ & Hload). split_and!; auto.
    now apply fromFirstGeometry_pos.
  - eapply List.Forall_impl; [|exact Hls]. cbn.
    intros l (o & d & mask & Hs & Hd & Ha). exists o, d.
    unfold acceptsLight in Ha. destruct (kind d) eqn:Hk; [|discriminate].
    destruct (negb (Z.land (LayerMask d) (viewMask r) =? 0)) eqn:Hm;
      [|discriminate].
    destruct ((mask =? 0) || IsInsideMaskedFast d mask); [|discriminate].
    destruct (OnPrepareRender d) eqn:Hp; [|discriminate].
    cbn in Ha. inversion Ha; subst. split_and!; auto.
    apply negb_true_iff, Z.eqb_neq in Hm. exact Hm.
Qed.

Lemma omap_acceptsLight_split vm m ds :
  omap (acceptsLight vm m) ds =
  omap (acceptsLight vm m) (leadingLights ds)
  ++ omap (acceptsLight vm m) (fromFirstGeometry ds).
Proof.
  induction ds as [|d ds IH]; [reflexivity|].
  cbn [leadingLights fromFirstGeometry].
  destruct (kind d) eqn:Hk; [|reflexivity].
  cbn [omap list_omap]. fold (@omap list _ _ _ (acceptsLight vm m)).
  destruct (acceptsLight vm m d); cbn; now rewrite IH.
Qed.

(** X4. When the lights of an octant are sorted first, the visit of the octant
    alone collects every light drawable of the octant that passes the view
    mask and frustum tests and accepts the frame, in the order of the
    octant, and nothing else. *)
Theorem CollectOctantsAndLights_collects_lights vm o result th pm :
  let planeMask' := if pm =? 0 then pm else IsInsideMasked o pm in
  (pm = 0 \/ planeMask' <> 255) ->
  lightsSortedFirst (drawables o) ->
  result_lights (CollectOctantsAndLights vm o result th false pm).1 =
  result_lights result ++ omap (acceptsLight vm planeMask') (drawables o).
Proof.
  intros pm' Hvisit Hsorted.
  destruct o as [addr ds inside cs]. cbn [CollectOctantsAndLights].
  cbn [IsInsideMasked drawables] in *. fold pm'.
  assert (Hv : negb (pm =? 0) && (pm' =? 255) = false).
  { destruct Hvisit as [-> | Hne]; [reflexivity|].
    apply andb_false_iff. right. now apply Z.eqb_neq. }
  rewrite Hv.
  set (o := mkOctant addr ds inside cs).
  destruct (scanDrawables_spec vm o pm' ds result) as (_ & _ & Hl & _).
  rewrite omap_acceptsLight_split.
  assert (Hnone : omap (acceptsLight vm pm') (fromFirstGeometry ds) = []).
  { unfold lightsSortedFirst in Hsorted.
    induction Hsorted as [|d l Hd _ IH]; [reflexivity|].
    cbn [omap list_omap]. unfold acceptsLight at 1.
    unfold TestFlag_DF_LIGHT in Hd. destruct (kind d); [discriminate|].
    exact IH. }
  rewrite Hnone, app_nil_r, <- Hl.
  destruct (th && _); reflexivity.
Qed.

Lemma holdsGeometry_fromFirstGeometry o :
  (match fromFirstGeometry (drawables o) with
   | [] => [] | _ => [(o, 0)] end)
  = map (fun o' => (o', 0)) (if holdsGeometry o then [o] else []).
Proof.
  unfold holdsGeometry, TestFlag_DF_GEOMETRY.
  induction (drawables o) as [|d ds IH]; [reflexivity|].
  cbn [fromFirstGeometry existsb]. destruct (kind d); [exact IH | reflexivity].
Qed.

(** X5. Below an octant that lies fully inside the frustum (plane mask 0) no
    octant is tested or rejected: the traversal records every octant of
    the subtree that holds a drawable other than a light, each with plane
    mask 0. *)
Theorem CollectOctantsAndLights_fully_inside vm o :
  forall result th,
    octants (CollectOctantsAndLights vm o result th true 0).1 =
    octants result
    ++ map (fun o' => (o', 0)) (filter (fun o' => holdsGeometry o' = true)
                                  (subtreeOctants o)).
Proof.
  induction o as [addr ds inside cs IH] using Octant_subtree_ind.
  intros result th.
  cbn [CollectOctantsAndLights subtreeOctants].
  set (o := mkOctant addr ds inside cs) in *.
  change (children o) with cs. change (drawables o) with ds.
  cbn [Z.eqb negb andb].
  destruct (scanDrawables_spec vm o 0 ds result) as (_ & _ & _ & Ho & _).
  change ds with (drawables o) in Ho at 2.
  rewrite holdsGeometry_fromFirstGeometry in Ho.
  rewrite list.filter_cons.
  assert (Hstep : forall p : ThreadOctantResult * list (list (Octant * Z)),
            p = (if th && (DRAWABLES_PER_BATCH_TASK <=?
                     drawableAcc (scanDrawables vm o 0 ds result))%nat
                 then
                   (set_batchTaskIdx
                      (S (batchTaskIdx (scanDrawables vm o 0 ds result)))
                      (set_taskOctantIdx
                         (length (octants (scanDrawables vm o 0 ds result)))
                         (set_drawableAcc 0%nat
                            (scanDrawables vm o 0 ds result))),
                    [batchTaskOctants (scanDrawables vm o 0 ds result)])
                 else (scanDrawables vm o 0 ds result, [])) ->
            octants p.1 = octants result
              ++ map (fun o' => (o', 0)) (if holdsGeometry o then [o] else [])).
  { intros p ->. destruct (th && _); cbn; exact Ho. }
  destruct (if th && _ then _ else _) as [result2 tasks].
  specialize (Hstep _ eq_refl). cbn [fst] in Hstep.
  assert (Hgoal : forall acc,
    octants
      ((fix visit (cs0 : list (option Octant))
          (acc0 : ThreadOctantResult * list (list (Octant * Z)))
          {struct cs0} : ThreadOctantResult * list (list (Octant * Z)) :=
          match cs0 with
          | [] => acc0
          | Some child :: cs' =>
              let '(res, ts) :=
                CollectOctantsAndLights vm child acc0.1 th true 0 in
              visit cs' (res, acc0.2 ++ ts)
          | None :: cs' => visit cs' acc0
          end) cs acc).1
    = octants acc.1
      ++ map (fun o' => (o', 0))
           (filter (fun o' => holdsGeometry o' = true)
              (flat_map (fun c => match c with
                                  | Some child => subtreeOctants child
                                  | None => []
                                  end) cs))).
  { clear Hstep Ho. induction IH as [|c cs' Hc Hcs IHcs]; intros acc.
    - cbn. now rewrite app_nil_r.
    - destruct c as [child|]; cbn [flat_map].
      + specialize (Hc acc.1 th).
        destruct (CollectOctantsAndLights vm child acc.1 th true 0)
          as [res ts].
        rewrite IHcs. cbn [fst] in *. rewrite Hc.
        rewrite list.filter_app, map_app, app_assoc. reflexivity.
      + cbn [app]. apply IHcs. }
  rewrite Hgoal. cbn [fst]. rewrite Hstep, <- app_assoc. f_equal.
  destruct (holdsGeometry o) eqn:Hg.
  - rewrite decide_True by reflexivity. reflexivity.
  - rewrite decide_False by discriminate. reflexivity.
Qed.

Lemma CollectOctantsWork_partitions_octants_witness :
  octantResults (groveRenderer 4) !! 1%nat
  = Some (mkThreadOctantResult 0 0 0 [] [])
  /\ exists r' tasks result,
       CollectOctantsWork fourThreads groveRoot grove 1 (groveRenderer 4)
       = Ok (r', tasks)
       /\ octantResults r' !! 1%nat = Some result
       /\ map (map (fun om => octant_addr om.1)) tasks = [[2; 5]; [6]]%nat
       /\ concat tasks = octants result.
Proof.
  split; [reflexivity|].
  destruct (CollectOctantsWork fourThreads groveRoot grove 1 (groveRenderer 4))
    as [[r' tasks]| |] eqn:Hrun; [|vm_compute in Hrun; discriminate..].
  destruct (CollectOctantsWork_partitions_octants
              fourThreads groveRoot grove 1 (groveRenderer 4) r' tasks
              eq_refl Hrun) as (result & Hres & Hcat & _).
  exists r', tasks, result. split_and!; auto.
  vm_compute in Hrun. inversion Hrun. reflexivity.
Defined.

Lemma CollectOctantsWork_single_thread_witness :
  (NumThreads oneThread <= 1)%nat
  /\ octantResults (groveRenderer 1) !! 1%nat
     = Some (mkThreadOctantResult 0 0 0 [] [])
  /\ exists r' tasks,
       CollectOctantsWork oneThread groveRoot grove 1 (groveRenderer 1)
       = Ok (r', tasks)
       /\ map (map (fun om => octant_addr om.1)) tasks = [[2; 5; 6]]%nat.
Proof.
  assert (H1 : (NumThreads oneThread <= 1)%nat) by (cbn; lia).
  split; [exact H1|]. split; [reflexivity|].
  destruct (CollectOctantsWork oneThread groveRoot grove 1 (groveRenderer 1))
    as [[r' tasks]| |] eqn:Hrun; [|vm_compute in Hrun; discriminate..].
  destruct (CollectOctantsWork_single_thread
              oneThread groveRoot grove 1 (groveRenderer 1) r' tasks
              H1 eq_refl Hrun) as (result & Hres & _ & Htasks).
  exists r', tasks. split; [reflexivity|].
  vm_compute in Hrun. inversion Hrun. reflexivity.
Defined.

Lemma CollectOctantsWork_records_visible_witness :
  octantResults (groveRenderer 4) !! 1%nat
  = Some (mkThreadOctantResult 0 0 0 [] [])
  /\ exists r' tasks result,
       CollectOctantsWork fourThreads groveRoot grove 1 (groveRenderer 4)
       = Ok (r', tasks)
       /\ octantResults r' !! 1%nat = Some result
       /\ map light_addr (result_lights result) = [42%nat]
       /\ Forall (fun om => om.2 <> 255) (octants result).
Proof.
  split; [reflexivity|].
  destruct (CollectOctantsWork fourThreads groveRoot grove 1 (groveRenderer 4))
    as [[r' tasks]| |] eqn:Hrun; [|vm_compute in Hrun; discriminate..].
  destruct (CollectOctantsWork_records_visible
              fourThreads groveRoot grove 1 (groveRenderer 4) r' tasks
              eq_refl Hrun) as (result & Hres & Hoct & _).
  exists r', tasks, result. split_and!; auto.
  - vm_compute in Hrun. inversion Hrun; subst r'.
    vm_compute in Hres. inversion Hres. reflexivity.
  - eapply List.Forall_impl; [|exact Hoct]. cbn. tauto.
Defined.

Lemma CollectOctantsAndLights_collects_lights_witness :
  (63 = 0 \/ (if 63 =? 0 then 63 else IsInsideMasked grove 63) <> 255)
  /\ lightsSortedFirst (drawables grove)
  /\ map light_addr
       (result_lights
          (CollectOctantsAndLights 1 grove (mkThreadOctantResult 0 0 0 [] [])
             true false 63).1) = [42%nat].
Proof.
  assert (H1 : 63 = 0 \/ (if 63 =? 0 then 63 else IsInsideMasked grove 63)
                         <> 255) by (right; cbn; lia).
  assert (H2 : lightsSortedFirst (drawables grove)).
  { unfold lightsSortedFirst. cbn. repeat constructor. }
  split; [exact H1|]. split; [exact H2|].
  rewrite (CollectOctantsAndLights_collects_lights 1 grove
             (mkThreadOctantResult 0 0 0 [] []) true 63 H1 H2).
  reflexivity.
Defined.

(** * Batch collection: what [CollectBatchesWork] adds to the queues *)

Lemma collectGeometries_app d bs : forall j o a,
  collectGeometries d j bs o a =
  (o ++ (collectGeometries d j bs [] []).1,
   a ++ (collectGeometries d j bs [] []).2).
Proof.
  induction bs as [|sb rest IH]; intros j o a; cbn [collectGeometries].
  - cbn. now rewrite !app_nil_r.
  - destruct (GetPass (GetMaterial sb) PASS_OPAQUE) as [p|].
    + rewrite (IH (S j) (o ++ _) a), (IH (S j) ([] ++ _) []). cbn [fst snd].
      now rewrite <- !app_assoc.
    + destruct (GetPass (GetMaterial sb) PASS_ALPHA) as [p|].
      * rewrite (IH (S j) o (a ++ _)), (IH (S j) [] ([] ++ _)). cbn [fst snd].
        now rewrite <- !app_assoc.
      * apply IH.
Qed.

Lemma collectDrawables_app vm pm ds : forall o a,
  collectDrawables vm pm ds o a =
  (o ++ (collectDrawables vm pm ds [] []).1,
   a ++ (collectDrawables vm pm ds [] []).2).
Proof.
  induction ds as [|d rest IH]; intros o a; cbn [collectDrawables].
  - cbn. now rewrite !app_nil_r.
  - destruct (TestFlag_DF_GEOMETRY d && _ && _ && _).
    + rewrite (collectGeometries_app d _ 0 o a).
      rewrite IH.
      destruct (collectGeometries d 0 (drawable_batches d) [] []) as [o1 a1].
      rewrite (IH o1 a1). cbn [fst snd]. now rewrite <- !app_assoc.
    + apply IH.
Qed.

Lemma collectOctants_app vm os : forall o a,
  collectOctants vm os o a = (o ++ opaqueOf vm os, a ++ alphaOf vm os).
Proof.
  unfold opaqueOf, alphaOf.
  induction os as [|[oct pm] rest IH]; intros o a; cbn [collectOctants].
  - cbn. now rewrite !app_nil_r.
  - rewrite (collectDrawables_app vm pm _ o a), IH.
    destruct (collectDrawables vm pm (drawables oct) [] []) as [o1 a1].
    rewrite (IH o1 a1). cbn [fst snd]. now rewrite <- !app_assoc.
Qed.

Lemma opaqueOf_app vm os1 os2 :
  opaqueOf vm (os1 ++ os2) = opaqueOf vm os1 ++ opaqueOf vm os2
  /\ alphaOf vm (os1 ++ os2) = alphaOf vm os1 ++ alphaOf vm os2.
Proof.
  induction os1 as [|[oct pm] rest IH].
  - split; reflexivity.
  - unfold opaqueOf, alphaOf in *. cbn [app collectOctants].
    destruct (collectDrawables vm pm (drawables oct) [] []) as [o1 a1].
    rewrite !(collectOctants_app vm _ o1 a1). cbn [fst snd].
    unfold opaqueOf, alphaOf. destruct IH as [-> ->].
    now rewrite !app_assoc.
Qed.

Lemma opaqueOf_concat vm tasks :
  opaqueOf vm (concat tasks) = concat (map (opaqueOf vm) tasks)
  /\ alphaOf vm (concat tasks) = concat (map (alphaOf vm) tasks).
Proof.
  induction tasks as [|t rest [IHo IHa]]; [split; reflexivity|].
  cbn [concat map]. destruct (opaqueOf_app vm t (concat rest)) as [-> ->].
  now rewrite IHo, IHa.
Qed.





Lemma foldl_app_concat {A B} (f : A -> list B) (l : list A) : forall init,
  foldl (fun acc res => acc ++ f res) init l = init ++ concat (map f l).
Proof.
  induction l as [|x l IH]; intros init; cbn.
  - now rewrite app_nil_r.
  - now rewrite IH, app_assoc.
Qed.

Lemma concat_map_insert_perm {A B} (f : A -> list B) (l : list A) :
  forall t x y extra,
    l !! t = Some y -> f x = f y ++ extra ->
    Permutation (concat (map f (<[t := x]> l))) (concat (map f l) ++ extra).
Proof.
  induction l as [|h l IH]; intros t x y extra Hl Hf.
  - now rewrite lookup_nil in Hl.
  - destruct t as [|t]; cbn in Hl |- *.
    + inversion Hl; subst h. rewrite Hf, <- !app_assoc.
      apply Permutation_app_head, Permutation_app_comm.
    + rewrite <- app_assoc. apply Permutation_app_head. eapply IH; eauto.
Qed.

(** [SortMainBatches] sorts the main queue followed by the per-thread
    queues. *)
Lemma SortMainBatches_merged `{Collaborators} r :
  opaqueBatches (SortMainBatches r)
  = BatchQueue_Sort SORT_STATE_AND_DISTANCE (hasInstancing r) (mergedOpaque r)
  /\ alphaBatches (SortMainBatches r)
     = BatchQueue_Sort SORT_DISTANCE (hasInstancing r) (mergedAlpha r).
Proof.
  unfold SortMainBatches, mergedOpaque, mergedAlpha. cbn.
  now rewrite !foldl_app_concat.
Qed.

Lemma CollectBatchesWork_merged wq os t r r' :
  CollectBatchesWork wq os t r = Ok r' ->
  Permutation (mergedOpaque r') (mergedOpaque r ++ opaqueOf (viewMask r) os)
  /\ Permutation (mergedAlpha r') (mergedAlpha r ++ alphaOf (viewMask r) os)
  /\ viewMask r' = viewMask r.
Proof.
  unfold CollectBatchesWork, at_index. intros Hrun.
  destruct (batchResults r !! t) as [result|] eqn:Hres;
    [|discriminate Hrun].
  cbn [mbind Result_bind] in Hrun.
  destruct (1 <? NumThreads wq)%nat.
  - rewrite collectOctants_app in Hrun. inversion Hrun; subst r'; clear Hrun.
    unfold mergedOpaque, mergedAlpha. cbn. split_and!; [| |reflexivity].
    + rewrite <- app_assoc. apply Permutation_app_head.
      eapply concat_map_insert_perm; eauto.
    + rewrite <- app_assoc. apply Permutation_app_head.
      eapply concat_map_insert_perm; eauto.
  - rewrite collectOctants_app in Hrun. inversion Hrun; subst r'; clear Hrun.
    unfold mergedOpaque, mergedAlpha. cbn. split_and!; [| |reflexivity].
    + rewrite <- !app_assoc. apply Permutation_app_head, Permutation_app_comm.
    + rewrite <- !app_assoc. apply Permutation_app_head, Permutation_app_comm.
Qed.


Lemma runBatchTasks_merged wq tasks : forall n r r' n',
  runBatchTasks wq tasks n r = Ok (r', n') ->
  Permutation (mergedOpaque r')
    (mergedOpaque r ++ opaqueOf (viewMask r) (concat tasks))
  /\ Permutation (mergedAlpha r')
       (mergedAlpha r ++ alphaOf (viewMask r) (concat tasks))
  /\ viewMask r' = viewMask r.
Proof.
  induction tasks as [|os rest IH]; intros n r r' n' Hrun;
    cbn [runBatchTasks] in Hrun.
  - inversion Hrun; subst. cbn. rewrite !app_nil_r. now split_and!.
  - bind_ok Hrun. apply CollectBatchesWork_merged in E as (Ho & Ha & Hv).
    apply IH in Hrun as (Ho' & Ha' & Hv'). rewrite Hv in *.
    cbn [concat]. destruct (opaqueOf_app (viewMask r) os (concat rest))
      as [-> ->].
    split_and!; [| |congruence].
    + rewrite Ho', Ho, <- app_assoc. reflexivity.
    + rewrite Ha', Ha, <- app_assoc. reflexivity.
Qed.

Lemma CollectOctantsWork_slots wq root start i r r' tasks :
  CollectOctantsWork wq root start i r = Ok (r', tasks) ->
  viewMask r' = viewMask r
  /\ mergedOpaque r' = mergedOpaque r /\ mergedAlpha r' = mergedAlpha r
  /\ forall k, k <> i -> octantResults r' !! k = octantResults r !! k.
Proof.
  unfold CollectOctantsWork. intros Hrun. bind_ok Hrun.
  destruct (CollectOctantsAndLights _ _ _ _ _ _) as [res ts].
  inversion Hrun; subst; clear Hrun. cbn. split_and!; auto.
  intros k Hk. now apply list_lookup_insert_ne.
Qed.

Lemma runCollectOctantsTasks_slots wq root starts : forall i n r r',
  runCollectOctantsTasks wq root starts i n r = Ok r' ->
  forall k, (k < i)%nat -> octantResults r' !! k = octantResults r !! k.
Proof.
  induction starts as [|o rest IH]; intros i n r r' Hrun k Hk;
    cbn [runCollectOctantsTasks] in Hrun.
  - now inversion Hrun.
  - bind_ok Hrun. destruct a as [r1 tasks].
    bind_ok Hrun. destruct a as [r2 n'].
    apply CollectOctantsWork_slots in E as (_ & _ & _ & Hs).
    apply runBatchTasks_header in E0 as (_ & _ & Hs').
    rewrite (IH _ _ _ _ Hrun k) by lia. rewrite Hs', Hs by lia. reflexivity.
Qed.

(** The octant collection tasks from slot [i] on add to the merged
    queues the batches of the octants they record. *)
Lemma runCollectOctantsTasks_merged wq root starts : forall i n r r',
  (forall k, (k < length starts)%nat ->
     octantResults r !! (i + k)%nat = Some (mkThreadOctantResult 0 0 0 [] [])) ->
  runCollectOctantsTasks wq root starts i n r = Ok r' ->
  Permutation (mergedOpaque r')
    (mergedOpaque r
     ++ opaqueOf (viewMask r) (recordedOctants r' i (length starts)))
  /\ Permutation (mergedAlpha r')
       (mergedAlpha r
        ++ alphaOf (viewMask r) (recordedOctants r' i (length starts)))
  /\ viewMask r' = viewMask r.
Proof.
  induction starts as [|o rest IH]; intros i n r r' Hslots Hrun;
    cbn [runCollectOctantsTasks] in Hrun.
  - inversion Hrun; subst. unfold recordedOctants. cbn.
    rewrite !app_nil_r. now split_and!.
  - bind_ok Hrun. destruct a as [r1 tasks].
    bind_ok Hrun. destruct a as [r2 n'].
    assert (Hslot : octantResults r !! i
                    = Some (mkThreadOctantResult 0 0 0 [] [])).
    { specialize (Hslots 0%nat). rewrite Nat.add_0_r in Hslots.
      apply Hslots. cbn. lia. }
    destruct (CollectOctantsWork_tasks _ _ _ _ _ _ _ Hslot E)
      as (result & Hres & Hcat & _).
    destruct (CollectOctantsWork_slots _ _ _ _ _ _ _ E)
      as (Hv1 & Ho1 & Ha1 & Hs1).
    destruct (runBatchTasks_merged _ _ _ _ _ _ E0) as (Ho2 & Ha2 & Hv2).
    destruct (runBatchTasks_header _ _ _ _ _ _ E0) as (_ & _ & Hs2).
    assert (Hslots2 : forall k, (k < length rest)%nat ->
              octantResults r2 !! (S i + k)%nat
              = Some (mkThreadOctantResult 0 0 0 [] [])).
    { intros k Hk. rewrite Hs2, Hs1 by lia.
      replace (S i + k)%nat with (i + S k)%nat by lia.
      apply Hslots. cbn. lia. }
    destruct (IH _ _ _ _ Hslots2 Hrun) as (Ho3 & Ha3 & Hv3).
    assert (Hi : octantResults r' !! i = Some result).
    { rewrite (runCollectOctantsTasks_slots _ _ _ _ _ _ _ Hrun i) by lia.
      now rewrite Hs2. }
    assert (Hrec : recordedOctants r' i (length (o :: rest))
                   = octants result ++ recordedOctants r' (S i) (length rest)).
    { unfold recordedOctants. cbn [length].
      rewrite (drop_S _ _ _ Hi). reflexivity. }
    rewrite Hrec. destruct (opaqueOf_app (viewMask r) (octants result)
                              (recordedOctants r' (S i) (length rest)))
      as [-> ->].
    rewrite Hv2, Hv1 in *. rewrite Ho1, Ha1, Hcat in *.
    split_and!; [| |congruence].
    + rewrite Ho3, Ho2, <- app_assoc. reflexivity.
    + rewrite Ha3, Ha2, <- app_assoc. reflexivity.
Qed.

(** X7. The batches of a frame are those of the octants that the octant
    collection tasks recorded, however the octants were split into batch
    tasks and on whichever threads these ran. *)
Theorem runCollectOctantsTasks_batches wq root starts : forall i n r r',
  (forall k, (k < length starts)%nat ->
     octantResults r !! (i + k)%nat = Some (mkThreadOctantResult 0 0 0 [] [])) ->
  runCollectOctantsTasks wq root starts i n r = Ok r' ->
  Permutation (mergedOpaque r')
    (mergedOpaque r
     ++ opaqueOf (viewMask r) (recordedOctants r' i (length starts)))
  /\ Permutation (mergedAlpha r')
       (mergedAlpha r
        ++ alphaOf (viewMask r) (recordedOctants r' i (length starts)))
  /\ viewMask r' = viewMask r.
Proof. exact (runCollectOctantsTasks_merged wq root starts). Qed.

(** What a traversal records does not depend on the accumulator, the task
    indices or the threading mode. *)
Lemma CollectOctantsAndLights_recorded vm o :
  forall rec pm, exists newOctants newLights, forall result th,
    octants (CollectOctantsAndLights vm o result th rec pm).1
    = octants result ++ newOctants
    /\ result_lights (CollectOctantsAndLights vm o result th rec pm).1
       = result_lights result ++ newLights.
Proof.
  induction o as [addr ds inside cs IH] using Octant_subtree_ind.
  intros rec pm. cbn [CollectOctantsAndLights].
  set (o := mkOctant addr ds inside cs) in *.
  change (IsInsideMasked o pm) with (inside pm).
  change (children o) with cs. change (drawables o) with ds.
  set (pm' := if pm =? 0 then pm else inside pm).
  destruct (negb (pm =? 0) && (pm' =? 255)).
  { exists [], []. intros. cbn. now rewrite !app_nil_r. }
  assert (Hvisit : exists newOctants newLights, forall acc th,
    let visited :=
      (fix visit (cs0 : list (option Octant))
          (acc0 : ThreadOctantResult * list (list (Octant * Z)))
          {struct cs0} : ThreadOctantResult * list (list (Octant * Z)) :=
          match cs0 with
          | [] => acc0
          | Some child :: cs' =>
              let '(res, ts) :=
                CollectOctantsAndLights vm child acc0.1 th true pm' in
              visit cs' (res, acc0.2 ++ ts)
          | None :: cs' => visit cs' acc0
          end) cs acc in
    octants visited.1 = octants acc.1 ++ newOctants
    /\ result_lights visited.1 = result_lights acc.1 ++ newLights).
  { clear o. induction IH as [|c cs' Hc Hcs (no & nl & IHcs)].
    - exists [], []. intros. cbn. now rewrite !app_nil_r.
    - destruct c as [child|].
      + destruct (Hc true pm') as (no1 & nl1 & H1).
        exists (no1 ++ no), (nl1 ++ nl). intros acc th. cbn zeta.
        destruct (H1 acc.1 th) as [Ho Hl].
        destruct (CollectOctantsAndLights vm child acc.1 th true pm')
          as [res ts].
        destruct (IHcs (res, acc.2 ++ ts) th) as [Ho' Hl'].
        cbn zeta in Ho', Hl'. rewrite Ho', Hl'. cbn [fst] in *.
        rewrite Ho, Hl, <- !app_assoc. now split.
      + exists no, nl. intros acc th. apply IHcs. }
  destruct Hvisit as (no & nl & Hvisit).
  set (no1 := match fromFirstGeometry ds with [] => [] | _ => [(o, pm')] end).
  set (nl1 := omap (acceptsLight vm pm') (leadingLights ds)).
  exists (if rec then no1 ++ no else no1), (if rec then nl1 ++ nl else nl1).
  intros result th.
  destruct (scanDrawables_spec vm o pm' ds result) as (_ & _ & Hl & Ho & _).
  fold no1 in Ho. fold nl1 in Hl.
  set (result1 := scanDrawables vm o pm' ds result) in *.
  assert (Hstep : forall p : ThreadOctantResult * list (list (Octant * Z)),
            p = (if th && (DRAWABLES_PER_BATCH_TASK <=? drawableAcc result1)%nat
                 then
                   (set_batchTaskIdx (S (batchTaskIdx result1))
                      (set_taskOctantIdx (length (octants result1))
                         (set_drawableAcc 0%nat result1)),
                    [batchTaskOctants result1])
                 else (result1, [])) ->
            octants p.1 = octants result ++ no1
            /\ result_lights p.1 = result_lights result ++ nl1).
  { intros p ->. destruct (th && _); cbn; now split. }
  destruct (if th && _ then _ else _) as [result2 tasks].
  destruct (Hstep _ eq_refl) as [Ho2 Hl2]. cbn [fst] in Ho2, Hl2.
  destruct rec.
  - destruct (Hvisit (result2, tasks) th) as [Ho3 Hl3]. cbn zeta in Ho3, Hl3.
    rewrite Ho3, Hl3. cbn [fst]. rewrite Ho2, Hl2, <- !app_assoc. now split.
  - cbn [fst]. now split.
Qed.

Lemma CollectOctantsWork_sameRecorded wq1 wq2 root start i r1 r2 r1' r2' t1 t2 :
  sameRecorded r1 r2 ->
  CollectOctantsWork wq1 root start i r1 = Ok (r1', t1) ->
  CollectOctantsWork wq2 root start i r2 = Ok (r2', t2) ->
  sameRecorded r1' r2'.
Proof.
  intros (Hv & Ho & Hl) H1 H2. unfold CollectOctantsWork in H1, H2.
  bind_ok H1. bind_ok H2. rename a into res1, a0 into res2.
  destruct (CollectOctantsAndLights_recorded (viewMask r2) start
              (negb (octant_addr start =? octant_addr root)%nat) 63)
    as (no & nl & Hrec).
  destruct (Hrec res1 (1 <? NumThreads wq1)%nat) as [Ho1 Hl1].
  destruct (Hrec res2 (1 <? NumThreads wq2)%nat) as [Ho2 Hl2].
  rewrite Hv in H1.
  destruct (CollectOctantsAndLights (viewMask r2) start res1 _ _ _)
    as [res1' ts1].
  destruct (CollectOctantsAndLights (viewMask r2) start res2 _ _ _)
    as [res2' ts2].
  inversion H1; subst r1' t1. inversion H2; subst r2' t2.
  unfold at_index in E, E0.
  destruct (octantResults r1 !! i) as [x1|] eqn:L1; [|discriminate].
  destruct (octantResults r2 !! i) as [x2|] eqn:L2; [|discriminate].
  inversion E; inversion E0; subst x1 x2.
  assert (Hsame : octants res1 = octants res2
                  /\ result_lights res1 = result_lights res2).
  { split.
    - assert (Hm : (octants <$> octantResults r1) !! i = Some (octants res1))
        by (rewrite list_lookup_fmap, L1; reflexivity).
      rewrite Ho, list_lookup_fmap, L2 in Hm. cbn in Hm. congruence.
    - assert (Hm : (result_lights <$> octantResults r1) !! i
                   = Some (result_lights res1))
        by (rewrite list_lookup_fmap, L1; reflexivity).
      rewrite Hl, list_lookup_fmap, L2 in Hm. cbn in Hm. congruence. }
  destruct Hsame as [Hso Hsl]. cbn [fst] in *.
  split_and!; cbn.
  - exact Hv.
  - rewrite !list_fmap_insert. rewrite Ho, Ho1, Ho2, Hso. reflexivity.
  - rewrite !list_fmap_insert. rewrite Hl, Hl1, Hl2, Hsl. reflexivity.
Qed.

Lemma runBatchTasks_sameRecorded wq tasks n r r' n' :
  runBatchTasks wq tasks n r = Ok (r', n') ->
  viewMask r' = viewMask r /\ octantResults r' = octantResults r.
Proof.
  intros Hrun. destruct (runBatchTasks_merged _ _ _ _ _ _ Hrun) as (_ & _ & Hv).
  destruct (runBatchTasks_header _ _ _ _ _ _ Hrun) as (_ & _ & Hs).
  now split.
Qed.

Lemma runCollectOctantsTasks_sameRecorded wq1 wq2 root starts :
  forall i n1 n2 r1 r2 r1' r2',
    sameRecorded r1 r2 ->
    runCollectOctantsTasks wq1 root starts i n1 r1 = Ok r1' ->
    runCollectOctantsTasks wq2 root starts i n2 r2 = Ok r2' ->
    sameRecorded r1' r2'.
Proof.
  induction starts as [|o rest IH]; intros i n1 n2 r1 r2 r1' r2' Hsame H1 H2;
    cbn [runCollectOctantsTasks] in H1, H2.
  - inversion H1; inversion H2; subst. exact Hsame.
  - bind_ok H1. destruct a as [r1a t1]. bind_ok H1. destruct a as [r1b m1].
    bind_ok H2. destruct a as [r2a t2]. bind_ok H2. destruct a as [r2b m2].
    assert (Ha := CollectOctantsWork_sameRecorded _ _ _ _ _ _ _ _ _ _ _
                    Hsame E E1).
    destruct (runBatchTasks_sameRecorded _ _ _ _ _ _ E0) as [Hv1 Hs1].
    destruct (runBatchTasks_sameRecorded _ _ _ _ _ _ E2) as [Hv2 Hs2].
    eapply IH; [|exact H1|exact H2].
    destruct Ha as (Hv & Ho & Hl). unfold sameRecorded.
    rewrite Hv1, Hv2, Hs1, Hs2. now split_and!.
Qed.

(** X8. The number of worker threads, the schedule of the batch tasks and the
    way the octants are split into tasks do not change what a frame
    collects: from the same renderer, two work queues gather the same
    lights and octants and, up to order, the same opaque and alpha
    batches. *)
Theorem runCollectOctantsTasks_thread_independent wq1 wq2 root starts r r1 r2 :
  (forall k, (k < length starts)%nat ->
     octantResults r !! k = Some (mkThreadOctantResult 0 0 0 [] [])) ->
  runCollectOctantsTasks wq1 root starts 0 0 r = Ok r1 ->
  runCollectOctantsTasks wq2 root starts 0 0 r = Ok r2 ->
  Permutation (mergedOpaque r1) (mergedOpaque r2)
  /\ Permutation (mergedAlpha r1) (mergedAlpha r2)
  /\ octants <$> octantResults r1 = octants <$> octantResults r2
  /\ result_lights <$> octantResults r1
     = result_lights <$> octantResults r2.
Proof.
  intros Hslots H1 H2.
  assert (Hsame : sameRecorded r1 r2).
  { eapply runCollectOctantsTasks_sameRecorded; [|exact H1|exact H2].
    now split_and!. }
  destruct Hsame as (Hv & Ho & Hl).
  destruct (runCollectOctantsTasks_merged wq1 root starts 0 0 r r1 Hslots H1)
    as (Ho1 & Ha1 & _).
  destruct (runCollectOctantsTasks_merged wq2 root starts 0 0 r r2 Hslots H2)
    as (Ho2 & Ha2 & _).
  assert (Hrec : recordedOctants r1 0 (length starts)
                 = recordedOctants r2 0 (length starts)).
  { unfold recordedOctants. rewrite !drop_0.
    rewrite !flat_map_concat_map.
    change (map octants (take (length starts) (octantResults r1)))
      with (octants <$> take (length starts) (octantResults r1)).
    change (map octants (take (length starts) (octantResults r2)))
      with (octants <$> take (length starts) (octantResults r2)).
    now rewrite !fmap_take, Ho. }
  rewrite Hrec in Ho1, Ha1. split_and!; auto.
  - now rewrite Ho1, Ho2.
  - now rewrite Ha1, Ha2.
Qed.


Lemma groveRenderer_cleared threads k :
  (k < length [grove])%nat ->
  octantResults (groveRenderer threads) !! (0 + k)%nat
  = Some (mkThreadOctantResult 0 0 0 [] []).
Proof. intros Hk. destruct k; [reflexivity | cbn in Hk; lia]. Qed.

Lemma runCollectOctantsTasks_batches_witness :
  (forall k, (k < length [grove])%nat ->
     octantResults (groveRenderer 4) !! (0 + k)%nat
     = Some (mkThreadOctantResult 0 0 0 [] []))
  /\ exists r',
       runCollectOctantsTasks fourThreads groveRoot [grove] 0 0
         (groveRenderer 4) = Ok r'
       /\ Permutation (mergedOpaque r')
            (mergedOpaque (groveRenderer 4)
             ++ opaqueOf 1 (recordedOctants r' 0 1))
       /\ map length (map result_opaqueBatches (batchResults r'))
          = [150; 3; 0; 0]%nat.
Proof.
  split; [apply groveRenderer_cleared|].
  destruct (runCollectOctantsTasks fourThreads groveRoot [grove] 0 0
              (groveRenderer 4)) as [r'| |] eqn:Hrun;
    [|vm_compute in Hrun; discriminate..].
  destruct (runCollectOctantsTasks_batches fourThreads groveRoot [grove] 0 0
              (groveRenderer 4) r' (groveRenderer_cleared 4) Hrun)
    as (Ho & _).
  exists r'. split_and!; auto.
  vm_compute in Hrun. inversion Hrun. reflexivity.
Defined.

Lemma runCollectOctantsTasks_thread_independent_witness :
  (forall k, (k < length [grove])%nat ->
     octantResults (groveRenderer 4) !! k
     = Some (mkThreadOctantResult 0 0 0 [] []))
  /\ exists r1 r2,
       runCollectOctantsTasks oneThread groveRoot [grove] 0 0
         (groveRenderer 4) = Ok r1
       /\ runCollectOctantsTasks fourThreads groveRoot [grove] 0 0
            (groveRenderer 4) = Ok r2
       /\ length (opaqueBatches r1) = 153%nat
       /\ length (opaqueBatches r2) = 0%nat
       /\ Permutation (mergedOpaque r1) (mergedOpaque r2).
Proof.
  split; [apply (groveRenderer_cleared 4)|].
  destruct (runCollectOctantsTasks oneThread groveRoot [grove] 0 0
              (groveRenderer 4)) as [r1| |] eqn:Hrun1;
    [|vm_compute in Hrun1; discriminate..].
  destruct (runCollectOctantsTasks fourThreads groveRoot [grove] 0 0
              (groveRenderer 4)) as [r2| |] eqn:Hrun2;
    [|vm_compute in Hrun2; discriminate..].
  destruct (runCollectOctantsTasks_thread_independent oneThread fourThreads
              groveRoot [grove] (groveRenderer 4) r1 r2
              (groveRenderer_cleared 4) Hrun1 Hrun2) as (Ho & _).
  exists r1, r2. split_and!; auto.
  - vm_compute in Hrun1. inversion Hrun1. reflexivity.
  - vm_compute in Hrun2. inversion Hrun2. reflexivity.
Defined.

(** * The frame as a whole *)

(** ** The wait for the batch tasks *)
Create HintDb nostall discriminated.

Lemma bind_no_stall {A B} (m : Result A) (k : A -> Result B) :
  m <> Stall -> (forall a, m = Ok a -> k a <> Stall) -> (m ≫= k) <> Stall.
Proof.
  intros Hm Hk. unfold mbind, Result_bind. destruct m; auto; discriminate.
Qed.

Lemma at_index_no_stall {A} (l : list A) i : at_index l i <> Stall.
Proof. unfold at_index. destruct (l !! i); discriminate. Qed.

(** A step of a computation that cannot stall. *)
Ltac no_stall :=
  repeat first
    [ discriminate
    | assumption
    | solve [auto with nostall]
    | progress cbv zeta
    | apply bind_no_stall; [|intros ? ?]
    | match goal with
      | |- (let '(_, _) := ?p in _) <> Stall => destruct p
      | |- (if ?b then _ else _) <> Stall => destruct b
      | |- (match ?m with _ => _ end) <> Stall => destruct m
      end ].

#[local] Hint Resolve at_index_no_stall : nostall.

Lemma AllocateShadowMap_no_stall `{Collaborators} maps light :
  AllocateShadowMap maps light <> Stall.
Proof. unfold AllocateShadowMap. no_stall. Qed.

#[local] Hint Resolve AllocateShadowMap_no_stall : nostall.

Lemma mergeLights_no_stall results n : forall i ls,
  mergeLights results i n ls <> Stall.
Proof. induction n; intros; cbn [mergeLights]; no_stall. Qed.

#[local] Hint Resolve mergeLights_no_stall : nostall.

Lemma reallocateShadowMaps_no_stall `{Collaborators} dirty ds ls : forall maps,
  reallocateShadowMaps dirty ds ls maps <> Stall.
Proof. induction ls; intros; cbn [reallocateShadowMaps]; no_stall. Qed.

#[local] Hint Resolve reallocateShadowMaps_no_stall : nostall.

Lemma allocateDirLight_no_stall `{Collaborators} dirty ds d maps :
  allocateDirLight dirty ds d maps <> Stall.
Proof. unfold allocateDirLight. no_stall. Qed.

#[local] Hint Resolve allocateDirLight_no_stall : nostall.

Lemma setupLightShadow_no_stall `{Collaborators} ds l maps :
  setupLightShadow ds l maps <> Stall.
Proof. unfold setupLightShadow. no_stall. Qed.

#[local] Hint Resolve setupLightShadow_no_stall : nostall.

Lemma setupShadowCasterTasks_no_stall `{Collaborators} ds ls : forall maps,
  setupShadowCasterTasks ds ls maps <> Stall.
Proof. induction ls; intros; cbn [setupShadowCasterTasks]; no_stall. Qed.

#[local] Hint Resolve setupShadowCasterTasks_no_stall : nostall.

Lemma setupDirLight_no_stall `{Collaborators} d maps :
  setupDirLight d maps <> Stall.
Proof. unfold setupDirLight. no_stall. Qed.

#[local] Hint Resolve setupDirLight_no_stall : nostall.

Lemma ProcessLightsWork_no_stall `{Collaborators} r :
  ProcessLightsWork r <> Stall.
Proof. unfold ProcessLightsWork. no_stall. Qed.

#[local] Hint Resolve ProcessLightsWork_no_stall : nostall.

Lemma lookupLight_no_stall r addr : lookupLight r addr <> Stall.
Proof. unfold lookupLight. no_stall. Qed.

#[local] Hint Resolve lookupLight_no_stall : nostall.

Lemma shadowBatchTasks_no_stall r i views : forall j last,
  shadowBatchTasks r i j views last <> Stall.
Proof.
  induction views as [|[addr k] rest IH]; intros; cbn [shadowBatchTasks];
    no_stall.
Qed.

#[local] Hint Resolve shadowBatchTasks_no_stall : nostall.

Lemma shadowMapTasks_no_stall r maps : forall i last pending,
  shadowMapTasks r i maps last pending <> Stall.
Proof.
  induction maps as [|m rest IH]; intros; cbn [shadowMapTasks]; no_stall.
Qed.

#[local] Hint Resolve shadowMapTasks_no_stall : nostall.

Lemma ProcessShadowCastersWork_no_stall scene r :
  ProcessShadowCastersWork scene r <> Stall.
Proof. unfold ProcessShadowCastersWork. no_stall. Qed.

#[local] Hint Resolve ProcessShadowCastersWork_no_stall : nostall.

Lemma cullRow_no_stall i l xs : forall idx st, cullRow i l idx xs st <> Stall.
Proof. induction xs; intros; cbn [cullRow]; no_stall. Qed.

#[local] Hint Resolve cullRow_no_stall : nostall.

Lemma cullSlice_no_stall i l ys : forall idx st,
  cullSlice i l idx ys st <> Stall.
Proof. induction ys; intros; cbn [cullSlice]; no_stall. Qed.

#[local] Hint Resolve cullSlice_no_stall : nostall.

Lemma cullLights_no_stall z ls : forall i st, cullLights z i ls st <> Stall.
Proof. induction ls; intros; cbn [cullLights]; no_stall. Qed.

#[local] Hint Resolve cullLights_no_stall : nostall.

Lemma CullLightsToFrustumWork_no_stall z r :
  CullLightsToFrustumWork z r <> Stall.
Proof. unfold CullLightsToFrustumWork. no_stall. Qed.

#[local] Hint Resolve CullLightsToFrustumWork_no_stall : nostall.

Lemma runCullLightsTasks_no_stall zs : forall r,
  runCullLightsTasks zs r <> Stall.
Proof. induction zs; intros; cbn [runCullLightsTasks]; no_stall. Qed.

#[local] Hint Resolve runCullLightsTasks_no_stall : nostall.

Lemma CollectBatchesWork_no_stall wq os t r :
  CollectBatchesWork wq os t r <> Stall.
Proof. unfold CollectBatchesWork. no_stall. Qed.

#[local] Hint Resolve CollectBatchesWork_no_stall : nostall.

Lemma runBatchTasks_no_stall wq tasks : forall n r,
  runBatchTasks wq tasks n r <> Stall.
Proof. induction tasks; intros; cbn [runBatchTasks]; no_stall. Qed.

#[local] Hint Resolve runBatchTasks_no_stall : nostall.

Lemma CollectOctantsWork_no_stall wq root o i r :
  CollectOctantsWork wq root o i r <> Stall.
Proof. unfold CollectOctantsWork. no_stall. Qed.

#[local] Hint Resolve CollectOctantsWork_no_stall : nostall.

Lemma runCollectOctantsTasks_no_stall wq root starts : forall i n r,
  runCollectOctantsTasks wq root starts i n r <> Stall.
Proof. induction starts; intros; cbn [runCollectOctantsTasks]; no_stall. Qed.

#[local] Hint Resolve runCollectOctantsTasks_no_stall : nostall.

(** X9. [PrepareView] never waits for ever: every batch task queued raises the
    pending counter by one and every octant or batch task that completes
    lowers it by one, so that the loop
    [while (numPendingBatchTasks.load() > 0)] finds the counter at zero
    once the tasks have run; the counter is still zero when the frame is
    prepared. *)
Theorem PrepareView_wait_ends `{Collaborators} (wq : WorkQueue)
    (scene_ : option Scene) (camera_ : option Camera) (drawShadows_ : bool)
    (r : Renderer) :
  PrepareView wq scene_ camera_ drawShadows_ r <> Stall
  /\ forall scene camera octree r',
       scene_ = Some scene -> camera_ = Some camera ->
       FindChild_Octree scene = Some octree ->
       PrepareView wq scene_ camera_ drawShadows_ r = Ok r' ->
       numPendingBatchTasks r' = 0.
Proof.
  split.
  - unfold PrepareView. destruct scene_ as [scene|]; [|discriminate].
    destruct camera_ as [camera|]; [|discriminate].
    destruct (FindChild_Octree scene) as [octree|]; [|discriminate].
    apply bind_no_stall; [apply runCollectOctantsTasks_no_stall|].
    intros r3 Hrun. apply PrepareView_never_stalls in Hrun; [|reflexivity].
    rewrite Hrun. cbn [Z.ltb Z.compare]. unfold completeTasks. no_stall.
  - intros scene camera octree r' -> -> Hoctree Hrun.
    unfold PrepareView in Hrun. rewrite Hoctree in Hrun. bind_ok Hrun.
    apply PrepareView_never_stalls in E; [|reflexivity].
    rewrite E in Hrun. cbn [Z.ltb Z.compare] in Hrun.
    unfold completeTasks in Hrun.
    change (numPendingBatchTasks a) with
      (numPendingBatchTasks (SortMainBatches a)) in E.
    destruct (0 <? length (rootLevelOctants (SortMainBatches a)))%nat.
    + bind_ok Hrun. bind_ok Hrun. destruct a1 as [r2 zs].
      assert (H1 : numPendingBatchTasks a0
                   = numPendingBatchTasks (SortMainBatches a)).
      { clear -E0. unfold ProcessLightsWork in E0. bind_ok E0.
        destruct (findDirLight _ _) as [dir0 localized].
        repeat (bind_ok E0;
                repeat match type of E0 with
                       | context [match ?p with (_, _) => _ end] => destruct p
                       end).
        inversion E0; subst. reflexivity. }
      assert (H2 : numPendingBatchTasks r2 = numPendingBatchTasks a0).
      { clear -E1. unfold ProcessShadowCastersWork in E1. bind_ok E1.
        destruct a as [tasks pending]. inversion E1; subst. reflexivity. }
      assert (H3 : forall zs r r', runCullLightsTasks zs r = Ok r' ->
                     numPendingBatchTasks r' = numPendingBatchTasks r).
      { clear. induction zs as [|z zs IH]; intros r r' Hrun; cbn in Hrun.
        - now inversion Hrun.
        - bind_ok Hrun. apply IH in Hrun. rewrite Hrun.
          unfold CullLightsToFrustumWork in E. bind_ok E.
          destruct a0 as [c d]. inversion E; subst. reflexivity. }
      apply H3 in Hrun. congruence.
    + inversion Hrun; subst. exact E.
Qed.

Lemma InSubtree_trans a b c : InSubtree a b -> InSubtree b c -> InSubtree a c.
Proof.
  intros Hab Hbc. induction Hbc as [|o child Hin Hb IH]; [exact Hab|].
  eapply InSubtree_child; eauto.
Qed.

Lemma findRootLevelOctants_subtree root start :
  In start (findRootLevelOctants root) -> InSubtree start root.
Proof.
  unfold findRootLevelOctants. rewrite in_app_iff. intros [Hin | Hin].
  - destruct (0 <? length (drawables root))%nat; [|destruct Hin].
    destruct Hin as [<- | []]. constructor.
  - apply list_elem_of_In, list_elem_of_omap in Hin.
    destruct Hin as ([c|] & Hc & Hid); [|discriminate].
    cbn in Hid. inversion Hid; subst c.
    eapply InSubtree_child; [|constructor].
    apply list_elem_of_In. eapply subseteq_take; eauto.
Qed.

Lemma findRootLevelOctants_length root :
  (length (findRootLevelOctants root) <= S NUM_OCTANTS)%nat.
Proof.
  unfold findRootLevelOctants. rewrite length_app.
  assert (H1 : (length (if (0 <? length (drawables root))%nat
                        then [root] else []) <= 1)%nat)
    by (destruct (0 <? _)%nat; cbn; lia).
  assert (H2 : (length (omap id (take NUM_OCTANTS (children root)))
                <= NUM_OCTANTS)%nat).
  { assert (Ho : forall l : list (option Octant),
              (length (omap id l) <= length l)%nat).
    { induction l as [|[x|] l IH]; cbn; lia. }
    etransitivity; [apply Ho|]. rewrite length_take. lia. }
  lia.
Qed.

Lemma mergeLights_flat results n : forall i ls merged,
  mergeLights results i n ls = Ok merged ->
  merged = ls ++ flat_map result_lights (take n (drop i results)).
Proof.
  induction n as [|n IH]; intros i ls merged Hrun; cbn [mergeLights] in Hrun.
  - inversion Hrun. cbn. now rewrite app_nil_r.
  - bind_ok Hrun. unfold at_index in E.
    destruct (results !! i) as [x|] eqn:Hx; [|discriminate].
    inversion E; subst a. apply IH in Hrun. subst merged.
    rewrite (drop_S _ _ _ Hx). cbn. now rewrite <- app_assoc.
Qed.

(** The lights left in the result slots by the octant tasks of a frame
    were found in the subtrees the tasks started from. *)
Lemma runCollectOctantsTasks_lights wq root starts : forall i n r r',
  (forall k, (k < length starts)%nat ->
     octantResults r !! (i + k)%nat = Some (mkThreadOctantResult 0 0 0 [] [])) ->
  runCollectOctantsTasks wq root starts i n r = Ok r' ->
  Forall (fun l => exists start, In start starts
                                 /\ lightOfOctree (viewMask r) start l)
    (flat_map result_lights (take (length starts) (drop i (octantResults r')))).
Proof.
  induction starts as [|o rest IH]; intros i n r r' Hslots Hrun;
    cbn [runCollectOctantsTasks] in Hrun.
  - cbn. constructor.
  - bind_ok Hrun. destruct a as [r1 tasks].
    bind_ok Hrun. destruct a as [r2 n'].
    assert (Hslot : octantResults r !! i
                    = Some (mkThreadOctantResult 0 0 0 [] [])).
    { specialize (Hslots 0%nat). rewrite Nat.add_0_r in Hslots.
      apply Hslots. cbn. lia. }
    destruct (CollectOctantsWork_Gathered _ _ _ _ _ _ _ Hslot E)
      as (result & ts & Hres & [_ (ls & Hl & Hls) _] & _).
    destruct (CollectOctantsWork_slots _ _ _ _ _ _ _ E)
      as (Hv1 & _ & _ & Hs1).
    destruct (runBatchTasks_sameRecorded _ _ _ _ _ _ E0) as [Hv2 Hs2].
    assert (Hslots2 : forall k, (k < length rest)%nat ->
              octantResults r2 !! (S i + k)%nat
              = Some (mkThreadOctantResult 0 0 0 [] [])).
    { intros k Hk. rewrite Hs2, Hs1 by lia.
      replace (S i + k)%nat with (i + S k)%nat by lia.
      apply Hslots. cbn. lia. }
    specialize (IH _ _ _ _ Hslots2 Hrun).
    assert (Hi : octantResults r' !! i = Some result).
    { rewrite (runCollectOctantsTasks_slots _ _ _ _ _ _ _ Hrun i) by lia.
      now rewrite Hs2. }
    cbn [length]. rewrite (drop_S _ _ _ Hi). cbn [take flat_map].
    apply Forall_app. split.
    + cbn in Hl. subst ls.
      eapply List.Forall_impl; [|exact Hls]. cbn.
      intros l (o' & d & mask & Hsub & Hd & Ha). exists o.
      split; [now left|]. exists o', d.
      unfold acceptsLight in Ha. destruct (kind d) eqn:Hk; [|discriminate].
      destruct (negb (Z.land (LayerMask d) (viewMask r) =? 0)) eqn:Hm;
        [|discriminate].
      destruct ((mask =? 0) || IsInsideMaskedFast d mask); [|discriminate].
      destruct (OnPrepareRender d) eqn:Hp; [|discriminate].
      cbn in Ha. inversion Ha; subst. split_and!; auto.
      apply negb_true_iff, Z.eqb_neq in Hm. exact Hm.
    + eapply List.Forall_impl; [|exact IH]. cbn.
      intros l (start & Hin & Hlight). exists start.
      rewrite Hv2, Hv1 in Hlight. split; [now right | exact Hlight].
Qed.

Lemma lightOfOctree_sub vm start root l :
  InSubtree start root -> lightOfOctree vm start l -> lightOfOctree vm root l.
Proof.
  intros Hsub (o & d & Ho & Hrest). exists o, d.
  split; [eapply InSubtree_trans; eauto | exact Hrest].
Qed.

(** X10. The light list of a frame is rebuilt from the octree. After a frame
    has been prepared, every retained light and the directional light
    stand for light drawables that the traversal of this frame found in
    the octree, with a layer mask that meets the camera's view mask, and
    that accepted the frame: nothing is left of the lights of an earlier
    frame. The retained lights are point and spot lights in order of
    ascending distance, at most [MAX_LIGHTS] of them. *)
Theorem PrepareView_lights `{Collaborators} (wq : WorkQueue) (scene : Scene)
    (camera : Camera) (octree : Octree) (drawShadows_ : bool)
    (r r' : Renderer) :
  FindChild_Octree scene = Some octree ->
  (S NUM_OCTANTS <= length (octantResults r))%nat ->
  length (shadowMaps r) <> 1%nat ->
  PrepareView wq (Some scene) (Some camera) drawShadows_ r = Ok r' ->
  (length (lights r') <= MAX_LIGHTS)%nat
  /\ StronglySorted (fun a b => Distance a <= Distance b) (lights r')
  /\ Forall (fun l =>
       GetLightType l <> LIGHT_DIRECTIONAL
       /\ exists l0, sameLight l0 l
            /\ lightOfOctree (ViewMask camera) (Root octree) l0) (lights r')
  /\ (forall d, dirLight r' = Some d ->
        GetLightType d = LIGHT_DIRECTIONAL
        /\ exists l0, sameLight l0 d
             /\ lightOfOctree (ViewMask camera) (Root octree) l0).
Proof.
  intros Hoctree Hslots Hmaps Hrun.
  unfold PrepareView in Hrun. rewrite Hoctree in Hrun.
  set (roots := findRootLevelOctants (Root octree)) in *.
  set (r1 := beginFrame camera drawShadows_ r) in *.
  set (r2 := set_queued _ _) in Hrun.
  bind_ok Hrun. rename a into r3, E into Hcollect.
  assert (Hpending := PrepareView_never_stalls wq (Root octree) r2 r3
                        eq_refl Hcollect).
  rewrite Hpending in Hrun. cbn [Z.ltb Z.compare] in Hrun.
  destruct (runCollectOctantsTasks_header _ _ _ _ _ _ _ Hcollect)
    as (Hh & _ & Hlen).
  apply frameHeader_inv in Hh.
  destruct Hh as (_ & Hds3 & _ & _ & Hr3 & Hm3 & Hl3 & Hd3).
  assert (Hcleared : forall k, (k < length roots)%nat ->
            octantResults r2 !! (0 + k)%nat
            = Some (mkThreadOctantResult 0 0 0 [] [])).
  { intros k Hk. cbn [Nat.add]. subst r2 r1. cbn [octantResults set_queued
      set_numPendingShadowViews set_numPendingBatchTasks set_rootLevelOctants
      beginFrame].
    pose proof (findRootLevelOctants_length (Root octree)) as Hr.
    fold roots in Hr.
    destruct (lookup_lt_is_Some_2 (octantResults r) k) as [x Hx]; [lia|].
    change (map ThreadOctantResult_Clear (octantResults r))
      with (ThreadOctantResult_Clear <$> octantResults r).
    rewrite list_lookup_fmap, Hx. reflexivity. }
  assert (Hfound := runCollectOctantsTasks_lights wq (Root octree) roots 0 0
                      r2 r3 Hcleared Hcollect).
  rewrite drop_0 in Hfound.
  assert (Hfound' : Forall (lightOfOctree (ViewMask camera) (Root octree))
            (flat_map result_lights (take (length roots) (octantResults r3)))).
  { eapply List.Forall_impl; [|exact Hfound]. cbn.
    intros l (start & Hin & Hl). eapply lightOfOctree_sub; [|exact Hl].
    now apply findRootLevelOctants_subtree. }
  clear Hfound.
  set (r4 := SortMainBatches r3) in *.
  unfold completeTasks in Hrun.
  destruct (0 <? length (rootLevelOctants r4))%nat eqn:Hroots.
  2:{ inversion Hrun; subst r'.
      assert (Hl : lights r4 = []) by (cbn; rewrite Hl3; reflexivity).
      assert (Hd : dirLight r4 = None) by (cbn; rewrite Hd3; reflexivity).
      rewrite Hl, Hd. split_and!; [cbn; lia | constructor | constructor |].
      intros d Hdd. discriminate. }
  bind_ok Hrun. rename a into r5, E into Hlights.
  bind_ok Hrun. destruct a as [r6 zs]. rename E into Hcasters.
  apply ProcessShadowCastersWork_frame in Hcasters
    as (_ & _ & Hl6 & Hd6 & _).
  apply runCullLightsTasks_frame in Hrun as (_ & _ & Hl7 & Hd7 & _).
  rewrite Hl7, Hl6, Hd7, Hd6.
  assert (Hproc : lightsProcessable r4).
  { split.
    - change (rootLevelOctants r4) with (rootLevelOctants r3).
      change (octantResults r4) with (octantResults r3).
      rewrite Hlen, Hr3.
      subst r2 r1.
      cbn [rootLevelOctants octantResults set_queued set_numPendingShadowViews
           set_numPendingBatchTasks set_rootLevelOctants beginFrame].
      rewrite length_map.
      pose proof (findRootLevelOctants_length (Root octree)) as Hr.
      fold roots in Hr. lia.
    - change (drawShadows r4) with (drawShadows r3).
      change (shadowMaps r4) with (shadowMaps r3).
      rewrite Hds3, Hm3.
      subst r2 r1.
      cbn [drawShadows shadowMaps set_queued set_numPendingShadowViews
           set_numPendingBatchTasks set_rootLevelOctants beginFrame].
      rewrite length_map.
      destruct (length (shadowMaps r)) as [|[|n]]; [left; reflexivity | lia |].
      right. lia. }
  destruct (ProcessLightsWork_spec r4 Hproc)
    as (r5' & merged & tasks & Hrun5 & Hmerge & Hsame & Hdir & _).
  rewrite Hlights in Hrun5. inversion Hrun5; subst r5'. clear Hrun5.
  apply mergeLights_flat in Hmerge.
  change (lights r4) with (lights r3) in Hmerge.
  change (dirLight r4) with (dirLight r3) in Hsame, Hdir.
  change (octantResults r4) with (octantResults r3) in Hmerge.
  change (rootLevelOctants r4) with (rootLevelOctants r3) in Hmerge.
  rewrite Hr3, Hl3, drop_0 in Hmerge. rewrite Hd3 in Hsame, Hdir.
  change (rootLevelOctants r2) with roots in Hmerge.
  change (lights r2) with (@nil LightDrawable) in Hmerge.
  change (dirLight r2) with (@None LightDrawable) in Hsame, Hdir.
  cbn [app] in Hmerge. rewrite <- Hmerge in Hfound'.
  set (localized := (findDirLight None merged).2) in *.
  assert (Hlocal : forall l, In l (lights r5) ->
    exists x, In x merged /\ GetLightType x <> LIGHT_DIRECTIONAL
              /\ sameLight x l).
  { intros l Hin.
    destruct (Forall2_sameLight_In_r _ _ _ Hsame Hin) as (x & Hx & Hs).
    apply retained_In in Hx. subst localized.
    rewrite findDirLight_kept in Hx. apply filter_In in Hx as [Hx Ht].
    exists x. split_and!; auto.
    intros Hd. rewrite (bool_decide_eq_true_2 _ Hd) in Ht. discriminate. }
  pose proof (std_sort_sorted localized) as Hsorted.
  rewrite <- (take_drop MAX_LIGHTS (std_sort localized)) in Hsorted.
  rewrite clampLights_take in Hsame.
  split_and!.
  - rewrite <- (Forall2_length Hsame), length_take. lia.
  - eapply StronglySorted_Distance; [exact Hsame|].
    eapply StronglySorted_app_left. exact Hsorted.
  - apply List.Forall_forall. intros l Hin.
    destruct (Hlocal l Hin) as (x & Hx & Ht & Hs). split.
    + destruct Hs as (_ & Hty & _). congruence.
    + exists x. split; [exact Hs|].
      eapply List.Forall_forall in Hfound'; eauto.
  - intros d Hd. rewrite Hd in Hdir.
    pose proof (findDirLight_dominant merged None) as Hdom.
    inversion Hdir as [d0 d' Hs Hd0|]; subst d'.
    rewrite <- Hd0 in Hdom.
    destruct Hdom as ([Hsrc | [Hin Ht]] & _); [discriminate|]. split.
    + destruct Hs as (_ & Hty & _). congruence.
    + exists d0. split; [exact Hs|].
      eapply List.Forall_forall in Hfound'; eauto.
Qed.

Lemma PrepareView_wait_ends_witness :
  exists r',
    PrepareView fourThreads (Some litScene) (Some camera) true
      (rendererAt 7 4 [dirAtlas; lightAtlas] []) = Ok r'
    /\ numPendingBatchTasks r' = 0.
Proof.
  destruct (PrepareView_wait_ends fourThreads (Some litScene) (Some camera)
              true (rendererAt 7 4 [dirAtlas; lightAtlas] []))
    as [Hno Hzero].
  destruct (PrepareView fourThreads (Some litScene) (Some camera) true
              (rendererAt 7 4 [dirAtlas; lightAtlas] []))
    as [r'| |] eqn:Hrun; [|vm_compute in Hrun; discriminate|contradiction].
  exists r'. split; [reflexivity|].
  exact (Hzero litScene camera (mkOctree litRoot) r' eq_refl eq_refl eq_refl
           eq_refl).
Defined.

Lemma PrepareView_lights_witness :
  FindChild_Octree litScene = Some (mkOctree litRoot)
  /\ (S NUM_OCTANTS
      <= length (octantResults (rendererAt 7 4 [dirAtlas; lightAtlas]
                                  [greedyLight])))%nat
  /\ length (shadowMaps (rendererAt 7 4 [dirAtlas; lightAtlas] [greedyLight]))
     <> 1%nat
  /\ exists r',
       PrepareView fourThreads (Some litScene) (Some camera) true
         (rendererAt 7 4 [dirAtlas; lightAtlas] [greedyLight]) = Ok r'
       /\ map light_addr (lights r') = [42; 40]%nat
       /\ StronglySorted (fun a b => Distance a <= Distance b) (lights r').
Proof.
  assert (H2 : (S NUM_OCTANTS
                <= length (octantResults (rendererAt 7 4 [dirAtlas; lightAtlas]
                                            [greedyLight])))%nat)
    by (vm_compute; lia).
  assert (H3 : length (shadowMaps (rendererAt 7 4 [dirAtlas; lightAtlas]
                                     [greedyLight])) <> 1%nat)
    by (vm_compute; lia).
  split; [reflexivity|]. split; [exact H2|]. split; [exact H3|].
  destruct (PrepareView fourThreads (Some litScene) (Some camera) true
              (rendererAt 7 4 [dirAtlas; lightAtlas] [greedyLight]))
    as [r'| |] eqn:Hrun; [|vm_compute in Hrun; discriminate..].
  destruct (PrepareView_lights fourThreads litScene camera (mkOctree litRoot)
              true _ r' eq_refl H2 H3 Hrun) as (_ & Hsorted & _).
  exists r'. split_and!; auto.
  vm_compute in Hrun. inversion Hrun. reflexivity.
Defined.

(** ** Frame numbers as stamps *)

Lemma nextFrameNumber_cycle f :
  1 <= f <= 65535 -> nextFrameNumber f = f mod 65535 + 1.
Proof.
  intros Hf. unfold nextFrameNumber.
  destruct (Z.eq_dec f 65535) as [-> | Hne]; [reflexivity|].
  rewrite (Z.mod_small (f + 1)) by lia.
  rewrite (Z.mod_small f) by lia.
  destruct (f + 1 =? 0) eqn:E; [apply Z.eqb_eq in E; lia | reflexivity].
Qed.

Lemma frameNumberAfter_cycle k f :
  1 <= f <= 65535 ->
  frameNumberAfter k f = (f - 1 + Z.of_nat k) mod 65535 + 1.
Proof.
  intros Hf. induction k as [|k IH].
  - cbn [frameNumberAfter]. change (Z.of_nat 0) with 0.
    rewrite Z.add_0_r, Z.mod_small by lia. lia.
  - cbn [frameNumberAfter]. rewrite IH.
    assert (Hb := Z.mod_pos_bound (f - 1 + Z.of_nat k) 65535 ltac:(lia)).
    rewrite nextFrameNumber_cycle by lia.
    rewrite Z.add_mod_idemp_l by lia. f_equal. f_equal. lia.
Qed.

(** X11. Frame numbers are stamps that stay apart: the numbers of two frames
    fewer than 65535 frames from each other differ, none of them is zero,
    and after exactly 65535 frames the number comes back. A drawable
    stamped in an earlier frame is therefore taken for one updated in the
    current frame only when exactly a multiple of 65535 frames lie
    between. *)
Theorem frameNumber_stamps (f : Z) (k : nat) :
  1 <= f <= 65535 ->
  1 <= frameNumberAfter k f <= 65535
  /\ (frameNumberAfter k f = f <-> Z.of_nat k mod 65535 = 0).
Proof.
  intros Hf. rewrite frameNumberAfter_cycle by exact Hf.
  assert (Hb := Z.mod_pos_bound (f - 1 + Z.of_nat k) 65535 ltac:(lia)).
  split; [lia|].
  assert (Hk := Z.mod_pos_bound (Z.of_nat k) 65535 ltac:(lia)).
  rewrite <- (Z.add_mod_idemp_r (f - 1) (Z.of_nat k)) by lia.
  set (m := Z.of_nat k mod 65535) in *.
  split.
  - intros Heq.
    destruct (Z_lt_dec (f - 1 + m) 65535) as [Hlt | Hge].
    + rewrite Z.mod_small in Heq by lia. lia.
    + assert (Hm : (f - 1 + m) mod 65535 = f - 1 + m - 65535).
      { symmetry. apply Z.mod_unique with (q := 1); lia. }
      lia.
  - intros ->. rewrite Z.add_0_r, Z.mod_small by lia. lia.
Qed.

Lemma frameNumber_stamps_witness :
  1 <= 65000 <= 65535
  /\ frameNumberAfter 1000 65000 <> 65000
  /\ frameNumberAfter (Z.to_nat 65535) 65000 = 65000.
Proof.
  assert (H1 : 1 <= 65000 <= 65535) by lia.
  split; [exact H1|].
  split.
  - intros Heq. apply (frameNumber_stamps 65000 1000 H1) in Heq.
    vm_compute in Heq. discriminate.
  - apply (frameNumber_stamps 65000 (Z.to_nat 65535) H1).
    vm_compute. reflexivity.
Defined.

(** * Shadow views: render mode and batch queues *)

Lemma shadowGeometries_app d bs : forall j dest,
  shadowGeometries d j bs dest = dest ++ shadowGeometries d j bs [].
Proof.
  induction bs as [|sb rest IH]; intros j dest; cbn [shadowGeometries].
  - now rewrite app_nil_r.
  - destruct (GetPass (GetMaterial sb) PASS_SHADOW) as [p|]; [|apply IH].
    rewrite (IH (S j) (dest ++ _)), (IH (S j) ([] ++ _)).
    now rewrite <- app_assoc.
Qed.

(** Where the batches of the accepted casters go: to the static queue for
    a static caster of a static light that is not directional, to the
    dynamic queue otherwise. *)
Lemma collectShadowCasters_queues frameNumber_ lightType d cs : forall t,
  let accepted := List.filter (casterAccepted lightType d) cs in
  let static c := drawable_IsStatic (caster c) in
  let t' := collectShadowCasters frameNumber_ lightType d cs t in
  destStatic t'
  = destStatic t
    ++ flat_map shadowBatchesOf
         (List.filter (fun c => negb d && static c) accepted)
  /\ destDynamic t'
     = destDynamic t
       ++ flat_map shadowBatchesOf
            (List.filter (fun c => negb (negb d && static c)) accepted).
Proof.
  induction cs as [|c rest IH]; intros t; cbn zeta.
  - cbn. now rewrite !app_nil_r.
  - cbn [collectShadowCasters List.filter].
    destruct (casterAccepted lightType d c) eqn:Hacc; [|apply IH].
    match goal with
    | |- context [collectShadowCasters _ _ _ rest ?t0] =>
        destruct (IH t0) as (H1 & H2)
    end.
    rewrite H1, H2. cbn [destStatic destDynamic List.filter].
    destruct (negb d && drawable_IsStatic (caster c)); cbn [negb flat_map].
    + rewrite shadowGeometries_app, <- app_assoc. now split.
    + rewrite shadowGeometries_app, <- app_assoc. now split.
Qed.

Section ShadowViewProperties.
Context `{Collaborators}.

(** X12. For the shadow view of a dynamic light or of the directional light,
    processed with a non-zero viewport, there are two modes only: the view
    is rendered ([DYNAMIC_LIGHT]) as soon as its viewport or shadow matrix
    differs from last frame's, the number of accepted casters differs from
    last frame's or an accepted caster was updated in this frame, and it is
    [CACHED] otherwise. No static queue is used: the batches of every
    accepted caster are appended to the dynamic queue. *)
Theorem dynamic_light_render_mode (frameNumber_ : Z) (lightType : LightType)
    (lightIsStatic : bool) (view : ShadowView) (casters : list ShadowCaster)
    (queueStatic queueDynamic : list Batch) :
  lightType = LIGHT_DIRECTIONAL \/ lightIsStatic = false ->
  viewport view <> IntRect_ZERO ->
  let accepted := List.filter (casterAccepted lightType true) casters in
  let moved c := LastUpdateFrameNumber (caster c) =? frameNumber_ in
  let result :=
    CollectShadowBatchesWork_view frameNumber_ lightType lightIsStatic view
      casters queueStatic queueDynamic in
  renderMode result.1.1
  = (if bool_decide (lastViewport view = viewport view)
        && Matrix4_Equals (lastShadowMatrix view) (shadowMatrix view)
        && (lastNumGeometries view =? length accepted)%nat
        && negb (existsb moved accepted)
     then RENDER_STATIC_LIGHT_CACHED else RENDER_DYNAMIC_LIGHT)
  /\ result.1.2 = queueStatic
  /\ result.2 = queueDynamic ++ flat_map shadowBatchesOf accepted.
Proof.
  intros Hdyn Hvp accepted moved result. subst result.
  unfold CollectShadowBatchesWork_view.
  rewrite (bool_decide_eq_false_2 _ Hvp).
  assert (Hd : bool_decide (lightType = LIGHT_DIRECTIONAL)
               || negb lightIsStatic = true).
  { destruct Hdyn as [-> | ->]; [reflexivity | apply orb_true_r]. }
  rewrite Hd.
  match goal with
  | |- context [collectShadowCasters ?f ?lt ?d ?cs ?t0] =>
      destruct (collectShadowCasters_totals f lt d cs t0) as (H1 & _ & H3 & H4);
      destruct (collectShadowCasters_queues f lt d cs t0) as (Q1 & Q2);
      set (t := collectShadowCasters f lt d cs t0) in *
  end.
  cbn [totalShadowCasters dynamicCastersMoved staticCastersMoved destStatic
       destDynamic orb Nat.add negb andb] in H1, H3, H4, Q1, Q2.
  fold accepted in H1, H3, H4, Q1, Q2. fold moved in H3, H4.
  assert (Hq1 : destStatic t = queueStatic).
  { rewrite Q1. clear. induction accepted as [|c l IH]; cbn.
    - now rewrite app_nil_r.
    - exact IH. }
  assert (Hq2 : destDynamic t = queueDynamic ++ flat_map shadowBatchesOf accepted).
  { rewrite Q2. f_equal. f_equal. clear.
    induction accepted as [|c l IH]; cbn; [reflexivity | now rewrite IH]. }
  assert (Hmoved : dynamicCastersMoved t || staticCastersMoved t
                   = existsb moved accepted).
  { rewrite H3, H4. clear. induction accepted as [|c l IH]; [reflexivity|].
    cbn [existsb]. rewrite <- IH. subst moved. cbn beta.
    destruct (drawable_IsStatic (caster c)),
      (LastUpdateFrameNumber (caster c) =? frameNumber_),
      (existsb (fun c0 => negb (drawable_IsStatic (caster c0))
                          && (LastUpdateFrameNumber (caster c0) =? frameNumber_)) l),
      (existsb (fun c0 => drawable_IsStatic (caster c0)
                          && (LastUpdateFrameNumber (caster c0) =? frameNumber_)) l);
      reflexivity. }
  assert (Hmode : resolveRenderMode true view t
    = (if bool_decide (lastViewport view = viewport view)
          && Matrix4_Equals (lastShadowMatrix view) (shadowMatrix view)
          && (lastNumGeometries view =? length accepted)%nat
          && negb (existsb moved accepted)
       then RENDER_STATIC_LIGHT_CACHED else RENDER_DYNAMIC_LIGHT)).
  { unfold resolveRenderMode. rewrite <- Hmoved, H1.
    destruct (bool_decide (lastViewport view = viewport view)),
      (Matrix4_Equals (lastShadowMatrix view) (shadowMatrix view)),
      (lastNumGeometries view =? length accepted)%nat,
      (dynamicCastersMoved t), (staticCastersMoved t); reflexivity. }
  cbn [negb andb].
  destruct (bool_decide (resolveRenderMode true view t
                         = RENDER_STATIC_LIGHT_CACHED));
    cbn [fst snd]; split_and!; auto.
Qed.

(** X13. For the shadow view of a static light that is not directional,
    processed with a non-zero viewport: the batches of the accepted dynamic
    casters are appended to the dynamic queue, those of the accepted static
    casters to the static queue; and the static queue is emptied after the
    collection whenever the view is to be rendered in a mode other than
    [STORE_STATIC]. *)
Theorem static_light_shadow_queues (frameNumber_ : Z) (lightType : LightType)
    (view : ShadowView) (casters : list ShadowCaster)
    (queueStatic queueDynamic : list Batch) :
  lightType <> LIGHT_DIRECTIONAL ->
  viewport view <> IntRect_ZERO ->
  let accepted := List.filter (casterAccepted lightType false) casters in
  let static c := drawable_IsStatic (caster c) in
  let result :=
    CollectShadowBatchesWork_view frameNumber_ lightType true view casters
      queueStatic queueDynamic in
  result.2
  = queueDynamic
    ++ flat_map shadowBatchesOf (List.filter (fun c => negb (static c)) accepted)
  /\ result.1.2
     = (if bool_decide (renderMode result.1.1 = RENDER_STATIC_LIGHT_CACHED)
           || bool_decide (renderMode result.1.1
                           = RENDER_STATIC_LIGHT_STORE_STATIC)
        then queueStatic ++ flat_map shadowBatchesOf (List.filter static accepted)
        else []).
Proof.
  intros Hdir Hvp accepted static result. subst result.
  unfold CollectShadowBatchesWork_view.
  rewrite (bool_decide_eq_false_2 _ Hvp).
  rewrite (bool_decide_eq_false_2 _ Hdir). cbn [negb orb].
  match goal with
  | |- context [collectShadowCasters ?f ?lt ?d ?cs ?t0] =>
      destruct (collectShadowCasters_queues f lt d cs t0) as (Q1 & Q2);
      set (t := collectShadowCasters f lt d cs t0) in *
  end.
  cbn [destStatic destDynamic negb andb] in Q1, Q2.
  fold accepted in Q1, Q2. fold static in Q1, Q2.
  set (mode := resolveRenderMode false view t).
  destruct (bool_decide (mode = RENDER_STATIC_LIGHT_CACHED)) eqn:Hc;
    cbn [fst snd renderMode set_renderMode set_shadowMatrix
         set_lastShadowMatrix set_lastNumGeometries set_lastViewport].
  - apply bool_decide_eq_true_1 in Hc. rewrite Hc.
    cbn [orb]. rewrite (bool_decide_eq_true_2 _ eq_refl). cbn [orb].
    now split.
  - rewrite Hc. cbn [orb andb].
    destruct (bool_decide (mode = RENDER_STATIC_LIGHT_STORE_STATIC));
      cbn [negb]; now split.
Qed.

(** X14. A view that is skipped (zero viewport: no geometry, out of range or a
    point light face out of view) is marked [CACHED] and keeps its queues
    as they are; the last viewport remembered is zeroed, so that the view
    is rendered again, and not taken from the cache, in the first later
    frame that processes it with a viewport. *)
Theorem skipped_view_rerenders (frameNumber_ frameNumber' : Z)
    (lightType : LightType) (lightIsStatic : bool) (view view' : ShadowView)
    (casters casters' : list ShadowCaster)
    (queueStatic queueDynamic queueStatic' queueDynamic' : list Batch) :
  viewport view = IntRect_ZERO ->
  let skipped :=
    CollectShadowBatchesWork_view frameNumber_ lightType lightIsStatic view
      casters queueStatic queueDynamic in
  lastViewport view' = lastViewport skipped.1.1 ->
  viewport view' <> IntRect_ZERO ->
  renderMode skipped.1.1 = RENDER_STATIC_LIGHT_CACHED
  /\ skipped.1.2 = queueStatic /\ skipped.2 = queueDynamic
  /\ renderMode
       (CollectShadowBatchesWork_view frameNumber' lightType lightIsStatic
          view' casters' queueStatic' queueDynamic').1.1
     = (if bool_decide (lightType = LIGHT_DIRECTIONAL) || negb lightIsStatic
        then RENDER_DYNAMIC_LIGHT else RENDER_STATIC_LIGHT_STORE_STATIC).
Proof.
  intros Hzero skipped Hlast Hvp. subst skipped.
  unfold CollectShadowBatchesWork_view in *.
  rewrite (bool_decide_eq_true_2 _ Hzero) in *. cbn [fst snd] in *.
  cbn [lastViewport set_lastViewport] in Hlast.
  split_and!; auto.
  rewrite (bool_decide_eq_false_2 _ Hvp).
  set (d := bool_decide (lightType = LIGHT_DIRECTIONAL) || negb lightIsStatic).
  set (t := collectShadowCasters _ _ _ _ _).
  assert (Hne : bool_decide (lastViewport view' = viewport view') = false).
  { apply bool_decide_eq_false_2. rewrite Hlast. congruence. }
  assert (Hmode : resolveRenderMode d view' t
                  = (if d then RENDER_DYNAMIC_LIGHT
                     else RENDER_STATIC_LIGHT_STORE_STATIC)).
  { unfold resolveRenderMode. rewrite Hne. cbn [negb orb]. reflexivity. }
  rewrite Hmode. destruct d; reflexivity.
Qed.

End ShadowViewProperties.

Section SteadyView.
Context `{Collaborators}.

Lemma existsb_moved_false frameNumber_ (f : ShadowCaster -> bool)
    (cs : list ShadowCaster) :
  Forall (fun c => LastUpdateFrameNumber (caster c) <> frameNumber_) cs ->
  existsb (fun c => f c && (LastUpdateFrameNumber (caster c) =? frameNumber_))
    cs = false.
Proof.
  induction 1 as [|c l Hc _ IH]; [reflexivity|].
  cbn [existsb]. rewrite IH. apply Z.eqb_neq in Hc. rewrite Hc.
  now rewrite andb_false_r.
Qed.

(** X15. A view that has been rendered is taken from the cache in the next
    frame when nothing changed: with the same viewport, a shadow matrix
    equal to the rendered one within the tolerance, the same number of
    accepted casters and no accepted caster updated in that frame, the
    mode is [CACHED], for a static light as for a dynamic one, and the
    shadow matrix of the view is set back to the one last rendered. *)
Theorem rendered_view_then_cached (frame1 frame2 : Z) (lightType : LightType)
    (lightIsStatic : bool) (view view2 : ShadowView)
    (casters casters2 : list ShadowCaster)
    (queueStatic queueDynamic queueStatic2 queueDynamic2 : list Batch) :
  let dynamicOrDirLight :=
    bool_decide (lightType = LIGHT_DIRECTIONAL) || negb lightIsStatic in
  let accepted := List.filter (casterAccepted lightType dynamicOrDirLight) in
  let first :=
    CollectShadowBatchesWork_view frame1 lightType lightIsStatic view casters
      queueStatic queueDynamic in
  let second :=
    CollectShadowBatchesWork_view frame2 lightType lightIsStatic view2
      casters2 queueStatic2 queueDynamic2 in
  viewport view <> IntRect_ZERO ->
  renderMode first.1.1 <> RENDER_STATIC_LIGHT_CACHED ->
  lastViewport view2 = lastViewport first.1.1 ->
  lastShadowMatrix view2 = lastShadowMatrix first.1.1 ->
  lastNumGeometries view2 = lastNumGeometries first.1.1 ->
  viewport view2 = viewport view ->
  Matrix4_Equals (shadowMatrix view) (shadowMatrix view2) = true ->
  length (accepted casters2) = length (accepted casters) ->
  Forall (fun c => LastUpdateFrameNumber (caster c) <> frame2)
    (accepted casters2) ->
  renderMode second.1.1 = RENDER_STATIC_LIGHT_CACHED
  /\ shadowMatrix second.1.1 = shadowMatrix view
  /\ lastViewport second.1.1 = viewport view
  /\ lastNumGeometries second.1.1 = length (accepted casters).
Proof.
  intros d accepted first second Hvp Hrendered Hlv Hlm Hln Hvp2 Hm Hlen Hstill.
  subst first second. unfold CollectShadowBatchesWork_view in *.
  rewrite (bool_decide_eq_false_2 _ Hvp) in *. fold d in Hrendered, Hlv, Hlm, Hln |- *.
  assert (Hvp2' : viewport view2 <> IntRect_ZERO) by congruence.
  rewrite (bool_decide_eq_false_2 _ Hvp2'). fold d.
  match type of Hrendered with
  | context [collectShadowCasters ?f ?lt ?dd ?cs ?t0] =>
      destruct (collectShadowCasters_totals f lt dd cs t0) as (T1 & _);
      set (t1 := collectShadowCasters f lt dd cs t0) in *
  end.
  match goal with
  | |- context [collectShadowCasters frame2 ?lt ?dd ?cs ?t0] =>
      destruct (collectShadowCasters_totals frame2 lt dd cs t0)
        as (U1 & _ & U3 & U4);
      set (t2 := collectShadowCasters frame2 lt dd cs t0) in *
  end.
  cbn [totalShadowCasters dynamicCastersMoved staticCastersMoved orb Nat.add]
    in T1, U1, U3, U4.
  fold (accepted casters) in T1. fold (accepted casters2) in U1, U3, U4.
  rewrite (existsb_moved_false frame2 _ _ Hstill) in U3.
  rewrite (existsb_moved_false frame2 _ _ Hstill) in U4.
  destruct (bool_decide (resolveRenderMode d view t1
                         = RENDER_STATIC_LIGHT_CACHED)) eqn:Hc.
  { exfalso. apply Hrendered. cbn. now apply bool_decide_eq_true_1 in Hc. }
  cbn [fst snd lastViewport lastShadowMatrix lastNumGeometries
       set_lastShadowMatrix set_lastNumGeometries set_lastViewport
       set_renderMode viewport shadowMatrix] in Hlv, Hlm, Hln.
  assert (Hmode : resolveRenderMode d view2 t2 = RENDER_STATIC_LIGHT_CACHED).
  { unfold resolveRenderMode. rewrite Hlv, Hlm, Hln, Hvp2, U1, U3, U4, T1, Hlen.
    rewrite (bool_decide_eq_true_2 _ eq_refl), Hm, Nat.eqb_refl.
    cbn [negb orb]. destruct d; reflexivity. }
  rewrite Hmode. rewrite (bool_decide_eq_true_2 _ eq_refl).
  cbn [fst snd renderMode shadowMatrix lastViewport lastNumGeometries
       lastShadowMatrix set_shadowMatrix set_renderMode].
  split_and!; congruence.
Qed.

End SteadyView.

Lemma dynamic_light_render_mode_witness :
  (LIGHT_SPOT = LIGHT_DIRECTIONAL \/ false = false)
  /\ viewport movingView <> IntRect_ZERO
  /\ (let result :=
        CollectShadowBatchesWork_view 8 LIGHT_SPOT false movingView
          [casterOf 30 true 0; casterOf 31 false 0] [] [] in
      renderMode result.1.1 = RENDER_DYNAMIC_LIGHT
      /\ result.1.2 = [] /\ length result.2 = 2%nat).
Proof.
  assert (H1 : LIGHT_SPOT = LIGHT_DIRECTIONAL \/ false = false) by now right.
  assert (H2 : viewport movingView <> IntRect_ZERO) by discriminate.
  split; [exact H1|]. split; [exact H2|].
  destruct (dynamic_light_render_mode 8 LIGHT_SPOT false movingView
              [casterOf 30 true 0; casterOf 31 false 0] [] [] H1 H2)
    as (Hmode & Hs & Hd).
  cbn zeta. split_and!; [|exact Hs|].
  - rewrite Hmode. reflexivity.
  - rewrite Hd. reflexivity.
Defined.

Lemma static_light_shadow_queues_witness :
  LIGHT_SPOT <> LIGHT_DIRECTIONAL
  /\ viewport steadyView <> IntRect_ZERO
  /\ (let result :=
        CollectShadowBatchesWork_view 8 LIGHT_SPOT true steadyView
          [casterOf 30 true 0; casterOf 31 false 8] [] [] in
      renderMode result.1.1 = RENDER_STATIC_LIGHT_RESTORE_STATIC
      /\ result.1.2 = [] /\ length result.2 = 1%nat).
Proof.
  assert (H1 : LIGHT_SPOT <> LIGHT_DIRECTIONAL) by discriminate.
  assert (H2 : viewport steadyView <> IntRect_ZERO) by discriminate.
  split; [exact H1|]. split; [exact H2|].
  destruct (static_light_shadow_queues 8 LIGHT_SPOT steadyView
              [casterOf 30 true 0; casterOf 31 false 8] [] [] H1 H2)
    as (Hd & Hs).
  cbn zeta. split_and!; [reflexivity| |].
  - rewrite Hs. reflexivity.
  - rewrite Hd. reflexivity.
Defined.

Lemma skipped_view_rerenders_witness :
  let hidden := set_viewport IntRect_ZERO steadyView in
  let skipped :=
    CollectShadowBatchesWork_view 8 LIGHT_POINT true hidden
      [casterOf 30 true 0] [] [] in
  let back := set_viewport (mkIntRect 0 0 256 256) skipped.1.1 in
  viewport hidden = IntRect_ZERO
  /\ lastViewport back = lastViewport skipped.1.1
  /\ viewport back <> IntRect_ZERO
  /\ renderMode
       (CollectShadowBatchesWork_view 9 LIGHT_POINT true back
          [casterOf 30 true 0] [] []).1.1
     = RENDER_STATIC_LIGHT_STORE_STATIC.
Proof.
  intros hidden skipped back.
  assert (H1 : viewport hidden = IntRect_ZERO) by reflexivity.
  assert (H2 : lastViewport back = lastViewport skipped.1.1) by reflexivity.
  assert (H3 : viewport back <> IntRect_ZERO) by discriminate.
  split; [exact H1|]. split; [exact H2|]. split; [exact H3|].
  destruct (skipped_view_rerenders 8 9 LIGHT_POINT true hidden back
              [casterOf 30 true 0] [casterOf 30 true 0] [] [] [] [] H1 H2 H3)
    as (_ & _ & _ & Hmode).
  exact Hmode.
Defined.

Lemma rendered_view_then_cached_witness :
  let moved := set_viewport (mkIntRect 256 0 512 256) steadyView in
  let first :=
    CollectShadowBatchesWork_view 8 LIGHT_SPOT true moved
      [casterOf 30 true 0; casterOf 31 false 0] [] [] in
  renderMode first.1.1 = RENDER_STATIC_LIGHT_STORE_STATIC
  /\ renderMode
       (CollectShadowBatchesWork_view 9 LIGHT_SPOT true first.1.1
          [casterOf 31 false 0; casterOf 30 true 0] [] []).1.1
     = RENDER_STATIC_LIGHT_CACHED.
Proof.
  intros moved first. split; [reflexivity|].
  refine (proj1 (rendered_view_then_cached 8 9 LIGHT_SPOT true moved first.1.1
            [casterOf 30 true 0; casterOf 31 false 0]
            [casterOf 31 false 0; casterOf 30 true 0] [] [] [] []
            _ _ _ _ _ _ _ _ _)).
  - discriminate.
  - discriminate.
  - reflexivity.
  - reflexivity.
  - reflexivity.
  - reflexivity.
  - reflexivity.
  - reflexivity.
  - vm_compute. repeat constructor; discriminate.
Defined.

(** * Shadow batch tasks and the views they handle *)

Lemma followers_le addr views : (followers addr views <= length views)%nat.
Proof.
  induction views as [|[a x] rest IH]; cbn; [lia|].
  destruct (a =? addr)%nat; cbn; lia.
Qed.

Lemma taskViewsFrom_cons r j addr x rest :
  taskViewsFrom r j ((addr, x) :: rest)
  = (light ← lookupLight r addr;
     if bool_decide (GetLightType light = LIGHT_POINT)
        && match rest with
           | (addr', _) :: _ => (addr' =? addr)%nat
           | [] => false
           end
     then more ← taskViewsFrom r (S j) rest; Ok (j :: more)
     else Ok [j]).
Proof. reflexivity. Qed.

Lemma taskViewsFrom_point r addr light :
  lookupLight r addr = Ok light -> GetLightType light = LIGHT_POINT ->
  forall rest j x,
    taskViewsFrom r j ((addr, x) :: rest)
    = Ok (seq j (S (followers addr rest))).
Proof.
  intros Hl Ht. induction rest as [|[a y] rest IH]; intros j x.
  - cbn [taskViewsFrom]. rewrite Hl. cbn [mbind Result_bind].
    rewrite andb_false_r. reflexivity.
  - rewrite taskViewsFrom_cons, Hl. cbn [mbind Result_bind followers].
    rewrite (bool_decide_eq_true_2 _ Ht). cbn [andb].
    destruct (a =? addr)%nat eqn:Ha; [|reflexivity].
    apply Nat.eqb_eq in Ha. subst a. rewrite (IH (S j) y).
    reflexivity.
Qed.

Lemma taskViewsFrom_other r addr light rest j x :
  lookupLight r addr = Ok light -> GetLightType light <> LIGHT_POINT ->
  taskViewsFrom r j ((addr, x) :: rest) = Ok [j].
Proof.
  intros Hl Ht. cbn [taskViewsFrom]. rewrite Hl. cbn [mbind Result_bind].
  rewrite (bool_decide_eq_false_2 _ Ht). reflexivity.
Qed.

Lemma shadowBatchTasks_followers r i addr light :
  lookupLight r addr = Ok light -> GetLightType light = LIGHT_POINT ->
  forall rest j,
    shadowBatchTasks r i j rest (Some addr)
    = shadowBatchTasks r i (j + followers addr rest)
        (drop (followers addr rest) rest) (Some addr).
Proof.
  intros Hl Ht. induction rest as [|[a y] rest IH]; intros j.
  - reflexivity.
  - cbn [followers]. destruct (a =? addr)%nat eqn:Ha.
    + apply Nat.eqb_eq in Ha. subst a. cbn [shadowBatchTasks drop].
      rewrite Hl. cbn [mbind Result_bind].
      rewrite (bool_decide_eq_true_2 _ Ht),
        (bool_decide_eq_true_2 _ eq_refl). cbn [andb].
      rewrite IH. f_equal. lia.
    + cbn [drop]. now rewrite Nat.add_0_r.
Qed.

Lemma startsTask_after_followers r addr rest :
  startsTask r (Some addr) (drop (followers addr rest) rest).
Proof.
  induction rest as [|[a y] rest IH]; cbn [followers]; [exact I|].
  destruct (a =? addr)%nat eqn:Ha; [exact IH|].
  cbn. intros light _ _ Heq. inversion Heq; subst.
  now rewrite Nat.eqb_refl in Ha.
Qed.

Lemma shadowBatchTasks_runs r i views : forall n prefix suffix lastLight tasks last,
  (length suffix <= n)%nat ->
  views = prefix ++ suffix ->
  startsTask r lastLight suffix ->
  shadowBatchTasks r i (length prefix) suffix lastLight = Ok (tasks, last) ->
  exists runs,
    Forall2 (fun t run => exists j,
               t = CollectShadowBatchesTask i j /\
               CollectShadowBatchesWork_views r views j = Ok run) tasks runs
    /\ concat runs = seq (length prefix) (length suffix).
Proof.
  induction n as [|n IH];
    intros prefix suffix lastLight tasks last Hn Hviews Hstart Hrun.
  - destruct suffix; [|cbn in Hn; lia]. cbn in Hrun. inversion Hrun; subst.
    exists []. split; [constructor | reflexivity].
  - destruct suffix as [|[addr x] rest].
    { cbn in Hrun. inversion Hrun; subst.
      exists []. split; [constructor | reflexivity]. }
    cbn [shadowBatchTasks] in Hrun. bind_ok Hrun. rename a into light.
    rename E into Hl.
    assert (Hnoskip : bool_decide (GetLightType light = LIGHT_POINT)
                      && bool_decide (Some addr = lastLight) = false).
    { destruct (decide (GetLightType light = LIGHT_POINT)) as [Ht|Ht].
      - rewrite (bool_decide_eq_true_2 _ Ht). cbn [andb].
        apply bool_decide_eq_false_2. intros Heq.
        apply (Hstart light Hl Ht). now symmetry.
      - now rewrite (bool_decide_eq_false_2 _ Ht). }
    rewrite Hnoskip in Hrun. bind_ok Hrun. destruct a as [tasks' last'].
    inversion Hrun; subst tasks last; clear Hrun. rename E into Hrest.
    set (k := if decide (GetLightType light = LIGHT_POINT)
              then followers addr rest else 0%nat).
    assert (Hk : (k <= length rest)%nat).
    { subst k. destruct (decide _); [apply followers_le | lia]. }
    assert (Hrun1 : CollectShadowBatchesWork_views r views (length prefix)
                    = Ok (seq (length prefix) (S k))).
    { unfold CollectShadowBatchesWork_views. rewrite Hviews.
      rewrite drop_app_length. subst k.
      destruct (decide (GetLightType light = LIGHT_POINT)) as [Ht|Ht].
      - eapply taskViewsFrom_point; eauto.
      - eapply taskViewsFrom_other; eauto. }
    assert (Hrest' : shadowBatchTasks r i (length (prefix ++ (addr, x) :: take k rest))
                       (drop k rest) (Some addr) = Ok (tasks', last')).
    { rewrite length_app. cbn [length]. rewrite length_take.
      replace (length prefix + S (k `min` length rest))%nat
        with (S (length prefix) + k)%nat by lia.
      subst k. destruct (decide (GetLightType light = LIGHT_POINT)) as [Ht|Ht].
      - rewrite <- (shadowBatchTasks_followers r i addr light Hl Ht). exact Hrest.
      - rewrite Nat.add_0_r, drop_0. exact Hrest. }
    destruct (IH (prefix ++ (addr, x) :: take k rest) (drop k rest)
                (Some addr) tasks' last') as (runs & Hruns & Hcat).
    + rewrite length_drop. cbn in Hn. lia.
    + rewrite Hviews, <- app_assoc. cbn [app]. now rewrite take_drop.
    + subst k. destruct (decide (GetLightType light = LIGHT_POINT)) as [Ht|Ht].
      * apply startsTask_after_followers.
      * rewrite drop_0. destruct rest as [|[a y] rest']; [exact I|].
        cbn. intros light' Hl' Ht' Heq. inversion Heq; subst a.
        rewrite Hl in Hl'. inversion Hl'; subst light'. contradiction.
    + exact Hrest'.
    + exists (seq (length prefix) (S k) :: runs). split.
      * constructor; [|exact Hruns]. exists (length prefix). now split.
      * cbn [concat]. rewrite Hcat, length_app. cbn [length].
        rewrite length_take, length_drop.
        replace (length prefix + S (k `min` length rest))%nat
          with (length prefix + S k)%nat by lia.
        rewrite <- seq_app. f_equal. lia.
Qed.

(** X16. The shadow batch tasks queued for a shadow map handle every view of
    the map exactly once and in order: each task handles the view it is
    queued for and, for a point light, the views of the same light that
    follow; the views that got no task of their own are exactly those. *)
Theorem shadowBatchTasks_cover_views (r : Renderer) (i : nat)
    (views : list (nat * nat)) (lastLight : option nat) (tasks : list Task)
    (last : option nat) :
  startsTask r lastLight views ->
  shadowBatchTasks r i 0 views lastLight = Ok (tasks, last) ->
  exists runs,
    Forall2 (fun t run => exists j,
               t = CollectShadowBatchesTask i j /\
               CollectShadowBatchesWork_views r views j = Ok run) tasks runs
    /\ concat runs = seq 0 (length views).
Proof.
  intros Hstart Hrun.
  exact (shadowBatchTasks_runs r i views (length views) [] views lastLight
           tasks last (le_n _) eq_refl Hstart Hrun).
Qed.

Lemma shadowBatchTasks_cover_views_witness :
  startsTask viewedRenderer None (shadowViews viewedAtlas)
  /\ shadowBatchTasks viewedRenderer 1 0 (shadowViews viewedAtlas) None
     = Ok ([CollectShadowBatchesTask 1 0; CollectShadowBatchesTask 1 1],
           Some 40%nat)
  /\ exists runs,
       Forall2 (fun t run => exists j,
                  t = CollectShadowBatchesTask 1 j /\
                  CollectShadowBatchesWork_views viewedRenderer
                    (shadowViews viewedAtlas) j = Ok run)
         [CollectShadowBatchesTask 1 0; CollectShadowBatchesTask 1 1] runs
       /\ concat runs = [0; 1; 2; 3; 4; 5; 6]%nat.
Proof.
  assert (H1 : startsTask viewedRenderer None (shadowViews viewedAtlas)).
  { cbn. intros; discriminate. }
  assert (H2 : shadowBatchTasks viewedRenderer 1 0 (shadowViews viewedAtlas)
                 None
               = Ok ([CollectShadowBatchesTask 1 0;
                      CollectShadowBatchesTask 1 1], Some 40%nat))
    by (vm_compute; reflexivity).
  split; [exact H1|]. split; [exact H2|].
  exact (shadowBatchTasks_cover_views viewedRenderer 1
           (shadowViews viewedAtlas) None _ _ H1 H2).
Defined.

Lemma shadowBatchTasks_indices r i views : forall j last tasks last',
  shadowBatchTasks r i j views last = Ok (tasks, last') ->
  shadowMapIndices tasks = replicate (length tasks) i.
Proof.
  induction views as [|[addr x] rest IH]; intros j last tasks last' Hrun;
    cbn [shadowBatchTasks] in Hrun.
  - inversion Hrun; subst. reflexivity.
  - bind_ok Hrun. destruct (_ && _).
    + eapply IH; eauto.
    + bind_ok Hrun. destruct a0 as [tasks' l']. inversion Hrun; subst.
      cbn. f_equal. eapply IH; eauto.
Qed.

Lemma shadowMapIndices_app a b :
  shadowMapIndices (a ++ b) = shadowMapIndices a ++ shadowMapIndices b.
Proof. unfold shadowMapIndices. apply omap_app. Qed.

Lemma count_occ_replicate (i k n : nat) :
  count_occ Nat.eq_dec (replicate n i) k = if decide (i = k) then n else 0%nat.
Proof.
  induction n as [|n IH]; cbn [replicate count_occ].
  - destruct (decide _); reflexivity.
  - rewrite IH. destruct (Nat.eq_dec i k), (decide (i = k)); congruence.
Qed.

(** The counter of each shadow map is raised by the number of tasks queued
    for it. *)
Lemma shadowMapTasks_pending r maps : forall i last pending tasks pending',
  shadowMapTasks r i maps last pending = Ok (tasks, pending') ->
  length pending' = length pending
  /\ Forall (fun k => (i <= k < length pending)%nat) (shadowMapIndices tasks)
  /\ forall k,
       pending' !! k
       = (fun n => n + Z.of_nat (count_occ Nat.eq_dec (shadowMapIndices tasks) k))
           <$> pending !! k.
Proof.
  induction maps as [|m rest IH]; intros i last pending tasks pending' Hrun;
    cbn [shadowMapTasks] in Hrun.
  - inversion Hrun; subst. cbn. split_and!; [reflexivity | constructor |].
    intros k. destruct (pending' !! k); cbn; [f_equal; lia | reflexivity].
  - bind_ok Hrun. destruct a as [ts l']. bind_ok Hrun. rename a into n.
    bind_ok Hrun. destruct a as [tasks' p']. inversion Hrun; subst; clear Hrun.
    apply shadowBatchTasks_indices in E. rename E into Hts.
    destruct (IH _ _ _ _ _ E1) as (Hlen & Hidx & Hp).
    rewrite length_insert in Hlen, Hidx.
    unfold at_index in E0. destruct (pending !! i) as [n'|] eqn:Hn;
      [|discriminate]. inversion E0; subst n'.
    assert (Hi : (i < length pending)%nat) by (eapply lookup_lt_Some; eauto).
    rewrite shadowMapIndices_app, Hts.
    split_and!.
    + exact Hlen.
    + apply Forall_app. split.
      * apply List.Forall_forall. intros k Hk.
        apply list_elem_of_In, elem_of_replicate in Hk as [-> _]. lia.
      * eapply List.Forall_impl; [|exact Hidx]. cbn. intros; lia.
    + intros k. rewrite Hp, count_occ_app, count_occ_replicate.
      destruct (decide (i = k)) as [<- | Hne].
      * rewrite list_lookup_insert_eq by exact Hi.
        rewrite Hn. cbn [fmap option_fmap option_map]. f_equal. lia.
      * rewrite list_lookup_insert_ne by exact Hne.
        destruct (pending !! k); cbn [fmap option_fmap option_map];
          [f_equal; lia | reflexivity].
Qed.

(** With counters that hold, for each shadow map, the number of its tasks
    still to finish, the tasks finish in any order with the counters back
    at their base, and a task sorts exactly when it is the last of its
    shadow map. *)
Lemma finishShadowTasks_spec order : forall pending base,
  Forall (fun n => n = 0) base ->
  Forall (fun i => (i < length base)%nat) order ->
  length pending = length base ->
  (forall k, pending !! k
             = (fun n => n + Z.of_nat (count_occ Nat.eq_dec order k))
                 <$> base !! k) ->
  exists sorts,
    finishShadowTasks order pending = Ok (sorts, base)
    /\ length sorts = length order
    /\ forall k i, order !! k = Some i ->
         sorts !! k = Some (bool_decide (i ∉ drop (S k) order)).
Proof.
  induction order as [|i rest IH]; intros pending base Hzero Hidx Hlen Hp.
  - exists []. cbn. split_and!; auto.
    + f_equal. f_equal. apply list_eq. intros k. rewrite Hp.
      destruct (base !! k) as [n|] eqn:Hn; cbn; [|reflexivity].
      f_equal. lia.
    + intros k i Hk. now rewrite lookup_nil in Hk.
  - inversion Hidx as [|? ? Hi Hrest]; subst.
    destruct (lookup_lt_is_Some_2 base i Hi) as [b Hb].
    assert (b = 0).
    { eapply List.Forall_forall in Hzero; [exact Hzero|].
      apply list_elem_of_In. eapply list_elem_of_lookup_2; eauto. }
    subst b.
    assert (Hn : pending !! i
                 = Some (Z.of_nat (S (count_occ Nat.eq_dec rest i)))).
    { rewrite Hp, Hb. cbn [fmap option_fmap option_map count_occ].
      destruct (Nat.eq_dec i i); [|contradiction]. f_equal. }
    destruct (IH (<[i := Z.of_nat (count_occ Nat.eq_dec rest i)]> pending) base
                Hzero Hrest) as (sorts & Hrun & Hslen & Hsorts).
    + now rewrite length_insert.
    + intros k. destruct (decide (i = k)) as [<- | Hne].
      * rewrite list_lookup_insert_eq by (rewrite Hlen; exact Hi).
        rewrite Hb. cbn. f_equal.
      * rewrite list_lookup_insert_ne by exact Hne. rewrite Hp.
        cbn [count_occ]. destruct (Nat.eq_dec i k); [contradiction|].
        reflexivity.
    + exists ((Z.of_nat (S (count_occ Nat.eq_dec rest i)) =? 1) :: sorts).
      cbn [finishShadowTasks]. unfold at_index. rewrite Hn.
      cbn [mbind Result_bind].
      replace (Z.of_nat (S (count_occ Nat.eq_dec rest i)) - 1)
        with (Z.of_nat (count_occ Nat.eq_dec rest i)) by lia.
      rewrite Hrun. cbn [mbind Result_bind]. split_and!; auto.
      * cbn [length]. now rewrite Hslen.
      * intros [|k] j Hk; cbn in Hk.
        -- inversion Hk; subst j. cbn [lookup list_lookup drop]. f_equal.
           destruct (count_occ Nat.eq_dec rest i) eqn:Hc.
           ++ apply count_occ_not_In in Hc.
              rewrite bool_decide_eq_true_2; [reflexivity|].
              intros Hin. apply Hc. now apply list_elem_of_In.
           ++ assert (Hin : In i rest).
              { apply (count_occ_In Nat.eq_dec). lia. }
              rewrite bool_decide_eq_false_2.
              ** apply Z.eqb_neq. lia.
              ** intros Hnot. apply Hnot. now apply list_elem_of_In.
        -- cbn [drop]. apply Hsorts. exact Hk.
Qed.

(** X17. The sort of the shadow batches waits for every task of the shadow
    map. After [ProcessShadowCastersWork], run from counters at zero, the
    counter of each shadow map equals the number of shadow batch tasks
    queued for it; so, in whatever order the tasks reach their end, every
    counter is back at zero when all have finished, and a task finds the
    counter at 1, and sorts the batches of its shadow map, exactly when no
    task of the same shadow map is still to finish. *)
Theorem shadow_batches_sorted_once (scene : Scene) (r r' : Renderer)
    (zs : list nat) (order : list nat) :
  Forall (fun n => n = 0) (numPendingShadowViews r) ->
  ProcessShadowCastersWork scene r = Ok (r', zs) ->
  Permutation order
    (shadowMapIndices (drop (length (queued r)) (queued r'))) ->
  exists sorts,
    finishShadowTasks order (numPendingShadowViews r')
    = Ok (sorts, numPendingShadowViews r)
    /\ length sorts = length order
    /\ forall k i, order !! k = Some i ->
         sorts !! k = Some (bool_decide (i ∉ drop (S k) order)).
Proof.
  intros Hzero Hrun Hperm. unfold ProcessShadowCastersWork in Hrun.
  bind_ok Hrun. destruct a as [tasks pending]. inversion Hrun; subst r' zs.
  clear Hrun. cbn [queued set_queued numPendingShadowViews set_clusterData
    set_numClusterLights set_numPendingShadowViews] in *.
  rewrite drop_app_length, shadowMapIndices_app in Hperm.
  assert (Hcull : forall zs', shadowMapIndices (map CullLightsTask zs') = []).
  { induction zs' as [|z zs' IH]; [reflexivity | exact IH]. }
  rewrite Hcull, app_nil_r in Hperm.
  destruct (shadowMapTasks_pending _ _ _ _ _ _ _ E)
    as (Hlen & Hidx & Hp).
  apply finishShadowTasks_spec; auto.
  - eapply Permutation_Forall; [symmetry; exact Hperm|].
    eapply List.Forall_impl; [|exact Hidx]. cbn. intros; lia.
  - intros k. rewrite Hp.
    now rewrite (proj1 (Permutation_count_occ Nat.eq_dec _ _) Hperm k).
Qed.

Lemma shadow_batches_sorted_once_witness :
  Forall (fun n => n = 0) (numPendingShadowViews viewedRenderer)
  /\ exists r' zs,
       ProcessShadowCastersWork litScene viewedRenderer = Ok (r', zs)
       /\ numPendingShadowViews r' = [0; 2]
       /\ finishShadowTasks [1; 1]%nat (numPendingShadowViews r')
          = Ok ([false; true], [0; 0]).
Proof.
  assert (H1 : Forall (fun n => n = 0) (numPendingShadowViews viewedRenderer))
    by (repeat constructor).
  split; [exact H1|].
  destruct (ProcessShadowCastersWork litScene viewedRenderer)
    as [[r' zs]| |] eqn:Hrun; [|vm_compute in Hrun; discriminate..].
  exists r', zs. split; [reflexivity|].
  assert (Hq : shadowMapIndices (drop (length (queued viewedRenderer))
                                   (queued r')) = [1; 1]%nat).
  { vm_compute in Hrun. inversion Hrun. reflexivity. }
  assert (Hperm : Permutation [1; 1]%nat
            (shadowMapIndices (drop (length (queued viewedRenderer))
                                 (queued r')))).
  { rewrite Hq. reflexivity. }
  destruct (shadow_batches_sorted_once litScene viewedRenderer r' zs
              [1; 1]%nat H1 Hrun Hperm) as (sorts & Hfin & _).
  split.
  - vm_compute in Hrun. inversion Hrun. reflexivity.
  - rewrite Hfin. vm_compute in Hrun. inversion Hrun; subst r'.
    vm_compute in Hfin. inversion Hfin. reflexivity.
Defined.

(** * Shadow map bookkeeping in [ProcessLightsWork] *)

Lemma logsGrow_refl Q maps : logsGrow Q maps maps.
Proof.
  unfold logsGrow. induction maps as [|m maps IH]; constructor; [|exact IH].
  exists []. rewrite app_nil_r. split; [reflexivity | constructor].
Qed.

Lemma logsGrow_trans Q a b c :
  logsGrow Q a b -> logsGrow Q b c -> logsGrow Q a c.
Proof.
  unfold logsGrow. intros Hab. revert c.
  induction Hab as [|x y a b (n1 & H1 & F1) _ IH]; intros c Hbc;
    inversion Hbc as [|? z ? c' (n2 & H2 & F2) Hrest]; subst; constructor.
  - exists (n1 ++ n2). rewrite H2, H1, <- app_assoc. split; [reflexivity|].
    apply Forall_app. now split.
  - apply IH. exact Hrest.
Qed.

Lemma logsGrow_insert Q maps i m m' new :
  maps !! i = Some m ->
  alloc_calls (allocator m') = alloc_calls (allocator m) ++ new ->
  Forall Q new ->
  logsGrow Q maps (<[i := m']> maps).
Proof.
  intros Hm Hcalls Hnew. unfold logsGrow.
  apply Forall2_same_length_lookup. split; [now rewrite length_insert|].
  intros k x y Hx Hy. destruct (decide (k = i)) as [-> | Hne].
  - rewrite list_lookup_insert_eq in Hy by (eapply lookup_lt_Some; eauto).
    inversion Hy; subst y. rewrite Hm in Hx. inversion Hx; subst x.
    exists new. now split.
  - rewrite list_lookup_insert_ne in Hy by congruence.
    rewrite Hx in Hy. inversion Hy; subst y.
    exists []. rewrite app_nil_r. split; [reflexivity | constructor].
Qed.

Lemma logsGrow_length Q maps maps' :
  logsGrow Q maps maps' -> length maps' = length maps.
Proof. intros Hg. symmetry. eapply Forall2_length; eauto. Qed.

Section BookkeepingProperties.
Context `{Collaborators}.

Lemma AllocateShadowMap_retry_log n : forall a request res a',
  AllocateShadowMap_retry n a request = (res, a') ->
  exists new, alloc_calls a' = alloc_calls a ++ new
              /\ forall rect, Forall (freshOrReclaimOf rect) new.
Proof.
  intros a request res a' Hrun.
  destruct (AllocateShadowMap_retry_calls n a request res a' Hrun)
    as (fresh & Hcalls & _ & _ & Hall & _).
  exists fresh. split; [exact Hcalls|]. intros rect.
  clear -Hall. remember (take (length fresh) (attemptSizes n request)) as sizes.
  clear Heqsizes. induction Hall as [|c s cs ss (ans & ->) _ IH];
    constructor; [exact I | exact IH].
Qed.

(** What [AllocateShadowMap] changes: the allocator of the shadow map of
    the light, by fresh requests and at most a re-claim of the rectangle
    the light held; and the shadow map and rectangle of the light. *)
Lemma AllocateShadowMap_effect maps light ok light' maps' :
  AllocateShadowMap maps light = Ok (ok, light', maps') ->
  logsGrow (freshOrReclaimOf (ShadowRect light)) maps maps'
  /\ Forall2 (fun m m' => mapFrame m' = mapFrame m) maps maps'
  /\ IsStatic light' = IsStatic light
  /\ ShadowViews light' = ShadowViews light
  /\ (ok = true -> ShadowMap_ light' <> None)
  /\ (ok = false ->
      ShadowMap_ light' = None /\ ShadowRect light' = IntRect_ZERO).
Proof.
  unfold AllocateShadowMap. intros Hrun. bind_ok Hrun. rename a into m.
  unfold at_index in E.
  set (idx := if decide (GetLightType light = LIGHT_DIRECTIONAL)
              then 0%nat else 1%nat) in *.
  destruct (maps !! idx) as [m0|] eqn:Hm; inversion E; subst m0; clear E.
  assert (Hframe : forall a',
    Forall2 (fun m m' => mapFrame m' = mapFrame m) maps
      (<[idx := set_allocator a' m]> maps)).
  { intros a'. apply Forall2_same_length_lookup.
    split; [now rewrite length_insert|].
    intros k x y Hx Hy. destruct (decide (k = idx)) as [-> | Hne].
    - rewrite list_lookup_insert_eq in Hy by (eapply lookup_lt_Some; eauto).
      inversion Hy; subst. rewrite Hm in Hx. inversion Hx; subst. reflexivity.
    - rewrite list_lookup_insert_ne in Hy by congruence.
      rewrite Hx in Hy. inversion Hy; subst. reflexivity. }
  cbv zeta in Hrun.
  destruct ((vec_x (TotalShadowMapSize light) =? Width (ShadowRect light))
            && (vec_y (TotalShadowMapSize light) =? Height (ShadowRect light))).
  - unfold AllocateSpecific in Hrun.
    destruct (AllocateSpecific_answer (allocator m) (ShadowRect light)).
    + inversion Hrun; subst; clear Hrun. split_and!; auto; try discriminate.
      eapply logsGrow_insert; [exact Hm | reflexivity|].
      constructor; [reflexivity | constructor].
    + destruct (AllocateShadowMap_retry 3 _ _) as [res a'] eqn:Hretry.
      destruct (AllocateShadowMap_retry_log _ _ _ _ _ Hretry)
        as (new & Hcalls & Hnew).
      cbn [alloc_calls] in Hcalls.
      assert (Hg : logsGrow (freshOrReclaimOf (ShadowRect light)) maps
                     (<[idx := set_allocator a' m]> maps)).
      { eapply logsGrow_insert; [exact Hm | |].
        - cbn. rewrite Hcalls, <- app_assoc. reflexivity.
        - constructor; [reflexivity | apply Hnew]. }
      destruct res as [rect|]; inversion Hrun; subst; clear Hrun;
        split_and!; auto; try discriminate.
  - destruct (AllocateShadowMap_retry 3 _ _) as [res a'] eqn:Hretry.
    destruct (AllocateShadowMap_retry_log _ _ _ _ _ Hretry)
      as (new & Hcalls & Hnew).
    assert (Hg : logsGrow (freshOrReclaimOf (ShadowRect light)) maps
                   (<[idx := set_allocator a' m]> maps)).
    { eapply logsGrow_insert; [exact Hm | exact Hcalls | apply Hnew]. }
    destruct res as [rect|]; inversion Hrun; subst; clear Hrun;
      split_and!; auto; try discriminate.
Qed.

Lemma reserveQueues free m :
  let m1 := set_freeQueueIdx free m in
  let m2 := if (shadowBatches_size m1 <? free)%nat
            then set_shadowBatches_size free m1 else m1 in
  freeQueueIdx m2 = free /\ allocator m2 = allocator m
  /\ texture m2 = texture m /\ freeCasterListIdx m2 = freeCasterListIdx m
  /\ shadowCasters_size m2 = shadowCasters_size m
  /\ shadowViews m2 = shadowViews m
  /\ (free <= shadowBatches_size m2)%nat.
Proof.
  cbv zeta. destruct (_ <? _)%nat eqn:Hsz; cbn in *; split_and!; auto.
  apply Nat.ltb_ge in Hsz. exact Hsz.
Qed.

(** The views of a point or spot light get consecutive queue indices from
    the free index of the atlas, and the caster list of the light. *)
Lemma setupLightViews_queues addr static cl views : forall j m views' m',
  setupLightViews addr static cl j views m = (views', m') ->
  allocator m' = allocator m /\ texture m' = texture m
  /\ freeCasterListIdx m' = freeCasterListIdx m
  /\ shadowCasters_size m' = shadowCasters_size m
  /\ flat_map (viewQueues static) views'
     = seq (freeQueueIdx m) (freeQueueIdx m' - freeQueueIdx m)
  /\ (freeQueueIdx m <= freeQueueIdx m')%nat
  /\ ((freeQueueIdx m <= shadowBatches_size m)%nat ->
      (freeQueueIdx m' <= shadowBatches_size m')%nat)
  /\ Forall (fun v => casterListIdx v = cl) views'.
Proof.
  induction views as [|v rest IH]; intros j m views' m' Hrun;
    cbn [setupLightViews] in Hrun.
  - inversion Hrun; subst. rewrite Nat.sub_diag. split_and!; auto.
  - cbv zeta in Hrun.
    destruct static.
    + destruct (reserveQueues (S (S (freeQueueIdx m))) m)
        as (R1 & R2 & R3 & R4 & R5 & R6 & R7). cbv zeta in R1, R2, R3, R4, R5, R6, R7.
      set (m2 := if (shadowBatches_size (set_freeQueueIdx _ m) <? _)%nat
                 then _ else _) in *.
      match type of Hrun with
      | context [setupLightViews ?a ?s ?c ?jj rest ?mm] =>
          destruct (setupLightViews a s c jj rest mm) as [rest' m4] eqn:Hrest
      end.
      inversion Hrun; subst views' m'; clear Hrun.
      apply IH in Hrest as (Ha & Ht & Hc & Hs & Hq & Hle & Hinv & Hcl).
      cbn [allocator texture freeCasterListIdx shadowCasters_size freeQueueIdx
           shadowBatches_size set_shadowViews] in Ha, Ht, Hc, Hs, Hq, Hle, Hinv.
      rewrite R1 in Hq, Hle, Hinv.
      split_and!; try congruence; try lia.
      * cbn [flat_map viewQueues staticQueueIdx dynamicQueueIdx
             set_dynamicQueueIdx set_staticQueueIdx set_casterListIdx app].
        rewrite Hq.
        replace (freeQueueIdx m4 - freeQueueIdx m)%nat
          with (S (S (freeQueueIdx m4 - S (S (freeQueueIdx m)))))%nat by lia.
        reflexivity.
      * constructor; [reflexivity | exact Hcl].
    + destruct (reserveQueues (S (freeQueueIdx m)) m)
        as (R1 & R2 & R3 & R4 & R5 & R6 & R7). cbv zeta in R1, R2, R3, R4, R5, R6, R7.
      set (m2 := if (shadowBatches_size (set_freeQueueIdx _ m) <? _)%nat
                 then _ else _) in *.
      match type of Hrun with
      | context [setupLightViews ?a ?s ?c ?jj rest ?mm] =>
          destruct (setupLightViews a s c jj rest mm) as [rest' m4] eqn:Hrest
      end.
      inversion Hrun; subst views' m'; clear Hrun.
      apply IH in Hrest as (Ha & Ht & Hc & Hs & Hq & Hle & Hinv & Hcl).
      cbn [allocator texture freeCasterListIdx shadowCasters_size freeQueueIdx
           shadowBatches_size set_shadowViews] in Ha, Ht, Hc, Hs, Hq, Hle, Hinv.
      rewrite R1 in Hq, Hle, Hinv.
      split_and!; try congruence; try lia.
      * cbn [flat_map viewQueues staticQueueIdx dynamicQueueIdx
             set_dynamicQueueIdx set_staticQueueIdx set_casterListIdx app].
        rewrite Hq.
        replace (freeQueueIdx m4 - freeQueueIdx m)%nat
          with (S (freeQueueIdx m4 - S (freeQueueIdx m)))%nat by lia.
        reflexivity.
      * constructor; [reflexivity | exact Hcl].
Qed.

Lemma Forall2_mapFrame_lookup maps maps' i m :
  Forall2 (fun m m' => mapFrame m' = mapFrame m) maps maps' ->
  maps !! i = Some m ->
  exists m', maps' !! i = Some m' /\ mapFrame m' = mapFrame m.
Proof.
  intros Hf Hm. destruct (Forall2_lookup_l _ _ _ _ _ Hf Hm) as (m' & Hm' & Hfr).
  exists m'. now split.
Qed.

Lemma Forall2_mapFrame_refl maps :
  Forall2 (fun m m' => mapFrame m' = mapFrame m) maps maps.
Proof. induction maps; constructor; auto. Qed.

Lemma Forall2_mapFrame_trans a b c :
  Forall2 (fun m m' => mapFrame m' = mapFrame m) a b ->
  Forall2 (fun m m' => mapFrame m' = mapFrame m) b c ->
  Forall2 (fun m m' => mapFrame m' = mapFrame m) a c.
Proof.
  intros Hab. revert c. induction Hab as [|x y a b Hxy _ IH]; intros c Hbc;
    inversion Hbc; subst; constructor; [congruence | auto].
Qed.

(** The pre-step leaves everything but the allocators as it is; with the
    dirty flag set it makes no allocator call at all and clears the shadow
    map of every light. *)
Lemma reallocateShadowMaps_effect dirty ds ls : forall maps ls' maps',
  reallocateShadowMaps dirty ds ls maps = Ok (ls', maps') ->
  Forall2 (fun m m' => mapFrame m' = mapFrame m) maps maps'
  /\ (dirty = true -> maps' = maps /\ ls' = map clearShadowMap ls).
Proof.
  induction ls as [|l rest IH]; intros maps ls' maps' Hrun;
    cbn [reallocateShadowMaps] in Hrun.
  - inversion Hrun; subst. split; [apply Forall2_mapFrame_refl | auto].
  - destruct dirty.
    + cbn [mbind Result_bind] in Hrun. bind_ok Hrun. destruct a as [r' m'].
      inversion Hrun; subst. apply IH in E as (Hf & Hd).
      destruct (Hd eq_refl) as [-> ->]. split; [exact Hf | auto].
    + bind_ok Hrun. destruct a as [l' m1]. bind_ok Hrun.
      destruct a as [r' m2]. inversion Hrun; subst; clear Hrun.
      apply IH in E0 as (Hf & _). split; [|discriminate].
      eapply Forall2_mapFrame_trans; [|exact Hf].
      destruct (ds && castsShadows l && _).
      * bind_ok E. destruct a as [[ok l2] m3]. inversion E; subst.
        match goal with
        | Ha : AllocateShadowMap _ _ = Ok _ |- _ =>
            apply AllocateShadowMap_effect in Ha; tauto
        end.
      * inversion E; subst. apply Forall2_mapFrame_refl.
Qed.

Lemma allocateDirLight_effect dirty ds d maps d' maps' :
  allocateDirLight dirty ds d maps = Ok (d', maps') ->
  Forall2 (fun m m' => mapFrame m' = mapFrame m) maps maps'
  /\ (dirty = true -> logsGrow (freshOrReclaimOf IntRect_ZERO) maps maps').
Proof.
  unfold allocateDirLight. intros Hrun. destruct d as [d|].
  2:{ inversion Hrun; subst.
      split; [apply Forall2_mapFrame_refl | intros; apply logsGrow_refl]. }
  cbv zeta in Hrun. destruct (negb ds || _).
  { inversion Hrun; subst.
    split; [apply Forall2_mapFrame_refl | intros; apply logsGrow_refl]. }
  bind_ok Hrun. destruct a as [[ok d2] m2].
  apply AllocateShadowMap_effect in E as (Hg & Hf & _).
  assert (maps' = m2) by (destruct ok; inversion Hrun; reflexivity).
  subst m2. split; [exact Hf|]. intros ->. exact Hg.
Qed.

Lemma setupDirLightViews_allocator addr views : forall i m views' m',
  setupDirLightViews addr i views m = (views', m') ->
  allocator m' = allocator m.
Proof.
  induction views as [|v rest IH]; intros i m views' m' Hrun;
    cbn [setupDirLightViews] in Hrun.
  - now inversion Hrun.
  - cbv zeta in Hrun.
    match type of Hrun with
    | context [setupDirLightViews ?a ?ii rest ?mm] =>
        destruct (setupDirLightViews a ii rest mm) as [rest' m6] eqn:Hrest
    end.
    inversion Hrun; subst. apply IH in Hrest. rewrite Hrest.
    repeat match goal with
           | |- context [if ?b then _ else _] => destruct b
           end; reflexivity.
Qed.

Lemma setupDirLight_effect d maps d' maps' :
  setupDirLight d maps = Ok (d', maps') ->
  maps' !! 1%nat = maps !! 1%nat
  /\ logsGrow (fun _ => False) maps maps'.
Proof.
  unfold setupDirLight. intros Hrun.
  destruct d as [d|]; [|inversion Hrun; subst; split;
                         [reflexivity | apply logsGrow_refl]].
  destruct (ShadowMap_ d); [|inversion Hrun; subst; split;
                              [reflexivity | apply logsGrow_refl]].
  bind_ok Hrun. rename a into m0.
  destruct (setupDirLightViews _ _ _ _) as [views' m] eqn:Hviews.
  inversion Hrun; subst; clear Hrun.
  apply setupDirLightViews_allocator in Hviews.
  unfold at_index in E. destruct (maps !! 0%nat) as [x|] eqn:Hx;
    inversion E; subst x.
  split.
  - now rewrite list_lookup_insert_ne by discriminate.
  - eapply logsGrow_insert with (new := []); [exact Hx | | constructor].
    rewrite Hviews, app_nil_r. reflexivity.
Qed.

(** One light of the loop "go through lights and setup shadowcaster
    collection tasks". *)
Lemma setupLightShadow_effect ds light maps light' maps' tasks :
  setupLightShadow ds light maps = Ok (light', maps', tasks) ->
  logsGrow (freshOrReclaimOf (ShadowRect light)) maps maps'
  /\ forall m1, maps !! 1%nat = Some m1 ->
       exists m1', maps' !! 1%nat = Some m1'
         /\ (freeQueueIdx m1 <= freeQueueIdx m1')%nat
         /\ (indicesReserved m1 -> indicesReserved m1')
         /\ match ShadowMap_ light' with
            | Some _ =>
                lightQueues light'
                = seq (freeQueueIdx m1) (freeQueueIdx m1' - freeQueueIdx m1)
                /\ Forall (fun v => casterListIdx v = freeCasterListIdx m1)
                     (ShadowViews light')
                /\ freeCasterListIdx m1' = S (freeCasterListIdx m1)
            | None =>
                freeQueueIdx m1' = freeQueueIdx m1
                /\ freeCasterListIdx m1' = freeCasterListIdx m1
            end.
Proof.
  unfold setupLightShadow. intros Hrun.
  destruct (negb ds || negb (castsShadows light)).
  { inversion Hrun; subst; clear Hrun. split; [apply logsGrow_refl|].
    intros m1 Hm1. exists m1. cbn. split_and!; auto. }
  bind_ok Hrun. destruct a as [[ok light1] maps1].
  assert (Halloc :
    logsGrow (freshOrReclaimOf (ShadowRect light)) maps maps1
    /\ Forall2 (fun m m' => mapFrame m' = mapFrame m) maps maps1
    /\ (ok = true -> ShadowMap_ light1 <> None)
    /\ (ok = false -> ShadowMap_ light1 = None)).
  { destruct (ShadowMap_ light) as [tex|] eqn:Hsm.
    - inversion E; subst.
      split_and!; [apply logsGrow_refl | apply Forall2_mapFrame_refl
                   | congruence | discriminate].
    - apply AllocateShadowMap_effect in E. tauto. }
  destruct Halloc as (Hg & Hf & Hok & Hfail). clear E.
  destruct ok; cbn [negb] in Hrun.
  2:{ inversion Hrun; subst; clear Hrun. split; [exact Hg|].
      intros m1 Hm1.
      destruct (Forall2_mapFrame_lookup _ _ _ _ Hf Hm1) as (m1' & Hm1' & Hfr).
      exists m1'. rewrite (Hfail eq_refl).
      unfold mapFrame in Hfr. inversion Hfr as [[F1 F2 F3 F4 F5 F6]].
      unfold indicesReserved. rewrite ?F1, ?F2, ?F5, ?F6. split_and!; auto. }
  bind_ok Hrun. rename a into shadowMap.
  unfold at_index in E. destruct (maps1 !! 1%nat) as [x|] eqn:Hx;
    inversion E; subst x; clear E.
  cbv zeta in Hrun.
  match type of Hrun with
  | context [setupLightViews ?a ?s ?c ?jj ?vs ?mm] => set (m2 := mm) in *
  end.
  assert (Hm2 : allocator m2 = allocator shadowMap
                /\ freeQueueIdx m2 = freeQueueIdx shadowMap
                /\ shadowBatches_size m2 = shadowBatches_size shadowMap
                /\ freeCasterListIdx m2 = S (freeCasterListIdx shadowMap)
                /\ (S (freeCasterListIdx shadowMap)
                    <= shadowCasters_size m2)%nat).
  { subst m2. destruct (_ <? _)%nat eqn:Hb; [|apply Nat.ltb_ge in Hb];
      cbn in *; split_and!; auto. }
  destruct Hm2 as (M1 & M2 & M3 & M4 & Hsz).
  destruct (setupLightViews _ _ _ _ _ m2) as [views' m3] eqn:Hviews.
  pose proof (setupLightViews_queues _ _ _ _ _ _ _ _ Hviews)
    as (Ha & Ht & Hc & Hs & Hq & Hle & Hinv & Hcl).
  inversion Hrun; subst; clear Hrun.
  rewrite M1 in Ha. rewrite M2 in Hq, Hle, Hinv. rewrite M3 in Hinv.
  rewrite M4 in Hc. rewrite <- Hs in Hsz.
  split.
  - eapply logsGrow_trans; [exact Hg|].
    eapply logsGrow_insert with (new := []); [exact Hx | | constructor].
    rewrite Ha, app_nil_r. reflexivity.
  - intros m1 Hm1.
    destruct (Forall2_mapFrame_lookup _ _ _ _ Hf Hm1) as (m1' & Hm1' & Hfr).
    rewrite Hx in Hm1'. inversion Hm1'; subst m1'.
    unfold mapFrame in Hfr. inversion Hfr as [[F1 F2 F3 F4 F5 F6]].
    exists m3. split; [apply list_lookup_insert_eq; eapply lookup_lt_Some; eauto|].
    rewrite <- ?F1, <- ?F2. split; [lia|]. split.
    + unfold indicesReserved. rewrite <- ?F1, <- ?F2, <- ?F5, <- ?F6.
      intros [I1 I2]. split; [apply Hinv; exact I1|]. rewrite Hc. exact Hsz.
    + cbn [ShadowMap_ SetShadowViews]. specialize (Hok eq_refl).
      destruct (ShadowMap_ light1) as [tex|]; [|contradiction].
      unfold lightQueues. cbn [IsStatic ShadowViews SetShadowViews].
      split_and!; auto.
Qed.

Lemma seq_glue (a b c : nat) :
  (a <= b)%nat -> (b <= c)%nat ->
  seq a (b - a) ++ seq b (c - b) = seq a (c - a).
Proof.
  intros Hab Hbc. replace (c - a)%nat with ((b - a) + (c - b))%nat by lia.
  rewrite seq_app. f_equal. f_equal. lia.
Qed.

(** The loop over the retained lights. *)
Lemma setupShadowCasterTasks_effect ds ls : forall maps ls' maps' tasks,
  setupShadowCasterTasks ds ls maps = Ok (ls', maps', tasks) ->
  (forall rect, Forall (fun l => ShadowRect l = rect) ls ->
     logsGrow (freshOrReclaimOf rect) maps maps')
  /\ forall m1, maps !! 1%nat = Some m1 ->
       exists m1', maps' !! 1%nat = Some m1'
         /\ (freeQueueIdx m1 <= freeQueueIdx m1')%nat
         /\ (indicesReserved m1 -> indicesReserved m1')
         /\ flat_map lightQueues (shadowedLights ls')
            = seq (freeQueueIdx m1) (freeQueueIdx m1' - freeQueueIdx m1)
         /\ freeCasterListIdx m1'
            = (freeCasterListIdx m1 + length (shadowedLights ls'))%nat
         /\ Forall2 (fun l k => Forall (fun v => casterListIdx v = k)
                                  (ShadowViews l))
              (shadowedLights ls')
              (seq (freeCasterListIdx m1) (length (shadowedLights ls'))).
Proof.
  induction ls as [|l rest IH]; intros maps ls' maps' tasks Hrun;
    cbn [setupShadowCasterTasks] in Hrun.
  - inversion Hrun; subst. split; [intros; apply logsGrow_refl|].
    intros m1 Hm1. exists m1. rewrite Nat.sub_diag. cbn.
    split_and!; auto; try lia.
  - bind_ok Hrun. destruct a as [[l' maps1] ts].
    bind_ok Hrun. destruct a as [[rest' maps2] ts'].
    inversion Hrun; subst; clear Hrun.
    apply setupLightShadow_effect in E as (Hg1 & Hmap1).
    apply IH in E0 as (Hg2 & Hmap2).
    split.
    + intros rect Hall. inversion Hall as [|? ? Hl Hrest]; subst.
      eapply logsGrow_trans; [exact Hg1 | apply Hg2; exact Hrest].
    + intros m1 Hm1.
      destruct (Hmap1 m1 Hm1) as (m1a & Hm1a & Hle1 & Hinv1 & Hlight).
      destruct (Hmap2 m1a Hm1a)
        as (m1b & Hm1b & Hle2 & Hinv2 & Hq2 & Hc2 & Hcl2).
      exists m1b. split; [exact Hm1b|]. split; [lia|].
      split; [tauto|].
      unfold shadowedLights in *. cbn [List.filter].
      destruct (ShadowMap_ l') as [tex|].
      * destruct Hlight as (Hq1 & Hcl1 & Hc1).
        cbn [flat_map length]. rewrite Hq1, Hq2, Hc2, Hc1.
        split_and!.
        -- apply seq_glue; assumption.
        -- lia.
        -- cbn [seq]. constructor; [exact Hcl1|].
           rewrite <- Hc1. exact Hcl2.
      * destruct Hlight as (Hq1 & Hc1). rewrite Hq2, Hc2, Hq1, Hc1.
        split_and!; auto. rewrite <- Hc1. exact Hcl2.
Qed.

(** X18. No two shadow views of the atlas share a batch queue or overrun the
    queue vector. With the atlas cleared as at the start of a frame, the
    queue indices handed to the views of the lights that hold a shadow map
    after [ProcessLightsWork] are, in the order of the lights and views,
    0, 1, 2, ... up to the free index of the atlas, which does not exceed
    the size of the queue vector; a static light gets a static and a
    dynamic queue for each view, a dynamic light one queue. The lights are
    numbered in the same way for their caster lists, one list per light,
    shared by all views of the light. *)
Theorem ProcessLightsWork_shadow_queues (r r' : Renderer) (m0 m : ShadowMap) :
  shadowMaps r !! 1%nat = Some m0 ->
  freeQueueIdx m0 = 0%nat -> freeCasterListIdx m0 = 0%nat ->
  ProcessLightsWork r = Ok r' ->
  shadowMaps r' !! 1%nat = Some m ->
  let shadowed := shadowedLights (lights r') in
  flat_map lightQueues shadowed = seq 0 (freeQueueIdx m)
  /\ (freeQueueIdx m <= shadowBatches_size m)%nat
  /\ length shadowed = freeCasterListIdx m
  /\ (freeCasterListIdx m <= shadowCasters_size m)%nat
  /\ Forall2 (fun l k => Forall (fun v => casterListIdx v = k) (ShadowViews l))
       shadowed (seq 0 (length shadowed)).
Proof.
  intros Hm0 Hq0 Hc0 Hrun Hm shadowed. subst shadowed.
  unfold ProcessLightsWork in Hrun. bind_ok Hrun.
  destruct (findDirLight _ _) as [dir0 localized].
  bind_ok Hrun. destruct a0 as [lights1 maps1].
  bind_ok Hrun. destruct a0 as [dir1 maps2].
  bind_ok Hrun. destruct a0 as [[lights2 maps3] tasks].
  bind_ok Hrun. destruct a0 as [dir2 maps4].
  inversion Hrun; subst r'; clear Hrun.
  cbn [lights shadowMaps set_queued set_shadowMaps set_lights set_dirLight
       set_shadowMapsDirty] in *.
  apply reallocateShadowMaps_effect in E0 as (Hf1 & _).
  apply allocateDirLight_effect in E1 as (Hf2 & _).
  apply setupShadowCasterTasks_effect in E2 as (_ & Hmap).
  apply setupDirLight_effect in E3 as (Hsame & _).
  destruct (Forall2_mapFrame_lookup _ _ _ _ Hf1 Hm0) as (ma & Hma & Hfa).
  destruct (Forall2_mapFrame_lookup _ _ _ _ Hf2 Hma) as (mb & Hmb & Hfb).
  destruct (Hmap mb Hmb) as (mc & Hmc & Hle & Hinv & Hq & Hc & Hcl).
  rewrite Hsame, Hmc in Hm. inversion Hm; subst mc.
  unfold mapFrame in Hfa, Hfb.
  inversion Hfa as [[A1 A2 A3 A4 A5 A6]].
  inversion Hfb as [[B1 B2 B3 B4 B5 B6]].
  assert (Hqb : freeQueueIdx mb = 0%nat) by congruence.
  assert (Hcb : freeCasterListIdx mb = 0%nat) by congruence.
  rewrite Hqb, Nat.sub_0_r in Hq. rewrite Hcb in Hc, Hcl. cbn [Nat.add] in Hc.
  assert (Hres : indicesReserved m).
  { apply Hinv. unfold indicesReserved. rewrite Hqb, Hcb. lia. }
  destruct Hres as [R1 R2]. split_and!; auto.
Qed.

(** X19. After a change of the shadow map settings (dirty flag set), a frame
    re-claims no rectangle of an earlier frame: [ProcessLightsWork] clears
    the flag, and every allocator call it makes is a fresh request, apart
    from re-claims of the zero rectangle that a light asking for a
    zero-size shadow map can cause. *)
Theorem ProcessLightsWork_dirty (r r' : Renderer) :
  shadowMapsDirty r = true ->
  ProcessLightsWork r = Ok r' ->
  shadowMapsDirty r' = false
  /\ logsGrow (freshOrReclaimOf IntRect_ZERO) (shadowMaps r) (shadowMaps r').
Proof.
  intros Hdirty Hrun. unfold ProcessLightsWork in Hrun. bind_ok Hrun.
  destruct (findDirLight _ _) as [dir0 localized].
  bind_ok Hrun. destruct a0 as [lights1 maps1].
  bind_ok Hrun. destruct a0 as [dir1 maps2].
  bind_ok Hrun. destruct a0 as [[lights2 maps3] tasks].
  bind_ok Hrun. destruct a0 as [dir2 maps4].
  inversion Hrun; subst r'; clear Hrun.
  cbn [shadowMapsDirty shadowMaps set_queued set_shadowMaps set_lights
       set_dirLight set_shadowMapsDirty].
  split; [reflexivity|].
  rewrite Hdirty in *.
  apply reallocateShadowMaps_effect in E0 as (_ & Hd1).
  destruct (Hd1 eq_refl) as [-> ->].
  apply allocateDirLight_effect in E1 as (_ & Hg2). specialize (Hg2 eq_refl).
  apply setupShadowCasterTasks_effect in E2 as (Hg3 & _).
  apply setupDirLight_effect in E3 as (_ & Hg4).
  eapply logsGrow_trans; [exact Hg2|].
  eapply logsGrow_trans; [apply Hg3|].
  - apply List.Forall_forall. intros l Hin. apply in_map_iff in Hin.
    destruct Hin as (l0 & <- & _). reflexivity.
  - clear -Hg4. unfold logsGrow in *.
    eapply Forall2_impl; [|exact Hg4]. cbn.
    intros m m' (new & Hc & Hn). exists new. split; [exact Hc|].
    eapply List.Forall_impl; [|exact Hn]. intros c [].
Qed.

End BookkeepingProperties.

Lemma ProcessLightsWork_shadow_queues_witness :
  let r := afterCollection [dirAtlas; lightAtlas] true
             [pointLight; dimSun; spotLight; brightSun] in
  shadowMaps r !! 1%nat = Some lightAtlas
  /\ freeQueueIdx lightAtlas = 0%nat /\ freeCasterListIdx lightAtlas = 0%nat
  /\ exists r' m,
       ProcessLightsWork r = Ok r'
       /\ shadowMaps r' !! 1%nat = Some m
       /\ flat_map lightQueues (shadowedLights (lights r')) = seq 0 14
       /\ shadowBatches_size m = 14%nat.
Proof.
  intros r. split; [reflexivity|]. split; [reflexivity|].
  split; [reflexivity|].
  destruct (ProcessLightsWork r) as [r'| |] eqn:Hrun;
    [|vm_compute in Hrun; discriminate..].
  destruct (shadowMaps r' !! 1%nat) as [m|] eqn:Hm.
  2:{ exfalso. vm_compute in Hrun. inversion Hrun; subst r'.
      vm_compute in Hm. discriminate. }
  destruct (ProcessLightsWork_shadow_queues r r' lightAtlas m
              eq_refl eq_refl eq_refl Hrun Hm) as (Hq & _).
  exists r', m. split; [reflexivity|]. split; [exact Hm|].
  assert (Hfree : freeQueueIdx m = 14%nat /\ shadowBatches_size m = 14%nat).
  { vm_compute in Hrun. inversion Hrun; subst r'.
    vm_compute in Hm. inversion Hm. split; reflexivity. }
  destruct Hfree as [Hfree Hsize]. rewrite Hq, Hfree. split; [reflexivity|].
  exact Hsize.
Defined.

Lemma ProcessLightsWork_dirty_witness :
  let r := set_shadowMapsDirty true
             (afterCollection [dirAtlas; lightAtlas] true
                [lightOf 42 LIGHT_SPOT 4 3 256 (fun _ => false)]) in
  shadowMapsDirty r = true
  /\ exists r',
       ProcessLightsWork r = Ok r'
       /\ shadowMapsDirty r' = false
       /\ map (fun m => alloc_calls (allocator m)) (shadowMaps r')
          = [[]; [CallAllocate 256 256 (Some (0, 0))]].
Proof.
  intros r. split; [reflexivity|].
  destruct (ProcessLightsWork r) as [r'| |] eqn:Hrun;
    [|vm_compute in Hrun; discriminate..].
  destruct (ProcessLightsWork_dirty r r' eq_refl Hrun) as (Hflag & _).
  exists r'. split; [reflexivity|]. split; [exact Hflag|].
  vm_compute in Hrun. inversion Hrun. reflexivity.
Defined.

(** * Light culling: the counters of a slice *)

Lemma cullRow_counters i light xs : forall idx st idx' st',
  cullRow i light idx xs st = Ok (idx', st') ->
  idx' = (idx + xs)%nat
  /\ length st'.1 = length st.1
  /\ forall k, ~ (idx <= k < idx + xs)%nat -> st'.1 !! k = st.1 !! k.
Proof.
  induction xs as [|xs IH]; intros idx st idx' st' Hrun; cbn [cullRow] in Hrun.
  - inversion Hrun; subst. split_and!; auto.
  - bind_ok Hrun. apply IH in Hrun as (-> & Hlen & Hout).
    assert (Hstep : length a.1 = length st.1
                    /\ forall k, k <> idx -> a.1 !! k = st.1 !! k).
    { destruct (clusterHit light idx); [|inversion E; subst; auto].
      bind_ok E. destruct (_ <? length st.2)%nat; [|discriminate].
      inversion E; subst. cbn [fst]. split; [apply length_insert|].
      intros k Hk. now apply list_lookup_insert_ne. }
    destruct Hstep as [Hl1 Ho1]. split_and!; [lia | congruence |].
    intros k Hk. rewrite Hout by lia. apply Ho1. lia.
Qed.

Lemma cullSlice_counters i light ys : forall idx st st',
  cullSlice i light idx ys st = Ok st' ->
  length st'.1 = length st.1
  /\ forall k, ~ (idx <= k < idx + ys * NUM_CLUSTER_X)%nat ->
       st'.1 !! k = st.1 !! k.
Proof.
  induction ys as [|ys IH]; intros idx st st' Hrun; cbn [cullSlice] in Hrun.
  - inversion Hrun; subst. auto.
  - bind_ok Hrun. destruct a as [idx' st1].
    apply cullRow_counters in E as (-> & Hl1 & Ho1).
    apply IH in Hrun as (Hl2 & Ho2). split; [congruence|].
    intros k Hk. rewrite Ho2 by lia. apply Ho1. lia.
Qed.

Lemma cullRow_S i light idx xs st :
  cullRow i light idx (S xs) st
  = (st' ←
       (if clusterHit light idx then
          n ← at_index (fst st) idx;
          let slot := Z.to_nat (Z.shiftl (Z.of_nat idx) 4 + n) in
          if (slot <? length (snd st))%nat then
            Ok (<[idx := (n + 1) mod 256]> (fst st),
                <[slot := Z.of_nat (S i) mod 256]> (snd st))
          else OutOfBounds
        else Ok st);
     cullRow i light (S idx) xs st').
Proof. reflexivity. Qed.

(** What the task of one light does to the first counter of the slice: it
    raises it by one at most. *)
Lemma cullSlice_first i light ys idx st st' n :
  cullSlice i light idx (S ys) st = Ok st' ->
  st.1 !! idx = Some n ->
  st'.1 !! idx = Some n \/ st'.1 !! idx = Some ((n + 1) mod 256).
Proof.
  intros Hrun Hn. cbn [cullSlice] in Hrun. bind_ok Hrun.
  destruct a as [idx' st1].
  assert (Hrow : st1.1 !! idx = Some n
                 \/ st1.1 !! idx = Some ((n + 1) mod 256)).
  { change NUM_CLUSTER_X with (S 15) in E. rewrite cullRow_S in E. bind_ok E.
    apply cullRow_counters in E as (_ & _ & Hout).
    rewrite Hout by lia.
    destruct (clusterHit light idx); [|inversion E0; subst; now left].
    bind_ok E0. destruct (_ <? length st.2)%nat; [|discriminate].
    inversion E0; subst. cbn [fst]. right.
    unfold at_index in E. rewrite Hn in E. inversion E; subst.
    apply list_lookup_insert_eq. eapply lookup_lt_Some; eauto. }
  apply cullRow_counters in E as (-> & _ & _).
  apply cullSlice_counters in Hrun as (_ & Hout).
  rewrite Hout by (unfold NUM_CLUSTER_X; lia). exact Hrow.
Qed.

Lemma cullLights_slice z ls : forall i st st',
  cullLights z i ls st = Ok st' ->
  length st'.1 = length st.1
  /\ (forall k, ~ (sliceStart z <= k
                   < sliceStart z + NUM_CLUSTER_X * NUM_CLUSTER_Y)%nat ->
        st'.1 !! k = st.1 !! k)
  /\ (forall n, st.1 !! sliceStart z = Some n -> 0 <= n <= MAX_LIGHTS_CLUSTER ->
        exists n', st'.1 !! sliceStart z = Some n'
                   /\ n <= n' <= MAX_LIGHTS_CLUSTER)
  /\ (forall n, st.1 !! sliceStart z = Some n -> MAX_LIGHTS_CLUSTER <= n ->
        st' = st).
Proof.
  induction ls as [|l rest IH]; intros i st st' Hrun; cbn [cullLights] in Hrun.
  - inversion Hrun; subst. split_and!; auto.
    intros n Hn Hb. exists n. split; [exact Hn | lia].
  - bind_ok Hrun. rename a into st1.
    fold (sliceStart z) in E.
    assert (Hone :
      length st1.1 = length st.1
      /\ (forall k, ~ (sliceStart z <= k
                       < sliceStart z + NUM_CLUSTER_X * NUM_CLUSTER_Y)%nat ->
            st1.1 !! k = st.1 !! k)
      /\ (forall n, st.1 !! sliceStart z = Some n ->
            0 <= n <= MAX_LIGHTS_CLUSTER ->
            exists n', st1.1 !! sliceStart z = Some n'
                       /\ n <= n' <= MAX_LIGHTS_CLUSTER)
      /\ (forall n, st.1 !! sliceStart z = Some n ->
            MAX_LIGHTS_CLUSTER <= n -> st1 = st)).
    { assert (Hsame : st1 = st ->
        length st1.1 = length st.1
        /\ (forall k, ~ (sliceStart z <= k
                         < sliceStart z + NUM_CLUSTER_X * NUM_CLUSTER_Y)%nat ->
              st1.1 !! k = st.1 !! k)
        /\ (forall n, st.1 !! sliceStart z = Some n ->
              0 <= n <= MAX_LIGHTS_CLUSTER ->
              exists n', st1.1 !! sliceStart z = Some n'
                         /\ n <= n' <= MAX_LIGHTS_CLUSTER)
        /\ (forall n, st.1 !! sliceStart z = Some n ->
              MAX_LIGHTS_CLUSTER <= n -> st1 = st)).
      { intros ->. split_and!; auto.
        intros n Hn Hb. exists n. split; [exact Hn | lia]. }
      assert (Hcull :
        (if sliceRejected l z then Ok st
         else n0 ← at_index st.1 (sliceStart z);
              if MAX_LIGHTS_CLUSTER <=? n0 then Ok st
              else cullSlice i l (sliceStart z) NUM_CLUSTER_Y st) = Ok st1 ->
        length st1.1 = length st.1
        /\ (forall k, ~ (sliceStart z <= k
                         < sliceStart z + NUM_CLUSTER_X * NUM_CLUSTER_Y)%nat ->
              st1.1 !! k = st.1 !! k)
        /\ (forall n, st.1 !! sliceStart z = Some n ->
              0 <= n <= MAX_LIGHTS_CLUSTER ->
              exists n', st1.1 !! sliceStart z = Some n'
                         /\ n <= n' <= MAX_LIGHTS_CLUSTER)
        /\ (forall n, st.1 !! sliceStart z = Some n ->
              MAX_LIGHTS_CLUSTER <= n -> st1 = st)).
      { intros Hs. destruct (sliceRejected l z);
          [inversion Hs; subst; now apply Hsame|].
        bind_ok Hs. rename a into n0.
        destruct (MAX_LIGHTS_CLUSTER <=? n0) eqn:Hcap;
          [inversion Hs; subst; now apply Hsame|].
        apply Z.leb_gt in Hcap.
        unfold at_index in E0.
        destruct (st.1 !! sliceStart z) as [x|] eqn:Hx; inversion E0; subst x.
        pose proof (cullSlice_counters _ _ _ _ _ _ Hs) as (Hl & Hout).
        split_and!.
        - exact Hl.
        - intros k Hk. apply Hout. unfold NUM_CLUSTER_X, NUM_CLUSTER_Y in *. lia.
        - intros n Hn Hb. inversion Hn; subst n0.
          unfold NUM_CLUSTER_Y in Hs.
          destruct (cullSlice_first _ _ _ _ _ _ _ Hs Hx) as [H1 | H1].
          + exists n. split; [exact H1 | lia].
          + exists ((n + 1) mod 256). split; [exact H1|].
            unfold MAX_LIGHTS_CLUSTER in *. rewrite Z.mod_small; lia.
        - intros n Hn Hb. inversion Hn; subst n0. lia. }
      destruct (GetLightType l);
        [inversion E; subst; now apply Hsame | exact (Hcull E)
         | exact (Hcull E)]. }
    destruct Hone as (Hl1 & Ho1 & Hf1 & Hc1).
    apply IH in Hrun as (Hl2 & Ho2 & Hf2 & Hc2).
    split_and!.
    + congruence.
    + intros k Hk. rewrite Ho2 by exact Hk. now apply Ho1.
    + intros n Hn Hb. destruct (Hf1 n Hn Hb) as (n1 & Hn1 & Hb1).
      destruct (Hf2 n1 Hn1 ltac:(lia)) as (n2 & Hn2 & Hb2).
      exists n2. split; [exact Hn2 | lia].
    + intros n Hn Hb. specialize (Hc1 n Hn Hb). subst st1.
      apply (Hc2 n Hn Hb).
Qed.

(** X20. The task of one slice changes no counter of another slice: the light
    culling tasks of a frame, one per slice, write to disjoint ranges of
    [numClusterLights]. *)
Theorem CullLightsToFrustumWork_slice_counters (z : nat) (r r' : Renderer)
    (k : nat) :
  CullLightsToFrustumWork z r = Ok r' ->
  ~ (sliceStart z <= k < sliceStart (S z))%nat ->
  numClusterLights r' !! k = numClusterLights r !! k
  /\ length (numClusterLights r') = length (numClusterLights r).
Proof.
  unfold CullLightsToFrustumWork. intros Hrun Hk. bind_ok Hrun.
  destruct a as [counts data]. inversion Hrun; subst; clear Hrun.
  apply cullLights_slice in E as (Hlen & Hout & _). cbn in *.
  split; [|exact Hlen]. apply Hout.
  unfold sliceStart, NUM_CLUSTER_X, NUM_CLUSTER_Y in *. lia.
Qed.

(** X21. The guard of the task reads the counter of the first cluster of its
    slice. That counter never passes [MAX_LIGHTS_CLUSTER]; and once it
    holds [MAX_LIGHTS_CLUSTER] the slice is closed: the task records no
    further light in any cluster of the slice. *)
Theorem CullLightsToFrustumWork_first_cluster (z : nat) (r r' : Renderer)
    (n : Z) :
  numClusterLights r !! sliceStart z = Some n ->
  0 <= n <= MAX_LIGHTS_CLUSTER ->
  CullLightsToFrustumWork z r = Ok r' ->
  (exists n', numClusterLights r' !! sliceStart z = Some n'
              /\ n <= n' <= MAX_LIGHTS_CLUSTER)
  /\ (n = MAX_LIGHTS_CLUSTER ->
      numClusterLights r' = numClusterLights r
      /\ clusterData r' = clusterData r).
Proof.
  unfold CullLightsToFrustumWork. intros Hn Hb Hrun. bind_ok Hrun.
  destruct a as [counts data]. inversion Hrun; subst; clear Hrun.
  apply cullLights_slice in E as (_ & _ & Hfirst & Hclosed). cbn in *.
  split; [now apply Hfirst|].
  intros ->. specialize (Hclosed _ Hn ltac:(lia)).
  inversion Hclosed; subst. now split.
Qed.

Lemma CullLightsToFrustumWork_slice_counters_witness :
  exists r',
    CullLightsToFrustumWork 0 (rendererAt 1 1 [] (crowd 1 17)) = Ok r'
    /\ numClusterLights r' !! 128%nat = Some 0
    /\ numClusterLights r' !! 1%nat = Some 17.
Proof.
  destruct (CullLightsToFrustumWork 0 (rendererAt 1 1 [] (crowd 1 17)))
    as [r'| |] eqn:Hrun; [|vm_compute in Hrun; discriminate..].
  destruct (CullLightsToFrustumWork_slice_counters 0 _ r' 128 Hrun) as [Hk _].
  { unfold sliceStart, NUM_CLUSTER_X, NUM_CLUSTER_Y. lia. }
  exists r'. split; [reflexivity|]. split.
  - rewrite Hk. reflexivity.
  - vm_compute in Hrun. inversion Hrun. reflexivity.
Defined.

Lemma CullLightsToFrustumWork_first_cluster_witness :
  numClusterLights (rendererAt 1 1 [] (crowd 0 20)) !! sliceStart 0 = Some 0
  /\ 0 <= 0 <= MAX_LIGHTS_CLUSTER
  /\ exists r' r'',
       CullLightsToFrustumWork 0 (rendererAt 1 1 [] (crowd 0 20)) = Ok r'
       /\ numClusterLights r' !! sliceStart 0 = Some 16
       /\ CullLightsToFrustumWork 0 r' = Ok r''
       /\ clusterData r'' = clusterData r'.
Proof.
  assert (H2 : 0 <= 0 <= MAX_LIGHTS_CLUSTER) by (unfold MAX_LIGHTS_CLUSTER; lia).
  split; [reflexivity|]. split; [exact H2|].
  destruct (CullLightsToFrustumWork 0 (rendererAt 1 1 [] (crowd 0 20)))
    as [r'| |] eqn:Hrun; [|vm_compute in Hrun; discriminate..].
  assert (H16 : numClusterLights r' !! sliceStart 0 = Some 16).
  { vm_compute in Hrun. inversion Hrun. reflexivity. }
  destruct (CullLightsToFrustumWork 0 r') as [r''| |] eqn:Hrun2.
  - destruct (CullLightsToFrustumWork_first_cluster 0 r' r'' 16 H16
                ltac:(unfold MAX_LIGHTS_CLUSTER; lia) Hrun2) as (_ & Hclosed).
    exists r', r''. split_and!; auto. apply Hclosed. reflexivity.
  - exfalso. vm_compute in Hrun. inversion Hrun; subst r'.
    vm_compute in Hrun2. discriminate.
  - exfalso. vm_compute in Hrun. inversion Hrun; subst r'.
    vm_compute in Hrun2. discriminate.
Defined.

(** * Rendering a batch queue: the draw calls *)

Section DrawCallsProperties.
Context `{Collaborators}.

Lemma renderLoop_unfold fuel batches idx calls :
  renderLoop fuel batches idx calls
  = if (length batches <=? idx)%nat then
      if (idx =? length batches)%nat then Ok calls else OutOfBounds
    else
      match fuel with
      | O => Stall
      | S fuel' =>
          batch ← at_index batches idx;
          if negb (programBound batch) then
            renderLoop fuel' batches (S idx) calls
          else if isInstanced batch then
            match instanceCount batch with
            | O => Stall
            | S k =>
                renderLoop fuel' batches (idx + k + 1)
                  (calls ++ [match indexBuffer (geometry batch) with
                             | Some _ =>
                                 DrawIndexedInstanced (geometry batch)
                                   (instanceStart batch) (instanceCount batch)
                             | None =>
                                 DrawInstanced (geometry batch)
                                   (instanceStart batch) (instanceCount batch)
                             end])
            end
          else renderLoop fuel' batches (S idx) (calls ++ [drawOf batch])
      end.
Proof. destruct fuel; reflexivity. Qed.

Lemma renderLoop_plain batches :
  Forall (fun b => isInstanced b = false) batches ->
  forall fuel idx calls,
    (length batches - idx <= fuel)%nat -> (idx <= length batches)%nat ->
    renderLoop fuel batches idx calls
    = Ok (calls ++ map drawOf (List.filter programBound (drop idx batches))).
Proof.
  intros Hplain. induction fuel as [|fuel IH]; intros idx calls Hfuel Hidx;
    rewrite renderLoop_unfold.
  - assert (idx = length batches) by lia. subst idx.
    rewrite Nat.leb_refl, Nat.eqb_refl, drop_all. cbn. now rewrite app_nil_r.
  - destruct (length batches <=? idx)%nat eqn:Hle.
    + apply Nat.leb_le in Hle. assert (idx = length batches) by lia. subst idx.
      rewrite Nat.eqb_refl, drop_all. cbn. now rewrite app_nil_r.
    + apply Nat.leb_gt in Hle.
      destruct (lookup_lt_is_Some_2 batches idx Hle) as [batch Hb].
      unfold at_index. rewrite Hb. cbn [mbind Result_bind].
      rewrite (drop_S _ _ _ Hb). cbn [List.filter].
      assert (Hi : isInstanced batch = false).
      { eapply List.Forall_forall in Hplain; [exact Hplain|].
        apply list_elem_of_In. eapply list_elem_of_lookup_2; eauto. }
      rewrite Hi. destruct (programBound batch); cbn [negb map].
      * rewrite IH by lia. now rewrite <- app_assoc.
      * apply IH; lia.
Qed.

(** X22. A queue without instanced batches is drawn batch by batch, in order:
    one call for every batch whose shader program binds, indexed when the
    geometry has an index buffer, and none for a batch whose program does
    not bind. *)
Theorem RenderBatches_plain (queue : list Batch) :
  Forall (fun b => isInstanced b = false) queue ->
  RenderBatches queue = Ok (map drawOf (List.filter programBound queue)).
Proof.
  intros Hplain. unfold RenderBatches.
  rewrite (renderLoop_plain queue Hplain) by lia. now rewrite drop_0.
Qed.




End DrawCallsProperties.

Lemma RenderBatches_plain_witness :
  Forall (fun b => isInstanced b = false) (drop 2 instancedQueue)
  /\ RenderBatches (drop 2 instancedQueue) = Ok [Draw (mkGeometry 22 None 0 3)].
Proof.
  assert (H1 : Forall (fun b => isInstanced b = false) (drop 2 instancedQueue))
    by (repeat constructor).
  split; [exact H1|].
  rewrite (RenderBatches_plain (drop 2 instancedQueue) H1). reflexivity.
Defined.


(** * Rendering the shadow maps *)

Section ShadowMapRenderingProperties.
Context `{Collaborators}.

Lemma forEachView_cached body views :
  (forall view, isCached view = true -> body view = Ok []) ->
  forEachView body views
  = forEachView body (List.filter (fun v => negb (isCached v)) views).
Proof.
  intros Hbody. induction views as [|v rest IH]; [reflexivity|].
  cbn [forEachView List.filter]. destruct (isCached v) eqn:Hc; cbn [negb].
  - rewrite (Hbody v Hc). cbn [mbind Result_bind]. rewrite IH.
    destruct (forEachView body
                (List.filter (fun v0 => negb (isCached v0)) rest));
      reflexivity.
  - cbn [forEachView]. now rewrite IH.
Qed.

Lemma cached_bodies queues view :
  isCached view = true ->
  renderStatic queues view = Ok [] /\ storeStatic view = Ok []
  /\ clearOrRestore view = Ok [] /\ renderDynamic queues view = Ok [].
Proof.
  unfold isCached, renderStatic, storeStatic, clearOrRestore, renderDynamic.
  intros Hc. rewrite Hc. apply bool_decide_eq_true_1 in Hc. rewrite Hc.
  cbn. auto.
Qed.

(** X24. Views in mode [CACHED] cost nothing and are left alone: the commands
    for a shadow map are those for its views that are not cached, so that
    no clear, blit or draw touches the viewport of a cached view, and a
    shadow map whose views are all cached is bound and nothing else. Views
    that were skipped in the frame (zero viewport) are among them, since
    [CollectShadowBatchesWork] marks them [CACHED]. *)
Theorem RenderShadowMaps_cached_views (views : list ShadowView)
    (queues : list (list Batch)) :
  let rendered := List.filter (fun v => negb (isCached v)) views in
  (rendered <> [] ->
   RenderShadowMaps_map views queues = RenderShadowMaps_map rendered queues)
  /\ (views <> [] -> rendered = [] ->
      RenderShadowMaps_map views queues
      = Ok [UpdateInstances; BindShadowMap; BindShadowMap]).
Proof.
  intros rendered.
  assert (Heach : forall body,
            (forall view, isCached view = true -> body view = Ok []) ->
            forEachView body views = forEachView body rendered).
  { intros body Hbody. now apply forEachView_cached. }
  assert (H1 := Heach (renderStatic queues)
                  (fun v Hc => proj1 (cached_bodies queues v Hc))).
  assert (H2 := Heach storeStatic
                  (fun v Hc => proj1 (proj2 (cached_bodies queues v Hc)))).
  assert (H3 := Heach clearOrRestore
                  (fun v Hc => proj1 (proj2 (proj2 (cached_bodies queues v Hc))))).
  assert (H4 := Heach (renderDynamic queues)
                  (fun v Hc => proj2 (proj2 (proj2 (cached_bodies queues v Hc))))).
  unfold RenderShadowMaps_map. split.
  - intros Hne. destruct views as [|v vs]; [now destruct Hne|].
    rewrite H1, H2, H3, H4. destruct rendered; [now destruct Hne | reflexivity].
  - intros Hne Hnone. destruct views as [|v vs]; [now destruct Hne|].
    rewrite H1, H2, H3, H4, Hnone. reflexivity.
Qed.

End ShadowMapRenderingProperties.

Lemma RenderShadowMaps_cached_views_witness :
  let cached := set_renderMode RENDER_STATIC_LIGHT_CACHED steadyView in
  let queues := [[]; [mkBatch opaquePass cubeGeometry 0 0 30 0 0 0]] in
  RenderShadowMaps_map [cached; movingView; cached] queues
  = Ok [UpdateInstances; BindShadowMap; BindShadowMap;
        ClearDepth (mkIntRect 0 0 256 256);
        SetViewport (mkIntRect 0 0 256 256); SetDepthBias (Some 42%nat);
        RenderQueue 1 [DrawIndexed cubeGeometry]]
  /\ RenderShadowMaps_map [cached; cached] queues
     = Ok [UpdateInstances; BindShadowMap; BindShadowMap].
Proof.
  intros cached queues.
  destruct (RenderShadowMaps_cached_views [cached; movingView; cached] queues)
    as [Hsome _].
  destruct (RenderShadowMaps_cached_views [cached; cached] queues)
    as [_ Hnone].
  split.
  - rewrite Hsome by discriminate. reflexivity.
  - apply Hnone; [discriminate | reflexivity].
Defined.

(** * The shadow map textures *)

Lemma texturesKept_refl maps : texturesKept maps maps.
Proof. induction maps; constructor; auto. Qed.

Lemma texturesKept_trans a b c :
  texturesKept a b -> texturesKept b c -> texturesKept a c.
Proof.
  intros Hab. revert c. induction Hab as [|x y a b [H1 H2] _ IH]; intros c Hbc;
    inversion Hbc as [|? z ? c' [G1 G2] Hrest]; subst; constructor.
  - split; congruence.
  - apply IH. exact Hrest.
Qed.

Lemma texturesKept_insert maps i m m' :
  maps !! i = Some m -> texture m' = texture m ->
  alloc_size (allocator m') = alloc_size (allocator m) ->
  texturesKept maps (<[i := m']> maps).
Proof.
  intros Hm Ht Ha. apply Forall2_same_length_lookup.
  split; [now rewrite length_insert|].
  intros k x y Hx Hy. destruct (decide (k = i)) as [-> | Hne].
  - rewrite list_lookup_insert_eq in Hy by (eapply lookup_lt_Some; eauto).
    inversion Hy; subst y. rewrite Hm in Hx. inversion Hx; subst x. now split.
  - rewrite list_lookup_insert_ne in Hy by congruence.
    rewrite Hx in Hy. inversion Hy; subst y. now split.
Qed.

Lemma texturesKept_spec maps maps' :
  texturesKept maps maps' ->
  shadowTextures maps' = shadowTextures maps
  /\ allocatorSizes maps' = allocatorSizes maps.
Proof.
  unfold shadowTextures, allocatorSizes.
  induction 1 as [|m m' ms ms' [Ht Ha] _ [IH1 IH2]]; [now split|].
  cbn. rewrite Ht, Ha, IH1, IH2. now split.
Qed.

Section Textures.
Context `{Collaborators}.

Lemma AllocateShadowMap_texturesKept maps light ok light' maps' :
  AllocateShadowMap maps light = Ok (ok, light', maps') ->
  texturesKept maps maps'.
Proof.
  unfold AllocateShadowMap. intros Hrun. bind_ok Hrun. rename a into m.
  unfold at_index in E.
  set (idx := if decide (GetLightType light = LIGHT_DIRECTIONAL)
              then 0%nat else 1%nat) in *.
  destruct (maps !! idx) as [m0|] eqn:Hm; inversion E; subst m0; clear E.
  cbv zeta in Hrun.
  assert (Hkeep : forall a', alloc_size a' = alloc_size (allocator m) ->
            texturesKept maps (<[idx := set_allocator a' m]> maps)).
  { intros a' Ha. eapply texturesKept_insert; eauto. }
  assert (Hretry : forall a res a',
            AllocateShadowMap_retry 3 a (TotalShadowMapSize light) = (res, a') ->
            alloc_size a' = alloc_size a).
  { intros a res a' Hr.
    destruct (AllocateShadowMap_retry_calls _ _ _ _ _ Hr)
      as (fresh & _ & Hsize & _). exact Hsize. }
  destruct (_ && _).
  - unfold AllocateSpecific in Hrun.
    destruct (AllocateSpecific_answer (allocator m) (ShadowRect light)).
    + inversion Hrun; subst. now apply Hkeep.
    + destruct (AllocateShadowMap_retry 3 _ _) as [res a'] eqn:Hr.
      apply Hretry in Hr. cbn in Hr.
      destruct res; inversion Hrun; subst; now apply Hkeep.
  - destruct (AllocateShadowMap_retry 3 _ _) as [res a'] eqn:Hr.
    apply Hretry in Hr.
    destruct res; inversion Hrun; subst; now apply Hkeep.
Qed.

Lemma reallocateShadowMaps_texturesKept dirty ds ls : forall maps ls' maps',
  reallocateShadowMaps dirty ds ls maps = Ok (ls', maps') ->
  texturesKept maps maps'.
Proof.
  induction ls as [|l rest IH]; intros maps ls' maps' Hrun;
    cbn [reallocateShadowMaps] in Hrun.
  - inversion Hrun; subst. apply texturesKept_refl.
  - bind_ok Hrun. destruct a as [l' m1]. bind_ok Hrun.
    destruct a as [r' m2]. inversion Hrun; subst; clear Hrun.
    apply IH in E0. eapply texturesKept_trans; [|exact E0].
    destruct dirty; [inversion E; subst; apply texturesKept_refl|].
    destruct (ds && castsShadows l && _).
    + bind_ok E. destruct a as [[ok l2] m3]. inversion E; subst.
      match goal with
      | Ha : AllocateShadowMap _ _ = Ok _ |- _ =>
          apply AllocateShadowMap_texturesKept in Ha; exact Ha
      end.
    + inversion E; subst. apply texturesKept_refl.
Qed.

Lemma allocateDirLight_texturesKept dirty ds d maps d' maps' :
  allocateDirLight dirty ds d maps = Ok (d', maps') -> texturesKept maps maps'.
Proof.
  unfold allocateDirLight. intros Hrun. destruct d as [d|];
    [|inversion Hrun; subst; apply texturesKept_refl].
  cbv zeta in Hrun. destruct (negb ds || _);
    [inversion Hrun; subst; apply texturesKept_refl|].
  bind_ok Hrun. destruct a as [[ok d2] m2].
  apply AllocateShadowMap_texturesKept in E.
  destruct ok; inversion Hrun; subst; exact E.
Qed.

Lemma setupShadowCasterTasks_texturesKept ds ls : forall maps ls' maps' tasks,
  setupShadowCasterTasks ds ls maps = Ok (ls', maps', tasks) ->
  texturesKept maps maps'.
Proof.
  induction ls as [|l rest IH]; intros maps ls' maps' tasks Hrun;
    cbn [setupShadowCasterTasks] in Hrun.
  - inversion Hrun; subst. apply texturesKept_refl.
  - bind_ok Hrun. destruct a as [[l' maps1] ts].
    bind_ok Hrun. destruct a as [[rest' maps2] ts'].
    inversion Hrun; subst; clear Hrun. apply IH in E0.
    eapply texturesKept_trans; [|exact E0]. clear E0.
    unfold setupLightShadow in E. destruct (negb ds || _);
      [inversion E; subst; apply texturesKept_refl|].
    bind_ok E. destruct a as [[ok l1] m1].
    assert (Hk : texturesKept maps m1).
    { destruct (ShadowMap_ l);
        [inversion E0; subst; apply texturesKept_refl|].
      eapply AllocateShadowMap_texturesKept; eauto. }
    destruct ok; cbn [negb] in E; [|inversion E; subst; exact Hk].
    bind_ok E. rename a into shadowMap. cbv zeta in E.
    match type of E with
    | context [setupLightViews ?a ?s ?c ?jj ?vs ?mm] =>
        destruct (setupLightViews a s c jj vs mm) as [views' m3] eqn:Hviews;
        pose proof (setupLightViews_queues a s c vs jj mm views' m3 Hviews)
          as (Ha & Ht & _)
    end.
    inversion E; subst; clear E.
    eapply texturesKept_trans; [exact Hk|].
    unfold at_index in E1. destruct (m1 !! 1%nat) as [x|] eqn:Hx;
      inversion E1; subst x.
    eapply texturesKept_insert; [exact Hx | |].
    + rewrite Ht. destruct (_ <? _)%nat; reflexivity.
    + rewrite Ha. destruct (_ <? _)%nat; reflexivity.
Qed.

Lemma setupDirLightViews_texture addr views : forall i m views' m',
  setupDirLightViews addr i views m = (views', m') ->
  texture m' = texture m.
Proof.
  induction views as [|v rest IH]; intros i m views' m' Hrun;
    cbn [setupDirLightViews] in Hrun.
  - now inversion Hrun.
  - cbv zeta in Hrun.
    match type of Hrun with
    | context [setupDirLightViews ?a ?ii rest ?mm] =>
        destruct (setupDirLightViews a ii rest mm) as [rest' m6] eqn:Hrest
    end.
    inversion Hrun; subst. apply IH in Hrest. rewrite Hrest.
    repeat match goal with
           | |- context [if ?b then _ else _] => destruct b
           end; reflexivity.
Qed.

Lemma setupDirLight_texturesKept d maps d' maps' :
  setupDirLight d maps = Ok (d', maps') -> texturesKept maps maps'.
Proof.
  unfold setupDirLight. intros Hrun.
  destruct d as [d|]; [|inversion Hrun; subst; apply texturesKept_refl].
  destruct (ShadowMap_ d); [|inversion Hrun; subst; apply texturesKept_refl].
  bind_ok Hrun. rename a into m0.
  destruct (setupDirLightViews _ _ _ _) as [views' m] eqn:Hviews.
  inversion Hrun; subst; clear Hrun.
  unfold at_index in E. destruct (maps !! 0%nat) as [x|] eqn:Hx;
    inversion E; subst x.
  eapply texturesKept_insert; [exact Hx | |].
  - eapply setupDirLightViews_texture; eauto.
  - f_equal. eapply setupDirLightViews_allocator; eauto.
Qed.

Lemma ProcessLightsWork_texturesKept r r' :
  ProcessLightsWork r = Ok r' -> texturesKept (shadowMaps r) (shadowMaps r').
Proof.
  intros Hrun. unfold ProcessLightsWork in Hrun. bind_ok Hrun.
  destruct (findDirLight _ _) as [dir0 localized].
  bind_ok Hrun. destruct a0 as [lights1 maps1].
  bind_ok Hrun. destruct a0 as [dir1 maps2].
  bind_ok Hrun. destruct a0 as [[lights2 maps3] tasks].
  bind_ok Hrun. destruct a0 as [dir2 maps4].
  inversion Hrun; subst r'; clear Hrun. cbn.
  apply reallocateShadowMaps_texturesKept in E0.
  apply allocateDirLight_texturesKept in E1.
  apply setupShadowCasterTasks_texturesKept in E2.
  apply setupDirLight_texturesKept in E3.
  eauto using texturesKept_trans.
Qed.

(** The shadow maps after a call of [PrepareView] that prepares a frame:
    their textures are those before the call, and every allocator spans
    its texture, since [ShadowMap::Clear] resets each allocator to the
    size of the texture and no later step changes either. *)
Lemma PrepareView_shadow_maps wq scene camera octree ds r r' :
  FindChild_Octree scene = Some octree ->
  PrepareView wq (Some scene) (Some camera) ds r = Ok r' ->
  shadowTextures (shadowMaps r') = shadowTextures (shadowMaps r)
  /\ allocatorsSpanTextures (shadowMaps r').
Proof.
  intros Hoctree Hrun. unfold PrepareView in Hrun. rewrite Hoctree in Hrun.
  bind_ok Hrun. rename a into r3.
  apply runCollectOctantsTasks_header in E as (Hh & _).
  apply frameHeader_inv in Hh as (_ & _ & _ & _ & _ & Hm3 & _).
  cbn [shadowMaps set_queued set_numPendingShadowViews
       set_numPendingBatchTasks set_rootLevelOctants beginFrame] in Hm3.
  destruct (0 <? numPendingBatchTasks r3); [discriminate|].
  assert (Hclear : shadowTextures (map ShadowMap_Clear (shadowMaps r))
                   = shadowTextures (shadowMaps r)
                   /\ allocatorsSpanTextures
                        (map ShadowMap_Clear (shadowMaps r))).
  { unfold shadowTextures, allocatorsSpanTextures.
    generalize (shadowMaps r) as maps. clear. intros maps.
    induction maps as [|m ms [IH1 IH2]]; [split; [auto|constructor]|].
    cbn [map]. rewrite IH1. split; [reflexivity|].
    constructor; [reflexivity | exact IH2]. }
  assert (Hkept : texturesKept (map ShadowMap_Clear (shadowMaps r))
                    (shadowMaps r')).
  { rewrite <- Hm3. unfold completeTasks in Hrun.
    change (shadowMaps r3) with (shadowMaps (SortMainBatches r3)).
    destruct (0 <? length (rootLevelOctants (SortMainBatches r3)))%nat.
    - bind_ok Hrun. bind_ok Hrun. destruct a0 as [r6 zs].
      apply ProcessLightsWork_texturesKept in E.
      apply ProcessShadowCastersWork_frame in E0 as (_ & _ & _ & _ & Hm6).
      apply runCullLightsTasks_frame in Hrun as (_ & _ & _ & _ & Hm7 & _).
      rewrite Hm7, Hm6. exact E.
    - inversion Hrun; subst. apply texturesKept_refl. }
  destruct Hclear as [Hc1 Hc2].
  destruct (texturesKept_spec _ _ Hkept) as [Ht Ha]. split; [congruence|].
  unfold allocatorsSpanTextures in *. clear -Hkept Hc2.
  induction Hkept as [|m m' ms ms' [Ht Ha] _ IH]; [constructor|].
  inversion Hc2 as [|? ? Hm Hms]; subst.
  constructor; [rewrite Ha, Ht; exact Hm | apply IH; exact Hms].
Qed.

(** X25. A frame leaves the shadow map textures where they are:
    [ShadowMapTexture] returns after [PrepareView] what it returned
    before, for every index, and each shadow map's allocator spans exactly
    its texture. *)
Theorem PrepareView_keeps_shadow_textures (wq : WorkQueue)
    (scene_ : option Scene) (camera_ : option Camera) (drawShadows_ : bool)
    (r r' : Renderer) (index : nat) :
  PrepareView wq scene_ camera_ drawShadows_ r = Ok r' ->
  ShadowMapTexture r' index = ShadowMapTexture r index
  /\ (forall scene camera octree,
        scene_ = Some scene -> camera_ = Some camera ->
        FindChild_Octree scene = Some octree ->
        allocatorsSpanTextures (shadowMaps r')).
Proof.
  intros Hrun.
  assert (Htex : shadowTextures (shadowMaps r')
                 = shadowTextures (shadowMaps r)
                 /\ (forall scene camera octree,
                       scene_ = Some scene -> camera_ = Some camera ->
                       FindChild_Octree scene = Some octree ->
                       allocatorsSpanTextures (shadowMaps r'))).
  { destruct scene_ as [scene|]; [|inversion Hrun; subst; split;
                                    [reflexivity | discriminate]].
    destruct camera_ as [camera|]; [|inversion Hrun; subst; split;
                                      [reflexivity | discriminate]].
    destruct (FindChild_Octree scene) as [octree|] eqn:Hoctree.
    - destruct (PrepareView_shadow_maps _ _ _ _ _ _ _ Hoctree Hrun)
        as [H1 H2]. split; [exact H1 | intros; exact H2].
    - unfold PrepareView in Hrun. rewrite Hoctree in Hrun.
      inversion Hrun; subst. split; [reflexivity|].
      intros s c o Hs _ Ho. inversion Hs; subst. congruence. }
  destruct Htex as [Htex Hspan]. split; [|exact Hspan].
  unfold ShadowMapTexture, at_index, shadowTextures in *.
  assert (Hlen : length (shadowMaps r') = length (shadowMaps r)).
  { rewrite <- (length_map texture), Htex, length_map. reflexivity. }
  rewrite Hlen. destruct (index <? length (shadowMaps r))%nat; [|reflexivity].
  assert (Hlook : texture <$> (shadowMaps r' !! index)
                  = texture <$> (shadowMaps r !! index)).
  { rewrite <- !list_lookup_fmap.
    change (texture <$> shadowMaps r') with (map texture (shadowMaps r')).
    change (texture <$> shadowMaps r) with (map texture (shadowMaps r)).
    now rewrite Htex. }
  destruct (shadowMaps r' !! index), (shadowMaps r !! index);
    cbn in Hlook |- *; congruence.
Qed.

End Textures.


Section Setup.
Context `{Collaborators}.


End Setup.

Lemma PrepareView_keeps_shadow_textures_witness :
  exists r',
    PrepareView fourThreads (Some litScene) (Some camera) true
      (rendererAt 7 4 [dirAtlas; lightAtlas] []) = Ok r'
    /\ ShadowMapTexture r' 1 = Ok (Some (mkTexture 101 1024 1024))
    /\ allocatorsSpanTextures (shadowMaps r').
Proof.
  destruct (PrepareView fourThreads (Some litScene) (Some camera) true
              (rendererAt 7 4 [dirAtlas; lightAtlas] []))
    as [r'| |] eqn:Hrun; [|vm_compute in Hrun; discriminate..].
  destruct (PrepareView_keeps_shadow_textures fourThreads (Some litScene)
              (Some camera) true _ r' 1 Hrun) as [Htex Hspan].
  exists r'. split; [reflexivity|]. split.
  - rewrite Htex. reflexivity.
  - exact (Hspan litScene camera (mkOctree litRoot) eq_refl eq_refl eq_refl).
Defined.


(** * Shader programs: [ShaderProgram::Link] *)

Module ShaderProgramProperties.
Import ShaderPrograms.


Section LinkingProperties.
Context `{Driver}.

Lemma programsAlive_app alive a b :
  programsAlive alive (a ++ b) = programsAlive (programsAlive alive a) b.
Proof.
  revert alive. induction a as [|c a IH]; intros alive; [reflexivity|].
  destruct c; cbn; apply IH.
Qed.

Lemma programsAlive_samplers alive (l : list (String * Z)) :
  programsAlive alive
    (map (fun s => glUniform1iv (snd s) (ToInt (fst s))) l) = alive.
Proof. induction l as [|s l IH]; [reflexivity | exact IH]. Qed.

(** X27. [Link] keeps the program handle and the GL in step, whatever the
    driver answers. It returns true exactly when the program handle is
    non-zero afterwards, and this is the handle just created and linked.
    No program object is leaked: the program held before the call is
    deleted first, a program that fails to link is deleted, and after the
    call the only program object alive, of the one held before and the
    one created, is the one the handle names. On failure the attribute
    list is left as it was; on success it has one entry for each active
    attribute. *)
Theorem Link_program_handle (sp : ShaderProgram) :
  let '(ok, sp', calls) := Link sp in
  (ok = true <-> program sp' <> 0)
  /\ (ok = true ->
      program sp' = createdProgram /\ linkStatus = true
      /\ List.length (attributes sp') = List.length activeAttributes)
  /\ (ok = false -> attributes sp' = attributes sp)
  /\ programsAlive (if program sp =? 0 then [] else [program sp]) calls
     = (if ok then [program sp'] else [])
  /\ vs sp' = vs sp /\ ps sp' = ps sp.
Proof.
  unfold Link, Release.
  assert (Hself : forall p : Z, negb (p =? p) = false)
    by (intros p; now rewrite Z.eqb_refl).
  destruct (program sp =? 0) eqn:Hold;
    destruct graphicsInitialized; cbn [negb vs ps];
    destruct (vs sp) as [v|] eqn:Hvs; destruct (ps sp) as [p|] eqn:Hps;
    try destruct ((ShaderObject v =? 0) || (ShaderObject p =? 0));
    cbv zeta;
    try destruct (createdProgram =? 0) eqn:Hc;
    try destruct linkStatus; cbn [negb];
    cbn [program attributes vs ps];
    rewrite ?programsAlive_app; cbn [programsAlive app List.filter];
    rewrite ?Hc, ?Hself; cbn [programsAlive app List.filter];
    rewrite ?programsAlive_samplers, ?Hself; cbn [List.filter];
    try first [apply Z.eqb_eq in Hc | apply Z.eqb_neq in Hc];
    try (apply Z.eqb_eq in Hold);
    (split_and!;
     [ split; [ try discriminate; intros _; try assumption
              | try tauto; try congruence ]
     | try discriminate; intros _; split_and!; auto; now rewrite length_map
     | try discriminate; auto
     | try reflexivity
     | congruence | congruence ]).
Qed.

End LinkingProperties.

End ShaderProgramProperties.
